(* ===== verification/_CoqProject ===== *)
-Q . S2P
Prelude.v
WireCodec.v
Types.v
Clock.v
ServerNetwork.v
ItchProto.v
OuchProto.v
OuchCorrect.v
SoupProto.v
Reassembly.v
SessionLog.v
RingBuffer.v
PriceLevelQueue.v
Validation.v
Orderbook.v
OrderbookSpec.v
OrderEntry.v
OuchTyped.v
OuchResponder.v
Ladder.v
OrderbookRefine.v
OrderbookCorrect.v
BookInvariant.v
Engine.v
BookTheorems.v
BookQueries.v
MarketData.v
EngineTheorems.v
Gateway.v
Pipeline.v
Inbound.v
NoteProtocol.v
InboundSteps.v
NoteTyping.v
InboundFlow.v
Hearing.v
Outbound.v
OutboundStream.v
OutboundTheorems.v
OutboundLogs.v
Server.v
ServerLoops.v
Exchange.v
Buffer.v
OrderFactory.v
Client.v
ClientInvariant.v
ClientHandlers.v
LoadGenerator.v
Conversation.v
Network.v
Latency.v
