(* ===== verification/Prelude.v ===== *)
(** * A verification library for the low-latency exchange simulation

    ** The program

    Clients talk OUCH over SoupBinTCP to a server with two threads.  The inbound
    thread ([Server::inbound_]) reassembles packets from TCP segments, runs logins and
    sessions, validates orders and translates them into engine requests
    ([OrderEntry]); it pushes a note about each new order and then the request, on two
    single-producer single-consumer rings.  The matching thread ([Engine]) executes
    requests on the order book, which writes one event per outcome to the outbound
    ring and ITCH messages to the market-data ring.  The outbound thread
    ([Server::outbound_]) drains the notes, turns events into OUCH answers
    ([OuchResponder]), appends them to the owner's session log, and sends what the TCP
    window takes; a client that logs in again can have them replayed from the log.  At
    the other end a load generator keeps many such clients on one [epoll] loop, draws
    orders from an order factory and reads the answers.  A packet factory and a latency
    handler serve both halves.

    ** Files, in dependency order ([src/] paths in brackets)

    - this file: notation, the effect monad, machine integers, shared lemmas and tactics;
    - [WireCodec] [infra/wire_codec.hpp]: field lists and their sizer, writer, reader;
    - [Types] [infra/order_types.hpp, communication_proto.hpp, exchange/config]: requests,
      events, configuration ([BookConfig]); [Clock] [infra/tsc_clock.hpp];
      [ServerNetwork] [server: server.hpp, server.cpp]: the port's queues and addresses;
    - [ItchProto] [infra/itch_proto.hpp]; [OuchProto] with [OuchCorrect]
      [infra/ouch_proto.hpp]; [SoupProto] [infra/soupbintcp_proto.hpp]: message codecs
      and their round trips;
    - [Reassembly] [Server::on_data_]: packets out of segments, over the interface
      [PacketSink] that [Inbound] implements;
    - [SessionLog] [server/include/session_log.hpp]: the replay ring;
    - [RingBuffer] [infra/ring_buffer.hpp]: the ring, sequentially and as two threads;
    - [PriceLevelQueue] [engine: order.hpp, price_level_queue.hpp, order_pool.hpp]:
      intrusive queues in an arena;
    - [Validation] [infra/validation.hpp]: conversions and checks;
    - [Orderbook] [engine: orderbook.hpp, orderbook.cpp]: the book as written;
      [OrderbookSpec]: the abstract book, two lists in priority order; [Ladder],
      [OrderbookRefine], [OrderbookCorrect]: the first implements the second;
      [BookInvariant], [BookTheorems]: what that gives; [BookQueries]: the accessors;
    - [OrderEntry] [server: order_entry]: the gateway; [OuchTyped]: what it
      decodes and keeps fits its types; [OuchResponder]
      [server: ouch_responder]: the answers;
    - [Engine] [engine: engine.hpp, engine.cpp]: the matching thread's steps and the
      refinement of a queue server; [MarketData]: a subscriber of the feed;
      [EngineTheorems];
    - [Gateway], [Pipeline] [Server::handle_ouch_, outbound_]: inbound thread, engine
      and outbound thread interleaved around notes, requests and events;
    - [Inbound] [Server: on_tcp_event_, handle_soup_packet_, login_, disconnect_,
      check_timeouts_]: connections and sessions;
    - [NoteProtocol]: the order in which the inbound thread may tell the outbound
      thread about connections and logins; [InboundSteps]: the one induction over all
      that an event can make the inbound thread do, for any preorder that contains its
      moves ([QuietMoves] for those that handle no message, [InboundMoves]); its instances
      [NoteTyping]: what the notes carry, and [InboundFlow]: order ids follow the notes,
      and the pushes are those of [Pipeline]; [Hearing]: an observer of the wire, who
      hears the messages the inbound thread must handle;
    - [Outbound] [Server: on_note_, accept_login_, send_sequenced_, flush_, close_,
      heartbeat_]: the sending half; [OutboundStream], [OutboundTheorems]: the invariant
      of every session's byte stream and that each operation keeps it; [OutboundLogs]:
      what each operation puts on which session; [Server]: both threads on the two
      rings, step by step; [ServerLoops] [Server::inbound_, Server::outbound_]: their
      loops;
    - [Exchange] [exchange/app: exchange.hpp, exchange.cpp]: the engine and both threads
      of the server on the rings the exchange owns, from the bytes TCP delivers to the
      bytes it takes;
    - [Buffer] [infra/buffer.hpp]: the socket buffer; [OrderFactory]
      [client: order_factory.hpp]: the random orders; [Client] [client: client_state.hpp,
      load_generator.cpp]: the handlers of one client; [ClientInvariant],
      [ClientHandlers]: its invariant; [LoadGenerator] [client: load_generator.hpp, .cpp]:
      the event loop over all clients; [Conversation]: the server's sending half against
      the client's reading half, and the other way round;
    - [Network] [infra/network_proto.hpp, packet_factory.hpp]: packet headers and the
      packet factory; [Latency] [server: latency.hpp]: the latency histograms.

    ** How the code is rendered

    A w-bit integer is a [Z] with its wrap written out ([u8] to [u64]).  Stateful code
    is a function in the monad [M]: state passing with [None] for undefined behaviour
    (null or dangling dereference, index out of range, copy past a buffer) and for
    loops that run out of fuel, so a result [Some] is safety and termination at once.
    Threads are step relations; each access to a location another thread writes is a
    step of its own.  In [Exchange] an event of the inbound thread is one step and its
    pushes come on the rings one by one afterwards, each request behind the notes pushed
    before it: at least the interleavings of the single pushes.  Code outside [src/] is a parameter: [__rdtsc] a function of the
    number of reads (one per thread), the kernel the client runs on ([Kernel], [EpollWait]: clock,
    sockets, [recv], [send], [epoll_wait], of which only their documented ranges are
    assumed), the random distributions ([Draws], within their bounds by [DrawLaws]) and
    double arithmetic ([Double], with infinities and NaN; [DoubleLaws] are laws of IEEE
    doubles), the DPDK header writers ([Dpdk], [DpdkLaws]), the HDR histograms.

    ** What is proved

    - The book ([BookTheorems]): [process] computes the abstract book on every request,
      keeps the caches right, trades in price-time priority, conserves shares, answers
      each request once, acts only for the owner, rejects when full, puts a replacement
      behind its price and ignores without a trace what it ignores.
    - The engine ([EngineTheorems]): every reachable state has a well-formed book; the
      requests executed are those submitted, in order; a waiting request is executed
      when its turn comes, three moves per request; [step] drains the ring; a subscriber of the ITCH feed rebuilds the book.
    - The rings ([RingBuffer]): first in first out and free of data races for any
      interleaving with late visibility, and the sequential operations are a bounded
      queue.  Levels and the order pool ([PriceLevelQueue]) likewise.
    - The exchange as a whole ([Exchange]): whatever the clients send and however the
      three threads interleave, the requests pushed are the translations of exactly the
      messages an observer hears on the wire, each for its sender, those executed are the
      first of them, every event the specification of the book produces from them is
      answered, in order, on its owner's session, a client reads exactly its answers,
      and when nothing is in flight all of it has happened; an event in hand is answered
      without the help of the other threads.  The server and the engine run inside it
      exactly as their own theorems assume.
    - The server: no event is ever without an answer, answers reach the owner and
      encode, and at rest the responder knows every resting order ([Pipeline]; records of
      orders that never came to rest may stay behind);
      a session has one connection at most, no input can break the inbound thread, and
      segmentation is invisible ([Inbound]); the session log replays exactly what was
      sent ([SessionLog]); the gateway hands out fresh ids and ignores
      retransmissions ([OrderEntry]).
    - Both server threads together ([Server]): each client's stream is whole packets,
      login answer first, sequence numbers consecutive with those of the log, through
      any partial sends, reconnects and replays; the notes follow their protocol; and
      no order of events, notes and sends makes the server fault.  The loops as written
      only take these steps, come to their end and close every connection
      ([ServerLoops]).
    - The client: the loop never faults, and its login state, sequence number, Enters in
      flight and unread bytes are those of one who watched the bytes cross its socket
      ([peer_of], [LoadGenerator]); the factory returns and only makes messages the
      validation accepts, but for the ones meant to be invalid, as long as its mid price
      is finite ([OrderFactory], which also shows that nothing in the code keeps it
      finite: [WalkLaws] asks it of the draws where the client is composed with it);
      what a client sends is whole requests after a login for the sequence number it had
      reached, and what it reads of the server's stream, however the kernel cuts it, is
      the sequence of messages the session log holds ([Conversation]).
    - The wire: round trips and strictness of all message formats, and of packets with
      their headers, when they fit the 16-bit length of IPv4; a payload over 65535 bytes
      is cut and written past its space ([Network]).  The latency report covers every sample after the
      warm-up ([Latency]).

    ** Fuel and bounds

    [match_loop] has [quantity + 1] rounds (a round trades a share), the scans for a
    best price one round per tick, the decoder's appendage loop one per byte, the
    packet loop one per byte, [drop_oldest] one per retained message, the client's
    [flush_loop] one per byte left to send, [read_loop] one per byte buffered and
    [batch_loop] one per message of a batch (64); each is proved enough where it is
    used.  The client's [run], which the source leaves on a signal, takes its number of
    rounds.  Theorems that depend on a 64-bit counter not wrapping
    (order ids, sequence numbers, log offsets) say so in a hypothesis.  Witnesses run
    on [exchange_config] or on small instances.

    ** Not modelled

    - The TCP stack, DPDK queues and hash maps are libraries outside [src/]: TCP
      events are inputs of [Inbound], how much TCP takes is a parameter of [Outbound]
      ([tcp_send], [tcp_sendable]), maps are finite maps.
    - Of the server and the exchange: the constructors' calls into DPDK, thread start-up
      and the join at shutdown, after which a push may be given up.
    - Of the client: [setupEpoll], the destructor and [main] (signals and the printed
      statistics), the seed of the factory.
    - The printing of the histograms, the market-feed publisher (declared, without
      code), benchmarks and process start-up: output and operating-system calls
      without logic of their own. *)

From Stdlib Require Export ZArith Lia.
From Stdlib Require Ascii String.
From Stdlib Require Export (notations) Ascii String.
From stdpp Require Export gmap prelude.

Global Open Scope Z_scope.
Declare Scope exch_scope.
Delimit Scope exch_scope with exch.
Global Open Scope exch_scope.

Create HintDb exch.
Create HintDb exch_rw.

(** ** Machine integers

    A w-bit unsigned integer is the [Z] in [0 .. 2^w - 1]; every C++ arithmetic
    expression that can wrap is written with the wrap of its type. *)

Definition u8  (z : Z) : Z := z mod 256.
Definition u16 (z : Z) : Z := z mod 65536.
Definition u32 (z : Z) : Z := z mod 4294967296.
Definition u64 (z : Z) : Z := z mod 18446744073709551616.

(** [static_cast<int64_t>]: the same bits in two's complement. *)
Definition i64 (z : Z) : Z := (z + 9223372036854775808) mod 18446744073709551616 - 9223372036854775808.

Definition is_u8  (z : Z) : Prop := 0 <= z < 256.
Definition is_u16 (z : Z) : Prop := 0 <= z < 65536.
Definition is_u32 (z : Z) : Prop := 0 <= z < 4294967296.
Definition is_u64 (z : Z) : Prop := 0 <= z < 18446744073709551616.

Global Hint Unfold is_u8 is_u16 is_u32 is_u64 : exch.

(** ** The effect monad

    Stateful C++ code is a state transformer that may fault.  [None] stands for
    undefined behaviour (a null or dangling dereference, an index out of range)
    and, for the loops that carry fuel, for running out of it: a theorem that an
    operation returns [Some] is a safety and a termination statement at once. *)

Definition M (S A : Type) : Type := S -> option (A * S).

Global Instance M_ret S : MRet (M S) := fun A a s => Some (a, s).
Global Instance M_bind S : MBind (M S) := fun A B k m s =>
  match m s with Some (a, s') => k a s' | None => None end.

Definition gets {S A} (f : S -> A) : M S A := fun s => Some (f s, s).
Definition modify {S} (f : S -> S) : M S unit := fun s => Some (tt, f s).
Definition lift {S A} (o : option A) : M S A := fun s => (fun a => (a, s)) <$> o.
Definition when {S} (b : bool) (m : M S unit) : M S unit := if b then m else mret tt.

(** ** Member assignment

    [Eta T] lists the members of a record once; [m <| p := v |>] is [m] with the
    member [p] assigned. *)

Class Eta (T : Type) := eta : T -> T.

Ltac field_setter p :=
  lazymatch type of p with
  | ?T -> ?A =>
      let v := fresh "v" in
      let m := fresh "m" in
      refine (fun (v : A) (m : T) => _);
      let e := eval hnf in (@eta T _ m) in
      lazymatch eval pattern (p m) in e with
      | ?f _ => let r := eval cbv beta in (f v) in exact r
      end
  end.

Notation "m '<|' p ':=' v '|>'" := ((ltac:(field_setter p)) v m)
  (at level 8, left associativity, v at level 200, only parsing) : exch_scope.

(** ** Characters: an ASCII literal as the byte it is on the wire. *)

Definition ch (c : Ascii.ascii) : Z := Z.of_N (Ascii.N_of_ascii c).
Arguments ch c%_char_scope.

Fixpoint str (s : String.string) : list Z :=
  match s with
  | String.EmptyString => []
  | String.String c s' => ch c :: str s'
  end.
Arguments str s%_string_scope.

(** ** Tactics *)

(** Turns boolean comparisons on [Z] into propositions. *)
Ltac zbool :=
  repeat match goal with
  | H : (_ && _)%bool = true |- _ => apply andb_true_iff in H; destruct H
  | H : (_ || _)%bool = false |- _ => apply orb_false_iff in H; destruct H
  | H : negb _ = true |- _ => apply negb_true_iff in H
  | H : negb _ = false |- _ => apply negb_false_iff in H
  | H : (_ <? _) = true |- _ => apply Z.ltb_lt in H
  | H : (_ <? _) = false |- _ => apply Z.ltb_ge in H
  | H : (_ <=? _) = true |- _ => apply Z.leb_le in H
  | H : (_ <=? _) = false |- _ => apply Z.leb_gt in H
  | H : (_ =? _) = true |- _ => apply Z.eqb_eq in H
  | H : (_ =? _) = false |- _ => apply Z.eqb_neq in H
  | H : (_ >? _) = _ |- _ => rewrite Z.gtb_ltb in H
  | H : (_ >=? _) = _ |- _ => rewrite Z.geb_leb in H
  end.

(** Case analysis on the scrutinee of an [if] in the goal. *)
Ltac case_if :=
  match goal with
  | |- context [if ?b then _ else _] =>
      let E := fresh "E" in destruct b eqn:E
  end.

Ltac ulia := unfold is_u8, is_u16, is_u32, is_u64 in *; lia.

(** ** Lemmas on machine integers *)

Lemma u8_id z : is_u8 z -> u8 z = z.
Proof. intros. apply Z.mod_small. ulia. Qed.

Lemma u16_id z : is_u16 z -> u16 z = z.
Proof. intros. apply Z.mod_small. ulia. Qed.

Lemma u32_id z : is_u32 z -> u32 z = z.
Proof. intros. apply Z.mod_small. ulia. Qed.

Lemma u64_id z : is_u64 z -> u64 z = z.
Proof. intros. apply Z.mod_small. ulia. Qed.

Lemma i64_id z : -9223372036854775808 <= z < 9223372036854775808 -> i64 z = z.
Proof. intros Hz. unfold i64. rewrite Z.mod_small; lia. Qed.

Lemma u8_range z : is_u8 (u8 z).
Proof. apply Z.mod_pos_bound. lia. Qed.

Lemma u16_range z : is_u16 (u16 z).
Proof. apply Z.mod_pos_bound. lia. Qed.

Lemma u32_range z : is_u32 (u32 z).
Proof. apply Z.mod_pos_bound. lia. Qed.

Lemma u64_range z : is_u64 (u64 z).
Proof. apply Z.mod_pos_bound. lia. Qed.

#[export] Hint Resolve u8_range u16_range u32_range u64_range : exch.
#[export] Hint Rewrite u8_id u16_id u32_id u64_id using ulia : exch_rw.

(** Packing: a value below [2 ^ w] fills the bits a left shift by [w] frees. *)
Lemma lor_shiftl w a b : 0 <= w -> 0 <= b < 2 ^ w -> Z.lor (Z.shiftl a w) b = a * 2 ^ w + b.
Proof.
  intros Hw Hb. assert (Z.land (Z.shiftl a w) b = 0) as Hl.
  { apply Z.bits_inj'. intros i Hi. rewrite Z.land_spec, Z.bits_0, Z.shiftl_spec by lia.
    destruct (Z.ltb_spec i w); [by rewrite Z.testbit_neg_r by lia|].
    destruct (Z.eq_dec b 0) as [->|]; [by rewrite Z.bits_0, andb_false_r|].
    rewrite (Z.bits_above_log2 b), andb_false_r; [done|lia|]. apply Z.log2_lt_pow2; [lia|].
    apply Z.lt_le_trans with (2 ^ w); [lia|apply Z.pow_le_mono_r; lia]. }
  by rewrite <- Z.lxor_lor, <- Z.add_nocarry_lxor, Z.shiftl_mul_pow2 by done.
Qed.

(** ** Lemmas on the monad *)

Lemma bind_Some {S A B} (m : M S A) (k : A -> M S B) s a s' :
  m s = Some (a, s') -> (m ≫= k) s = k a s'.
Proof. intros H. unfold mbind, M_bind. by rewrite H. Qed.

Lemma bind_inv {S A B} (m : M S A) (k : A -> M S B) s b s2 :
  (m ≫= k) s = Some (b, s2) -> exists a s1, m s = Some (a, s1) /\ k a s1 = Some (b, s2).
Proof. unfold mbind, M_bind. destruct (m s) as [[a s1]|]; [|done]. by exists a, s1. Qed.

Lemma gets_bind {S A B} (f : S -> A) (k : A -> M S B) s :
  (gets f ≫= k) s = k (f s) s.
Proof. done. Qed.

Lemma modify_bind {S B} (f : S -> S) (k : unit -> M S B) s :
  (modify f ≫= k) s = k tt (f s).
Proof. done. Qed.

Lemma ret_bind {S A B} (a : A) (k : A -> M S B) s : (mret a ≫= k) s = k a s.
Proof. done. Qed.

Lemma lift_bind {S A B} (o : option A) a (k : A -> M S B) s :
  o = Some a -> (lift o ≫= k) s = k a s.
Proof. by intros ->. Qed.

Lemma bind_bind {S A B C} (m : M S A) (k : A -> M S B) (h : B -> M S C) s :
  ((m ≫= k) ≫= h) s = (m ≫= (fun a => k a ≫= h)) s.
Proof. unfold mbind, M_bind. destruct (m s) as [[a s']|]; done. Qed.

#[export] Hint Rewrite @gets_bind @modify_bind @ret_bind @bind_bind : exch_rw.

(** ** Lists *)

Lemma concat_insert {A} (ls : list (list A)) i x l :
  ls !! i = Some l ->
  concat (<[i:=x]> ls) = concat (take i ls) ++ x ++ concat (drop (S i) ls).
Proof.
  intros H. rewrite insert_take_drop by (by eapply lookup_lt_Some).
  by rewrite concat_app.
Qed.

Lemma concat_split {A} (ls : list (list A)) i l :
  ls !! i = Some l ->
  concat ls = concat (take i ls) ++ l ++ concat (drop (S i) ls).
Proof.
  intros H. rewrite <- (take_drop_middle ls i l H) at 1.
  by rewrite concat_app.
Qed.

Lemma snoc_case {A} (l : list A) : l = [] \/ exists l' x, l = l' ++ [x].
Proof. induction l as [|x l _] using rev_ind; [by left | by right; exists l, x]. Qed.

Lemma nodup_submseteq {A} (l k : list A) : l ⊆+ k -> NoDup k -> NoDup l.
Proof. intros (m & Hm)%submseteq_Permutation Hk. rewrite Hm in Hk. by apply NoDup_app in Hk as [? _]. Qed.

Lemma nodup_fmap_inj {A B} (f : A -> B) l x y : NoDup (f <$> l) -> x ∈ l -> y ∈ l -> f x = f y -> x = y.
Proof.
  intros Hd Hx Hy Hf. apply list_elem_of_lookup in Hx as [i Hi]. apply list_elem_of_lookup in Hy as [j Hj].
  assert (i = j) as ->; [|congruence].
  eapply NoDup_lookup; [exact Hd|by rewrite list_lookup_fmap, Hi|by rewrite list_lookup_fmap, Hj, Hf].
Qed.
