(* ===== verification/WireCodec.v ===== *)
(** * WireCodec: the big-endian field codecs of [src/infra/wire_codec.hpp]

    One list of field descriptors per message drives three interpreters: the
    sizer, the writer and the reader.  The writer works on a byte buffer of fixed
    size with a position and a sticky [ok] flag, the reader on a byte view, as the
    classes of the source do.  The section on round trips proves, once for every
    field list, that what the writer stores the reader loads back. *)

From S2P Require Import Prelude.

(** ** Fields

    [WInt n signed get set] is an integer or enum member of [n] bytes on the wire
    ([io.u48] is the 6-byte case), [WBytes n get set] a [std::array] of [n]
    single-byte elements. *)

Inductive wire_field (T : Type) : Type :=
| WInt (n : nat) (signed : bool) (get : T -> Z) (set : Z -> T -> T)
| WBytes (n : nat) (get : T -> list Z) (set : list Z -> T -> T).
Arguments WInt {T} n signed get set.
Arguments WBytes {T} n get set.

(** [io(m.p)] for an unsigned member, a signed member, a byte array. *)
Notation io_u n p := (WInt n false p ltac:(field_setter p)) (only parsing).
Notation io_i n p := (WInt n true p ltac:(field_setter p)) (only parsing).
Notation io_a n p := (WBytes n p ltac:(field_setter p)) (only parsing).

(** A member of a nested struct. *)
Definition nested {T U} (get : T -> U) (set : U -> T -> T) (f : wire_field U) : wire_field T :=
  match f with
  | WInt n s g st => WInt n s (fun m => g (get m)) (fun v m => set (st v (get m)) m)
  | WBytes n g st => WBytes n (fun m => g (get m)) (fun v m => set (st v (get m)) m)
  end.

Definition wire_size {T} (f : wire_field T) : nat :=
  match f with WInt n _ _ _ => n | WBytes n _ _ => n end.

(** [wire::alpha<N>]: left-justified, padded with spaces, truncated to [N]. *)
Definition alpha (N : nat) (s : list Z) : list Z :=
  (fun i => if decide (i < length s)%nat then s !!! i else ch " ") <$> seq 0 N.

(** ** Sizer *)

Definition fields_size {T} (fs : list (wire_field T)) : nat :=
  fold_left (fun size f => (size + wire_size f)%nat) fs 0%nat.

(** ** Integers as big-endian bytes

    [store] on an [n]-byte integer: byte [i] is [value >> (8 * (n - 1 - i))]
    truncated to 8 bits, which is what byteswap + memcpy leave in memory. *)

Fixpoint store (n : nat) (value : Z) : list Z :=
  match n with
  | O => []
  | S n' => u8 (Z.shiftr value (8 * Z.of_nat n')) :: store n' value
  end.

Definition load_unsigned (src : list Z) : Z :=
  fold_left (fun value b => Z.lor (Z.shiftl value 8) b) src 0.

(** A signed integer type of [n] bytes reads the same bits in two's complement. *)
Definition to_signed (n : nat) (v : Z) : Z :=
  if v <? 2 ^ (8 * Z.of_nat n - 1) then v else v - 2 ^ (8 * Z.of_nat n).

Definition load (n : nat) (signed : bool) (src : list Z) : Z :=
  if signed then to_signed n (load_unsigned src) else load_unsigned src.

(** ** Writer *)

Record WireWriter := mkWriter { w_out : list Z; w_pos : nat; w_ok : bool }.

Definition writer_init (out : list Z) : WireWriter := mkWriter out 0 true.

Definition writer_claim (n : nat) (w : WireWriter) : option nat * WireWriter :=
  if negb (w_ok w) || (length (w_out w) - w_pos w <? n)%nat
  then (None, mkWriter (w_out w) (w_pos w) false)
  else (Some (w_pos w), mkWriter (w_out w) (w_pos w + n) (w_ok w)).

Definition memcpy (dst : nat) (src : list Z) (out : list Z) : list Z :=
  list_inserts dst src out.

Definition field_bytes {T} (f : wire_field T) (m : T) : list Z :=
  match f with
  | WInt n _ get _ => store n (get m)
  | WBytes n get _ => get m
  end.

Definition write_bytes (bs : list Z) (w : WireWriter) : WireWriter :=
  match writer_claim (length bs) w with
  | (None, w') => w'
  | (Some dst, w') => mkWriter (memcpy dst bs (w_out w')) (w_pos w') (w_ok w')
  end.

Definition write_field {T} (m : T) (w : WireWriter) (f : wire_field T) : WireWriter :=
  write_bytes (field_bytes f m) w.

(** [writer.skip(n)]: reserve [n] bytes to be filled in later. *)
Definition writer_skip (n : nat) (w : WireWriter) : option nat * WireWriter := writer_claim n w.

Definition write_fields {T} (fs : list (wire_field T)) (m : T) (w : WireWriter) : WireWriter :=
  fold_left (write_field m) fs w.

(** ** Reader *)

Record WireReader := mkReader { r_in : list Z; r_pos : nat; r_ok : bool }.

Definition reader_init (bytes : list Z) : WireReader := mkReader bytes 0 true.

Definition reader_claim (n : nat) (r : WireReader) : option nat * WireReader :=
  if negb (r_ok r) || (length (r_in r) - r_pos r <? n)%nat
  then (None, mkReader (r_in r) (r_pos r) false)
  else (Some (r_pos r), mkReader (r_in r) (r_pos r + n) (r_ok r)).

Definition remaining (r : WireReader) : nat := (length (r_in r) - r_pos r)%nat.

(** [reader.take(n)]: the next [n] bytes as a view, empty when they are not there. *)
Definition reader_take (n : nat) (r : WireReader) : list Z * WireReader :=
  match reader_claim n r with
  | (None, r') => ([], r')
  | (Some src, r') => (take n (drop src (r_in r')), r')
  end.

(** [reader(value)] on an integer variable: unchanged when the bytes are missing. *)
Definition read_int (n : nat) (signed : bool) (value : Z) (r : WireReader) : Z * WireReader :=
  match reader_claim n r with
  | (None, r') => (value, r')
  | (Some src, r') => (load n signed (take n (drop src (r_in r'))), r')
  end.

Definition read_field {T} (rm : WireReader * T) (f : wire_field T) : WireReader * T :=
  let '(r, m) := rm in
  match reader_claim (wire_size f) r with
  | (None, r') => (r', m)
  | (Some src, r') =>
      let bytes := take (wire_size f) (drop src (r_in r')) in
      match f with
      | WInt n signed _ set => (r', set (load n signed bytes) m)
      | WBytes _ _ set => (r', set bytes m)
      end
  end.

Definition read_fields {T} (fs : list (wire_field T)) (r : WireReader) (m : T) : WireReader * T :=
  fold_left read_field fs (r, m).

(** ** What a field list means

    [field_ok] says the member fits its wire type; [assign] copies a member from
    one message to another through the descriptor. *)

Definition field_ok {T} (m : T) (f : wire_field T) : Prop :=
  match f with
  | WInt n false get _ => 0 <= get m < 2 ^ (8 * Z.of_nat n)
  | WInt n true get _ =>
      (0 < n)%nat /\ - 2 ^ (8 * Z.of_nat n - 1) <= get m < 2 ^ (8 * Z.of_nat n - 1)
  | WBytes n get _ => length (get m) = n
  end.

Definition assign {T} (src : T) (dst : T) (f : wire_field T) : T :=
  match f with
  | WInt _ _ get set => set (get src) dst
  | WBytes _ get set => set (get src) dst
  end.

Definition encoding {T} (fs : list (wire_field T)) (m : T) : list Z :=
  concat ((fun f => field_bytes f m) <$> fs).

(** ** Bytes *)

Lemma store_length n v : length (store n v) = n.
Proof. induction n; simpl; congruence. Qed.

Lemma store_bytes n v : Forall is_u8 (store n v).
Proof. induction n; simpl; constructor; auto using u8_range. Qed.

Lemma lor_shiftl8 a b : is_u8 b -> Z.lor (Z.shiftl a 8) b = a * 256 + b.
Proof. intros Hb. by apply (lor_shiftl 8); [|ulia]. Qed.

Lemma load_acc bs acc :
  Forall is_u8 bs ->
  fold_left (fun value b => Z.lor (Z.shiftl value 8) b) bs acc
  = acc * 256 ^ Z.of_nat (length bs) + load_unsigned bs.
Proof.
  unfold load_unsigned. revert acc.
  induction bs as [|b bs IH]; intros acc Hbs; [cbn [fold_left length]; lia|].
  apply Forall_cons in Hbs as [Hb Hbs]. cbn [fold_left length].
  rewrite IH, (IH (Z.lor (Z.shiftl 0 8) b)) by done.
  rewrite !lor_shiftl8 by done. rewrite Nat2Z.inj_succ, Z.pow_succ_r by lia. lia.
Qed.

Lemma load_store_unsigned n v :
  load_unsigned (store n v) = v mod 256 ^ Z.of_nat n.
Proof.
  induction n as [|n IH]; [rewrite Z.mod_1_r; done|].
  cbn [store]. unfold load_unsigned. cbn [fold_left].
  rewrite load_acc by apply store_bytes. rewrite store_length, IH.
  rewrite lor_shiftl8 by apply u8_range.
  rewrite Nat2Z.inj_succ, Z.pow_succ_r by lia.
  rewrite Z.shiftr_div_pow2 by lia. rewrite Z.pow_mul_r by lia.
  change (2 ^ 8) with 256. unfold u8.
  rewrite (Z.mul_comm 256), Z.rem_mul_r by lia. lia.
Qed.

Lemma pow256 n : 256 ^ Z.of_nat n = 2 ^ (8 * Z.of_nat n).
Proof. rewrite Z.pow_mul_r by lia. done. Qed.

Lemma load_store_u n v : 0 <= v < 2 ^ (8 * Z.of_nat n) -> load n false (store n v) = v.
Proof.
  intros H. unfold load. rewrite load_store_unsigned, pow256. by apply Z.mod_small.
Qed.

Lemma load_store_s n v :
  (0 < n)%nat -> - 2 ^ (8 * Z.of_nat n - 1) <= v < 2 ^ (8 * Z.of_nat n - 1) ->
  load n true (store n v) = v.
Proof.
  intros Hn H. unfold load, to_signed. rewrite load_store_unsigned, pow256.
  assert (2 ^ (8 * Z.of_nat n) = 2 * 2 ^ (8 * Z.of_nat n - 1)) as ->
    by (rewrite <- Z.pow_succ_r by lia; f_equal; lia).
  set (p := 2 ^ (8 * Z.of_nat n - 1)) in *.
  destruct (Z.ltb_spec v 0).
  - replace (v mod (2 * p)) with (v + 2 * p).
    + destruct (Z.ltb_spec (v + 2 * p) p); lia.
    + rewrite <- (Z_mod_plus_full v 1). rewrite Z.mod_small; lia.
  - rewrite Z.mod_small by lia. destruct (Z.ltb_spec v p); lia.
Qed.

(** ** Writer lemmas

    A writer in good standing has written a prefix [pre] of its buffer and has
    [rest] left. *)

Definition writer_at (pre rest : list Z) : WireWriter :=
  mkWriter (pre ++ rest) (length pre) true.

Lemma memcpy_app (pre bs rest : list Z) :
  (length bs <= length rest)%nat ->
  memcpy (length pre) bs (pre ++ rest) = (pre ++ bs) ++ drop (length bs) rest.
Proof.
  intros H. unfold memcpy. rewrite <- (Nat.add_0_r (length pre)), list_inserts_app_r.
  rewrite <- (take_drop (length bs) rest) at 1.
  rewrite list_inserts_0_r by (rewrite length_take; lia). by rewrite app_assoc.
Qed.

Lemma write_bytes_ok pre rest bs :
  (length bs <= length rest)%nat ->
  write_bytes bs (writer_at pre rest) = writer_at (pre ++ bs) (drop (length bs) rest).
Proof.
  intros H. unfold write_bytes, writer_claim, writer_at; cbn [w_ok w_out w_pos negb orb].
  rewrite length_app. destruct (Nat.ltb_spec (length pre + length rest - length pre) (length bs)); [lia|].
  cbn [w_out w_pos w_ok]. by rewrite memcpy_app, length_app by done.
Qed.

Lemma write_bytes_short pre rest bs :
  (length rest < length bs)%nat -> w_ok (write_bytes bs (writer_at pre rest)) = false.
Proof.
  intros H. unfold write_bytes, writer_claim, writer_at; cbn [w_ok w_out w_pos negb orb]. rewrite length_app.
  by destruct (Nat.ltb_spec (length pre + length rest - length pre) (length bs)); [|lia].
Qed.

Lemma write_bytes_stuck bs w : w_ok w = false -> w_ok (write_bytes bs w) = false.
Proof. intros H. unfold write_bytes, writer_claim. by rewrite H. Qed.

Lemma writer_skip_ok pre rest n :
  (n <= length rest)%nat ->
  writer_skip n (writer_at pre rest)
  = (Some (length pre), writer_at (pre ++ take n rest) (drop n rest)).
Proof.
  intros H. unfold writer_skip, writer_claim, writer_at; simpl.
  rewrite !length_app, length_take.
  destruct (Nat.ltb_spec (length pre + length rest - length pre) n); [lia|].
  rewrite <- (app_assoc pre), take_drop. do 2 f_equal. lia.
Qed.

Lemma writer_skip_short pre rest n :
  (length rest < n)%nat -> w_ok (writer_skip n (writer_at pre rest)).2 = false.
Proof.
  intros H. unfold writer_skip, writer_claim, writer_at; simpl. rewrite length_app.
  by destruct (Nat.ltb_spec (length pre + length rest - length pre) n); [|lia].
Qed.

Lemma write_fields_stuck {T} (fs : list (wire_field T)) m w :
  w_ok w = false -> w_ok (write_fields fs m w) = false.
Proof.
  unfold write_fields. revert w. induction fs as [|f fs IH]; simpl; [done|].
  intros w H. apply IH. by apply write_bytes_stuck.
Qed.

Lemma encoding_cons {T} (f : wire_field T) fs m :
  encoding (f :: fs) m = field_bytes f m ++ encoding fs m.
Proof. done. Qed.

Lemma write_fields_ok {T} (fs : list (wire_field T)) m pre rest :
  (length (encoding fs m) <= length rest)%nat ->
  write_fields fs m (writer_at pre rest)
  = writer_at (pre ++ encoding fs m) (drop (length (encoding fs m)) rest).
Proof.
  revert pre rest. induction fs as [|f fs IH]; intros pre rest H.
  - cbn. by rewrite app_nil_r, drop_0.
  - rewrite encoding_cons, length_app in *.
    change (write_fields (f :: fs) m (writer_at pre rest))
      with (write_fields fs m (write_bytes (field_bytes f m) (writer_at pre rest))).
    rewrite write_bytes_ok by lia. rewrite IH by (rewrite length_drop; lia).
    by rewrite app_assoc, drop_drop.
Qed.

Lemma write_fields_short {T} (fs : list (wire_field T)) m pre rest :
  (length rest < length (encoding fs m))%nat ->
  w_ok (write_fields fs m (writer_at pre rest)) = false.
Proof.
  revert pre rest. induction fs as [|f fs IH]; intros pre rest H; [simpl in H; lia|].
  rewrite encoding_cons, length_app in H.
  change (write_fields (f :: fs) m (writer_at pre rest))
    with (write_fields fs m (write_bytes (field_bytes f m) (writer_at pre rest))).
  destruct (decide (length (field_bytes f m) <= length rest)%nat).
  - rewrite write_bytes_ok by lia. apply IH. rewrite length_drop. lia.
  - apply write_fields_stuck, write_bytes_short. lia.
Qed.

(** ** Reader lemmas *)

Definition reader_at (pre post : list Z) : WireReader :=
  mkReader (pre ++ post) (length pre) true.

Lemma reader_claim_ok pre bs post :
  reader_claim (length bs) (reader_at pre (bs ++ post))
  = (Some (length pre), reader_at (pre ++ bs) post).
Proof.
  unfold reader_claim, reader_at; simpl. rewrite !length_app.
  destruct (Nat.ltb_spec (length pre + (length bs + length post) - length pre) (length bs)); [lia|].
  by rewrite <- app_assoc.
Qed.

Lemma reader_claim_short pre post n :
  (length post < n)%nat -> reader_claim n (reader_at pre post) = (None, mkReader (pre ++ post) (length pre) false).
Proof.
  intros. unfold reader_claim, reader_at; simpl. rewrite length_app.
  by destruct (Nat.ltb_spec (length pre + length post - length pre) n); [|lia].
Qed.

Lemma take_drop_at (pre bs post : list Z) :
  take (length bs) (drop (length pre) ((pre ++ bs) ++ post)) = bs.
Proof. by rewrite <- app_assoc, drop_app_length, take_app_length. Qed.

Lemma field_bytes_length {T} (f : wire_field T) m :
  field_ok m f -> length (field_bytes f m) = wire_size f.
Proof. destruct f as [n []|]; simpl; intros; auto using store_length. Qed.

Lemma read_field_ok {T} (f : wire_field T) src dst pre post :
  field_ok src f ->
  read_field (reader_at pre (field_bytes f src ++ post), dst) f
  = (reader_at (pre ++ field_bytes f src) post, assign src dst f).
Proof.
  intros Hok. unfold read_field. rewrite <- (field_bytes_length f src) by done.
  rewrite reader_claim_ok. cbn [r_in reader_at]. rewrite take_drop_at.
  destruct f as [n [] g s|n g s]; simpl in *; do 2 f_equal.
  - by apply load_store_s; destruct Hok.
  - by apply load_store_u.
Qed.

Lemma read_fields_ok {T} (fs : list (wire_field T)) src dst pre post :
  Forall (field_ok src) fs ->
  read_fields fs (reader_at pre (encoding fs src ++ post)) dst
  = (reader_at (pre ++ encoding fs src) post, fold_left (assign src) fs dst).
Proof.
  unfold read_fields. revert dst pre.
  induction fs as [|f fs IH]; intros dst pre Hok; cbn [fold_left].
  - cbn. by rewrite app_nil_r.
  - apply Forall_cons in Hok as [Hf Hfs]. rewrite encoding_cons, <- (app_assoc (field_bytes f src)).
    rewrite read_field_ok by done. rewrite IH by done. by rewrite <- app_assoc.
Qed.

Lemma fields_size_acc {T} (fs : list (wire_field T)) n :
  fold_left (fun size f => (size + wire_size f)%nat) fs n = (n + fields_size fs)%nat.
Proof.
  unfold fields_size. revert n. induction fs as [|f fs IH]; intros n; simpl; [lia|].
  rewrite IH, (IH (wire_size f)). lia.
Qed.

Lemma encoding_length {T} (fs : list (wire_field T)) m :
  Forall (field_ok m) fs -> length (encoding fs m) = fields_size fs.
Proof.
  induction 1 as [|f fs Hf Hfs IH]; [done|].
  rewrite encoding_cons, length_app, IH, field_bytes_length by done.
  unfold fields_size at 2. cbn [fold_left]. rewrite fields_size_acc. lia.
Qed.

Lemma read_field_stuck {T} (f : wire_field T) r m :
  r_ok r = false -> read_field (r, m) f = (mkReader (r_in r) (r_pos r) false, m).
Proof. intros H. unfold read_field, reader_claim. by rewrite H. Qed.

Lemma read_fields_stuck {T} (fs : list (wire_field T)) r m :
  r_ok r = false -> r_ok (read_fields fs r m).1 = false.
Proof.
  unfold read_fields. revert r. induction fs as [|f fs IH]; intros r H; [done|].
  cbn [fold_left]. rewrite read_field_stuck by done. by apply IH.
Qed.

(** A reader that has fewer bytes than the field list takes fails. *)
Lemma read_fields_short {T} (fs : list (wire_field T)) m pre post :
  (length post < fields_size fs)%nat ->
  r_ok (read_fields fs (reader_at pre post) m).1 = false.
Proof.
  unfold read_fields. revert m pre post.
  induction fs as [|f fs IH]; intros m pre post H; [destruct (Nat.nlt_0_r _ H)|].
  unfold fields_size in H. cbn [fold_left] in H. rewrite fields_size_acc in H.
  cbn [fold_left]. destruct (decide (wire_size f <= length post)%nat) as [Hle|].
  - pose proof (take_drop (wire_size f) post) as Hp.
    assert (length (take (wire_size f) post) = wire_size f) as Hl
      by (rewrite length_take; lia).
    unfold read_field. rewrite <- Hp, <- Hl at 1. rewrite reader_claim_ok.
    destruct f; apply IH; rewrite length_drop; simpl in *; lia.
  - unfold read_field. rewrite reader_claim_short by lia.
    apply (read_fields_stuck fs). done.
Qed.

(** A reader that is still ok has consumed exactly the fields. *)
Lemma read_field_pos {T} (f : wire_field T) r m :
  r_ok (read_field (r, m) f).1 = true ->
  r_in (read_field (r, m) f).1 = r_in r /\ r_pos (read_field (r, m) f).1 = (r_pos r + wire_size f)%nat /\
  (r_pos r + wire_size f <= length (r_in r) \/ wire_size f = 0)%nat.
Proof.
  unfold read_field, reader_claim. destruct (negb (r_ok r)) eqn:E; cbn [orb]; [done|].
  destruct (Nat.ltb_spec (length (r_in r) - r_pos r) (wire_size f)); [done|].
  intros _. destruct f; cbn; (split; [done|]); (split; [done|]); cbn in *; lia.
Qed.

Lemma read_fields_pos {T} (fs : list (wire_field T)) r m :
  r_ok (read_fields fs r m).1 = true ->
  r_in (read_fields fs r m).1 = r_in r /\ r_pos (read_fields fs r m).1 = (r_pos r + fields_size fs)%nat.
Proof.
  unfold read_fields. revert r m. induction fs as [|f fs IH]; intros r m Hok; [cbn; split; [done|lia]|].
  cbn [fold_left] in *. destruct (read_field (r, m) f) as [r1 m1] eqn:E.
  destruct (IH r1 m1 Hok) as [Hin Hpos].
  assert (r_ok r1 = true) as Hok1.
  { destruct (r_ok r1) eqn:E1; [done|]. pose proof (read_fields_stuck fs r1 m1 E1) as Hs.
    unfold read_fields in Hs. congruence. }
  pose proof (read_field_pos f r m) as Hf. rewrite E in Hf. destruct (Hf Hok1) as (Hin1 & Hpos1 & _).
  cbn [fst] in *. rewrite Hin, Hpos, Hin1, Hpos1. unfold fields_size at 2. cbn [fold_left]. rewrite fields_size_acc.
  split; [done|lia].
Qed.

(** ** Reading single integers and views *)

Lemma remaining_at pre post : remaining (reader_at pre post) = length post.
Proof. unfold remaining, reader_at; cbn [r_in r_pos]. rewrite length_app. lia. Qed.

Lemma read_int_ok n v v0 pre post :
  0 <= v < 2 ^ (8 * Z.of_nat n) ->
  read_int n false v0 (reader_at pre (store n v ++ post)) = (v, reader_at (pre ++ store n v) post).
Proof.
  intros Hv. unfold read_int. rewrite <- (store_length n v) at 1. rewrite reader_claim_ok.
  cbn [r_in reader_at]. rewrite <- (store_length n v) at 2. by rewrite take_drop_at, load_store_u.
Qed.

Lemma read_byte_ok b v0 pre post :
  read_int 1 false v0 (reader_at pre (b :: post)) = (b, reader_at (pre ++ [b]) post).
Proof.
  unfold read_int. change (b :: post) with ([b] ++ post). change 1%nat with (length [b]).
  rewrite reader_claim_ok. cbn [r_in reader_at]. by rewrite take_drop_at.
Qed.

Lemma reader_take_ok bs pre post :
  reader_take (length bs) (reader_at pre (bs ++ post)) = (bs, reader_at (pre ++ bs) post).
Proof. unfold reader_take. rewrite reader_claim_ok. cbn [r_in reader_at]. by rewrite take_drop_at. Qed.

Lemma store_load_u16 b0 b1 : is_u8 b0 -> is_u8 b1 -> store 2 (load_unsigned [b0; b1]) = [b0; b1].
Proof.
  intros H0 H1. unfold load_unsigned. cbn [fold_left]. rewrite lor_shiftl8 by done.
  assert (Z.lor (Z.shiftl 0 8) b0 = b0) as -> by done. cbn [store Z.of_nat Z.mul]. unfold u8.
  rewrite !Z.shiftr_div_pow2 by lia. change (2 ^ (8 * Z.of_nat 1)) with 256. change (2 ^ 0) with 1.
  rewrite Z.div_1_r, Z.div_add_l, (Z.div_small b1), Z.add_0_r by ulia.
  rewrite (Z.mod_small b0), Z.add_comm, Z.mod_add, Z.mod_small by ulia. done.
Qed.

(** A 2-byte read: it fails when fewer bytes are left, and otherwise the bytes are
    the encoding of the value. *)
Lemma read_u16 v0 pre post :
  Forall is_u8 post ->
  if decide (2 <= length post)%nat
  then exists v, is_u16 v /\ post = store 2 v ++ drop 2 post /\
    read_int 2 false v0 (reader_at pre post) = (v, reader_at (pre ++ store 2 v) (drop 2 post))
  else r_ok (read_int 2 false v0 (reader_at pre post)).2 = false.
Proof.
  intros Hu. case_decide as Hl.
  - destruct post as [|b0 [|b1 post]]; [cbn in Hl; lia..|]. apply Forall_cons in Hu as [H0 Hu]. apply Forall_cons in Hu as [H1 _].
    exists (load_unsigned [b0; b1]). rewrite store_load_u16 by done.
    assert (is_u16 (load_unsigned [b0; b1])) as Hv.
    { unfold load_unsigned. cbn [fold_left]. rewrite !lor_shiftl8 by done. ulia. }
    split; [done|]. split; [done|].
    pose proof (read_int_ok 2 (load_unsigned [b0; b1]) v0 pre post) as Hr. rewrite store_load_u16 in Hr by done. by apply Hr.
  - unfold read_int. by rewrite reader_claim_short by lia.
Qed.
