(* ===== verification/Types.v ===== *)
(** * Types: the engine's vocabulary

    The scalar types and enums of [src/infra/order_types.hpp], the messages the
    gateway and the matching engine pass each other
    ([src/infra/communication_proto.hpp]) and the compile-time configuration
    ([src/exchange/config/config.hpp]).  Scalars are [Z]; the record predicates
    below say when one fits its C++ width. *)

From S2P Require Import Prelude.

(** ** order_types.hpp *)

Inductive Side := BID | ASK.
Inductive OrderType := MARKET | LIMIT.
Inductive TimeInForce := DAY | IOC.

Global Instance Side_eq_dec : EqDecision Side.
Proof. solve_decision. Defined.
Global Instance OrderType_eq_dec : EqDecision OrderType.
Proof. solve_decision. Defined.
Global Instance TimeInForce_eq_dec : EqDecision TimeInForce.
Proof. solve_decision. Defined.

(** [OrderId], [Timestamp]: uint64; [ClientId], [Price], [Quantity]: uint32. *)

(** ** communication_proto.hpp *)

Inductive EngineRequestType := NEW | CANCEL | REPLACE.

Record EngineRequest := mkRequest {
  rq_read_begin_tsc : Z;
  rq_recv_tsc : Z;
  rq_server_push_tsc : Z;
  rq_order_id : Z;
  rq_new_order_id : Z;
  rq_client_id : Z;
  rq_price : Z;
  rq_quantity : Z;
  rq_type : EngineRequestType;
  rq_side : Side;
  rq_order_type : OrderType;
  rq_time_in_force : TimeInForce;
}.

Inductive EngineEventType := ACCEPTED | REPLACED | CANCELED | EXECUTED | REJECTED.

Global Instance EngineRequestType_eq_dec : EqDecision EngineRequestType.
Proof. solve_decision. Defined.
Global Instance EngineEventType_eq_dec : EqDecision EngineEventType.
Proof. solve_decision. Defined.

Definition kUserRequested : Z := ch "U".
Definition kImmediateOrCancel : Z := ch "I".
Definition kAddedLiquidity : Z := ch "A".
Definition kRemovedLiquidity : Z := ch "R".
Definition kBookFull : Z := ch "F".

Record EngineEvent := mkEvent {
  ev_read_begin_tsc : Z;
  ev_recv_tsc : Z;
  ev_server_push_tsc : Z;
  ev_engine_pop_tsc : Z;
  ev_engine_push_tsc : Z;
  ev_order_id : Z;
  ev_orig_order_id : Z;
  ev_match_number : Z;
  ev_client_id : Z;
  ev_price : Z;
  ev_quantity : Z;
  ev_type : EngineEventType;
  ev_reason : Z;
  ev_answers_request : bool;
}.

Global Instance EngineRequest_eq_dec : EqDecision EngineRequest.
Proof. solve_decision. Defined.
Global Instance EngineEvent_eq_dec : EqDecision EngineEvent.
Proof. solve_decision. Defined.

(** An event as the handlers write it, with designated initialisers: the stamps
    and [answers_request] are left zero for [emit] to fill. *)
Definition event (order_id orig_order_id match_number client_id price quantity : Z)
    (type : EngineEventType) (reason : Z) : EngineEvent :=
  mkEvent 0 0 0 0 0 order_id orig_order_id match_number client_id price quantity type reason false.

(** The members of a request fit their C++ types. *)
Definition request_wf (r : EngineRequest) : Prop :=
  is_u64 (rq_order_id r) /\ is_u64 (rq_new_order_id r) /\ is_u32 (rq_client_id r) /\
  is_u32 (rq_price r) /\ is_u32 (rq_quantity r).

(** ** config.hpp

    The macros the engine is compiled with, as a class so that every theorem holds
    for every configuration that satisfies the laws; [exchange_config] has the
    values of the repository. *)

Class BookConfig := {
  MIN_PRICE : Z;
  MAX_PRICE : Z;
  PREALLOCATION_COUNT : nat;
  BOOK_SYMBOL : list Z;
  BOOK_STOCK_LOCATE : Z;
  MIN_PRICE_nonneg : 0 <= MIN_PRICE;
  MIN_MAX_PRICE : MIN_PRICE <= MAX_PRICE;
  MAX_PRICE_itch : is_u32 (MAX_PRICE * 100);
  STOCK_LOCATE_u16 : is_u16 BOOK_STOCK_LOCATE;
}.

#[export] Program Instance exchange_config : BookConfig := {|
  MIN_PRICE := 1;
  MAX_PRICE := 1000 * 100;
  PREALLOCATION_COUNT := Z.to_nat 1000000;
  BOOK_SYMBOL := str "SIM";
  BOOK_STOCK_LOCATE := 1;
|}.
Solve Obligations with (unfold is_u32, is_u16; lia).

(** A small instance of the same book, on which the examples evaluate. *)
Program Definition small_config : BookConfig := {|
  MIN_PRICE := 1;
  MAX_PRICE := 8;
  PREALLOCATION_COUNT := 3;
  BOOK_SYMBOL := str "SIM";
  BOOK_STOCK_LOCATE := 1;
|}.
Solve Obligations with (unfold is_u32, is_u16; lia).

(** A price the dense ladder holds. *)
Definition in_band `{BookConfig} (price : Z) : Prop := MIN_PRICE <= price <= MAX_PRICE.
