(* ===== verification/Clock.v ===== *)
(** * Clock: wall-clock nanoseconds from the timestamp counter

    [TscClock] of [src/infra/tsc_clock.hpp].  The counter ([__rdtsc]) and the operating
    system's clocks are the environment: a sample is made of readings of both.  The rate
    is computed in floating point from two samples; a calibrated clock is the record of
    the three constants the conversions use. *)

From S2P Require Import Prelude.

Record TscClock := mkClock {
  anchor_tsc_ : Z;
  anchor_ns_since_midnight_ : Z;
  ns_per_tick_q32_ : Z;
}.

Definition kNsPerSec : Z := 1000000000.
Definition kNsPerDay : Z := 86400 * kNsPerSec.

(** The 64x64 -> 128-bit product, shifted and truncated to 64 bits. *)
Definition ticks_to_ns (c : TscClock) (ticks : Z) : Z :=
  u64 (Z.shiftr (ticks * ns_per_tick_q32_ c) 32).

Definition ns_since_midnight (c : TscClock) (tsc : Z) : Z :=
  let elapsed := if anchor_tsc_ c <? tsc then ticks_to_ns c (u64 (tsc - anchor_tsc_ c)) else 0 in
  let ns := u64 (anchor_ns_since_midnight_ c + elapsed) in
  if kNsPerDay <=? ns then ns mod kNsPerDay else ns.

(** The constructor's anchor: seconds since local midnight plus the nanoseconds of
    the wall-clock sample. *)
Definition anchor_of (tm_hour tm_min tm_sec tv_nsec : Z) : Z :=
  u64 ((tm_hour * 3600 + tm_min * 60 + tm_sec) * kNsPerSec + tv_nsec).

(** *** Sampling the system clock

    One reading: the counter before [clock_gettime], the [timespec], the counter after. *)
Record Reading := mkReading { rd_before : Z; rd_sec : Z; rd_nsec : Z; rd_after : Z }.
Record Sample := mkClockSample { smp_tsc : Z; smp_ns : Z }.

Definition kSampleRounds : nat := 16.

Definition to_ns (tv_sec tv_nsec : Z) : Z := u64 (u64 (u64 tv_sec * kNsPerSec) + u64 tv_nsec).

Definition reading_width (r : Reading) : Z := u64 (rd_after r - rd_before r).

(** The loop of [sample]: the reading with the narrowest bracket, its middle as the time. *)
Fixpoint sample_loop (readings : list Reading) (best : Sample) (best_width : Z) (out : Z * Z) : Sample * (Z * Z) :=
  match readings with
  | [] => (best, out)
  | r :: readings =>
      if reading_width r <? best_width
      then sample_loop readings (mkClockSample (u64 (rd_before r + reading_width r / 2)) (to_ns (rd_sec r) (rd_nsec r))) (reading_width r) (rd_sec r, rd_nsec r)
      else sample_loop readings best best_width out
  end.

(** [sample]: the best reading and its [timespec]. *)
Definition sample (readings : list Reading) (out : Z * Z) : Sample * (Z * Z) :=
  sample_loop (take kSampleRounds readings) (mkClockSample 0 0) 18446744073709551615 out.

Definition clock_wf (c : TscClock) : Prop :=
  is_u64 (anchor_tsc_ c) /\ 0 <= anchor_ns_since_midnight_ c < kNsPerDay + kNsPerSec /\
  is_u64 (ns_per_tick_q32_ c).

(** ** Lemmas *)

Lemma ns_since_midnight_range c tsc : 0 <= ns_since_midnight c tsc < kNsPerDay.
Proof.
  unfold ns_since_midnight. set (ns := u64 _).
  pose proof (u64_range (anchor_ns_since_midnight_ c +
    (if anchor_tsc_ c <? tsc then ticks_to_ns c (u64 (tsc - anchor_tsc_ c)) else 0))) as Hr.
  fold ns in Hr. case_if; zbool.
  - apply Z.mod_pos_bound. unfold kNsPerDay, kNsPerSec. lia.
  - ulia.
Qed.

Lemma ticks_to_ns_mono c t1 t2 :
  is_u64 (ns_per_tick_q32_ c) -> 0 <= t1 <= t2 ->
  is_u64 (Z.shiftr (t2 * ns_per_tick_q32_ c) 32) ->
  ticks_to_ns c t1 <= ticks_to_ns c t2.
Proof.
  intros Hq Ht Hr. unfold ticks_to_ns.
  assert (Z.shiftr (t1 * ns_per_tick_q32_ c) 32 <= Z.shiftr (t2 * ns_per_tick_q32_ c) 32) as Hle.
  { rewrite !Z.shiftr_div_pow2 by lia. apply Z.div_le_mono; [lia|].
    apply Z.mul_le_mono_nonneg_r; ulia. }
  assert (0 <= Z.shiftr (t1 * ns_per_tick_q32_ c) 32).
  { rewrite Z.shiftr_div_pow2 by lia. apply Z.div_pos; [|lia]. apply Z.mul_nonneg_nonneg; ulia. }
  rewrite !u64_id by ulia. done.
Qed.

(** A sample is as good as the best reading: it is the middle of the narrowest bracket, so
    the counter stood within it when the clock was read. *)
Lemma sample_narrowest readings out :
  readings <> [] -> Forall (fun r => is_u64 (rd_before r) /\ is_u64 (rd_after r) /\ rd_before r <= rd_after r /\ reading_width r < 18446744073709551615) readings ->
  length readings = kSampleRounds ->
  exists r, r ∈ readings /\ Forall (fun r' => reading_width r <= reading_width r') readings /\
    sample readings out = (mkClockSample (rd_before r + reading_width r / 2) (to_ns (rd_sec r) (rd_nsec r)), (rd_sec r, rd_nsec r)) /\
    rd_before r <= smp_tsc (sample readings out).1 <= rd_after r.
Proof.
  intros Hne Hok Hlen. unfold sample. rewrite take_ge by lia.
  assert (forall l best w o, Forall (fun r => is_u64 (rd_before r) /\ is_u64 (rd_after r) /\ rd_before r <= rd_after r /\ reading_width r < 18446744073709551615) l ->
    (sample_loop l best w o = (best, o) /\ Forall (fun r => w <= reading_width r) l) \/
    exists r, r ∈ l /\ Forall (fun r' => reading_width r <= reading_width r') l /\ reading_width r < w /\
      sample_loop l best w o = (mkClockSample (rd_before r + reading_width r / 2) (to_ns (rd_sec r) (rd_nsec r)), (rd_sec r, rd_nsec r)) /\
      rd_before r <= rd_before r + reading_width r / 2 <= rd_after r) as Hloop.
  { clear. induction l as [|r l IH]; intros best w o Hok; [by left|]. apply Forall_cons in Hok as [(Hb & Ha & Hle & Hw) Hok].
    assert (reading_width r = rd_after r - rd_before r) as Ew by (apply u64_id; ulia).
    assert (0 <= reading_width r / 2 <= reading_width r) as Hhalf by (rewrite Ew; split; [apply Z.div_pos|apply Z.div_le_upper_bound]; lia).
    cbn [sample_loop]. rewrite (u64_id (rd_before r + _)) by ulia. destruct (Z.ltb_spec (reading_width r) w) as [Hlt|Hge].
    - right. edestruct IH as [[-> Hall]|(r' & Hin & Hall & Hlt' & -> & Hr')]; [done| |].
      + exists r. split; [by left|]. split; [by apply Forall_cons|]. split; [done|]. split; [done|]. lia.
      + exists r'. split; [by right|]. split; [apply Forall_cons; split; [lia|done]|]. split; [lia|]. done.
    - edestruct (IH best w o) as [[-> Hall]|(r' & Hin & Hall & Hlt' & -> & Hr')]; [done| |].
      + left. split; [done|]. by apply Forall_cons.
      + right. exists r'. split; [by right|]. split; [apply Forall_cons; split; [lia|done]|]. done. }
  destruct (Hloop readings (mkClockSample 0 0) 18446744073709551615 out Hok) as [[_ Hall]|(r & Hin & Hall & _ & -> & Hr)]; [|by exists r].
  destruct readings as [|r l]; [done|]. apply Forall_cons in Hall as [Hall _]. apply Forall_cons in Hok as [(_ & _ & _ & Hw) _]. lia.
Qed.

(** ** Theorems *)

(** The time stamp of a market-data message is a time of day: for every clock
    and every reading of the counter it is below 24 hours in nanoseconds, so it
    fits the 48 bits the wire gives it. *)
Theorem timestamp_is_time_of_day c tsc :
  0 <= ns_since_midnight c tsc < kNsPerDay /\ kNsPerDay < 2 ^ 48.
Proof. split; [apply ns_since_midnight_range|done]. Qed.

(** Until midnight time does not run backwards: a later reading of the counter
    gives a later or equal time of day, as long as the day does not end. *)
Theorem clock_monotone c t1 t2 :
  clock_wf c -> is_u64 t1 -> is_u64 t2 -> t1 <= t2 ->
  anchor_ns_since_midnight_ c + Z.shiftr ((t2 - anchor_tsc_ c) * ns_per_tick_q32_ c) 32 < kNsPerDay ->
  anchor_ns_since_midnight_ c < kNsPerDay ->
  ns_since_midnight c t1 <= ns_since_midnight c t2.
Proof.
  intros (Ha & Hns & Hq) H1 H2 Hle Hday Hanchor. unfold ns_since_midnight.
  assert (forall t, is_u64 t -> t <= t2 -> anchor_tsc_ c < t ->
    u64 (t - anchor_tsc_ c) = t - anchor_tsc_ c /\ 0 <= ticks_to_ns c (t - anchor_tsc_ c) /\
    anchor_ns_since_midnight_ c + ticks_to_ns c (t - anchor_tsc_ c) < kNsPerDay) as Ht.
  { intros t Ht Ht2 Hat. split; [apply u64_id; ulia|].
    assert (0 <= Z.shiftr ((t - anchor_tsc_ c) * ns_per_tick_q32_ c) 32
            <= Z.shiftr ((t2 - anchor_tsc_ c) * ns_per_tick_q32_ c) 32) as Hs.
    { rewrite !Z.shiftr_div_pow2 by lia. split.
      - apply Z.div_pos; [|lia]. apply Z.mul_nonneg_nonneg; ulia.
      - apply Z.div_le_mono; [lia|]. apply Z.mul_le_mono_nonneg_r; ulia. }
    unfold ticks_to_ns. rewrite u64_id; [lia|]. unfold kNsPerDay, kNsPerSec in *. ulia. }
  assert (forall x, 0 <= x -> anchor_ns_since_midnight_ c + x < kNsPerDay ->
    u64 (anchor_ns_since_midnight_ c + x) = anchor_ns_since_midnight_ c + x) as Hu.
  { intros x Hx Hx'. apply u64_id. unfold kNsPerDay, kNsPerSec in *. ulia. }
  destruct (anchor_tsc_ c <? t1) eqn:E1, (anchor_tsc_ c <? t2) eqn:E2; zbool; try lia.
  - destruct (Ht t1 H1 Hle E1) as (-> & ? & ?), (Ht t2 H2 ltac:(lia) E2) as (-> & ? & ?).
    assert (ticks_to_ns c (t1 - anchor_tsc_ c) <= ticks_to_ns c (t2 - anchor_tsc_ c)).
    { apply ticks_to_ns_mono; [done|lia|]. unfold kNsPerDay, kNsPerSec in *.
      assert (0 <= Z.shiftr ((t2 - anchor_tsc_ c) * ns_per_tick_q32_ c) 32).
      { rewrite Z.shiftr_div_pow2 by lia. apply Z.div_pos; [|lia]. apply Z.mul_nonneg_nonneg; ulia. }
      ulia. }
    rewrite !Hu by lia. repeat case_if; zbool; lia.
  - destruct (Ht t2 H2 ltac:(lia) E2) as (-> & ? & ?). rewrite !Hu by lia. repeat case_if; zbool; lia.
Qed.

Lemma clock_monotone_witness :
  ns_since_midnight (mkClock 1000 34200000000000 (2 ^ 32)) 5000 <= ns_since_midnight (mkClock 1000 34200000000000 (2 ^ 32)) 9000.
Proof. apply clock_monotone; vm_compute; repeat split; congruence. Defined.
