(* ===== verification/ServerNetwork.v ===== *)
(** * ServerNetwork: which queues of the port the server's threads use
    ([ServerNetwork] of [src/exchange/server: server.hpp, server.cpp], [exchange/config])

    The port's queues are shared out once, before the threads start: the inbound thread
    polls [polled_rx] and sends on [control_tx], the outbound thread sends on [data_tx].
    The parameters of the DPDK run-time are the members the source sets; [None] is a
    member left to the library's default, and [RTE_IPV4] is DPDK's. *)

From S2P Require Import Prelude.

(** ** Data *)

(** The members of [dpdk::runtime_params] that are set. *)
Record EalSettings := mkEal {
  program_name : list Z;
  legacy_mem_mb : option Z;
  no_huge : option bool;
  no_pci : option bool;
  vdevs : option (list (list Z));
}.

Record Tap := mkTap { iface : list Z; kernel_ipv4 : Z; prefix_len : Z }.

Record ServerNetwork := mkNetwork {
  eal : EalSettings;
  rx_queues : Z;
  tx_queues : Z;
  polled_rx : list Z;
  control_tx : Z;
  data_tx : Z;
  net_ipv4 : Z;
  listen_port : Z;
  tap : option Tap;
}.

(** Configuration: addresses are their four octets. *)
Definition EXCHANGE_NETWORK_TAP : bool := true.
Definition EXCHANGE_TAP_IFACE : list Z := str "dpdktap0".
Definition EXCHANGE_KERNEL_IPV4 : Z * Z * Z * Z := (10, 77, 0, 1).
Definition EXCHANGE_IPV4 : Z * Z * Z * Z := (10, 77, 0, 2).
Definition EXCHANGE_PORT : Z := 4000.

Section Networks.
Context (RTE_IPV4 : Z -> Z -> Z -> Z -> Z).

Definition SERVER_IPV4 (octets : Z * Z * Z * Z) : Z := let '(a, b, c, d) := octets in RTE_IPV4 a b c d.

(** ** The networks *)

Definition nic : ServerNetwork :=
  mkNetwork (mkEal (str "exchange-server") None None None None) 1 2 [0] 0 1 (SERVER_IPV4 EXCHANGE_IPV4) EXCHANGE_PORT None.

Definition tap_interface (iface : list Z) : ServerNetwork :=
  let vdev := str "net_tap0,iface=" ++ iface in
  mkNetwork (mkEal (str "exchange-server") (Some 256) (Some true) (Some true) (Some [vdev])) 2 2 [0; 1] 0 1
    (SERVER_IPV4 EXCHANGE_IPV4) EXCHANGE_PORT (Some (mkTap iface (SERVER_IPV4 EXCHANGE_KERNEL_IPV4) 24)).

Definition from_config : ServerNetwork := if EXCHANGE_NETWORK_TAP then tap_interface EXCHANGE_TAP_IFACE else nic.

Definition loopback_test : ServerNetwork :=
  mkNetwork (mkEal (str "exchange-server") (Some 128) (Some true) (Some true) (Some [str "net_ring0"])) 3 3 [0] 1 2
    (SERVER_IPV4 EXCHANGE_IPV4) EXCHANGE_PORT None.

(** ** What the server needs of them *)

(** Every queue exists, no queue has two owners, and a tap has as many of the ones as of
    the others, and one to steer to. *)
Record queues_ok (n : ServerNetwork) : Prop := {
  qo_rx : Forall (fun q => 0 <= q < rx_queues n) (polled_rx n) /\ NoDup (polled_rx n);
  qo_tx : 0 <= control_tx n < tx_queues n /\ 0 <= data_tx n < tx_queues n /\ control_tx n <> data_tx n;
  qo_tap : is_Some (tap n) -> rx_queues n = tx_queues n /\ polled_rx n <> [];
}.

Lemma networks_queues_ok iface : Forall queues_ok [nic; tap_interface iface; from_config; loopback_test].
Proof.
  assert (queues_ok (tap_interface iface) /\ queues_ok from_config) as [Ht Hc].
  { split; (split; cbn; [|lia|by split]); (split; [repeat (apply Forall_cons; split; [lia|]); apply Forall_nil_2|]);
      repeat (apply NoDup_cons; split; [set_solver|]); apply NoDup_nil_2. }
  apply Forall_cons. split; [|do 2 (apply Forall_cons; split; [done|])].
  2: apply Forall_cons; split; [|apply Forall_nil_2].
  all: split; cbn; [|lia|by intros [? ?]]; (split; [apply Forall_singleton; lia|apply NoDup_singleton]).
Qed.

(** A server on the loopback never reads what it sends: the ring device turns queue [i]
    into queue [i]. *)
Lemma loopback_apart : control_tx loopback_test ∉ polled_rx loopback_test /\ data_tx loopback_test ∉ polled_rx loopback_test.
Proof. cbn. set_solver. Qed.

(** Clients behind the tap's kernel interface are on the server's network. *)
Hypothesis RTE_IPV4_octets : forall a b c d, is_u8 a -> is_u8 b -> is_u8 c -> is_u8 d ->
  RTE_IPV4 a b c d = 16777216 * a + 65536 * b + 256 * c + d.

Lemma tap_on_link iface t :
  tap (tap_interface iface) = Some t ->
  Z.shiftr (kernel_ipv4 t) (32 - prefix_len t) = Z.shiftr (net_ipv4 (tap_interface iface)) (32 - prefix_len t) /\
  kernel_ipv4 t <> net_ipv4 (tap_interface iface).
Proof. intros [= <-]. cbn [kernel_ipv4 prefix_len net_ipv4 tap_interface SERVER_IPV4 EXCHANGE_KERNEL_IPV4 EXCHANGE_IPV4]. rewrite !RTE_IPV4_octets by ulia. by split. Qed.
End Networks.
