(* ===== verification/ItchProto.v ===== *)
(** * ItchProto: ITCH 5.0 market data messages ([src/infra/itch_proto.hpp])

    The seven per-order messages as records, the union as an inductive type whose
    constructor is the active member, and the wire codec driven by one field list
    per message. *)

From S2P Require Import Prelude WireCodec.

(** ** Message types (the enumerators' bytes) *)

Definition ITCH_ADD_ORDER : Z := ch "A".
Definition ITCH_ORDER_EXECUTED : Z := ch "E".
Definition ITCH_ORDER_EXECUTED_W_PRICE : Z := ch "C".
Definition ITCH_ORDER_CANCEL : Z := ch "X".
Definition ITCH_ORDER_DELETE : Z := ch "D".
Definition ITCH_ORDER_REPLACE : Z := ch "U".
Definition ITCH_TRADE : Z := ch "P".

(** ** Messages *)

Record ItchHeader := mkItchHeader {
  ih_message_type : Z;
  ih_stock_locate : Z;
  ih_tracking_number : Z;
  ih_timestamp : Z;
}.
#[export] Instance ItchHeader_eta : Eta ItchHeader := fun m =>
  mkItchHeader (ih_message_type m) (ih_stock_locate m) (ih_tracking_number m) (ih_timestamp m).

(** Only the low 48 bits of the timestamp go on the wire ([io.u48]). *)
Definition ItchHeader_core : list (wire_field ItchHeader) :=
  [ io_u 1 ih_message_type; io_u 2 ih_stock_locate; io_u 2 ih_tracking_number; io_u 6 ih_timestamp ].

Record ItchAddOrder := mkItchAddOrder {
  ao_header : ItchHeader;
  ao_order_reference_number : Z;
  ao_buy_sell_indicator : Z;
  ao_shares : Z;
  ao_stock : list Z;
  ao_price : Z;
}.
#[export] Instance ItchAddOrder_eta : Eta ItchAddOrder := fun m =>
  mkItchAddOrder (ao_header m) (ao_order_reference_number m) (ao_buy_sell_indicator m) (ao_shares m) (ao_stock m) (ao_price m).

Record ItchOrderExecuted := mkItchOrderExecuted {
  oe_header : ItchHeader;
  oe_order_reference_number : Z;
  oe_executed_shares : Z;
  oe_match_number : Z;
}.
#[export] Instance ItchOrderExecuted_eta : Eta ItchOrderExecuted := fun m =>
  mkItchOrderExecuted (oe_header m) (oe_order_reference_number m) (oe_executed_shares m) (oe_match_number m).

Record ItchOrderExecutedWithPrice := mkItchOrderExecutedWithPrice {
  op_header : ItchHeader;
  op_order_reference_number : Z;
  op_executed_shares : Z;
  op_match_number : Z;
  op_printable : Z;
  op_execution_price : Z;
}.
#[export] Instance ItchOrderExecutedWithPrice_eta : Eta ItchOrderExecutedWithPrice := fun m =>
  mkItchOrderExecutedWithPrice (op_header m) (op_order_reference_number m) (op_executed_shares m) (op_match_number m) (op_printable m) (op_execution_price m).

Record ItchOrderCancel := mkItchOrderCancel {
  oc_header : ItchHeader;
  oc_order_reference_number : Z;
  oc_canceled_shares : Z;
}.
#[export] Instance ItchOrderCancel_eta : Eta ItchOrderCancel := fun m =>
  mkItchOrderCancel (oc_header m) (oc_order_reference_number m) (oc_canceled_shares m).

Record ItchOrderDelete := mkItchOrderDelete {
  od_header : ItchHeader;
  od_order_reference_number : Z;
}.
#[export] Instance ItchOrderDelete_eta : Eta ItchOrderDelete := fun m =>
  mkItchOrderDelete (od_header m) (od_order_reference_number m).

Record ItchOrderReplace := mkItchOrderReplace {
  orp_header : ItchHeader;
  orp_original_order_reference_number : Z;
  orp_new_order_reference_number : Z;
  orp_shares : Z;
  orp_price : Z;
}.
#[export] Instance ItchOrderReplace_eta : Eta ItchOrderReplace := fun m =>
  mkItchOrderReplace (orp_header m) (orp_original_order_reference_number m) (orp_new_order_reference_number m) (orp_shares m) (orp_price m).

Record ItchTrade := mkItchTrade {
  tr_header : ItchHeader;
  tr_order_reference_number : Z;
  tr_buy_sell_indicator : Z;
  tr_shares : Z;
  tr_stock : list Z;
  tr_price : Z;
  tr_match_number : Z;
}.
#[export] Instance ItchTrade_eta : Eta ItchTrade := fun m =>
  mkItchTrade (tr_header m) (tr_order_reference_number m) (tr_buy_sell_indicator m) (tr_shares m) (tr_stock m) (tr_price m) (tr_match_number m).

(** ** Field lists: every member in wire order, header first.  A message's
    [core] and default-constructed value, as the codec templates use them. *)

Class ItchMsg (T : Type) := {
  itch_core : list (wire_field T);
  itch_default : T;
}.

#[export] Instance ItchAddOrder_msg : ItchMsg ItchAddOrder := {|
  itch_core := (nested ao_header ltac:(field_setter ao_header) <$> ItchHeader_core) ++
  [ io_u 8 ao_order_reference_number; io_u 1 ao_buy_sell_indicator; io_u 4 ao_shares; io_a 8
    ao_stock; io_u 4 ao_price ];
  itch_default := mkItchAddOrder (mkItchHeader ITCH_ADD_ORDER 0 0 0) 0 0 0 (replicate 8 0) 0;
|}.

#[export] Instance ItchOrderExecuted_msg : ItchMsg ItchOrderExecuted := {|
  itch_core := (nested oe_header ltac:(field_setter oe_header) <$> ItchHeader_core) ++
  [ io_u 8 oe_order_reference_number; io_u 4 oe_executed_shares; io_u 8 oe_match_number ];
  itch_default := mkItchOrderExecuted (mkItchHeader ITCH_ORDER_EXECUTED 0 0 0) 0 0 0;
|}.

#[export] Instance ItchOrderExecutedWithPrice_msg : ItchMsg ItchOrderExecutedWithPrice := {|
  itch_core := (nested op_header ltac:(field_setter op_header) <$> ItchHeader_core) ++
  [ io_u 8 op_order_reference_number; io_u 4 op_executed_shares; io_u 8 op_match_number;
    io_u 1 op_printable; io_u 4 op_execution_price ];
  itch_default := mkItchOrderExecutedWithPrice (mkItchHeader ITCH_ORDER_EXECUTED_W_PRICE 0 0 0) 0 0 0 0 0;
|}.

#[export] Instance ItchOrderCancel_msg : ItchMsg ItchOrderCancel := {|
  itch_core := (nested oc_header ltac:(field_setter oc_header) <$> ItchHeader_core) ++
  [ io_u 8 oc_order_reference_number; io_u 4 oc_canceled_shares ];
  itch_default := mkItchOrderCancel (mkItchHeader ITCH_ORDER_CANCEL 0 0 0) 0 0;
|}.

#[export] Instance ItchOrderDelete_msg : ItchMsg ItchOrderDelete := {|
  itch_core := (nested od_header ltac:(field_setter od_header) <$> ItchHeader_core) ++
  [ io_u 8 od_order_reference_number ];
  itch_default := mkItchOrderDelete (mkItchHeader ITCH_ORDER_DELETE 0 0 0) 0;
|}.

#[export] Instance ItchOrderReplace_msg : ItchMsg ItchOrderReplace := {|
  itch_core := (nested orp_header ltac:(field_setter orp_header) <$> ItchHeader_core) ++
  [ io_u 8 orp_original_order_reference_number; io_u 8 orp_new_order_reference_number; io_u
    4 orp_shares; io_u 4 orp_price ];
  itch_default := mkItchOrderReplace (mkItchHeader ITCH_ORDER_REPLACE 0 0 0) 0 0 0 0;
|}.

#[export] Instance ItchTrade_msg : ItchMsg ItchTrade := {|
  itch_core := (nested tr_header ltac:(field_setter tr_header) <$> ItchHeader_core) ++
  [ io_u 8 tr_order_reference_number; io_u 1 tr_buy_sell_indicator; io_u 4 tr_shares; io_a 8
    tr_stock; io_u 4 tr_price; io_u 8 tr_match_number ];
  itch_default := mkItchTrade (mkItchHeader ITCH_TRADE 0 0 0) 0 0 0 (replicate 8 0) 0 0;
|}.

(** ** The union: its active member is the constructor. *)

Inductive ITCH :=
| ITCH_NONE
| itch_add_order (m : ItchAddOrder)
| itch_order_executed (m : ItchOrderExecuted)
| itch_order_executed_with_price (m : ItchOrderExecutedWithPrice)
| itch_order_cancel (m : ItchOrderCancel)
| itch_order_delete (m : ItchOrderDelete)
| itch_order_replace (m : ItchOrderReplace)
| itch_trade (m : ItchTrade).

(** [itch_detail::visit]: apply [fn] to the active member. *)
Definition visit {R} (msg : ITCH) (fn : forall T, ItchMsg T -> T -> R) (fallback : R) : R :=
  match msg with
  | ITCH_NONE => fallback
  | itch_add_order m => fn _ _ m
  | itch_order_executed m => fn _ _ m
  | itch_order_executed_with_price m => fn _ _ m
  | itch_order_cancel m => fn _ _ m
  | itch_order_delete m => fn _ _ m
  | itch_order_replace m => fn _ _ m
  | itch_trade m => fn _ _ m
  end.

(** ** Codec *)

Definition itch_detail_encoded_size {T} `{ItchMsg T} (msg : T) : nat := fields_size (itch_core (T:=T)).

(** The bytes written (0 when the buffer is too small) and the buffer afterwards. *)
Definition itch_detail_encode {T} `{ItchMsg T} (msg : T) (out : list Z) : nat * list Z :=
  let writer := write_fields itch_core msg (writer_init out) in
  (if w_ok writer then w_pos writer else 0%nat, w_out writer).

Definition itch_detail_decode {T} `{ItchMsg T} (bytes : list Z) (msg : T) : bool * T :=
  let '(reader, msg) := read_fields itch_core (reader_init bytes) msg in
  (r_ok reader && Nat.eqb (remaining reader) 0, msg).

Definition itch_encoded_size (msg : ITCH) : nat :=
  visit msg (fun T H m => itch_detail_encoded_size m) 0%nat.

Definition encode_itch (msg : ITCH) (out : list Z) : nat * list Z :=
  visit msg (fun T H m => itch_detail_encode m out) (0%nat, out).

Definition decode_as {T} `{ItchMsg T} (con : T -> ITCH) (bytes : list Z) : ITCH :=
  let '(ok, m) := itch_detail_decode bytes (itch_default (T:=T)) in
  if ok then con m else ITCH_NONE.

Definition decode_itch (bytes : list Z) : ITCH :=
  match bytes with
  | [] => ITCH_NONE
  | b0 :: _ =>
    if b0 =? ITCH_ADD_ORDER then decode_as itch_add_order bytes else
    if b0 =? ITCH_ORDER_EXECUTED then decode_as itch_order_executed bytes else
    if b0 =? ITCH_ORDER_EXECUTED_W_PRICE then decode_as itch_order_executed_with_price bytes else
    if b0 =? ITCH_ORDER_CANCEL then decode_as itch_order_cancel bytes else
    if b0 =? ITCH_ORDER_DELETE then decode_as itch_order_delete bytes else
    if b0 =? ITCH_ORDER_REPLACE then decode_as itch_order_replace bytes else
    if b0 =? ITCH_TRADE then decode_as itch_trade bytes else
    ITCH_NONE
  end.

(** ** Well-formed messages

    Every member fits its wire type and the header names the active member. *)

Definition itch_type (msg : ITCH) : Z :=
  match msg with
  | ITCH_NONE => 0
  | itch_add_order m => ITCH_ADD_ORDER
  | itch_order_executed m => ITCH_ORDER_EXECUTED
  | itch_order_executed_with_price m => ITCH_ORDER_EXECUTED_W_PRICE
  | itch_order_cancel m => ITCH_ORDER_CANCEL
  | itch_order_delete m => ITCH_ORDER_DELETE
  | itch_order_replace m => ITCH_ORDER_REPLACE
  | itch_trade m => ITCH_TRADE
  end.

Definition itch_header_of (msg : ITCH) : ItchHeader :=
  match msg with
  | ITCH_NONE => mkItchHeader 0 0 0 0
  | itch_add_order m => ao_header m
  | itch_order_executed m => oe_header m
  | itch_order_executed_with_price m => op_header m
  | itch_order_cancel m => oc_header m
  | itch_order_delete m => od_header m
  | itch_order_replace m => orp_header m
  | itch_trade m => tr_header m
  end.

Definition itch_wf (msg : ITCH) : Prop :=
  ih_message_type (itch_header_of msg) = itch_type msg /\
  visit msg (fun T H m => Forall (field_ok m) (itch_core (T:=T))) False.

(** ** Round trip *)

Definition itch_bytes (msg : ITCH) : list Z :=
  visit msg (fun T H m => encoding (itch_core (T:=T)) m) [].

Lemma itch_detail_encode_spec {T} `{ItchMsg T} (m : T) out :
  (length (encoding itch_core m) <= length out)%nat ->
  itch_detail_encode m out
  = (length (encoding itch_core m), encoding itch_core m ++ drop (length (encoding itch_core m)) out).
Proof.
  intros Hl. unfold itch_detail_encode. change (writer_init out) with (writer_at [] out).
  by rewrite write_fields_ok.
Qed.

Lemma itch_detail_encode_short {T} `{ItchMsg T} (m : T) out :
  (length out < length (encoding itch_core m))%nat -> (itch_detail_encode m out).1 = 0%nat.
Proof.
  intros Hl. unfold itch_detail_encode. change (writer_init out) with (writer_at [] out).
  simpl. by rewrite write_fields_short.
Qed.

Lemma itch_detail_decode_encoding {T} `{ItchMsg T} (m d : T) :
  Forall (field_ok m) itch_core ->
  itch_detail_decode (encoding itch_core m) d = (true, fold_left (assign m) itch_core d).
Proof.
  intros Hok. unfold itch_detail_decode.
  change (reader_init (encoding itch_core m)) with (reader_at [] (encoding itch_core m)).
  rewrite <- (app_nil_r (encoding itch_core m)), read_fields_ok by done. cbn.
  unfold remaining, reader_at; cbn. by rewrite app_nil_r, Nat.sub_diag.
Qed.

Lemma visit_encoding msg out :
  itch_wf msg -> (length (itch_bytes msg) <= length out)%nat ->
  encode_itch msg out = (length (itch_bytes msg), itch_bytes msg ++ drop (length (itch_bytes msg)) out).
Proof. intros Hwf Hl. destruct msg; [by destruct Hwf|..]; by apply itch_detail_encode_spec. Qed.

Lemma itch_encoded_size_bytes msg : itch_wf msg -> itch_encoded_size msg = length (itch_bytes msg).
Proof. intros [_ Hwf]. destruct msg; [done|..]; symmetry; by apply encoding_length. Qed.

(** The type byte comes first. *)
Lemma itch_bytes_head msg :
  itch_wf msg -> exists bs, itch_bytes msg = itch_type msg :: bs.
Proof.
  intros [Ht Hwf]. destruct msg as [|m|m|m|m|m|m|m]; [done|..];
    destruct m as [[ty ? ? ?]]; cbn in Ht; subst ty; by eexists.
Qed.

Lemma decode_as_encoding {T} `{ItchMsg T} (con : T -> ITCH) (m : T) :
  Forall (field_ok m) itch_core -> fold_left (assign m) itch_core itch_default = m ->
  decode_as con (encoding itch_core m) = con m.
Proof. intros Hok Heq. unfold decode_as. by rewrite itch_detail_decode_encoding, Heq. Qed.

Lemma decode_itch_bytes msg : itch_wf msg -> decode_itch (itch_bytes msg) = msg.
Proof.
  intros Hwf. destruct (itch_bytes_head msg Hwf) as [bs Hbs].
  assert (forall R (k : Z -> list Z -> R) n, match itch_bytes msg with [] => n | b0 :: _ => k b0 (itch_bytes msg) end
            = k (itch_type msg) (itch_bytes msg)) as Hdisp by (intros; by rewrite Hbs).
  unfold decode_itch. rewrite Hdisp with (k := fun b0 bytes => _). clear Hbs Hdisp.
  destruct Hwf as [_ Hwf]. destruct msg as [|m|m|m|m|m|m|m]; [done|..];
    unfold itch_type; repeat case_if; try done;
    (apply decode_as_encoding; [done | by destruct m as [[]]]).
Qed.

Lemma itch_detail_decode_length {T} `{ItchMsg T} bytes (d m : T) :
  itch_detail_decode bytes d = (true, m) -> (fields_size (itch_core (T:=T)) <= length bytes)%nat ->
  length bytes = fields_size (itch_core (T:=T)).
Proof.
  unfold itch_detail_decode. destruct (read_fields itch_core (reader_init bytes) d) as [r m'] eqn:E.
  intros [= [Hok Hrem]%andb_true_iff _] Hle. apply Nat.eqb_eq in Hrem.
  pose proof (read_fields_pos itch_core (reader_init bytes) d) as Hp. rewrite E in Hp. cbn in Hp.
  destruct (Hp Hok) as [Hin Hpos]. unfold remaining in Hrem. rewrite Hin, Hpos in Hrem. lia.
Qed.

Lemma decode_as_length {T} `{ItchMsg T} (con : T -> ITCH) bytes :
  decode_as con bytes <> ITCH_NONE -> length bytes = fields_size (itch_core (T:=T)) /\ exists m, decode_as con bytes = con m.
Proof.
  unfold decode_as. destruct (itch_detail_decode bytes itch_default) as [[|] m] eqn:E; [|done]. intros _.
  split; [|by exists m]. apply (itch_detail_decode_length _ _ _ E).
  destruct (decide (length bytes < fields_size (itch_core (T:=T)))%nat) as [Hlt|]; [|lia]. exfalso.
  pose proof (read_fields_short itch_core itch_default [] bytes Hlt) as Hs. unfold itch_detail_decode in E.
  change (reader_init bytes) with (reader_at [] bytes) in E.
  destruct (read_fields _ _ _) as [r m']. cbn in Hs. rewrite Hs in E. done.
Qed.

(** ** Theorems *)

(** C31: Every well-formed ITCH message survives the wire: encoding writes exactly
    its encoded size, decoding those bytes gives the message back, and a buffer
    that is too small is refused with 0. *)
Theorem itch_roundtrip msg out :
  itch_wf msg ->
  let '(n, bytes) := encode_itch msg out in
  if decide (itch_encoded_size msg <= length out)%nat
  then n = itch_encoded_size msg /\ decode_itch (take n bytes) = msg /\ drop n bytes = drop n out
  else n = 0%nat.
Proof.
  intros Hwf. rewrite (itch_encoded_size_bytes _ Hwf). case_decide as Hlen.
  - rewrite (visit_encoding _ _ Hwf Hlen). split; [done|]. rewrite take_app_length, drop_app_length.
    split; [by apply decode_itch_bytes|done].
  - destruct (encode_itch msg out) as [n bytes] eqn:E. apply (f_equal fst) in E. cbn in E. subst n.
    destruct Hwf as [_ Hwf]. destruct msg; [done|..];
      (apply itch_detail_encode_short; apply Nat.nle_gt in Hlen; exact Hlen).
Qed.

(** The decoder is strict: bytes it accepts are exactly as long as the message
    their type byte names, so a truncated or padded message is rejected. *)
Theorem itch_decode_strict bytes :
  decode_itch bytes <> ITCH_NONE -> length bytes = itch_encoded_size (decode_itch bytes).
Proof.
  unfold decode_itch. destruct bytes as [|b0 bs]; [done|]. set (bytes := b0 :: bs).
  repeat case_if; try done; intros Hne; destruct (decode_as_length _ _ Hne) as [Hl [m Hm]]; rewrite Hm; exact Hl.
Qed.

(** An execution of 100 shares of order 7. *)
Definition itch_example : ITCH :=
  itch_order_executed (mkItchOrderExecuted (mkItchHeader ITCH_ORDER_EXECUTED 1 0 34200000000000) 7 100 1).

Lemma itch_example_wf : itch_wf itch_example.
Proof. split; [done|]. repeat (apply Forall_cons; split; [by cbn|]). by apply Forall_nil. Qed.

Lemma itch_roundtrip_witness :
  decode_itch (take 31 (encode_itch itch_example (replicate 64 0)).2) = itch_example.
Proof. exact (proj1 (proj2 (itch_roundtrip itch_example (replicate 64 0) itch_example_wf))). Defined.

Lemma itch_decode_strict_witness :
  length (itch_bytes itch_example) = itch_encoded_size (decode_itch (itch_bytes itch_example)).
Proof. apply itch_decode_strict. vm_compute. discriminate. Defined.
