(* ===== verification/OuchProto.v ===== *)
(** * OuchProto: OUCH 5.0 order-entry messages ([src/infra/ouch_proto.hpp])

    The three inbound and five outbound messages as records with every core and
    appendage member, the two unions as inductive types whose constructor is the
    active member, and the codec: core fields, a 2-byte appendage length, then one
    TagValue element (length, tag, value) for each optional field present.  A
    [char] member is its byte.  The appendage loop runs on fuel, one unit per byte
    left; [OuchCorrect] proves that it never runs out. *)

From S2P Require Import Prelude WireCodec.

Definition kOuchMaxLimitPrice : Z := 1999999900.
Definition kOuchMarketPriceFloor : Z := 2000000000.

(** Order Rejected reason codes. *)
Module ouch_reject.
Definition kInvalidDisplay : Z := 0x0003.
Definition kInvalidMaxFloor : Z := 0x0004.
Definition kInvalidPegType : Z := 0x0005.
Definition kIsoNotAllowed : Z := 0x0008.
Definition kInvalidSide : Z := 0x0009.
Definition kProcessingError : Z := 0x000A.
Definition kInvalidMinQuantity : Z := 0x000D.
Definition kOther : Z := 0x000F.
Definition kInvalidQuantity : Z := 0x0013.
Definition kInvalidCrossOrder : Z := 0x0014.
Definition kInvalidPrice : Z := 0x001D.
End ouch_reject.

(** ** Option tags *)

Inductive OuchTag :=
| SECONDARY_ORD_REF_NUM | FIRM | MIN_QTY | CUSTOMER_TYPE | MAX_FLOOR | PRICE_TYPE | PEG_OFFSET
| DISCRETION_PRICE | DISCRETION_PRICE_TYPE | DISCRETION_PEG_OFFSET | POST_ONLY | RANDOM_RESERVES
| ROUTE | EXPIRE_TIME | TRADE_NOW | HANDLE_INST | BBO_WEIGHT_INDICATOR | DISPLAY_QUANTITY
| DISPLAY_PRICE | GROUP_ID | SHARES_LOCATED | LOCATE_BROKER | SIDE | USER_REF_IDX | AIQ_STRATEGY
| AIQ_GROUP_ID.

#[export] Instance OuchTag_eq_dec : EqDecision OuchTag.
Proof. solve_decision. Defined.

(** The enumerators' values on the wire. *)
Definition tag_byte (t : OuchTag) : Z :=
  match t with
  | SECONDARY_ORD_REF_NUM => 1 | FIRM => 2 | MIN_QTY => 3 | CUSTOMER_TYPE => 4 | MAX_FLOOR => 5
  | PRICE_TYPE => 6 | PEG_OFFSET => 7 | DISCRETION_PRICE => 9 | DISCRETION_PRICE_TYPE => 10
  | DISCRETION_PEG_OFFSET => 11 | POST_ONLY => 12 | RANDOM_RESERVES => 13 | ROUTE => 14
  | EXPIRE_TIME => 15 | TRADE_NOW => 16 | HANDLE_INST => 17 | BBO_WEIGHT_INDICATOR => 18
  | DISPLAY_QUANTITY => 22 | DISPLAY_PRICE => 23 | GROUP_ID => 24 | SHARES_LOCATED => 25
  | LOCATE_BROKER => 26 | SIDE => 27 | USER_REF_IDX => 28 | AIQ_STRATEGY => 29 | AIQ_GROUP_ID => 30
  end.

(** [OuchTagSet]: one bit per tag in 32 bits. *)
Definition OuchTagSet : Type := Z.

Definition tag_set_empty : OuchTagSet := 0.
Definition tag_bit (tag : OuchTag) : Z := u32 (Z.shiftl 1 (tag_byte tag)).
Definition tag_has (tag : OuchTag) (bits : OuchTagSet) : bool := negb (Z.land bits (tag_bit tag) =? 0).
Definition tag_set (tag : OuchTag) (bits : OuchTagSet) : OuchTagSet := Z.lor bits (tag_bit tag).
Definition tag_set_is_empty (bits : OuchTagSet) : bool := bits =? 0.

(** ** Message types (the enumerators' bytes) *)

Definition INBOUND_ENTER_ORDER : Z := ch "O".
Definition INBOUND_REPLACE_ORDER : Z := ch "U".
Definition INBOUND_CANCEL_ORDER : Z := ch "X".

Definition OUTBOUND_ORDER_ACCEPTED : Z := ch "A".
Definition OUTBOUND_ORDER_REPLACED : Z := ch "U".
Definition OUTBOUND_ORDER_CANCELED : Z := ch "C".
Definition OUTBOUND_ORDER_EXECUTED : Z := ch "E".
Definition OUTBOUND_ORDER_REJECTED : Z := ch "J".

(** ** Messages *)

Record OuchEnterOrder := mkOuchEnterOrder {
  eo_message_type : Z;
  eo_user_ref_num : Z;
  eo_side : Z;
  eo_quantity : Z;
  eo_symbol : list Z;
  eo_price : Z;
  eo_time_in_force : Z;
  eo_display : Z;
  eo_capacity : Z;
  eo_intermarket_sweep_eligibility : Z;
  eo_cross_type : Z;
  eo_cl_ord_id : list Z;
  eo_firm : list Z;
  eo_min_qty : Z;
  eo_customer_type : Z;
  eo_max_floor : Z;
  eo_price_type : Z;
  eo_peg_offset : Z;
  eo_discretion_price : Z;
  eo_discretion_price_type : Z;
  eo_discretion_peg_offset : Z;
  eo_post_only : Z;
  eo_random_reserves : Z;
  eo_expire_time : Z;
  eo_trade_now : Z;
  eo_handle_inst : Z;
  eo_group_id : Z;
  eo_shares_located : Z;
  eo_locate_broker : list Z;
  eo_user_ref_idx : Z;
  eo_aiq_strategy : Z;
  eo_aiq_group_id : list Z;
  eo_appendage : OuchTagSet;
}.
#[export] Instance OuchEnterOrder_eta : Eta OuchEnterOrder := fun m =>
  mkOuchEnterOrder
    (eo_message_type m) (eo_user_ref_num m) (eo_side m) (eo_quantity m) (eo_symbol m) (eo_price m)
    (eo_time_in_force m) (eo_display m) (eo_capacity m) (eo_intermarket_sweep_eligibility m)
    (eo_cross_type m) (eo_cl_ord_id m) (eo_firm m) (eo_min_qty m) (eo_customer_type m) (eo_max_floor m)
    (eo_price_type m) (eo_peg_offset m) (eo_discretion_price m) (eo_discretion_price_type m)
    (eo_discretion_peg_offset m) (eo_post_only m) (eo_random_reserves m) (eo_expire_time m) (eo_trade_now m)
    (eo_handle_inst m) (eo_group_id m) (eo_shares_located m) (eo_locate_broker m) (eo_user_ref_idx m)
    (eo_aiq_strategy m) (eo_aiq_group_id m) (eo_appendage m).

Record OuchReplaceOrder := mkOuchReplaceOrder {
  ro_message_type : Z;
  ro_orig_user_ref_num : Z;
  ro_user_ref_num : Z;
  ro_quantity : Z;
  ro_price : Z;
  ro_time_in_force : Z;
  ro_display : Z;
  ro_intermarket_sweep_eligibility : Z;
  ro_cl_ord_id : list Z;
  ro_min_qty : Z;
  ro_max_floor : Z;
  ro_price_type : Z;
  ro_peg_offset : Z;
  ro_discretion_price : Z;
  ro_discretion_price_type : Z;
  ro_discretion_peg_offset : Z;
  ro_post_only : Z;
  ro_random_reserves : Z;
  ro_expire_time : Z;
  ro_trade_now : Z;
  ro_handle_inst : Z;
  ro_shares_located : Z;
  ro_locate_broker : list Z;
  ro_side : Z;
  ro_user_ref_idx : Z;
  ro_aiq_strategy : Z;
  ro_aiq_group_id : list Z;
  ro_appendage : OuchTagSet;
}.
#[export] Instance OuchReplaceOrder_eta : Eta OuchReplaceOrder := fun m =>
  mkOuchReplaceOrder
    (ro_message_type m) (ro_orig_user_ref_num m) (ro_user_ref_num m) (ro_quantity m) (ro_price m)
    (ro_time_in_force m) (ro_display m) (ro_intermarket_sweep_eligibility m) (ro_cl_ord_id m) (ro_min_qty m)
    (ro_max_floor m) (ro_price_type m) (ro_peg_offset m) (ro_discretion_price m) (ro_discretion_price_type m)
    (ro_discretion_peg_offset m) (ro_post_only m) (ro_random_reserves m) (ro_expire_time m) (ro_trade_now m)
    (ro_handle_inst m) (ro_shares_located m) (ro_locate_broker m) (ro_side m) (ro_user_ref_idx m)
    (ro_aiq_strategy m) (ro_aiq_group_id m) (ro_appendage m).

Record OuchCancelOrder := mkOuchCancelOrder {
  xo_message_type : Z;
  xo_user_ref_num : Z;
  xo_quantity : Z;
  xo_user_ref_idx : Z;
  xo_appendage : OuchTagSet;
}.
#[export] Instance OuchCancelOrder_eta : Eta OuchCancelOrder := fun m =>
  mkOuchCancelOrder
    (xo_message_type m) (xo_user_ref_num m) (xo_quantity m) (xo_user_ref_idx m) (xo_appendage m).

Record OuchOrderAccepted := mkOuchOrderAccepted {
  acc_message_type : Z;
  acc_timestamp : Z;
  acc_user_ref_num : Z;
  acc_side : Z;
  acc_quantity : Z;
  acc_symbol : list Z;
  acc_price : Z;
  acc_time_in_force : Z;
  acc_display : Z;
  acc_order_reference_number : Z;
  acc_capacity : Z;
  acc_intermarket_sweep_eligibility : Z;
  acc_cross_type : Z;
  acc_order_state : Z;
  acc_cl_ord_id : list Z;
  acc_firm : list Z;
  acc_min_qty : Z;
  acc_customer_type : Z;
  acc_max_floor : Z;
  acc_price_type : Z;
  acc_peg_offset : Z;
  acc_discretion_price : Z;
  acc_discretion_price_type : Z;
  acc_discretion_peg_offset : Z;
  acc_post_only : Z;
  acc_random_reserves : Z;
  acc_route : list Z;
  acc_expire_time : Z;
  acc_trade_now : Z;
  acc_handle_inst : Z;
  acc_bbo_weight_indicator : Z;
  acc_group_id : Z;
  acc_shares_located : Z;
  acc_user_ref_idx : Z;
  acc_aiq_strategy : Z;
  acc_aiq_group_id : list Z;
  acc_appendage : OuchTagSet;
}.
#[export] Instance OuchOrderAccepted_eta : Eta OuchOrderAccepted := fun m =>
  mkOuchOrderAccepted
    (acc_message_type m) (acc_timestamp m) (acc_user_ref_num m) (acc_side m) (acc_quantity m) (acc_symbol m)
    (acc_price m) (acc_time_in_force m) (acc_display m) (acc_order_reference_number m) (acc_capacity m)
    (acc_intermarket_sweep_eligibility m) (acc_cross_type m) (acc_order_state m) (acc_cl_ord_id m)
    (acc_firm m) (acc_min_qty m) (acc_customer_type m) (acc_max_floor m) (acc_price_type m)
    (acc_peg_offset m) (acc_discretion_price m) (acc_discretion_price_type m) (acc_discretion_peg_offset m)
    (acc_post_only m) (acc_random_reserves m) (acc_route m) (acc_expire_time m) (acc_trade_now m)
    (acc_handle_inst m) (acc_bbo_weight_indicator m) (acc_group_id m) (acc_shares_located m)
    (acc_user_ref_idx m) (acc_aiq_strategy m) (acc_aiq_group_id m) (acc_appendage m).

Record OuchOrderReplaced := mkOuchOrderReplaced {
  rep_message_type : Z;
  rep_timestamp : Z;
  rep_orig_user_ref_num : Z;
  rep_user_ref_num : Z;
  rep_side : Z;
  rep_quantity : Z;
  rep_symbol : list Z;
  rep_price : Z;
  rep_time_in_force : Z;
  rep_display : Z;
  rep_order_reference_number : Z;
  rep_capacity : Z;
  rep_intermarket_sweep_eligibility : Z;
  rep_cross_type : Z;
  rep_order_state : Z;
  rep_cl_ord_id : list Z;
  rep_firm : list Z;
  rep_min_qty : Z;
  rep_max_floor : Z;
  rep_price_type : Z;
  rep_post_only : Z;
  rep_expire_time : Z;
  rep_trade_now : Z;
  rep_handle_inst : Z;
  rep_bbo_weight_indicator : Z;
  rep_user_ref_idx : Z;
  rep_aiq_strategy : Z;
  rep_aiq_group_id : list Z;
  rep_appendage : OuchTagSet;
}.
#[export] Instance OuchOrderReplaced_eta : Eta OuchOrderReplaced := fun m =>
  mkOuchOrderReplaced
    (rep_message_type m) (rep_timestamp m) (rep_orig_user_ref_num m) (rep_user_ref_num m) (rep_side m)
    (rep_quantity m) (rep_symbol m) (rep_price m) (rep_time_in_force m) (rep_display m)
    (rep_order_reference_number m) (rep_capacity m) (rep_intermarket_sweep_eligibility m) (rep_cross_type m)
    (rep_order_state m) (rep_cl_ord_id m) (rep_firm m) (rep_min_qty m) (rep_max_floor m) (rep_price_type m)
    (rep_post_only m) (rep_expire_time m) (rep_trade_now m) (rep_handle_inst m) (rep_bbo_weight_indicator m)
    (rep_user_ref_idx m) (rep_aiq_strategy m) (rep_aiq_group_id m) (rep_appendage m).

Record OuchOrderCanceled := mkOuchOrderCanceled {
  can_message_type : Z;
  can_timestamp : Z;
  can_user_ref_num : Z;
  can_decrement_shares : Z;
  can_reason : Z;
  can_user_ref_idx : Z;
  can_appendage : OuchTagSet;
}.
#[export] Instance OuchOrderCanceled_eta : Eta OuchOrderCanceled := fun m =>
  mkOuchOrderCanceled
    (can_message_type m) (can_timestamp m) (can_user_ref_num m) (can_decrement_shares m) (can_reason m)
    (can_user_ref_idx m) (can_appendage m).

Record OuchOrderExecuted := mkOuchOrderExecuted {
  exe_message_type : Z;
  exe_timestamp : Z;
  exe_user_ref_num : Z;
  exe_executed_shares : Z;
  exe_execution_price : Z;
  exe_liquidity_flag : Z;
  exe_match_number : Z;
  exe_user_ref_idx : Z;
  exe_appendage : OuchTagSet;
}.
#[export] Instance OuchOrderExecuted_eta : Eta OuchOrderExecuted := fun m =>
  mkOuchOrderExecuted
    (exe_message_type m) (exe_timestamp m) (exe_user_ref_num m) (exe_executed_shares m)
    (exe_execution_price m) (exe_liquidity_flag m) (exe_match_number m) (exe_user_ref_idx m)
    (exe_appendage m).

Record OuchOrderRejected := mkOuchOrderRejected {
  rej_message_type : Z;
  rej_timestamp : Z;
  rej_user_ref_num : Z;
  rej_reason : Z;
  rej_cl_ord_id : list Z;
  rej_user_ref_idx : Z;
  rej_appendage : OuchTagSet;
}.
#[export] Instance OuchOrderRejected_eta : Eta OuchOrderRejected := fun m =>
  mkOuchOrderRejected
    (rej_message_type m) (rej_timestamp m) (rej_user_ref_num m) (rej_reason m) (rej_cl_ord_id m)
    (rej_user_ref_idx m) (rej_appendage m).

(** ** Field lists

    What the codec templates use of a message: [core] and [tags], the appendage
    member and the default-constructed value. *)

Class OuchMsg (T : Type) := {
  ouch_core : list (wire_field T);
  ouch_tags : list (OuchTag * wire_field T);
  appendage : T -> OuchTagSet;
  set_appendage : OuchTagSet -> T -> T;
  ouch_default : T;
}.

#[export] Instance OuchEnterOrder_msg : OuchMsg OuchEnterOrder := {|
  ouch_core :=
  [ io_u 1 eo_message_type; io_u 4 eo_user_ref_num; io_u 1 eo_side; io_u 4 eo_quantity; io_a 8 eo_symbol;
    io_u 8 eo_price; io_u 1 eo_time_in_force; io_u 1 eo_display; io_u 1 eo_capacity;
    io_u 1 eo_intermarket_sweep_eligibility; io_u 1 eo_cross_type; io_a 14 eo_cl_ord_id ];
  ouch_tags :=
  [ (FIRM, io_a 4 eo_firm); (MIN_QTY, io_u 4 eo_min_qty); (CUSTOMER_TYPE, io_u 1 eo_customer_type);
    (MAX_FLOOR, io_u 4 eo_max_floor); (PRICE_TYPE, io_u 1 eo_price_type); (PEG_OFFSET, io_i 4 eo_peg_offset);
    (DISCRETION_PRICE, io_u 8 eo_discretion_price); (DISCRETION_PRICE_TYPE, io_u 1 eo_discretion_price_type);
    (DISCRETION_PEG_OFFSET, io_i 4 eo_discretion_peg_offset); (POST_ONLY, io_u 1 eo_post_only);
    (RANDOM_RESERVES, io_u 4 eo_random_reserves); (EXPIRE_TIME, io_u 4 eo_expire_time);
    (TRADE_NOW, io_u 1 eo_trade_now); (HANDLE_INST, io_u 1 eo_handle_inst); (GROUP_ID, io_u 2 eo_group_id);
    (SHARES_LOCATED, io_u 1 eo_shares_located); (LOCATE_BROKER, io_a 4 eo_locate_broker);
    (USER_REF_IDX, io_u 1 eo_user_ref_idx); (AIQ_STRATEGY, io_u 1 eo_aiq_strategy);
    (AIQ_GROUP_ID, io_a 2 eo_aiq_group_id) ];
  appendage := eo_appendage;
  set_appendage := ltac:(field_setter eo_appendage);
  ouch_default := mkOuchEnterOrder
    INBOUND_ENTER_ORDER 0 0 0 (replicate 8 0) 0 0 0 0 0 0 (replicate 14 0) (replicate 4 (ch " ")) 0 (ch " ")
    0 (ch "L") 0 0 (ch "L") 0 (ch "N") 0 0 (ch "N") (ch " ") 0 (ch "N") (replicate 4 0) 0 (ch "*")
    (replicate 2 (ch "*")) tag_set_empty;
|}.

#[export] Instance OuchReplaceOrder_msg : OuchMsg OuchReplaceOrder := {|
  ouch_core :=
  [ io_u 1 ro_message_type; io_u 4 ro_orig_user_ref_num; io_u 4 ro_user_ref_num; io_u 4 ro_quantity;
    io_u 8 ro_price; io_u 1 ro_time_in_force; io_u 1 ro_display; io_u 1 ro_intermarket_sweep_eligibility;
    io_a 14 ro_cl_ord_id ];
  ouch_tags :=
  [ (MIN_QTY, io_u 4 ro_min_qty); (MAX_FLOOR, io_u 4 ro_max_floor); (PRICE_TYPE, io_u 1 ro_price_type);
    (PEG_OFFSET, io_i 4 ro_peg_offset); (DISCRETION_PRICE, io_u 8 ro_discretion_price);
    (DISCRETION_PRICE_TYPE, io_u 1 ro_discretion_price_type);
    (DISCRETION_PEG_OFFSET, io_i 4 ro_discretion_peg_offset); (POST_ONLY, io_u 1 ro_post_only);
    (RANDOM_RESERVES, io_u 4 ro_random_reserves); (EXPIRE_TIME, io_u 4 ro_expire_time);
    (TRADE_NOW, io_u 1 ro_trade_now); (HANDLE_INST, io_u 1 ro_handle_inst);
    (SHARES_LOCATED, io_u 1 ro_shares_located); (LOCATE_BROKER, io_a 4 ro_locate_broker);
    (SIDE, io_u 1 ro_side); (USER_REF_IDX, io_u 1 ro_user_ref_idx); (AIQ_STRATEGY, io_u 1 ro_aiq_strategy);
    (AIQ_GROUP_ID, io_a 2 ro_aiq_group_id) ];
  appendage := ro_appendage;
  set_appendage := ltac:(field_setter ro_appendage);
  ouch_default := mkOuchReplaceOrder
    INBOUND_REPLACE_ORDER 0 0 0 0 0 0 0 (replicate 14 0) 0 0 (ch "L") 0 0 (ch "L") 0 (ch "N") 0 0 (ch "N")
    (ch " ") (ch "N") (replicate 4 0) (ch " ") 0 (ch "*") (replicate 2 (ch "*")) tag_set_empty;
|}.

#[export] Instance OuchCancelOrder_msg : OuchMsg OuchCancelOrder := {|
  ouch_core :=
  [ io_u 1 xo_message_type; io_u 4 xo_user_ref_num; io_u 4 xo_quantity ];
  ouch_tags :=
  [ (USER_REF_IDX, io_u 1 xo_user_ref_idx) ];
  appendage := xo_appendage;
  set_appendage := ltac:(field_setter xo_appendage);
  ouch_default := mkOuchCancelOrder
    INBOUND_CANCEL_ORDER 0 0 0 tag_set_empty;
|}.

#[export] Instance OuchOrderAccepted_msg : OuchMsg OuchOrderAccepted := {|
  ouch_core :=
  [ io_u 1 acc_message_type; io_u 8 acc_timestamp; io_u 4 acc_user_ref_num; io_u 1 acc_side;
    io_u 4 acc_quantity; io_a 8 acc_symbol; io_u 8 acc_price; io_u 1 acc_time_in_force; io_u 1 acc_display;
    io_u 8 acc_order_reference_number; io_u 1 acc_capacity; io_u 1 acc_intermarket_sweep_eligibility;
    io_u 1 acc_cross_type; io_u 1 acc_order_state; io_a 14 acc_cl_ord_id ];
  ouch_tags :=
  [ (FIRM, io_a 4 acc_firm); (MIN_QTY, io_u 4 acc_min_qty); (CUSTOMER_TYPE, io_u 1 acc_customer_type);
    (MAX_FLOOR, io_u 4 acc_max_floor); (PRICE_TYPE, io_u 1 acc_price_type);
    (PEG_OFFSET, io_i 4 acc_peg_offset); (DISCRETION_PRICE, io_u 8 acc_discretion_price);
    (DISCRETION_PRICE_TYPE, io_u 1 acc_discretion_price_type);
    (DISCRETION_PEG_OFFSET, io_i 4 acc_discretion_peg_offset); (POST_ONLY, io_u 1 acc_post_only);
    (RANDOM_RESERVES, io_u 4 acc_random_reserves); (ROUTE, io_a 4 acc_route);
    (EXPIRE_TIME, io_u 4 acc_expire_time); (TRADE_NOW, io_u 1 acc_trade_now);
    (HANDLE_INST, io_u 1 acc_handle_inst); (BBO_WEIGHT_INDICATOR, io_u 1 acc_bbo_weight_indicator);
    (GROUP_ID, io_u 2 acc_group_id); (SHARES_LOCATED, io_u 1 acc_shares_located);
    (USER_REF_IDX, io_u 1 acc_user_ref_idx); (AIQ_STRATEGY, io_u 1 acc_aiq_strategy);
    (AIQ_GROUP_ID, io_a 2 acc_aiq_group_id) ];
  appendage := acc_appendage;
  set_appendage := ltac:(field_setter acc_appendage);
  ouch_default := mkOuchOrderAccepted
    OUTBOUND_ORDER_ACCEPTED 0 0 0 0 (replicate 8 0) 0 0 0 0 0 0 0 0 (replicate 14 0) (replicate 4 (ch " ")) 0
    (ch " ") 0 (ch "L") 0 0 (ch "L") 0 (ch "N") 0 (replicate 4 0) 0 (ch "N") (ch " ") (ch " ") 0 (ch "N") 0
    (ch "*") (replicate 2 (ch "*")) tag_set_empty;
|}.

#[export] Instance OuchOrderReplaced_msg : OuchMsg OuchOrderReplaced := {|
  ouch_core :=
  [ io_u 1 rep_message_type; io_u 8 rep_timestamp; io_u 4 rep_orig_user_ref_num; io_u 4 rep_user_ref_num;
    io_u 1 rep_side; io_u 4 rep_quantity; io_a 8 rep_symbol; io_u 8 rep_price; io_u 1 rep_time_in_force;
    io_u 1 rep_display; io_u 8 rep_order_reference_number; io_u 1 rep_capacity;
    io_u 1 rep_intermarket_sweep_eligibility; io_u 1 rep_cross_type; io_u 1 rep_order_state;
    io_a 14 rep_cl_ord_id ];
  ouch_tags :=
  [ (FIRM, io_a 4 rep_firm); (MIN_QTY, io_u 4 rep_min_qty); (MAX_FLOOR, io_u 4 rep_max_floor);
    (PRICE_TYPE, io_u 1 rep_price_type); (POST_ONLY, io_u 1 rep_post_only);
    (EXPIRE_TIME, io_u 4 rep_expire_time); (TRADE_NOW, io_u 1 rep_trade_now);
    (HANDLE_INST, io_u 1 rep_handle_inst); (BBO_WEIGHT_INDICATOR, io_u 1 rep_bbo_weight_indicator);
    (USER_REF_IDX, io_u 1 rep_user_ref_idx); (AIQ_STRATEGY, io_u 1 rep_aiq_strategy);
    (AIQ_GROUP_ID, io_a 2 rep_aiq_group_id) ];
  appendage := rep_appendage;
  set_appendage := ltac:(field_setter rep_appendage);
  ouch_default := mkOuchOrderReplaced
    OUTBOUND_ORDER_REPLACED 0 0 0 0 0 (replicate 8 0) 0 0 0 0 0 0 0 0 (replicate 14 0) (replicate 4 (ch " "))
    0 0 (ch "L") (ch "N") 0 (ch "N") (ch " ") (ch " ") 0 (ch "*") (replicate 2 (ch "*")) tag_set_empty;
|}.

#[export] Instance OuchOrderCanceled_msg : OuchMsg OuchOrderCanceled := {|
  ouch_core :=
  [ io_u 1 can_message_type; io_u 8 can_timestamp; io_u 4 can_user_ref_num; io_u 4 can_decrement_shares;
    io_u 1 can_reason ];
  ouch_tags :=
  [ (USER_REF_IDX, io_u 1 can_user_ref_idx) ];
  appendage := can_appendage;
  set_appendage := ltac:(field_setter can_appendage);
  ouch_default := mkOuchOrderCanceled
    OUTBOUND_ORDER_CANCELED 0 0 0 0 0 tag_set_empty;
|}.

#[export] Instance OuchOrderExecuted_msg : OuchMsg OuchOrderExecuted := {|
  ouch_core :=
  [ io_u 1 exe_message_type; io_u 8 exe_timestamp; io_u 4 exe_user_ref_num; io_u 4 exe_executed_shares;
    io_u 8 exe_execution_price; io_u 1 exe_liquidity_flag; io_u 8 exe_match_number ];
  ouch_tags :=
  [ (USER_REF_IDX, io_u 1 exe_user_ref_idx) ];
  appendage := exe_appendage;
  set_appendage := ltac:(field_setter exe_appendage);
  ouch_default := mkOuchOrderExecuted
    OUTBOUND_ORDER_EXECUTED 0 0 0 0 0 0 0 tag_set_empty;
|}.

#[export] Instance OuchOrderRejected_msg : OuchMsg OuchOrderRejected := {|
  ouch_core :=
  [ io_u 1 rej_message_type; io_u 8 rej_timestamp; io_u 4 rej_user_ref_num; io_u 2 rej_reason;
    io_a 14 rej_cl_ord_id ];
  ouch_tags :=
  [ (USER_REF_IDX, io_u 1 rej_user_ref_idx) ];
  appendage := rej_appendage;
  set_appendage := ltac:(field_setter rej_appendage);
  ouch_default := mkOuchOrderRejected
    OUTBOUND_ORDER_REJECTED 0 0 0 (replicate 14 0) 0 tag_set_empty;
|}.

(** ** The unions: the active member is the constructor *)

Inductive OuchInboundFrame :=
| INBOUND_NONE
| enter_order (m : OuchEnterOrder)
| replace_order (m : OuchReplaceOrder)
| cancel_order (m : OuchCancelOrder).

Inductive OuchOutboundFrame :=
| OUTBOUND_NONE
| order_accepted (m : OuchOrderAccepted)
| order_replaced (m : OuchOrderReplaced)
| order_canceled (m : OuchOrderCanceled)
| order_executed (m : OuchOrderExecuted)
| order_rejected (m : OuchOrderRejected).

(** ** Codec templates ([namespace ouch_detail]) *)

Definition kAppendageLengthLen : nat := 2.
Definition kTagValueHeaderLen : nat := 2.

Definition ouch_detail_encoded_size {T} `{OuchMsg T} (msg : T) : nat :=
  fold_left (fun size '(tag, field) =>
    if tag_has tag (appendage msg) then (size + (kTagValueHeaderLen + wire_size field))%nat else size)
    ouch_tags (fields_size (ouch_core (T:=T)) + kAppendageLengthLen)%nat.

(** The lambda of [encode]: one TagValue element when the tag is present. *)
Definition write_tag {T} `{OuchMsg T} (msg : T) (w : WireWriter) (tf : OuchTag * wire_field T) : WireWriter :=
  let '(tag, field) := tf in
  if negb (tag_has tag (appendage msg)) then w else
  let w := write_bytes (store 1 (u8 (1 + Z.of_nat (wire_size field)))) w in
  let w := write_bytes (store 1 (tag_byte tag)) w in
  write_field msg w field.

(** The bytes written (0 when the buffer is too small) and the buffer afterwards. *)
Definition ouch_detail_encode {T} `{OuchMsg T} (msg : T) (out : list Z) : nat * list Z :=
  let w := write_fields ouch_core msg (writer_init out) in
  let '(appendage_length, w) := writer_skip kAppendageLengthLen w in
  let appendage_begin := w_pos w in
  let w := fold_left (write_tag msg) ouch_tags w in
  match w_ok w, appendage_length with
  | true, Some dst =>
      (w_pos w, memcpy dst (store 2 (u16 (Z.of_nat (w_pos w - appendage_begin)))) (w_out w))
  | _, _ => (0%nat, w_out w)
  end.

(** The lambda of [decode]: the field of tag [raw_tag], if this message has it,
    takes [value]; a value of another width makes the message malformed. *)
Definition read_tag {T} `{OuchMsg T} (raw_tag : Z) (value : list Z) (st : bool * T) (tf : OuchTag * wire_field T)
    : bool * T :=
  let '(malformed, msg) := st in
  let '(tag, field) := tf in
  if negb (tag_byte tag =? raw_tag) then (malformed, msg) else
  if negb (Nat.eqb (length value) (wire_size field)) then (true, msg) else
  let '(_, msg) := read_field (reader_init value, msg) field in
  (malformed, set_appendage (tag_set tag (appendage msg)) msg).

(** The [while] loop of [decode]; [None] when the fuel runs out. *)
Fixpoint appendage_loop {T} `{OuchMsg T} (fuel : nat) (reader : WireReader) (msg : T) : option (bool * T) :=
  match fuel with
  | O => None
  | S fuel =>
      if Nat.eqb (remaining reader) 0 then Some (true, msg) else
      let '(length, reader) := read_int 1 false 0 reader in
      if (length =? 0) || (Z.of_nat (remaining reader) <? length) then Some (false, msg) else
      let '(raw_tag, reader) := read_int 1 false 0 reader in
      let '(value, reader) := reader_take (Z.to_nat (length - 1)) reader in
      let '(malformed, msg) := fold_left (read_tag raw_tag value) ouch_tags (false, msg) in
      if malformed : bool then Some (false, msg) else appendage_loop fuel reader msg
  end.

Definition ouch_detail_decode {T} `{OuchMsg T} (bytes : list Z) (msg : T) : option (bool * T) :=
  let '(reader, msg) := read_fields ouch_core (reader_init bytes) msg in
  if negb (r_ok reader) then Some (false, msg) else
  if Nat.eqb (remaining reader) 0 then Some (true, msg) else
  let '(appendage_length, reader) := read_int 2 false 0 reader in
  if negb (r_ok reader) || negb (Z.of_nat (remaining reader) =? appendage_length) then Some (false, msg) else
  appendage_loop (S (remaining reader)) reader msg.

(** ** Frames *)

Definition inbound_encoded_size (msg : OuchInboundFrame) : nat :=
  match msg with
  | INBOUND_NONE => 0%nat
  | enter_order m => ouch_detail_encoded_size m
  | replace_order m => ouch_detail_encoded_size m
  | cancel_order m => ouch_detail_encoded_size m
  end.

Definition outbound_encoded_size (msg : OuchOutboundFrame) : nat :=
  match msg with
  | OUTBOUND_NONE => 0%nat
  | order_accepted m => ouch_detail_encoded_size m
  | order_replaced m => ouch_detail_encoded_size m
  | order_canceled m => ouch_detail_encoded_size m
  | order_executed m => ouch_detail_encoded_size m
  | order_rejected m => ouch_detail_encoded_size m
  end.

Definition encode_inbound_ouch (msg : OuchInboundFrame) (out : list Z) : nat * list Z :=
  match msg with
  | INBOUND_NONE => (0%nat, out)
  | enter_order m => ouch_detail_encode m out
  | replace_order m => ouch_detail_encode m out
  | cancel_order m => ouch_detail_encode m out
  end.

Definition encode_outbound_ouch (msg : OuchOutboundFrame) (out : list Z) : nat * list Z :=
  match msg with
  | OUTBOUND_NONE => (0%nat, out)
  | order_accepted m => ouch_detail_encode m out
  | order_replaced m => ouch_detail_encode m out
  | order_canceled m => ouch_detail_encode m out
  | order_executed m => ouch_detail_encode m out
  | order_rejected m => ouch_detail_encode m out
  end.

(** One case of the decoders' switch: a default-constructed member, decoded into,
    and the NONE frame when that fails. *)
Definition ouch_decode_as {T F} `{OuchMsg T} (con : T -> F) (none : F) (bytes : list Z) : option F :=
  match ouch_detail_decode bytes (ouch_default (T:=T)) with
  | None => None
  | Some (ok, m) => Some (if ok : bool then con m else none)
  end.

Definition decode_inbound_ouch (bytes : list Z) : option OuchInboundFrame :=
  match bytes with
  | [] => Some INBOUND_NONE
  | b0 :: _ =>
      if b0 =? INBOUND_ENTER_ORDER then ouch_decode_as enter_order INBOUND_NONE bytes else
      if b0 =? INBOUND_REPLACE_ORDER then ouch_decode_as replace_order INBOUND_NONE bytes else
      if b0 =? INBOUND_CANCEL_ORDER then ouch_decode_as cancel_order INBOUND_NONE bytes else
      Some INBOUND_NONE
  end.

Definition decode_outbound_ouch (bytes : list Z) : option OuchOutboundFrame :=
  match bytes with
  | [] => Some OUTBOUND_NONE
  | b0 :: _ =>
      if b0 =? OUTBOUND_ORDER_ACCEPTED then ouch_decode_as order_accepted OUTBOUND_NONE bytes else
      if b0 =? OUTBOUND_ORDER_REPLACED then ouch_decode_as order_replaced OUTBOUND_NONE bytes else
      if b0 =? OUTBOUND_ORDER_CANCELED then ouch_decode_as order_canceled OUTBOUND_NONE bytes else
      if b0 =? OUTBOUND_ORDER_EXECUTED then ouch_decode_as order_executed OUTBOUND_NONE bytes else
      if b0 =? OUTBOUND_ORDER_REJECTED then ouch_decode_as order_rejected OUTBOUND_NONE bytes else
      Some OUTBOUND_NONE
  end.
