(* ===== verification/OuchCorrect.v ===== *)
(** * OuchCorrect: the OUCH codec is a round trip

    The appendage decoder is related to the list of TagValue elements its bytes
    spell; the encoder writes the elements of the tags present.  The class
    [OuchLaws] states what the proofs need of a message's field lists, and each of
    the eight messages has its instance. *)

From S2P Require Import Prelude WireCodec OuchProto.

(** ** Tags *)

Lemma tag_byte_range t : 1 <= tag_byte t <= 30.
Proof. destruct t; cbn; lia. Qed.

#[export] Instance tag_byte_inj : Inj (=) (=) tag_byte.
Proof. intros t1 t2. destruct t1, t2; cbn; congruence. Qed.

Lemma tag_bit_pow t : tag_bit t = 2 ^ tag_byte t.
Proof. by destruct t. Qed.

Lemma tag_has_testbit t bits : tag_has t bits = Z.testbit bits (tag_byte t).
Proof.
  unfold tag_has. rewrite tag_bit_pow. pose proof (tag_byte_range t) as Hr.
  destruct (Z.testbit bits (tag_byte t)) eqn:E.
  - apply negb_true_iff, Z.eqb_neq. intros H0.
    apply (f_equal (fun z => Z.testbit z (tag_byte t))) in H0.
    rewrite Z.land_spec, E, Z.pow2_bits_true, Z.bits_0 in H0 by lia. done.
  - apply negb_false_iff, Z.eqb_eq. apply Z.bits_inj'. intros i Hi.
    rewrite Z.land_spec, Z.pow2_bits_eqb, Z.bits_0 by lia.
    destruct (Z.eqb_spec (tag_byte t) i) as [<-|]; [by rewrite E|by rewrite andb_false_r].
Qed.

(** The bits of the tags in [ts] that [bits] has. *)
Definition gather (bits : OuchTagSet) (ts : list OuchTag) (acc : Z) : Z :=
  fold_left (fun acc t => Z.lor acc (if tag_has t bits then tag_bit t else 0)) ts acc.

Lemma gather_testbit bits ts acc i :
  0 <= i ->
  Z.testbit (gather bits ts acc) i = true <->
  Z.testbit acc i = true \/ Z.testbit bits i = true /\ exists t, t ∈ ts /\ tag_byte t = i.
Proof.
  intros Hi. revert acc. induction ts as [|t ts IH]; intros acc; cbn [gather fold_left].
  - split; [by left|]. intros [?|(_ & t & Ht & _)]; [done|]. by apply elem_of_nil in Ht.
  - fold (gather bits ts (Z.lor acc (if tag_has t bits then tag_bit t else 0))). rewrite IH, Z.lor_spec, orb_true_iff.
    pose proof (tag_byte_range t). rewrite tag_has_testbit.
    assert (Z.testbit (if Z.testbit bits (tag_byte t) then tag_bit t else 0) i = true <->
            Z.testbit bits i = true /\ tag_byte t = i) as ->.
    { destruct (Z.testbit bits (tag_byte t)) eqn:E.
      - rewrite tag_bit_pow, Z.pow2_bits_eqb, Z.eqb_eq by lia. naive_solver.
      - rewrite Z.bits_0. naive_solver. }
    setoid_rewrite elem_of_cons. naive_solver.
Qed.

Lemma gather_all bits ts :
  (forall i, Z.testbit bits i = true -> exists t, t ∈ ts /\ tag_byte t = i) -> gather bits ts 0 = bits.
Proof.
  intros H. apply Z.bits_inj'. intros i Hi. apply eq_true_iff_eq. rewrite gather_testbit, Z.bits_0 by done.
  naive_solver.
Qed.

Lemma gather_bits bits ts :
  gather bits ts 0 = bits -> forall i, Z.testbit bits i = true -> exists t, t ∈ ts /\ tag_byte t = i.
Proof.
  intros H i Hi. destruct (Z.neg_nonneg_cases i) as [Hn|Hn]; [by rewrite Z.testbit_neg_r in Hi|].
  rewrite <- H, gather_testbit, Z.bits_0 in Hi by done. naive_solver.
Qed.

(** ** Well-formed messages

    Members fit their wire types; a member whose tag is absent has its default
    value; only tags the message supports are present. *)

Record ouch_ok {T} `{OuchMsg T} (m : T) : Prop := {
  ok_core : Forall (field_ok m) ouch_core;
  ok_tags : Forall (fun '(tag, field) =>
    if tag_has tag (appendage m) then field_ok m field else assign m ouch_default field = ouch_default) ouch_tags;
  ok_bits i : Z.testbit (appendage m) i = true -> exists t, t ∈ ouch_tags.*1 /\ tag_byte t = i;
}.

(** The decoder's effect on one supported tag of [src]. *)
Definition copy_tag {T} `{OuchMsg T} (src dst : T) (tf : OuchTag * wire_field T) : T :=
  if tag_has tf.1 (appendage src)
  then set_appendage (tag_set tf.1 (appendage (assign src dst tf.2))) (assign src dst tf.2) else dst.

Class OuchLaws (T : Type) `{OuchMsg T} := {
  tags_nodup : NoDup ((tag_byte ∘ fst) <$> ouch_tags);
  tags_narrow : Forall (fun tf => (wire_size (snd tf) < 255)%nat) ouch_tags;
  tags_fit : Z.of_nat (sum_list_with (fun tf => (2 + wire_size (snd tf))%nat) ouch_tags) < 65536;
  copy_all m : ouch_ok m ->
    fold_left (copy_tag m) ouch_tags (fold_left (assign m) ouch_core ouch_default) = m;
}.

(** ** TagValue elements *)

Definition element : Type := Z * list Z.

Definition element_bytes (e : element) : list Z := Z.of_nat (S (length e.2)) :: e.1 :: e.2.

Definition element_ok (e : element) : Prop := is_u8 e.1 /\ (length e.2 < 255)%nat.

Section codec.
Context {T : Type} `{OuchLaws T}.
Implicit Types m d : T.

(** What the elements of an appendage say, read in order. *)
Definition apply_element (e : element) (msg : T) : option T :=
  match List.find (fun tf => tag_byte tf.1 =? e.1) ouch_tags with
  | None => Some msg
  | Some (tag, field) =>
      if Nat.eqb (length e.2) (wire_size field)
      then let msg := (read_field (reader_init e.2, msg) field).2 in
           Some (set_appendage (tag_set tag (appendage msg)) msg)
      else None
  end.

Fixpoint apply_elements (es : list element) (msg : T) : option T :=
  match es with
  | [] => Some msg
  | e :: es => match apply_element e msg with None => None | Some msg => apply_elements es msg end
  end.

Lemma read_tag_other raw value st (l : list (OuchTag * wire_field T)) :
  raw ∉ ((tag_byte ∘ fst) <$> l) -> fold_left (read_tag raw value) l st = st.
Proof.
  revert st. induction l as [|[t f] l IH]; intros st Hr; [done|]. cbn [fold_left].
  rewrite fmap_cons in Hr. apply not_elem_of_cons in Hr as [Hne Hr]. unfold read_tag at 2. destruct st as [bad msg].
  rewrite (proj2 (Z.eqb_neq _ _)) by (intros E; by apply Hne). by apply IH.
Qed.

Lemma read_tags_find raw value msg (l : list (OuchTag * wire_field T)) :
  NoDup ((tag_byte ∘ fst) <$> l) ->
  fold_left (read_tag raw value) l (false, msg)
  = match List.find (fun tf => tag_byte tf.1 =? raw) l with
    | None => (false, msg) | Some tf => read_tag raw value (false, msg) tf
    end.
Proof.
  induction l as [|[t f] l IH]; [done|]. rewrite fmap_cons. intros [Hn Hd]%NoDup_cons.
  cbn [fold_left List.find fst]. destruct (Z.eqb_spec (tag_byte t) raw) as [<-|Hne].
  - by apply read_tag_other.
  - unfold read_tag at 2. rewrite (proj2 (Z.eqb_neq _ _) Hne). by apply IH.
Qed.

Lemma read_tags_apply e msg :
  match apply_element e msg with
  | None => exists msg', fold_left (read_tag e.1 e.2) ouch_tags (false, msg) = (true, msg')
  | Some msg' => fold_left (read_tag e.1 e.2) ouch_tags (false, msg) = (false, msg')
  end.
Proof.
  unfold apply_element. rewrite read_tags_find by apply tags_nodup.
  destruct (List.find _ _) as [[t f]|] eqn:E; [|done]. apply List.find_some in E as [_ E]. cbn [fst] in E.
  unfold read_tag. rewrite E. cbn [negb]. destruct (Nat.eqb (length e.2) (wire_size f)); cbn [negb]; [|by eexists].
  by destruct (read_field (reader_init e.2, msg) f).
Qed.

(** The appendage loop reads the elements its bytes spell, in order. *)
Lemma appendage_loop_elements es fuel pre msg :
  Forall element_ok es -> (length (concat (element_bytes <$> es)) < fuel)%nat ->
  match apply_elements es msg with
  | None => exists msg', appendage_loop fuel (reader_at pre (concat (element_bytes <$> es))) msg = Some (false, msg')
  | Some msg' => appendage_loop fuel (reader_at pre (concat (element_bytes <$> es))) msg = Some (true, msg')
  end.
Proof.
  revert fuel pre msg. induction es as [|[t v] es IH]; intros fuel pre msg Hes Hf; destruct fuel as [|fuel]; try (cbn in Hf; lia).
  - cbn [appendage_loop apply_elements fmap list_fmap concat]. by rewrite remaining_at.
  - apply Forall_cons in Hes as [[Ht Hv] Hes]. rewrite fmap_cons in *. cbn [concat] in *.
    rewrite length_app in Hf. cbn [element_bytes length fst snd] in Hf, Ht, Hv.
    cbn [appendage_loop apply_elements]. rewrite remaining_at. cbn [element_bytes length app Nat.eqb fst snd].
    rewrite read_byte_ok, remaining_at. cbn [length]. rewrite length_app.
    assert ((Z.of_nat (S (length v)) =? 0) || (Z.of_nat (S (length v + length (concat (element_bytes <$> es)))) <?
      Z.of_nat (S (length v))) = false) as -> by (apply orb_false_iff; split; [apply Z.eqb_neq|apply Z.ltb_ge]; lia).
    rewrite read_byte_ok. replace (Z.to_nat (Z.of_nat (S (length v)) - 1)) with (length v) by lia.
    rewrite reader_take_ok. pose proof (read_tags_apply (t, v) msg) as Hr. cbn [fst snd] in Hr.
    destruct (apply_element (t, v) msg) as [msg'|].
    + rewrite Hr. apply IH; [done|lia].
    + destruct Hr as [msg' ->]. by exists msg'.
Qed.

(** ** What the encoder writes *)

Definition present (m : T) : list element :=
  (fun tf => (tag_byte (fst tf), field_bytes (snd tf) m)) <$>
    filter (fun tf => tag_has (fst tf) (appendage m) = true) ouch_tags.

Definition appendage_bytes (m : T) : list Z := concat (element_bytes <$> present m).

(** A present field of a list of tags fits, and its element is a byte long. *)
Definition tag_fits (m : T) (tf : OuchTag * wire_field T) : Prop :=
  tag_has tf.1 (appendage m) = true -> field_ok m tf.2 /\ (wire_size tf.2 < 255)%nat.

Lemma ok_tags_fit m : ouch_ok m -> Forall (tag_fits m) ouch_tags.
Proof.
  intros [_ Ht _]. pose proof tags_narrow as Hn. rewrite Forall_forall in Ht, Hn |- *.
  intros [t f] Hin Hhas. specialize (Ht _ Hin). specialize (Hn _ Hin). cbn in *. by rewrite Hhas in Ht.
Qed.

Lemma present_ok m : ouch_ok m -> Forall element_ok (present m).
Proof.
  intros Hok%ok_tags_fit. apply Forall_fmap, Forall_forall. intros [t f] [Hhas Hin]%list_elem_of_filter.
  rewrite Forall_forall in Hok. destruct (Hok _ Hin Hhas) as [Hf Hs]. unfold element_ok. cbn in *.
  rewrite field_bytes_length by done. pose proof (tag_byte_range t). split; [ulia|done].
Qed.

(** The elements of one list of tags, written by the encoder's lambda. *)
Definition elements_of (m : T) (l : list (OuchTag * wire_field T)) : list Z :=
  concat (element_bytes <$>
    ((fun tf => (tag_byte (fst tf), field_bytes (snd tf) m)) <$> filter (fun tf => tag_has (fst tf) (appendage m) = true) l)).

Lemma elements_of_cons m t f l :
  elements_of m ((t, f) :: l)
  = (if tag_has t (appendage m) then element_bytes (tag_byte t, field_bytes f m) else []) ++ elements_of m l.
Proof. unfold elements_of. rewrite filter_cons. case_decide as Hh; cbn [fst] in Hh; [by rewrite Hh|by destruct (tag_has _ _)]. Qed.

Lemma write_tag_bytes m w t f :
  tag_fits m (t, f) -> tag_has t (appendage m) = true ->
  write_tag m w (t, f)
  = write_bytes (field_bytes f m) (write_bytes [tag_byte t] (write_bytes [Z.of_nat (S (length (field_bytes f m)))] w)).
Proof.
  intros Hfit Hh. destruct (Hfit Hh) as [Hf Hs]. cbn in Hf, Hs. unfold write_tag. rewrite Hh. cbn [negb].
  rewrite field_bytes_length by done. unfold write_field. pose proof (tag_byte_range t). do 2 f_equal.
  - cbn [store]. rewrite Z.shiftr_0_r, u8_id by ulia. done.
  - f_equal. cbn [store]. rewrite Z.shiftr_0_r, !u8_id by (try rewrite u8_id by ulia; ulia). f_equal. lia.
Qed.

Lemma write_tags_ok m l pre rest :
  Forall (tag_fits m) l -> (length (elements_of m l) <= length rest)%nat ->
  fold_left (write_tag m) l (writer_at pre rest)
  = writer_at (pre ++ elements_of m l) (drop (length (elements_of m l)) rest).
Proof.
  revert pre rest. induction l as [|[t f] l IH]; intros pre rest Hl Hlen.
  - cbn. by rewrite app_nil_r, drop_0.
  - apply Forall_cons in Hl as [Hf Hl]. rewrite elements_of_cons in *. cbn [fold_left].
    destruct (tag_has t (appendage m)) eqn:Hh.
    + rewrite (write_tag_bytes _ _ _ _ Hf Hh). rewrite length_app in Hlen. cbn [element_bytes length fst snd] in Hlen.
      rewrite !write_bytes_ok by (rewrite ?length_drop; cbn [length]; lia). cbn [length]. rewrite !drop_drop.
      rewrite IH by (rewrite ?length_drop; try done; lia). rewrite drop_drop, length_app.
      cbn [element_bytes length fst snd]. by rewrite <- !app_assoc.
    + unfold write_tag at 2. rewrite Hh. cbn [negb app] in *. by apply IH.
Qed.

Lemma write_tags_stuck m l w : w_ok w = false -> w_ok (fold_left (write_tag m) l w) = false.
Proof.
  revert w. induction l as [|[t f] l IH]; intros w Hw; [done|]. cbn [fold_left]. apply IH. unfold write_tag.
  case_if; [done|]. by do 3 apply write_bytes_stuck.
Qed.

Lemma write_tags_short m l pre rest :
  Forall (tag_fits m) l -> (length rest < length (elements_of m l))%nat ->
  w_ok (fold_left (write_tag m) l (writer_at pre rest)) = false.
Proof.
  revert pre rest. induction l as [|[t f] l IH]; intros pre rest Hl Hlen; [cbn in Hlen; lia|].
  apply Forall_cons in Hl as [Hf Hl]. rewrite elements_of_cons in Hlen. cbn [fold_left].
  destruct (tag_has t (appendage m)) eqn:Hh; [|unfold write_tag at 2; rewrite Hh; by apply IH].
  rewrite (write_tag_bytes _ _ _ _ Hf Hh). rewrite length_app in Hlen. cbn [element_bytes length fst snd] in Hlen.
  destruct (decide (1 <= length rest)%nat); [|apply write_tags_stuck; by do 2 apply write_bytes_stuck; apply write_bytes_short; cbn [length]; lia].
  rewrite write_bytes_ok by done. cbn [length].
  destruct (decide (2 <= length rest)%nat);
    [|apply write_tags_stuck; apply write_bytes_stuck, write_bytes_short; rewrite length_drop; cbn [length]; lia].
  rewrite write_bytes_ok by (rewrite length_drop; cbn [length]; lia). cbn [length]. rewrite drop_drop.
  destruct (decide (length (field_bytes f m) + 2 <= length rest)%nat);
    [|apply write_tags_stuck, write_bytes_short; rewrite length_drop; lia].
  rewrite write_bytes_ok by (rewrite length_drop; lia). apply IH; [done|]. rewrite drop_drop, length_drop. lia.
Qed.

Definition ouch_bytes (m : T) : list Z :=
  encoding ouch_core m ++ store 2 (Z.of_nat (length (appendage_bytes m))) ++ appendage_bytes m.

Lemma elements_of_length m l :
  Forall (tag_fits m) l ->
  (length (elements_of m l) <= sum_list_with (fun tf => (2 + wire_size (snd tf))%nat) l)%nat /\
  forall size, fold_left (fun size '(tag, field) =>
    if tag_has tag (appendage m) then (size + (kTagValueHeaderLen + wire_size field))%nat else size) l size
  = (size + length (elements_of m l))%nat.
Proof.
  induction l as [|[t f] l IH]; intros Hl.
  - split; [done|]. intros. cbn. lia.
  - apply Forall_cons in Hl as [Hf Hl]. destruct (IH Hl) as [Hle Hfold]. rewrite elements_of_cons, length_app.
    cbn [sum_list_with snd fold_left].
    destruct (tag_has t (appendage m)) eqn:Hh.
    + destruct (Hf Hh) as [Hok _]. cbn in Hok. cbn [element_bytes length fst snd]. rewrite field_bytes_length by done.
      split; [lia|]. intros size. rewrite Hfold. unfold kTagValueHeaderLen. lia.
    + cbn [length]. split; [lia|]. intros size. rewrite Hfold. lia.
Qed.

Lemma appendage_length_u16 m : ouch_ok m -> 0 <= Z.of_nat (length (appendage_bytes m)) < 65536.
Proof.
  intros Hok. destruct (elements_of_length m ouch_tags (ok_tags_fit m Hok)) as [Hle _].
  pose proof tags_fit. unfold appendage_bytes, present, elements_of in *. lia.
Qed.

Lemma ouch_bytes_length m : ouch_ok m -> ouch_detail_encoded_size m = length (ouch_bytes m).
Proof.
  intros Hok. unfold ouch_detail_encoded_size, ouch_bytes.
  rewrite (proj2 (elements_of_length m ouch_tags (ok_tags_fit m Hok))).
  rewrite !length_app, store_length, (encoding_length _ _ (ok_core m Hok)).
  unfold kAppendageLengthLen. fold (elements_of m ouch_tags). change (elements_of m ouch_tags) with (appendage_bytes m). lia.
Qed.

Lemma ouch_encode_ok m out :
  ouch_ok m -> (length (ouch_bytes m) <= length out)%nat ->
  ouch_detail_encode m out = (length (ouch_bytes m), ouch_bytes m ++ drop (length (ouch_bytes m)) out).
Proof.
  intros Hok Hlen. unfold ouch_bytes in *. rewrite !length_app, store_length in *.
  pose proof (appendage_length_u16 m Hok) as Hu. unfold ouch_detail_encode.
  change (writer_init out) with (writer_at [] out). rewrite write_fields_ok by lia. cbn [app].
  set (core := encoding ouch_core m) in *. unfold kAppendageLengthLen.
  rewrite writer_skip_ok by (rewrite length_drop; lia). rewrite drop_drop.
  rewrite write_tags_ok; [|by apply ok_tags_fit|rewrite length_drop; change (elements_of m ouch_tags) with (appendage_bytes m); lia].
  change (elements_of m ouch_tags) with (appendage_bytes m). set (app := appendage_bytes m) in *.
  set (skipped := take 2 (drop (length core) out)).
  assert (length skipped = 2%nat) as Hs by (unfold skipped; rewrite length_take, length_drop; lia).
  cbn [w_ok w_pos w_out writer_at]. rewrite !length_app, Hs.
  replace (length core + 2 + length app - (length core + 2))%nat with (length app) by lia.
  f_equal; [lia|]. rewrite u16_id by ulia. rewrite <- !app_assoc, memcpy_app by (rewrite store_length, length_app; lia).
  rewrite store_length, <- app_assoc. do 2 f_equal. rewrite <- Hs at 1. rewrite drop_app_length.
  rewrite drop_drop. f_equal. f_equal. lia.
Qed.

Lemma ouch_encode_short m out :
  ouch_ok m -> (length out < length (ouch_bytes m))%nat -> (ouch_detail_encode m out).1 = 0%nat.
Proof.
  intros Hok Hlen. unfold ouch_bytes in *. rewrite !length_app, store_length in *.
  unfold ouch_detail_encode. change (writer_init out) with (writer_at [] out).
  set (core := encoding ouch_core m) in *. unfold kAppendageLengthLen.
  enough (w_ok (fold_left (write_tag m) ouch_tags (writer_skip 2 (write_fields ouch_core m (writer_at [] out))).2) = false) as Hw.
  { destruct (writer_skip 2 _) as [dst w]. cbn [snd] in Hw. by rewrite Hw. }
  destruct (decide (length core <= length out)%nat).
  - rewrite write_fields_ok by (fold core; lia). fold core. cbn [app].
    destruct (decide (2 <= length (drop (length core) out))%nat) as [H2|]; [|apply write_tags_stuck, writer_skip_short; lia].
    rewrite writer_skip_ok by done. rewrite length_drop in H2. cbn [snd]. apply write_tags_short; [by apply ok_tags_fit|].
    rewrite drop_drop, length_drop. change (elements_of m ouch_tags) with (appendage_bytes m). lia.
  - apply write_tags_stuck. unfold writer_skip, writer_claim.
    rewrite write_fields_short by (fold core; lia). done.
Qed.

(** ** Decoding what was encoded *)

Lemma find_tag t (f : wire_field T) l :
  NoDup ((tag_byte ∘ fst) <$> l) -> (t, f) ∈ l ->
  List.find (fun tf => tag_byte tf.1 =? tag_byte t) l = Some (t, f).
Proof.
  induction l as [|[t' f'] l IH]; [by intros _ ?%elem_of_nil|].
  rewrite fmap_cons. intros [Hn Hd]%NoDup_cons Hin. cbn [List.find fst].
  apply elem_of_cons in Hin as [[= -> ->]|Hin]; [by rewrite Z.eqb_refl|].
  destruct (Z.eqb_spec (tag_byte t') (tag_byte t)) as [E|]; [|by apply IH].
  exfalso. apply Hn. cbn. rewrite E. by apply (list_elem_of_fmap_2 (tag_byte ∘ fst) l (t, f)).
Qed.

Lemma apply_present m l d :
  Forall (tag_fits m) l -> (forall tf, tf ∈ l -> tf ∈ ouch_tags) ->
  apply_elements ((fun tf => (tag_byte (fst tf), field_bytes (snd tf) m)) <$>
    filter (fun tf => tag_has (fst tf) (appendage m) = true) l) d
  = Some (fold_left (copy_tag m) l d).
Proof.
  revert d. induction l as [|[t f] l IH]; intros d Hl Hin; [done|].
  apply Forall_cons in Hl as [Hf Hl]. cbn [fold_left]. unfold copy_tag at 2. cbn [fst snd].
  rewrite filter_cons. case_decide as Hh; cbn [fst] in Hh.
  - rewrite Hh. destruct (Hf Hh) as [Hok _]. cbn in Hok. rewrite fmap_cons. cbn [apply_elements].
    unfold apply_element. cbn [fst snd]. rewrite (find_tag t f) by (try apply tags_nodup; apply Hin; left).
    rewrite field_bytes_length, Nat.eqb_refl by done.
    change (reader_init (field_bytes f m)) with (reader_at [] (field_bytes f m)).
    rewrite <- (app_nil_r (field_bytes f m)), read_field_ok by done. cbn [snd].
    apply IH; [done|]. intros. apply Hin. by right.
  - destruct (tag_has t (appendage m)); [done|]. apply IH; [done|]. intros. apply Hin. by right.
Qed.

(** A core followed by an appendage is decoded by applying its elements. *)
Lemma ouch_decode_elements m es m' :
  Forall (field_ok m) ouch_core -> Forall element_ok es -> Z.of_nat (length (concat (element_bytes <$> es))) < 65536 ->
  apply_elements es (fold_left (assign m) ouch_core ouch_default) = Some m' ->
  ouch_detail_decode (encoding ouch_core m ++ store 2 (Z.of_nat (length (concat (element_bytes <$> es)))) ++
    concat (element_bytes <$> es)) ouch_default = Some (true, m').
Proof.
  intros Hcore Hes Hu Happ. unfold ouch_detail_decode.
  change (reader_init ?b) with (reader_at [] b). rewrite read_fields_ok by done.
  change (r_ok (reader_at _ _)) with true. cbn [negb app]. rewrite remaining_at, length_app, store_length.
  cbn [Nat.add Nat.eqb]. rewrite read_int_ok by (split; [lia|exact Hu]). change (r_ok (reader_at _ _)) with true.
  rewrite remaining_at, Z.eqb_refl. cbn [negb orb].
  pose proof (appendage_loop_elements es (S (length (concat (element_bytes <$> es))))
    (encoding ouch_core m ++ store 2 (Z.of_nat (length (concat (element_bytes <$> es)))))
    (fold_left (assign m) ouch_core ouch_default) Hes (Nat.lt_succ_diag_r _)) as Hl.
  by rewrite Happ in Hl.
Qed.

Lemma apply_all m : ouch_ok m -> apply_elements (present m) (fold_left (assign m) ouch_core ouch_default) = Some m.
Proof. intros Hok. unfold present. rewrite apply_present by auto using ok_tags_fit. by rewrite copy_all. Qed.

Lemma ouch_decode_bytes m : ouch_ok m -> ouch_detail_decode (ouch_bytes m) ouch_default = Some (true, m).
Proof.
  intros Hok. pose proof (appendage_length_u16 m Hok) as [_ Hu].
  by apply ouch_decode_elements; [apply (ok_core m Hok)|apply present_ok| |apply apply_all].
Qed.

(** Elements with a tag the message does not have change nothing. *)
Definition supported (e : element) : Prop := e.1 ∈ (tag_byte ∘ fst) <$> (ouch_tags (T:=T)).

Lemma apply_unsupported e msg : ~ supported e -> apply_element e msg = Some msg.
Proof.
  intros Hn. unfold apply_element. destruct (List.find _ _) as [[t f]|] eqn:E; [|done].
  apply List.find_some in E as [Hin E]. apply Z.eqb_eq in E. cbn [fst] in E. exfalso. apply Hn. unfold supported. rewrite <- E.
  apply (list_elem_of_fmap_2 (tag_byte ∘ fst) _ (t, f)). by apply list_elem_of_In.
Qed.

Lemma apply_supported es msg :
  apply_elements es msg = apply_elements (filter (fun e => e.1 ∈ (tag_byte ∘ fst) <$> (ouch_tags (T:=T))) es) msg.
Proof.
  revert msg. induction es as [|e es IH]; intros msg; [done|]. rewrite filter_cons. case_decide as Hs; cbn [apply_elements].
  - destruct (apply_element e msg); [apply IH|done].
  - rewrite apply_unsupported by done. apply IH.
Qed.

(** ** What the decoder accepts *)

(** One turn of the loop on bytes that are left: it stops, or it reads one element. *)
Lemma appendage_loop_step fuel pre b post msg :
  Forall is_u8 (b :: post) ->
  appendage_loop (S fuel) (reader_at pre (b :: post)) msg = Some (false, msg) \/
  exists e rest, element_ok e /\ b :: post = element_bytes e ++ rest /\
    appendage_loop (S fuel) (reader_at pre (b :: post)) msg
    = match apply_element e msg with
      | None => Some (false, (fold_left (read_tag e.1 e.2) ouch_tags (false, msg)).2)
      | Some msg' => appendage_loop fuel (reader_at (pre ++ element_bytes e) rest) msg'
      end.
Proof.
  intros [Hb Hpost]%Forall_cons. cbn [appendage_loop]. rewrite remaining_at. cbn [length Nat.eqb].
  rewrite read_byte_ok, remaining_at.
  destruct ((b =? 0) || (Z.of_nat (length post) <? b)) eqn:E; [by left|right]. zbool.
  destruct post as [|t post]; [cbn in *; ulia|]. apply Forall_cons in Hpost as [Ht Hpost]. cbn [length] in *.
  set (v := take (Z.to_nat (b - 1)) post). assert (length v = Z.to_nat (b - 1)) as Hv by (unfold v; rewrite length_take; ulia).
  exists (t, v), (drop (Z.to_nat (b - 1)) post). split_and!.
  - split; cbn; [done|ulia].
  - unfold element_bytes. cbn [fst snd]. rewrite Hv. cbn [app]. unfold v. rewrite take_drop. f_equal. ulia.
  - rewrite read_byte_ok. rewrite <- (take_drop (Z.to_nat (b - 1)) post) at 1. fold v. rewrite <- Hv at 1.
    rewrite reader_take_ok. pose proof (read_tags_apply (t, v) msg) as Hr. cbn [fst snd] in *.
    destruct (apply_element (t, v) msg) as [msg'|].
    + rewrite Hr. unfold element_bytes. cbn [fst snd]. rewrite Hv. do 2 f_equal. rewrite <- !app_assoc. cbn [app].
      do 2 f_equal. ulia.
    + by destruct Hr as [msg' ->].
Qed.

Lemma appendage_loop_total fuel pre post msg :
  Forall is_u8 post -> (length post < fuel)%nat -> exists r, appendage_loop fuel (reader_at pre post) msg = Some r.
Proof.
  revert pre post msg. induction fuel as [|fuel IH]; intros pre post msg Hu Hf; [lia|].
  destruct post as [|b post]; [cbn [appendage_loop]; rewrite remaining_at; by eexists|].
  destruct (appendage_loop_step fuel pre b post msg Hu) as [->|(e & rest & _ & Hs & ->)]; [by eexists|].
  destruct (apply_element e msg); [|by eexists]. rewrite Hs in Hu, Hf. apply Forall_app in Hu as [_ Hu].
  rewrite length_app in Hf. cbn [element_bytes length] in Hf. apply IH; [done|lia].
Qed.

Lemma appendage_loop_accepts fuel pre post msg msg' :
  Forall is_u8 post -> appendage_loop fuel (reader_at pre post) msg = Some (true, msg') ->
  exists es, Forall element_ok es /\ post = concat (element_bytes <$> es) /\ apply_elements es msg = Some msg'.
Proof.
  revert pre post msg. induction fuel as [|fuel IH]; intros pre post msg Hu Hl; [done|].
  destruct post as [|b post].
  - cbn [appendage_loop] in Hl. rewrite remaining_at in Hl. injection Hl as <-. by exists [].
  - destruct (appendage_loop_step fuel pre b post msg Hu) as [Hl'|(e & rest & He & Hs & Hl')]; rewrite Hl' in Hl; [done|].
    destruct (apply_element e msg) as [msg1|] eqn:Ea; [|done]. rewrite Hs in Hu. apply Forall_app in Hu as [_ Hu].
    destruct (IH _ _ _ Hu Hl) as (es & Hes & -> & Happ). exists (e :: es). rewrite fmap_cons. cbn [concat apply_elements].
    rewrite Ea. auto using Forall_cons_2.
Qed.

(** A message the decoder takes: its core, and if more follows, the length of the
    appendage and exactly the elements that fill it. *)
Definition ouch_shape (bytes : list Z) : Prop :=
  let core := fields_size (ouch_core (T:=T)) in
  length bytes = core \/
  exists es, Forall element_ok es /\ bytes = take core bytes ++ store 2 (Z.of_nat (length (concat (element_bytes <$> es)))) ++
    concat (element_bytes <$> es) /\ (core <= length bytes)%nat.

Lemma read_fields_at bytes d :
  r_ok (read_fields ouch_core (reader_init bytes) d).1 = true ->
  (fields_size (ouch_core (T:=T)) <= length bytes)%nat /\
  (read_fields ouch_core (reader_init bytes) d).1
  = reader_at (take (fields_size (ouch_core (T:=T))) bytes) (drop (fields_size (ouch_core (T:=T))) bytes).
Proof.
  intros Hok. set (n := fields_size (ouch_core (T:=T))).
  assert (n <= length bytes)%nat as Hn.
  { apply Nat.nlt_ge. intros Hlt. pose proof (read_fields_short ouch_core d [] bytes Hlt) as Hs.
    change (reader_at [] bytes) with (reader_init bytes) in Hs. congruence. }
  split; [done|]. pose proof (read_fields_pos _ _ _ Hok) as [Hin Hpos]. fold n in Hpos.
  destruct (read_fields ouch_core (reader_init bytes) d).1 as [rin rpos rok]. cbn in *. subst.
  unfold reader_at. rewrite take_drop, length_take, Nat.min_l by done. done.
Qed.

Lemma ouch_decode_inv bytes d :
  Forall is_u8 bytes ->
  exists ok m, ouch_detail_decode bytes d = Some (ok, m) /\ (ok = true -> ouch_shape bytes).
Proof.
  intros Hu. unfold ouch_detail_decode. pose proof (read_fields_at bytes d) as Hat.
  destruct (read_fields ouch_core (reader_init bytes) d) as [reader m]. cbn [fst] in Hat.
  destruct (r_ok reader); cbn [negb]; [|by eexists _, _].
  destruct (Hat eq_refl) as [Hn ->]. unfold ouch_shape. set (n := fields_size (ouch_core (T:=T))) in *.
  rewrite remaining_at. destruct (Nat.eqb_spec (length (drop n bytes)) 0) as [Hz|_].
  { eexists _, _. split; [done|]. intros _. left. rewrite length_drop in Hz. lia. }
  pose proof (Forall_drop is_u8 n bytes Hu) as Hpost. pose proof (read_u16 0 (take n bytes) (drop n bytes) Hpost) as Hr.
  case_decide as H2; [|destruct (read_int 2 false 0 _) as [a r]; cbn in Hr; rewrite Hr; by eexists _, _].
  destruct Hr as (a & Ha & Hsplit & ->). cbn [r_ok reader_at negb orb]. rewrite remaining_at.
  destruct (Z.eqb_spec (Z.of_nat (length (drop 2 (drop n bytes)))) a) as [Hlen|]; cbn [negb]; [|by eexists _, _].
  pose proof (Forall_drop is_u8 2 _ Hpost) as Hrest.
  destruct (appendage_loop_total (S (length (drop 2 (drop n bytes)))) (take n bytes ++ store 2 a) _ m Hrest) as [[ok m'] Hl]; [lia|].
  exists ok, m'. split; [exact Hl|]. intros ->. right.
  destruct (appendage_loop_accepts _ _ _ _ _ Hrest Hl) as (es & Hes & Heq & _). exists es. split; [done|]. split; [|done].
  rewrite <- Heq, Hlen, <- Hsplit. by rewrite take_drop.
Qed.

End codec.

(** ** The eight messages *)

(** One tag, present or absent, copied into a message that still has its default. *)
Lemma copy_tags_cons {T} `{OuchMsg T} (src dst : T) tag field l :
  (tag_has tag (appendage src) = false -> assign src dst field = dst) ->
  appendage (assign src dst field) = appendage dst -> set_appendage (appendage dst) dst = dst ->
  fold_left (copy_tag src) ((tag, field) :: l) dst
  = fold_left (copy_tag src) l
      (set_appendage (Z.lor (appendage dst) (if tag_has tag (appendage src) then tag_bit tag else 0)) (assign src dst field)).
Proof.
  intros Habs Happ Hset. cbn [fold_left]. f_equal. unfold copy_tag, tag_set. cbn [fst snd]. rewrite Happ.
  destruct (tag_has tag (appendage src)); [done|]. by rewrite Habs, Z.lor_0_r, Hset.
Qed.

(** The members of a message are compared before the tag bits are computed. *)
#[local] Strategy 1000 [Z.lor tag_has tag_bit ch replicate].

Ltac norm_goal := lazy -[Z.lor tag_has tag_bit ch replicate tag_set_empty].

(** Normalises the message being rebuilt to a record of its members. *)
Ltac norm_message :=
  lazymatch goal with
  | |- fold_left _ _ ?d = _ =>
      let d' := eval lazy -[Z.lor tag_has tag_bit ch replicate tag_set_empty] in d in change d with d'
  end.

(** Rebuilds a message tag by tag from the facts of [ok_tags]. *)
Ltac copy_tags :=
  lazymatch goal with
  | Ht : Forall _ (_ :: _) |- fold_left (copy_tag ?m) ((?t, ?f) :: ?l) ?d = _ =>
      let H1 := fresh in pose proof (Forall_inv Ht) as H1; apply Forall_inv_tail in Ht;
      rewrite (copy_tags_cons m d t f l);
      [ clear H1; norm_message; copy_tags
      | let E := fresh in intros E; lazy -[Z.lor tag_has tag_bit ch replicate tag_set_empty field_ok] in E, H1;
        rewrite E in H1;
        injection H1; intros; subst; norm_goal; reflexivity
      | norm_goal; reflexivity | norm_goal; reflexivity ]
  | _ => idtac
  end.

Ltac solve_laws T :=
  split; [by apply (bool_decide_unpack _)|by apply (bool_decide_unpack _)|done|];
  let m := fresh "m" in let Ht := fresh in let Hb := fresh in
  intros m [_ Ht Hb]; apply gather_all in Hb; destruct m;
  cbv beta delta [ouch_tags T] iota in Ht |- *; norm_message; copy_tags;
  cbn [fold_left]; change tag_set_empty with 0; lazy -[Z.lor tag_has tag_bit] in Hb; rewrite Hb; reflexivity.

#[export] Instance OuchEnterOrder_laws : OuchLaws OuchEnterOrder.
Proof. solve_laws OuchEnterOrder_msg. Qed.

#[export] Instance OuchReplaceOrder_laws : OuchLaws OuchReplaceOrder.
Proof. solve_laws OuchReplaceOrder_msg. Qed.

#[export] Instance OuchCancelOrder_laws : OuchLaws OuchCancelOrder.
Proof. solve_laws OuchCancelOrder_msg. Qed.

#[export] Instance OuchOrderAccepted_laws : OuchLaws OuchOrderAccepted.
Proof. solve_laws OuchOrderAccepted_msg. Qed.

#[export] Instance OuchOrderReplaced_laws : OuchLaws OuchOrderReplaced.
Proof. solve_laws OuchOrderReplaced_msg. Qed.

#[export] Instance OuchOrderCanceled_laws : OuchLaws OuchOrderCanceled.
Proof. solve_laws OuchOrderCanceled_msg. Qed.

#[export] Instance OuchOrderExecuted_laws : OuchLaws OuchOrderExecuted.
Proof. solve_laws OuchOrderExecuted_msg. Qed.

#[export] Instance OuchOrderRejected_laws : OuchLaws OuchOrderRejected.
Proof. solve_laws OuchOrderRejected_msg. Qed.

(** ** Frames *)

Definition inbound_wf (msg : OuchInboundFrame) : Prop :=
  match msg with
  | INBOUND_NONE => False
  | enter_order m => eo_message_type m = INBOUND_ENTER_ORDER /\ ouch_ok m
  | replace_order m => ro_message_type m = INBOUND_REPLACE_ORDER /\ ouch_ok m
  | cancel_order m => xo_message_type m = INBOUND_CANCEL_ORDER /\ ouch_ok m
  end.

Definition outbound_wf (msg : OuchOutboundFrame) : Prop :=
  match msg with
  | OUTBOUND_NONE => False
  | order_accepted m => acc_message_type m = OUTBOUND_ORDER_ACCEPTED /\ ouch_ok m
  | order_replaced m => rep_message_type m = OUTBOUND_ORDER_REPLACED /\ ouch_ok m
  | order_canceled m => can_message_type m = OUTBOUND_ORDER_CANCELED /\ ouch_ok m
  | order_executed m => exe_message_type m = OUTBOUND_ORDER_EXECUTED /\ ouch_ok m
  | order_rejected m => rej_message_type m = OUTBOUND_ORDER_REJECTED /\ ouch_ok m
  end.

Definition inbound_bytes (msg : OuchInboundFrame) : list Z :=
  match msg with
  | INBOUND_NONE => []
  | enter_order m => ouch_bytes m | replace_order m => ouch_bytes m | cancel_order m => ouch_bytes m
  end.

Definition outbound_bytes (msg : OuchOutboundFrame) : list Z :=
  match msg with
  | OUTBOUND_NONE => []
  | order_accepted m => ouch_bytes m | order_replaced m => ouch_bytes m | order_canceled m => ouch_bytes m
  | order_executed m => ouch_bytes m | order_rejected m => ouch_bytes m
  end.

Lemma ouch_decode_as_bytes {T F} `{OuchLaws T} (con : T -> F) none m :
  ouch_ok m -> ouch_decode_as con none (ouch_bytes m) = Some (con m).
Proof. intros Hok. unfold ouch_decode_as. by rewrite ouch_decode_bytes. Qed.

Lemma ouch_decode_as_inv {T F} `{OuchLaws T} (con : T -> F) none bytes :
  Forall is_u8 bytes ->
  ouch_decode_as con none bytes = Some none \/
  exists m, ouch_decode_as con none bytes = Some (con m) /\ ouch_shape (T:=T) bytes.
Proof.
  intros Hu. unfold ouch_decode_as. destruct (ouch_decode_inv bytes (ouch_default (T:=T)) Hu) as ([|] & m & -> & Hs);
    [right; exists m; auto|by left].
Qed.

(** The type byte leads the encoding. *)
Lemma ouch_bytes_head {T} `{OuchMsg T} (m : T) p st l b :
  ouch_core = WInt 1 false p st :: l -> p m = b -> u8 b = b -> exists bs, ouch_bytes m = b :: bs.
Proof.
  intros Hc Hp Hb. unfold ouch_bytes. rewrite Hc, encoding_cons. cbn [field_bytes store Z.of_nat Z.mul].
  rewrite Z.shiftr_0_r, Hp, Hb. by eexists.
Qed.

Lemma switch_head {F} (bytes bs : list Z) b (k : Z -> F) (none : F) :
  bytes = b :: bs -> match bytes with [] => none | b0 :: _ => k b0 end = k b.
Proof. by intros ->. Qed.

(** Picks the case of a decoder's switch named by the leading type byte. *)
Ltac decode_case m Hty :=
  edestruct (ouch_bytes_head m) as [bs Hbs]; [reflexivity|exact Hty|reflexivity|];
  erewrite switch_head by exact Hbs; clear Hbs; repeat case_if; try done; by apply ouch_decode_as_bytes.

Lemma decode_inbound_bytes msg : inbound_wf msg -> decode_inbound_ouch (inbound_bytes msg) = Some msg.
Proof.
  unfold decode_inbound_ouch. destruct msg as [|m|m|m]; cbn [inbound_wf inbound_bytes]; [done|..];
    intros [Hty Hok]; decode_case m Hty.
Qed.

Lemma decode_outbound_bytes msg : outbound_wf msg -> decode_outbound_ouch (outbound_bytes msg) = Some msg.
Proof.
  unfold decode_outbound_ouch. destruct msg as [|m|m|m|m|m]; cbn [outbound_wf outbound_bytes]; [done|..];
    intros [Hty Hok]; decode_case m Hty.
Qed.

Lemma decode_inbound_shape bytes :
  Forall is_u8 bytes ->
  exists msg, decode_inbound_ouch bytes = Some msg /\
    match msg with
    | INBOUND_NONE => True
    | enter_order _ => ouch_shape (T:=OuchEnterOrder) bytes
    | replace_order _ => ouch_shape (T:=OuchReplaceOrder) bytes
    | cancel_order _ => ouch_shape (T:=OuchCancelOrder) bytes
    end.
Proof.
  intros Hu. unfold decode_inbound_ouch. destruct bytes as [|b0 bs]; [by eexists|]. set (bytes := b0 :: bs) in *.
  repeat case_if; [| | |by eexists];
    match goal with |- context [ouch_decode_as ?con _ _] =>
      destruct (ouch_decode_as_inv con INBOUND_NONE bytes Hu) as [->|(m & -> & Hs)]; by eexists end.
Qed.

Lemma decode_outbound_total payload : Forall is_u8 payload -> is_Some (decode_outbound_ouch payload).
Proof.
  intros Hu. unfold decode_outbound_ouch. destruct payload as [|b0 bs]; [done|]. set (bytes := b0 :: bs) in *.
  repeat case_if; try done;
    match goal with |- context [ouch_decode_as ?con _ _] =>
      destruct (ouch_decode_as_inv con OUTBOUND_NONE bytes Hu) as [->|(m & -> & _)]; done end.
Qed.

(** ** Theorems *)

(** C32: Every well-formed inbound OUCH message survives the wire, with any set of
    optional fields: encoding writes exactly the encoded size, decoding those bytes
    gives the message back, and a buffer that is too small is refused with 0. *)
Theorem ouch_inbound_roundtrip msg out :
  inbound_wf msg ->
  let '(n, bytes) := encode_inbound_ouch msg out in
  if decide (inbound_encoded_size msg <= length out)%nat
  then n = inbound_encoded_size msg /\ decode_inbound_ouch (take n bytes) = Some msg /\ drop n bytes = drop n out
  else n = 0%nat.
Proof.
  intros Hwf. pose proof (decode_inbound_bytes msg Hwf) as Hdec.
  destruct msg as [|m|m|m]; [done|..]; destruct Hwf as [_ Hok]; cbn [encode_inbound_ouch inbound_encoded_size inbound_bytes] in *;
    rewrite ouch_bytes_length by done; (case_decide as Hl;
      [rewrite ouch_encode_ok by done; rewrite take_app_length, drop_app_length; done|]);
    pose proof (ouch_encode_short m out Hok ltac:(lia)) as Hs; by destruct (ouch_detail_encode m out).
Qed.

(** C33: Every well-formed outbound OUCH message survives the wire in the same way. *)
Theorem ouch_outbound_roundtrip msg out :
  outbound_wf msg ->
  let '(n, bytes) := encode_outbound_ouch msg out in
  if decide (outbound_encoded_size msg <= length out)%nat
  then n = outbound_encoded_size msg /\ decode_outbound_ouch (take n bytes) = Some msg /\ drop n bytes = drop n out
  else n = 0%nat.
Proof.
  intros Hwf. pose proof (decode_outbound_bytes msg Hwf) as Hdec.
  destruct msg as [|m|m|m|m|m]; [done|..]; destruct Hwf as [_ Hok];
    cbn [encode_outbound_ouch outbound_encoded_size outbound_bytes] in *;
    rewrite ouch_bytes_length by done; (case_decide as Hl;
      [rewrite ouch_encode_ok by done; rewrite take_app_length, drop_app_length; done|]);
    pose proof (ouch_encode_short m out Hok ltac:(lia)) as Hs; by destruct (ouch_detail_encode m out).
Qed.

(** The inbound decoder is total and strict about structure: on any bytes it
    returns, and a message it accepts is its core alone, or its core, an appendage
    length and exactly the elements that fill it. *)
Theorem ouch_decode_strict bytes :
  Forall is_u8 bytes ->
  exists msg, decode_inbound_ouch bytes = Some msg /\
    match msg with
    | INBOUND_NONE => True
    | enter_order _ => ouch_shape (T:=OuchEnterOrder) bytes
    | replace_order _ => ouch_shape (T:=OuchReplaceOrder) bytes
    | cancel_order _ => ouch_shape (T:=OuchCancelOrder) bytes
    end.
Proof. apply decode_inbound_shape. Qed.

(** The decoder is lenient about content: whatever elements with tags the
    message does not have are put anywhere in its appendage, the message decodes
    to the same fields. *)
Theorem ouch_unknown_tags_skipped {T} `{OuchLaws T} (m : T) es :
  ouch_ok m -> Forall element_ok es -> Z.of_nat (length (concat (element_bytes <$> es))) < 65536 ->
  filter (fun e => e.1 ∈ (tag_byte ∘ fst) <$> (ouch_tags (T:=T))) es = present m ->
  ouch_detail_decode (encoding ouch_core m ++ store 2 (Z.of_nat (length (concat (element_bytes <$> es)))) ++
    concat (element_bytes <$> es)) ouch_default = Some (true, m).
Proof.
  intros Hok Hes Hu Hf. apply ouch_decode_elements; [apply (ok_core m Hok)|done..|].
  rewrite apply_supported, Hf. by apply apply_all.
Qed.

(** ** Examples *)

(** An order with a minimum quantity, a peg offset and a self-trade group. *)
Definition enter_example : OuchEnterOrder :=
  ouch_default <| eo_user_ref_num := 7 |> <| eo_side := ch "B" |> <| eo_quantity := 100 |>
    <| eo_symbol := alpha 8 (str "SIM") |> <| eo_price := 1025000 |> <| eo_time_in_force := ch "0" |>
    <| eo_min_qty := 10 |> <| eo_peg_offset := -5 |> <| eo_aiq_group_id := str "ab" |>
    <| eo_appendage := tag_set AIQ_GROUP_ID (tag_set PEG_OFFSET (tag_set MIN_QTY tag_set_empty)) |>.

Definition executed_example : OuchOrderExecuted :=
  ouch_default <| exe_timestamp := 34200000000000 |> <| exe_user_ref_num := 7 |> <| exe_executed_shares := 50 |>
    <| exe_execution_price := 1025000 |> <| exe_liquidity_flag := ch "A" |> <| exe_match_number := 1 |>
    <| exe_user_ref_idx := 3 |> <| exe_appendage := tag_set USER_REF_IDX tag_set_empty |>.

Definition cancel_example : OuchCancelOrder :=
  ouch_default <| xo_user_ref_num := 7 |> <| xo_user_ref_idx := 3 |> <| xo_appendage := tag_set USER_REF_IDX tag_set_empty |>.

(** The user reference index, between two elements of a tag nobody defined. *)
Definition cancel_elements : list element := [(200, [1; 2]); (28, [3]); (200, [])].

Ltac check_fields :=
  repeat (apply Forall_cons; split; [vm_compute; repeat split; (reflexivity || discriminate || lia)|]); by apply Forall_nil.

Ltac check_ok := split; [check_fields|check_fields|by apply gather_bits].

Lemma enter_example_wf : inbound_wf (enter_order enter_example).
Proof. split; [done|]. check_ok. Qed.

Lemma executed_example_wf : outbound_wf (order_executed executed_example).
Proof. split; [done|]. check_ok. Qed.

Lemma cancel_example_ok : ouch_ok cancel_example.
Proof. check_ok. Qed.

Lemma ouch_inbound_roundtrip_witness :
  exists bytes, encode_inbound_ouch (enter_order enter_example) (replicate 128 0) = (63%nat, bytes) /\
    decode_inbound_ouch (take 63 bytes) = Some (enter_order enter_example).
Proof.
  pose proof (ouch_inbound_roundtrip (enter_order enter_example) (replicate 128 0) enter_example_wf) as H.
  destruct (encode_inbound_ouch (enter_order enter_example) (replicate 128 0)) as [n bytes] eqn:E.
  rewrite decide_True in H by (apply Nat.leb_le; vm_compute; reflexivity).
  destruct H as (Hn & Hd & _). assert (n = 63%nat) as -> by (rewrite Hn; vm_compute; reflexivity).
  exists bytes. exact (conj eq_refl Hd).
Defined.

Lemma ouch_outbound_roundtrip_witness :
  exists bytes, encode_outbound_ouch (order_executed executed_example) (replicate 64 0) = (39%nat, bytes) /\
    decode_outbound_ouch (take 39 bytes) = Some (order_executed executed_example).
Proof.
  pose proof (ouch_outbound_roundtrip (order_executed executed_example) (replicate 64 0) executed_example_wf) as H.
  destruct (encode_outbound_ouch (order_executed executed_example) (replicate 64 0)) as [n bytes] eqn:E.
  rewrite decide_True in H by (apply Nat.leb_le; vm_compute; reflexivity).
  destruct H as (Hn & Hd & _). assert (n = 39%nat) as -> by (rewrite Hn; vm_compute; reflexivity).
  exists bytes. exact (conj eq_refl Hd).
Defined.

Lemma ouch_decode_strict_witness :
  Forall is_u8 (ouch_bytes cancel_example) /\ exists msg, decode_inbound_ouch (ouch_bytes cancel_example) = Some msg.
Proof.
  assert (Forall is_u8 (ouch_bytes cancel_example)) as Hu by (apply (bool_decide_unpack _); vm_compute; done).
  split; [exact Hu|]. destruct (ouch_decode_strict (ouch_bytes cancel_example) Hu) as (msg & Hm & _). by exists msg.
Defined.

Lemma ouch_unknown_tags_skipped_witness :
  ouch_detail_decode (encoding ouch_core cancel_example ++ store 2 (Z.of_nat (length (concat (element_bytes <$> cancel_elements)))) ++
    concat (element_bytes <$> cancel_elements)) ouch_default = Some (true, cancel_example).
Proof.
  apply (ouch_unknown_tags_skipped cancel_example cancel_elements cancel_example_ok); [|done|done].
  repeat (apply Forall_cons; split; [by split; cbn; try lia|]); by apply Forall_nil.
Defined.
