(* ===== verification/SoupProto.v ===== *)
(** * SoupProto: the SoupBinTCP session layer ([src/infra/soupbintcp_proto.hpp])

    Encoders write into a byte buffer and return the bytes written and the buffer;
    [parse_soup_packet] looks for one whole packet at the front of a stream.  The
    theorems show that what any encoder writes is one frame, that the parser finds
    exactly that frame whatever follows it, waits on every strict prefix of it, and
    that the decoders give the message back. *)

From S2P Require Import Prelude WireCodec OuchProto OuchCorrect.

(** ** Constants and data *)

Definition kSoupHeaderLen : nat := 3.
Definition kSoupHeartbeatIntervalNs : Z := 1000000000.

(** [SoupPacketType] is a [char] enum: a received byte is cast to it unchecked. *)
Abbreviation SoupPacketType := Z (only parsing).
Definition SOUP_DEBUG : SoupPacketType := ch "+".
Definition SOUP_LOGIN_ACCEPTED : SoupPacketType := ch "A".
Definition SOUP_LOGIN_REJECTED : SoupPacketType := ch "J".
Definition SOUP_SEQUENCED_DATA : SoupPacketType := ch "S".
Definition SOUP_SERVER_HEARTBEAT : SoupPacketType := ch "H".
Definition SOUP_END_OF_SESSION : SoupPacketType := ch "Z".
Definition SOUP_LOGIN_REQUEST : SoupPacketType := ch "L".
Definition SOUP_UNSEQUENCED_DATA : SoupPacketType := ch "U".
Definition SOUP_CLIENT_HEARTBEAT : SoupPacketType := ch "R".
Definition SOUP_LOGOUT_REQUEST : SoupPacketType := ch "O".

Definition kNotAuthorized : Z := ch "A".
Definition kSessionNotAvailable : Z := ch "S".

Record SoupLoginRequest := mkLoginRequest {
  lr_username : list Z;
  lr_password : list Z;
  lr_requested_session : list Z;
  lr_requested_sequence_number : Z;
}.

Record SoupLoginAccepted := mkLoginAccepted { la_session : list Z; la_sequence_number : Z }.

Definition kSoupLoginRequestLen : nat := 6 + 10 + 10 + 20.
Definition kSoupLoginAcceptedLen : nat := 10 + 20.
Definition kSoupNumericLen : nat := 20.

(** Right-justified in ten characters, truncated on the right. *)
Definition soup_session_id (id : list Z) : list Z :=
  let out := replicate 10 (ch " ") in
  let n := Nat.min (length id) (length out) in
  fold_left (fun out i => <[(length out - n + i)%nat := id !!! i]> out) (seq 0 n) out.

(** ** Encoding *)

Definition subspan (offset count : nat) (s : list Z) : list Z := take count (drop offset s).

Definition write_header (type : SoupPacketType) (payload_len : nat) (out : list Z) : bool * list Z :=
  if (length out <? kSoupHeaderLen + payload_len)%nat || (65535 <? Z.of_nat payload_len + 1) then (false, out) else
  let writer := writer_init out in
  let writer := write_bytes (store 2 (u16 (Z.of_nat payload_len + 1))) writer in
  let writer := write_bytes (store 1 type) writer in
  (w_ok writer, w_out writer).

(** The loop [for (size_t i = out.size(); i-- > 0;)]. *)
Fixpoint write_numeric_loop (i : nat) (value : Z) (out : list Z) : list Z :=
  match i with
  | O => out
  | S i =>
      if (value =? 0) && (i + 1 <? length out)%nat then write_numeric_loop i value (<[i := ch " "]> out)
      else write_numeric_loop i (value / 10) (<[i := u8 (ch "0" + value mod 10)]> out)
  end.

Definition write_numeric (value : Z) (out : list Z) : list Z := write_numeric_loop (length out) value out.

Fixpoint skip_spaces (l : list Z) : list Z :=
  match l with
  | c :: l' => if c =? ch " " then skip_spaces l' else l
  | [] => []
  end.

(** The digit loop: [None] on a character that is not a digit, otherwise the value
    (in 64 bits) and what is left from the first space on. *)
Fixpoint read_digits (value : Z) (l : list Z) : option (Z * list Z) :=
  match l with
  | [] => Some (value, [])
  | c :: l' =>
      if c =? ch " " then Some (value, l) else
      if (c <? ch "0") || (c >? ch "9") then None else
      read_digits (u64 (value * 10 + (c - ch "0"))) l'
  end.

Definition read_numeric (l : list Z) : option Z :=
  match skip_spaces l with
  | [] => None
  | l =>
      match read_digits 0 l with
      | None => None
      | Some (value, rest) => if forallb (fun c => c =? ch " ") rest then Some value else None
      end
  end.

Definition encode_soup_empty (type : SoupPacketType) (out : list Z) : nat * list Z :=
  let '(ok, out) := write_header type 0 out in (if ok then kSoupHeaderLen else 0%nat, out).

(** [payload.subspan(offset, n)] of [out] is written in place. *)
Definition write_at (offset : nat) (f : list Z -> list Z) (count : nat) (out : list Z) : list Z :=
  memcpy (kSoupHeaderLen + offset) (f (subspan (kSoupHeaderLen + offset) count out)) out.

Definition write_alpha (value : list Z) (out : list Z) : list Z := memcpy 0 value out.
Definition read_alpha (n : nat) (l : list Z) : list Z := take n l.

Definition encode_soup_login_request (login : SoupLoginRequest) (out : list Z) : nat * list Z :=
  let '(ok, out) := write_header SOUP_LOGIN_REQUEST kSoupLoginRequestLen out in
  if negb ok then (0%nat, out) else
  let out := write_at 0 (write_alpha (lr_username login)) 6 out in
  let out := write_at 6 (write_alpha (lr_password login)) 10 out in
  let out := write_at 16 (write_alpha (lr_requested_session login)) 10 out in
  let out := write_at 26 (write_numeric (lr_requested_sequence_number login)) kSoupNumericLen out in
  ((kSoupHeaderLen + kSoupLoginRequestLen)%nat, out).

Definition encode_soup_login_accepted (accepted : SoupLoginAccepted) (out : list Z) : nat * list Z :=
  let '(ok, out) := write_header SOUP_LOGIN_ACCEPTED kSoupLoginAcceptedLen out in
  if negb ok then (0%nat, out) else
  let out := write_at 0 (write_alpha (la_session accepted)) 10 out in
  let out := write_at 10 (write_numeric (la_sequence_number accepted)) kSoupNumericLen out in
  ((kSoupHeaderLen + kSoupLoginAcceptedLen)%nat, out).

Definition encode_soup_login_rejected (reason : Z) (out : list Z) : nat * list Z :=
  let '(ok, out) := write_header SOUP_LOGIN_REJECTED 1 out in
  if negb ok then (0%nat, out) else ((kSoupHeaderLen + 1)%nat, <[kSoupHeaderLen := reason]> out).

Definition encode_soup_unsequenced (msg : OuchInboundFrame) (out : list Z) : nat * list Z :=
  let len := inbound_encoded_size msg in
  if (len =? 0)%nat then (0%nat, out) else
  let '(ok, out) := write_header SOUP_UNSEQUENCED_DATA len out in
  if negb ok then (0%nat, out) else
  let '(n, payload) := encode_inbound_ouch msg (subspan kSoupHeaderLen len out) in
  let out := memcpy kSoupHeaderLen payload out in
  (if (n =? len)%nat then (kSoupHeaderLen + len)%nat else 0%nat, out).

Definition encode_soup_sequenced (msg : OuchOutboundFrame) (out : list Z) : nat * list Z :=
  let len := outbound_encoded_size msg in
  if (len =? 0)%nat then (0%nat, out) else
  let '(ok, out) := write_header SOUP_SEQUENCED_DATA len out in
  if negb ok then (0%nat, out) else
  let '(n, payload) := encode_outbound_ouch msg (subspan kSoupHeaderLen len out) in
  let out := memcpy kSoupHeaderLen payload out in
  (if (n =? len)%nat then (kSoupHeaderLen + len)%nat else 0%nat, out).

(** ** Decoding *)

Record SoupPacket := mkSoupPacket { soup_type : SoupPacketType; soup_payload : list Z }.

Inductive SoupParseStatus := PACKET | INCOMPLETE | MALFORMED.

Record SoupParseResult := mkParseResult {
  soup_status : SoupParseStatus;
  soup_packet : SoupPacket;
  soup_consumed : nat;
}.

Definition parse_none (status : SoupParseStatus) : SoupParseResult := mkParseResult status (mkSoupPacket 0 []) 0.

Definition parse_soup_packet (stream : list Z) : SoupParseResult :=
  if (length stream <? 2)%nat then parse_none INCOMPLETE else
  let len := load 2 false (take 2 stream) in
  if len =? 0 then parse_none MALFORMED else
  if (length stream <? 2 + Z.to_nat len)%nat then parse_none INCOMPLETE else
  mkParseResult PACKET
    (mkSoupPacket (stream !!! 2%nat) (subspan kSoupHeaderLen (Z.to_nat len - 1) stream)) (2 + Z.to_nat len).

Definition decode_soup_login_request (payload : list Z) : option SoupLoginRequest :=
  if negb (length payload =? kSoupLoginRequestLen)%nat then None else
  match read_numeric (subspan 26 kSoupNumericLen payload) with
  | None => None
  | Some sequence =>
      Some (mkLoginRequest (read_alpha 6 (subspan 0 6 payload)) (read_alpha 10 (subspan 6 10 payload))
        (read_alpha 10 (subspan 16 10 payload)) sequence)
  end.

Definition decode_soup_login_accepted (payload : list Z) : option SoupLoginAccepted :=
  if negb (length payload =? kSoupLoginAcceptedLen)%nat then None else
  match read_numeric (subspan 10 kSoupNumericLen payload) with
  | None => None
  | Some sequence => Some (mkLoginAccepted (read_alpha 10 (subspan 0 10 payload)) sequence)
  end.

(** ** Numeric fields *)

(** What the writer leaves in a field of [n] characters, from the left; [last] is
    the position that gets a digit even for zero. *)
Fixpoint numeric_chars (last : bool) (n : nat) (v : Z) : list Z :=
  match n with
  | O => []
  | S n => numeric_chars false n (v / 10) ++ [if (v =? 0) && negb last then ch " " else ch "0" + v mod 10]
  end.

Lemma numeric_chars_length last n v : length (numeric_chars last n v) = n.
Proof. revert last v. induction n as [|n IH]; intros last v; [done|]. cbn. rewrite length_app, IH. cbn. lia. Qed.

Lemma write_numeric_loop_chars i v out :
  (i <= length out)%nat -> 0 <= v ->
  write_numeric_loop i v out = numeric_chars (i =? length out)%nat i v ++ drop i out.
Proof.
  revert v out. induction i as [|i IH]; intros v out Hi Hv; [done|]. cbn [write_numeric_loop numeric_chars].
  assert (forall c, drop i (<[i := c]> out) = c :: drop (S i) out) as Hd.
  { intros c. rewrite (drop_S _ c i) by (apply list_lookup_insert_eq; lia). by rewrite drop_insert_lt by lia. }
  assert ((i =? length out)%nat = false) as Hf by (apply Nat.eqb_neq; lia).
  assert ((i + 1 <? length out)%nat = negb (S i =? length out)%nat) as ->.
  { destruct (Nat.eqb_spec (S i) (length out)), (Nat.ltb_spec (i + 1) (length out)); (done || lia). }
  pose proof (Z.mod_pos_bound v 10). destruct ((v =? 0) && _) eqn:E.
  - zbool. subst v. rewrite IH by (rewrite ?length_insert; lia). by rewrite length_insert, Hf, Hd, <- app_assoc.
  - rewrite IH by (rewrite ?length_insert; try apply Z.div_pos; lia).
    rewrite length_insert, Hf, Hd, <- app_assoc, u8_id; [done|]. change (ch "0") with 48. ulia.
Qed.

Lemma write_numeric_chars v out : 0 <= v -> write_numeric v out = numeric_chars true (length out) v.
Proof.
  intros Hv. unfold write_numeric. rewrite write_numeric_loop_chars by done.
  by rewrite Nat.eqb_refl, drop_all, app_nil_r.
Qed.

Definition is_digit (c : Z) : Prop := 48 <= c <= 57.

Definition digits_value (ds : list Z) : Z := fold_left (fun v c => v * 10 + (c - 48)) ds 0.

Lemma digits_value_snoc ds c : digits_value (ds ++ [c]) = digits_value ds * 10 + (c - 48).
Proof. unfold digits_value. by rewrite fold_left_app. Qed.

(** Blanks, then the digits of the value, none for zero. *)
Lemma numeric_chars_shape n v :
  0 <= v < 10 ^ Z.of_nat n ->
  exists k ds, numeric_chars false n v = replicate k 32 ++ ds /\ Forall is_digit ds /\ digits_value ds = v /\
    (v = 0 -> ds = []).
Proof.
  revert v. induction n as [|n IH]; intros v Hv.
  - exists 0%nat, []. cbn. split; [done|]. split; [constructor|]. change (10 ^ Z.of_nat 0) with 1 in Hv. split; [lia|done].
  - rewrite Nat2Z.inj_succ, Z.pow_succ_r in Hv by lia. cbn [numeric_chars]. rewrite andb_true_r.
    pose proof (Z.div_mod v 10). pose proof (Z.mod_pos_bound v 10).
    destruct (IH (v / 10)) as (k & ds & -> & Hds & Hval & Hz); [split; [apply Z.div_pos; lia|apply Z.div_lt_upper_bound; lia]|].
    destruct (Z.eqb_spec v 0) as [->|Hnz].
    + rewrite (Hz eq_refl). exists (S k), []. rewrite !app_nil_r. split; [by rewrite replicate_S_end|]. by split.
    + exists k, (ds ++ [48 + v mod 10]). rewrite app_assoc. split; [done|]. split; [|split; [|done]].
      * apply Forall_app. split; [done|]. apply Forall_singleton. unfold is_digit. lia.
      * rewrite digits_value_snoc, Hval. lia.
Qed.

Lemma skip_spaces_replicate k c l : c <> 32 -> skip_spaces (replicate k 32 ++ c :: l) = c :: l.
Proof.
  intros Hc. induction k as [|k IH]; cbn [replicate app skip_spaces]; [|exact IH]. by rewrite (proj2 (Z.eqb_neq c _)).
Qed.

Lemma read_digits_all ds acc :
  Forall is_digit ds ->
  read_digits (u64 acc) ds = Some (u64 (fold_left (fun v c => v * 10 + (c - 48)) ds acc), []).
Proof.
  intros H. revert acc. induction H as [|c ds Hc _ IH]; intros acc; [done|]. unfold is_digit in Hc.
  cbn [read_digits fold_left]. change (ch " ") with 32. change (ch "0") with 48. change (ch "9") with 57.
  rewrite (proj2 (Z.eqb_neq c 32)), (proj2 (Z.ltb_ge c 48)), Z.gtb_ltb, (proj2 (Z.ltb_ge 57 c)) by lia. cbn [orb].
  rewrite <- IH. f_equal. unfold u64. rewrite <- Z.add_mod_idemp_l, Z.mul_mod_idemp_l, Z.add_mod_idemp_l by lia. done.
Qed.

Lemma read_digits_u64 value l v rest : is_u64 value -> read_digits value l = Some (v, rest) -> is_u64 v.
Proof.
  revert value. induction l as [|c l IH]; intros value Hv; cbn [read_digits]; [by intros [= <- _]|].
  destruct (c =? _); [by intros [= <- _]|]. destruct (_ || _); [done|]. apply IH, u64_range.
Qed.

(** Whatever is read fits 64 bits. *)
Lemma read_numeric_u64 l v : read_numeric l = Some v -> is_u64 v.
Proof.
  unfold read_numeric. destruct (skip_spaces l) as [|c l']; [done|]. destruct (read_digits 0 (c :: l')) as [[w rest]|] eqn:E; [|done].
  destruct (forallb _ rest); [|done]. intros [= <-]. by eapply read_digits_u64; [|exact E].
Qed.

(** A field of 20 characters holds any 64-bit number. *)
Lemma read_numeric_chars n v : is_u64 v -> v < 10 ^ Z.of_nat (S n) -> read_numeric (numeric_chars true (S n) v) = Some v.
Proof.
  intros Hu Hv. rewrite Nat2Z.inj_succ, Z.pow_succ_r in Hv by lia. cbn [numeric_chars negb]. rewrite andb_false_r.
  pose proof (Z.div_mod v 10). pose proof (Z.mod_pos_bound v 10).
  destruct (numeric_chars_shape n (v / 10)) as (k & ds & -> & Hds & Hval & _);
    [split; [apply Z.div_pos; ulia|apply Z.div_lt_upper_bound; ulia]|].
  rewrite <- app_assoc. change (ch "0") with 48. set (l := ds ++ [48 + v mod 10]).
  assert (Forall is_digit l) as Hl by (apply Forall_app; split; [done|]; apply Forall_singleton; unfold is_digit; lia).
  assert (digits_value l = v) as Hlv by (unfold l; rewrite digits_value_snoc, Hval; lia).
  assert (l <> []) as Hne by (by destruct ds). clearbody l. destruct l as [|c l]; [done|]. unfold read_numeric.
  rewrite skip_spaces_replicate by (apply Forall_cons in Hl as [Hc _]; unfold is_digit in Hc; lia).
  pose proof (read_digits_all (c :: l) 0 Hl) as Hr. change (u64 0) with 0 in Hr. rewrite Hr.
  change (fold_left _ (c :: l) 0) with (digits_value (c :: l)). rewrite Hlv, u64_id by done. done.
Qed.

(** ** Frames *)

Definition soup_frame (type : SoupPacketType) (payload : list Z) : list Z :=
  store 2 (Z.of_nat (length payload) + 1) ++ type :: payload.

Lemma soup_frame_length type payload : length (soup_frame type payload) = (kSoupHeaderLen + length payload)%nat.
Proof. unfold soup_frame. rewrite length_app, store_length. done. Qed.

Lemma frame_header type payload rest :
  Z.of_nat (length payload) + 1 <= 65535 ->
  load 2 false (take 2 (soup_frame type payload ++ rest)) = Z.of_nat (length payload) + 1.
Proof.
  intros Hl. unfold soup_frame. rewrite <- app_assoc, take_app_length' by (by rewrite store_length).
  apply load_store_u. change (2 ^ (8 * Z.of_nat 2)) with 65536. lia.
Qed.

(** The parser finds a frame whatever follows it. *)
Lemma parse_frame type payload rest :
  Z.of_nat (length payload) + 1 <= 65535 ->
  parse_soup_packet (soup_frame type payload ++ rest) =
  mkParseResult PACKET (mkSoupPacket type payload) (length (soup_frame type payload)).
Proof.
  intros Hl. unfold parse_soup_packet. rewrite frame_header by done. rewrite length_app, soup_frame_length. unfold kSoupHeaderLen.
  replace (Z.to_nat (Z.of_nat (length payload) + 1)) with (S (length payload)) by lia.
  destruct (Nat.ltb_spec (3 + length payload + length rest) 2); [lia|].
  rewrite (proj2 (Z.eqb_neq _ 0)) by lia. destruct (Nat.ltb_spec (3 + length payload + length rest) (2 + S (length payload))); [lia|].
  f_equal. unfold soup_frame, subspan, kSoupHeaderLen. cbn [store app]. f_equal.
  cbn [drop]. by rewrite Nat.sub_succ, Nat.sub_0_r, drop_0, take_app_length.
Qed.

(** It waits for the rest of one that has not all arrived. *)
Lemma parse_frame_prefix type payload k :
  Z.of_nat (length payload) + 1 <= 65535 -> (k < length (soup_frame type payload))%nat ->
  soup_status (parse_soup_packet (take k (soup_frame type payload))) = INCOMPLETE.
Proof.
  intros Hl Hk. pose proof (frame_header type payload [] Hl) as Hh. rewrite app_nil_r in Hh. rewrite soup_frame_length in Hk.
  unfold parse_soup_packet. rewrite length_take, soup_frame_length. unfold kSoupHeaderLen in *.
  destruct (Nat.ltb_spec (Nat.min k (3 + length payload)) 2); [done|]. rewrite take_take, Nat.min_l, Hh by lia.
  rewrite (proj2 (Z.eqb_neq _ 0)) by lia.
  by destruct (Nat.ltb_spec (Nat.min k (3 + length payload)) (2 + Z.to_nat (Z.of_nat (length payload) + 1))); [|lia].
Qed.

Lemma write_header_ok type n out :
  is_u8 type -> (kSoupHeaderLen + n <= length out)%nat -> Z.of_nat n + 1 <= 65535 ->
  write_header type n out = (true, store 2 (Z.of_nat n + 1) ++ type :: drop 3 out).
Proof.
  intros Ht Ho Hn. unfold write_header. unfold kSoupHeaderLen in *. destruct (Nat.ltb_spec (length out) (3 + n)); [lia|].
  rewrite (proj2 (Z.ltb_ge 65535 _)) by lia. cbn [orb]. rewrite u16_id by ulia. change (writer_init out) with (writer_at [] out).
  rewrite write_bytes_ok by (rewrite store_length; lia). rewrite store_length.
  rewrite write_bytes_ok by (rewrite store_length, length_drop; lia). rewrite store_length, drop_drop.
  assert (store 1 type = [type]) as -> by (cbn; by rewrite Z.shiftr_0_r, u8_id). unfold writer_at. cbn [w_ok w_out app].
  by rewrite <- app_assoc.
Qed.

Lemma write_header_short type n out : (length out < kSoupHeaderLen + n)%nat -> write_header type n out = (false, out).
Proof. intros H. unfold write_header. by destruct (Nat.ltb_spec (length out) (kSoupHeaderLen + n)); [|lia]. Qed.

Lemma write_at_app offset f count pre rest :
  length pre = (kSoupHeaderLen + offset)%nat -> (count <= length rest)%nat -> length (f (take count rest)) = count ->
  write_at offset f count (pre ++ rest) = (pre ++ f (take count rest)) ++ drop count rest.
Proof.
  intros Hp Hc Hf. unfold write_at, subspan. rewrite <- Hp, drop_app_length, memcpy_app by lia. by rewrite Hf.
Qed.

Lemma write_alpha_all v old : length v = length old -> write_alpha v old = v.
Proof. intros H. unfold write_alpha, memcpy. by rewrite <- (app_nil_r old), list_inserts_0_r, app_nil_r. Qed.

Lemma write_at_alpha offset v count pre rest :
  length pre = (kSoupHeaderLen + offset)%nat -> length v = count -> (count <= length rest)%nat ->
  write_at offset (write_alpha v) count (pre ++ rest) = (pre ++ v) ++ drop count rest.
Proof.
  intros Hp Hv Hc. assert (write_alpha v (take count rest) = v) as E by (apply write_alpha_all; rewrite length_take; lia).
  rewrite write_at_app; rewrite ?E; done.
Qed.

Lemma write_at_numeric offset v count pre rest :
  length pre = (kSoupHeaderLen + offset)%nat -> 0 <= v -> (count <= length rest)%nat ->
  write_at offset (write_numeric v) count (pre ++ rest) = (pre ++ numeric_chars true count v) ++ drop count rest.
Proof.
  intros Hp Hv Hc. assert (write_numeric v (take count rest) = numeric_chars true count v) as E.
  { rewrite write_numeric_chars by done. rewrite length_take. by rewrite Nat.min_l by lia. }
  rewrite write_at_app; rewrite ?E; auto using numeric_chars_length.
Qed.

Ltac text_lengths := rewrite ?length_app, ?store_length, ?length_drop; cbn [length]; unfold kSoupHeaderLen in *; lia.

(** What each encoder writes: one frame, the rest of the buffer as it was. *)
Definition writes_frame (encode : list Z -> nat * list Z) (type : SoupPacketType) (payload : list Z) : Prop :=
  forall out, let n := length (soup_frame type payload) in
  if decide (n <= length out)%nat then encode out = (n, soup_frame type payload ++ drop n out) else encode out = (0%nat, out).

Lemma soup_empty_frame type : is_u8 type -> writes_frame (encode_soup_empty type) type [].
Proof.
  intros Ht out. cbv zeta. rewrite soup_frame_length. unfold encode_soup_empty. case_decide as Hl.
  - by rewrite write_header_ok.
  - by rewrite write_header_short by (cbn in *; lia).
Qed.

Lemma soup_login_rejected_frame reason : writes_frame (encode_soup_login_rejected reason) SOUP_LOGIN_REJECTED [reason].
Proof.
  intros out. cbv zeta. rewrite soup_frame_length. unfold encode_soup_login_rejected. case_decide as Hl.
  - rewrite write_header_ok by done. cbn [negb length]. f_equal.
    unfold soup_frame. cbn [length]. rewrite (drop_S out (out !!! 3%nat) 3) by (apply list_lookup_lookup_total_lt; cbn in Hl; lia).
    done.
  - by rewrite write_header_short by (cbn in *; lia).
Qed.

(** Login packets: text fields, then the number. *)
Definition login_request_payload (l : SoupLoginRequest) : list Z :=
  lr_username l ++ lr_password l ++ lr_requested_session l ++ numeric_chars true 20 (lr_requested_sequence_number l).

Definition login_accepted_payload (a : SoupLoginAccepted) : list Z :=
  la_session a ++ numeric_chars true 20 (la_sequence_number a).

Definition login_request_wf (l : SoupLoginRequest) : Prop :=
  length (lr_username l) = 6%nat /\ length (lr_password l) = 10%nat /\ length (lr_requested_session l) = 10%nat /\
  is_u64 (lr_requested_sequence_number l).

Definition login_accepted_wf (a : SoupLoginAccepted) : Prop :=
  length (la_session a) = 10%nat /\ is_u64 (la_sequence_number a).

Lemma soup_login_request_frame l :
  login_request_wf l -> writes_frame (encode_soup_login_request l) SOUP_LOGIN_REQUEST (login_request_payload l).
Proof.
  intros (Hu & Hp & Hs & Hn) out. cbv zeta. rewrite soup_frame_length.
  assert (length (login_request_payload l) = 46)%nat as Hlen
    by (unfold login_request_payload; rewrite !length_app, numeric_chars_length; lia).
  rewrite Hlen. unfold encode_soup_login_request, kSoupLoginRequestLen, kSoupNumericLen. cbn [Nat.add]. case_decide as Hl.
  - unfold kSoupHeaderLen in Hl. rewrite write_header_ok by first [done|unfold kSoupHeaderLen; lia]. cbn [negb].
    rewrite (cons_middle _ (store _ _)), app_assoc.
    rewrite write_at_alpha by text_lengths. rewrite write_at_alpha by text_lengths. rewrite write_at_alpha by text_lengths.
    rewrite write_at_numeric by (text_lengths || ulia). rewrite !drop_drop. f_equal.
    unfold soup_frame, login_request_payload. rewrite !length_app, numeric_chars_length, Hu, Hp, Hs, <- !app_assoc. cbn [app]. by rewrite <- !app_assoc.
  - by rewrite write_header_short by (unfold kSoupHeaderLen in *; lia).
Qed.

Lemma soup_login_accepted_frame a :
  login_accepted_wf a -> writes_frame (encode_soup_login_accepted a) SOUP_LOGIN_ACCEPTED (login_accepted_payload a).
Proof.
  intros (Hs & Hn) out. cbv zeta. rewrite soup_frame_length.
  assert (length (login_accepted_payload a) = 30)%nat as Hlen
    by (unfold login_accepted_payload; rewrite !length_app, numeric_chars_length; lia).
  rewrite Hlen. unfold encode_soup_login_accepted, kSoupLoginAcceptedLen, kSoupNumericLen. cbn [Nat.add]. case_decide as Hl.
  - unfold kSoupHeaderLen in Hl. rewrite write_header_ok by first [done|unfold kSoupHeaderLen; lia]. cbn [negb].
    rewrite (cons_middle _ (store _ _)), app_assoc. rewrite write_at_alpha by text_lengths.
    rewrite write_at_numeric by (text_lengths || ulia). rewrite !drop_drop. f_equal.
    unfold soup_frame, login_accepted_payload. rewrite !length_app, numeric_chars_length, Hs, <- !app_assoc. cbn [app]. by rewrite <- !app_assoc.
  - by rewrite write_header_short by (unfold kSoupHeaderLen in *; lia).
Qed.

(** *** OUCH inside a data packet *)

Lemma inbound_encode_ok msg out :
  inbound_wf msg -> (length (inbound_bytes msg) <= length out)%nat ->
  encode_inbound_ouch msg out = (length (inbound_bytes msg), inbound_bytes msg ++ drop (length (inbound_bytes msg)) out).
Proof. destruct msg; [done|..]; intros [_ Hok] Hl; by apply ouch_encode_ok. Qed.

Lemma outbound_encode_ok msg out :
  outbound_wf msg -> (length (outbound_bytes msg) <= length out)%nat ->
  encode_outbound_ouch msg out = (length (outbound_bytes msg), outbound_bytes msg ++ drop (length (outbound_bytes msg)) out).
Proof. destruct msg; [done|..]; intros [_ Hok] Hl; by apply ouch_encode_ok. Qed.

Lemma inbound_size msg : inbound_wf msg -> inbound_encoded_size msg = length (inbound_bytes msg).
Proof. destruct msg; [done|..]; intros [_ Hok]; by apply ouch_bytes_length. Qed.

Lemma outbound_size msg : outbound_wf msg -> outbound_encoded_size msg = length (outbound_bytes msg).
Proof. destruct msg; [done|..]; intros [_ Hok]; by apply ouch_bytes_length. Qed.

(** A message is no longer than with every optional field present. *)
Definition ouch_max_size {T} `{OuchMsg T} : nat :=
  (fields_size (ouch_core (T:=T)) + 2 + sum_list_with (fun tf => (2 + wire_size (snd tf))%nat) (ouch_tags (T:=T)))%nat.

Lemma ouch_size_bound {T} `{OuchMsg T} (m : T) : (ouch_detail_encoded_size m <= ouch_max_size (T:=T))%nat.
Proof.
  unfold ouch_detail_encoded_size, ouch_max_size, kAppendageLengthLen, kTagValueHeaderLen.
  generalize (fields_size (ouch_core (T:=T)) + 2)%nat as n.
  induction ouch_tags as [|[t f] l IH]; intros n; cbn [fold_left sum_list_with snd]; [lia|].
  etransitivity; [apply IH|]. destruct (tag_has _ _); lia.
Qed.

(** The largest packets, as the server's buffers assume. *)
Lemma inbound_size_bound msg : (kSoupHeaderLen + inbound_encoded_size msg <= 512)%nat.
Proof.
  destruct msg as [|m|m|m]; cbn [inbound_encoded_size];
    [cbn; lia|..]; pose proof (ouch_size_bound m) as H; etransitivity; try (apply Nat.add_le_mono_l; exact H);
    apply Nat.leb_le; vm_compute; reflexivity.
Qed.

Lemma outbound_size_bound msg : (kSoupHeaderLen + outbound_encoded_size msg <= 256)%nat.
Proof.
  destruct msg as [|m|m|m|m|m]; cbn [outbound_encoded_size];
    [cbn; lia|..]; pose proof (ouch_size_bound m) as H; etransitivity; try (apply Nat.add_le_mono_l; exact H);
    apply Nat.leb_le; vm_compute; reflexivity.
Qed.

Lemma ouch_size_pos {T} `{OuchMsg T} (m : T) : (0 < ouch_detail_encoded_size m)%nat.
Proof.
  unfold ouch_detail_encoded_size, kAppendageLengthLen. generalize (fields_size (ouch_core (T:=T))) as n.
  induction ouch_tags as [|[t f] l IH]; intros n; cbn [fold_left]; [lia|]. destruct (tag_has _ _); [|apply IH].
  rewrite <- (Nat.add_assoc n), (Nat.add_comm 2), Nat.add_assoc. apply IH.
Qed.

Lemma inbound_size_pos msg : inbound_wf msg -> (0 < inbound_encoded_size msg)%nat.
Proof. destruct msg; [done|..]; intros _; apply ouch_size_pos. Qed.

Lemma outbound_size_pos msg : outbound_wf msg -> (0 < outbound_encoded_size msg)%nat.
Proof. destruct msg; [done|..]; intros _; apply ouch_size_pos. Qed.

(** The two data-packet encoders share their shape. *)
Lemma data_packet_frame (encode : list Z -> nat * list Z) len bytes type :
  len = length bytes -> (0 < len)%nat -> is_u8 type -> Z.of_nat len + 1 <= 65535 ->
  (forall out, (len <= length out)%nat -> encode out = (len, bytes ++ drop len out)) ->
  writes_frame (fun out =>
    if (len =? 0)%nat then (0%nat, out) else
    let '(ok, out) := write_header type len out in
    if negb ok then (0%nat, out) else
    let '(n, payload) := encode (subspan kSoupHeaderLen len out) in
    let out := memcpy kSoupHeaderLen payload out in
    (if (n =? len)%nat then (kSoupHeaderLen + len)%nat else 0%nat, out)) type bytes.
Proof.
  intros -> Hpos Ht Hl Henc out. cbv zeta. rewrite soup_frame_length, (proj2 (Nat.eqb_neq _ 0)) by lia.
  unfold kSoupHeaderLen in *. case_decide as Ho.
  - rewrite write_header_ok by (done || unfold kSoupHeaderLen; lia). cbn [negb].
    rewrite (cons_middle _ (store _ _)), app_assoc. unfold subspan.
    set (hdr := store 2 _ ++ [type]). assert (length hdr = 3%nat) as Hh by (unfold hdr; by rewrite length_app, store_length).
    rewrite <- Hh at 1. rewrite drop_app_length. rewrite Henc by (rewrite length_take, length_drop; lia).
    rewrite Nat.eqb_refl. rewrite (drop_ge (take _ _)) by (rewrite length_take; lia). rewrite app_nil_r. f_equal.
    rewrite <- Hh at 1. rewrite memcpy_app by (rewrite length_drop; lia). rewrite drop_drop.
    unfold hdr, soup_frame. rewrite <- !app_assoc. cbn [app]. done.
  - by rewrite write_header_short by (unfold kSoupHeaderLen; lia).
Qed.

Lemma soup_unsequenced_frame msg :
  inbound_wf msg -> writes_frame (encode_soup_unsequenced msg) SOUP_UNSEQUENCED_DATA (inbound_bytes msg).
Proof.
  intros H. pose proof (inbound_size_bound msg) as Hb. unfold kSoupHeaderLen in Hb.
  apply (data_packet_frame (encode_inbound_ouch msg) (inbound_encoded_size msg));
    [by apply inbound_size|by apply inbound_size_pos|done|lia|].
  rewrite inbound_size by done. intros out. by apply inbound_encode_ok.
Qed.

Lemma soup_sequenced_frame msg :
  outbound_wf msg -> writes_frame (encode_soup_sequenced msg) SOUP_SEQUENCED_DATA (outbound_bytes msg).
Proof.
  intros H. pose proof (outbound_size_bound msg) as Hb. unfold kSoupHeaderLen in Hb.
  apply (data_packet_frame (encode_outbound_ouch msg) (outbound_encoded_size msg));
    [by apply outbound_size|by apply outbound_size_pos|done|lia|].
  rewrite outbound_size by done. intros out. by apply outbound_encode_ok.
Qed.

(** ** Decoders *)

Lemma subspan_app (pre mid post : list Z) n k :
  n = length pre -> k = length mid -> subspan n k (pre ++ mid ++ post) = mid.
Proof. intros -> ->. unfold subspan. by rewrite drop_app_length, take_app_length. Qed.

Lemma subspan_front (mid post : list Z) k : k = length mid -> subspan 0 k (mid ++ post) = mid.
Proof. intros ->. unfold subspan. by rewrite drop_0, take_app_length. Qed.

Lemma read_alpha_all n (l : list Z) : length l = n -> read_alpha n l = l.
Proof. intros <-. apply firstn_all. Qed.

Lemma u64_twenty_digits v : is_u64 v -> v < 10 ^ Z.of_nat 20.
Proof. intros [_ H]. etransitivity; [exact H|]. reflexivity. Qed.

Lemma decode_login_request l : login_request_wf l -> decode_soup_login_request (login_request_payload l) = Some l.
Proof.
  intros (Hu & Hp & Hs & Hn). unfold decode_soup_login_request, login_request_payload, kSoupNumericLen.
  set (num := numeric_chars true 20 _). assert (length num = 20%nat) as Hl by apply numeric_chars_length.
  rewrite !length_app, Hu, Hp, Hs, Hl. cbn [Nat.eqb Nat.add negb kSoupLoginRequestLen].
  assert (subspan 26 20 (lr_username l ++ lr_password l ++ lr_requested_session l ++ num) = num) as ->.
  { transitivity (subspan 26 20 ((lr_username l ++ lr_password l ++ lr_requested_session l) ++ num ++ []));
      [by rewrite app_nil_r, <- !app_assoc|apply subspan_app; [rewrite !length_app|]; lia]. }
  unfold num at 1. rewrite read_numeric_chars by auto using u64_twenty_digits.
  rewrite (subspan_front (lr_username l)), (subspan_app (lr_username l) (lr_password l)) by done.
  rewrite (app_assoc (lr_username l)). rewrite (subspan_app _ (lr_requested_session l)) by (rewrite ?length_app; lia).
  rewrite !read_alpha_all by done. by destruct l.
Qed.

Lemma decode_login_accepted a : login_accepted_wf a -> decode_soup_login_accepted (login_accepted_payload a) = Some a.
Proof.
  intros (Hs & Hn). unfold decode_soup_login_accepted, login_accepted_payload, kSoupNumericLen.
  set (num := numeric_chars true 20 _). assert (length num = 20%nat) as Hl by apply numeric_chars_length.
  rewrite !length_app, Hs, Hl. cbn [Nat.eqb Nat.add negb kSoupLoginAcceptedLen].
  assert (subspan 10 20 (la_session a ++ num) = num) as ->.
  { rewrite <- (app_nil_r num) at 1. by apply subspan_app; [lia|lia]. }
  unfold num at 1. rewrite read_numeric_chars by auto using u64_twenty_digits.
  rewrite (subspan_front (la_session a)) by done. rewrite !read_alpha_all by done. by destruct a.
Qed.

(** ** Every packet of the protocol *)

Inductive SoupMessage :=
| soup_empty (type : SoupPacketType)
| soup_login_request (l : SoupLoginRequest)
| soup_login_accepted (a : SoupLoginAccepted)
| soup_login_rejected (reason : Z)
| soup_unsequenced (m : OuchInboundFrame)
| soup_sequenced (m : OuchOutboundFrame).

Definition encode_soup (msg : SoupMessage) : list Z -> nat * list Z :=
  match msg with
  | soup_empty type => encode_soup_empty type
  | soup_login_request l => encode_soup_login_request l
  | soup_login_accepted a => encode_soup_login_accepted a
  | soup_login_rejected reason => encode_soup_login_rejected reason
  | soup_unsequenced m => encode_soup_unsequenced m
  | soup_sequenced m => encode_soup_sequenced m
  end.

Definition soup_wf (msg : SoupMessage) : Prop :=
  match msg with
  | soup_empty type => is_u8 type
  | soup_login_request l => login_request_wf l
  | soup_login_accepted a => login_accepted_wf a
  | soup_login_rejected _ => True
  | soup_unsequenced m => inbound_wf m
  | soup_sequenced m => outbound_wf m
  end.

(** The receiver's reading of a packet is the message. *)
Definition soup_means (packet : SoupPacket) (msg : SoupMessage) : Prop :=
  match msg with
  | soup_empty type => packet = mkSoupPacket type []
  | soup_login_request l =>
      soup_type packet = SOUP_LOGIN_REQUEST /\ decode_soup_login_request (soup_payload packet) = Some l
  | soup_login_accepted a =>
      soup_type packet = SOUP_LOGIN_ACCEPTED /\ decode_soup_login_accepted (soup_payload packet) = Some a
  | soup_login_rejected reason => packet = mkSoupPacket SOUP_LOGIN_REJECTED [reason]
  | soup_unsequenced m => soup_type packet = SOUP_UNSEQUENCED_DATA /\ decode_inbound_ouch (soup_payload packet) = Some m
  | soup_sequenced m => soup_type packet = SOUP_SEQUENCED_DATA /\ decode_outbound_ouch (soup_payload packet) = Some m
  end.

Definition soup_content (msg : SoupMessage) : SoupPacket :=
  match msg with
  | soup_empty type => mkSoupPacket type []
  | soup_login_request l => mkSoupPacket SOUP_LOGIN_REQUEST (login_request_payload l)
  | soup_login_accepted a => mkSoupPacket SOUP_LOGIN_ACCEPTED (login_accepted_payload a)
  | soup_login_rejected reason => mkSoupPacket SOUP_LOGIN_REJECTED [reason]
  | soup_unsequenced m => mkSoupPacket SOUP_UNSEQUENCED_DATA (inbound_bytes m)
  | soup_sequenced m => mkSoupPacket SOUP_SEQUENCED_DATA (outbound_bytes m)
  end.

Definition soup_bytes (msg : SoupMessage) : list Z :=
  soup_frame (soup_type (soup_content msg)) (soup_payload (soup_content msg)).

Lemma encode_soup_frame msg :
  soup_wf msg -> writes_frame (encode_soup msg) (soup_type (soup_content msg)) (soup_payload (soup_content msg)).
Proof.
  destruct msg; cbn [soup_wf encode_soup soup_content soup_type soup_payload]; intros H.
  - by apply soup_empty_frame.
  - by apply soup_login_request_frame.
  - by apply soup_login_accepted_frame.
  - apply soup_login_rejected_frame.
  - by apply soup_unsequenced_frame.
  - by apply soup_sequenced_frame.
Qed.

Lemma soup_content_means msg : soup_wf msg -> soup_means (soup_content msg) msg.
Proof.
  destruct msg; cbn [soup_wf soup_means soup_content soup_type soup_payload]; intros H; try done; (split; [done|]).
  - by apply decode_login_request.
  - by apply decode_login_accepted.
  - by apply decode_inbound_bytes.
  - by apply decode_outbound_bytes.
Qed.

Lemma soup_content_short msg : soup_wf msg -> Z.of_nat (length (soup_payload (soup_content msg))) + 1 <= 65535.
Proof.
  destruct msg as [|l|a| |m|m]; cbn [soup_wf soup_content soup_payload]; intros H; try done.
  - destruct H as (? & ? & ? & _). unfold login_request_payload. rewrite !length_app, numeric_chars_length. lia.
  - destruct H as (? & _). unfold login_accepted_payload. rewrite !length_app, numeric_chars_length. lia.
  - rewrite <- inbound_size by done. pose proof (inbound_size_bound m). lia.
  - rewrite <- outbound_size by done. pose proof (outbound_size_bound m). lia.
Qed.

(** ** Theorem *)

(** C38: Every SoupBinTCP packet survives the stream: an encoder writes all of the
    packet or, when the buffer is too small, reports 0; on the stream the parser waits
    for each strict prefix of it, and once it has arrived finds it whatever follows,
    consumes exactly its bytes, and the receiver's decoder gives the message back. *)
Theorem soup_stream_roundtrip msg out :
  soup_wf msg ->
  let '(n, bytes) := encode_soup msg out in
  if decide (length (soup_bytes msg) <= length out)%nat then
    (0 < n)%nat /\ drop n bytes = drop n out /\
    (forall k, (k < n)%nat -> soup_status (parse_soup_packet (take k bytes)) = INCOMPLETE) /\
    (forall rest, exists packet, parse_soup_packet (take n bytes ++ rest) = mkParseResult PACKET packet n /\
      soup_means packet msg)
  else n = 0%nat /\ bytes = out.
Proof.
  intros H. pose proof (encode_soup_frame msg H out) as Hf. cbv zeta in Hf. fold (soup_bytes msg) in Hf.
  pose proof (soup_content_short msg H) as Hs. case_decide as Hl; rewrite Hf; [|done].
  rewrite drop_app_length, take_app_length. split; [unfold soup_bytes; rewrite soup_frame_length; cbn; lia|]. split; [done|]. split.
  - intros k Hk. rewrite take_app_le by lia. by apply parse_frame_prefix.
  - intros rest. exists (soup_content msg). split; [|by apply soup_content_means].
    unfold soup_bytes. rewrite parse_frame by done. by destruct (soup_content msg).
Qed.

(** A login for session SIM from sequence number 42. *)
Definition login_example : SoupLoginRequest :=
  mkLoginRequest (alpha 6 (str "ALICE")) (alpha 10 (str "SECRET")) (alpha 10 (str "SIM")) 42.

Lemma soup_stream_roundtrip_witness :
  exists bytes packet, encode_soup_login_request login_example (replicate 64 0) = (49%nat, bytes) /\
    parse_soup_packet (take 49 bytes ++ [1; 2]) = mkParseResult PACKET packet 49 /\
    decode_soup_login_request (soup_payload packet) = Some login_example.
Proof.
  assert (soup_wf (soup_login_request login_example)) as H by (repeat split; vm_compute; (reflexivity || discriminate)).
  pose proof (soup_stream_roundtrip (soup_login_request login_example) (replicate 64 0) H) as Ht.
  cbn [encode_soup] in Ht. destruct (encode_soup_login_request login_example (replicate 64 0)) as [n bytes] eqn:E.
  rewrite decide_True in Ht by (apply Nat.leb_le; vm_compute; reflexivity).
  assert (n = 49%nat) as -> by (vm_compute in E; by injection E).
  destruct Ht as (_ & _ & _ & Hp). destruct (Hp [1; 2]) as (packet & Hpk & _ & Hd). exists bytes, packet. exact (conj eq_refl (conj Hpk Hd)).
Defined.
