(* ===== verification/Reassembly.v ===== *)
(** * Reassembly: SoupBinTCP packets out of TCP segments
    ([Server::on_data_] of [src/exchange/server/src/server.cpp])

    The function works on one connection: it keeps the start of a packet that a
    segment cut off, and hands whole packets to [handle_soup_packet_].  What it needs
    of the rest of the server is the class [PacketSink]; the server's instance is in
    [Inbound].  The [partial] buffer with its length is the list of the bytes in it;
    copying past its 512 bytes is a fault. *)

From S2P Require Import Prelude WireCodec SoupProto.

Definition kMaxInboundSoupPacket : nat := 512.

(** What the reassembler needs of a connection and the server behind it. *)
Class PacketSink (C : Type) := {
  partial : C -> list Z;                     (** [partial], its first [partial_len] bytes *)
  set_partial : list Z -> C -> C;
  taking_input : C -> bool;                  (** [open && !closing] *)
  handle_packet : SoupPacket -> M C bool;    (** [handle_soup_packet_] *)
  disconnect : M C unit;                     (** [disconnect_] *)
}.

Class PacketSinkLaws (C : Type) `{PacketSink C} : Prop := {
  partial_set l s : partial (set_partial l s) = l;
  set_partial_set l l' s : set_partial l (set_partial l' s) = set_partial l s;
  set_partial_same s : set_partial (partial s) s = s;
  taking_set l s : taking_input (set_partial l s) = taking_input s;
  handle_result packet s b s' :
    handle_packet packet s = Some (b, s') -> partial s = [] -> b = taking_input s' /\ partial s' = [];
  disconnect_result s s' : disconnect s = Some (tt, s') -> taking_input s' = false;
}.

Section Reassembly.
Context {C : Type} `{PacketSink C}.

(** ** The code *)

(** The two lambdas of [on_data_]. *)
Definition packet_len (header : list Z) : Z := 2 + load 2 false (take 2 header).
Definition too_long (header : list Z) : bool := packet_len header >? Z.of_nat kMaxInboundSoupPacket.

(** [memcpy(partial.data() + partial_len, bytes, n); partial_len += n]. *)
Definition append_partial (bytes : list Z) : M C unit := fun s =>
  if (length (partial s) + length bytes <=? kMaxInboundSoupPacket)%nat
  then Some (tt, set_partial (partial s ++ bytes) s) else None.

(** The while loop; every packet takes at least a byte, so [length bytes] rounds do. *)
Fixpoint packet_loop (fuel : nat) (bytes : list Z) : M C unit :=
  match bytes with
  | [] => mret tt
  | _ =>
    match fuel with
    | O => fun _ => None
    | S fuel =>
        let parsed := parse_soup_packet bytes in
        match soup_status parsed with
        | PACKET =>
            ok ← handle_packet (soup_packet parsed);
            if negb ok then mret tt else packet_loop fuel (drop (soup_consumed parsed) bytes)
        | MALFORMED => disconnect
        | INCOMPLETE =>
            if (2 <=? length bytes)%nat && too_long bytes then disconnect else
            _ ← modify (set_partial []);
            append_partial bytes
        end
    end
  end.

(** Finish the length field: [None] when [on_data_] returns here. *)
Definition finish_length (bytes : list Z) : M C (option (list Z)) :=
  partial_len ← gets (fun s => length (partial s));
  if (partial_len <? 2)%nat then
    let n := Nat.min (2 - partial_len) (length bytes) in
    _ ← append_partial (take n bytes);
    let bytes := drop n bytes in
    partial_ ← gets partial;
    if (length partial_ <? 2)%nat then mret None else
    if too_long partial_ then (_ ← disconnect; mret None) else
    mret (Some bytes)
  else mret (Some bytes).

(** Then the packet it announces. *)
Definition finish_packet (bytes : list Z) : M C (option (list Z)) :=
  partial_ ← gets partial;
  let total := packet_len partial_ in
  let n := Z.to_nat (Z.min (u64 (total - Z.of_nat (length partial_))) (Z.of_nat (length bytes))) in
  _ ← append_partial (take n bytes);
  let bytes := drop n bytes in
  partial_ ← gets partial;
  if Z.of_nat (length partial_) <? total then mret None else
  _ ← modify (set_partial []);
  let parsed := parse_soup_packet (take (Z.to_nat total) partial_) in
  match soup_status parsed with
  | PACKET =>
      ok ← handle_packet (soup_packet parsed);
      mret (if ok : bool then Some bytes else None)
  | _ => _ ← disconnect; mret None
  end.

Definition on_data_ (bytes : list Z) : M C unit :=
  partial_len ← gets (fun s => length (partial s));
  rest ←
    (if (0 <? partial_len)%nat then
       rest ← finish_length bytes;
       match rest with None => mret None | Some bytes => finish_packet bytes end
     else mret (Some bytes));
  match rest with
  | None => mret tt
  | Some bytes => packet_loop (length bytes) bytes
  end.

(** The data case of [on_tcp_event_]: a connection that is over is not read. *)
Definition deliver (bytes : list Z) : M C unit := fun s =>
  if taking_input s then on_data_ bytes s else Some (tt, s).

Fixpoint deliver_all (segments : list (list Z)) : M C unit :=
  match segments with
  | [] => mret tt
  | bytes :: segments => _ ← deliver bytes; deliver_all segments
  end.

(** ** Streams without a packet over the limit *)

Inductive short_stream : list Z -> Prop :=
| short_nil : short_stream []
| short_incomplete l :
    l <> [] -> soup_status (parse_soup_packet l) = INCOMPLETE -> ((2 <= length l)%nat -> too_long l = false) -> short_stream l
| short_malformed l : soup_status (parse_soup_packet l) = MALFORMED -> short_stream l
| short_packet l :
    soup_status (parse_soup_packet l) = PACKET -> too_long l = false ->
    short_stream (drop (soup_consumed (parse_soup_packet l)) l) -> short_stream l.

(** ** Parsing a stream and its prefixes *)

Lemma load2_bound l : Forall is_u8 l -> 0 <= load 2 false (take 2 l) < 65536.
Proof.
  intros Hl. unfold load, load_unsigned. destruct l as [|a [|b l]]; cbn -[Z.lor Z.shiftl]; [lia|..];
    repeat (apply Forall_cons in Hl as [? Hl]); rewrite ?take_0; cbn [fold_left]; rewrite ?lor_shiftl8 by done; ulia.
Qed.

(** What the parser decides, in terms of the announced length. *)
Lemma parse_cases l :
  Forall is_u8 l -> l <> [] ->
  ((length l < 2)%nat /\ soup_status (parse_soup_packet l) = INCOMPLETE) \/
  ((2 <= length l)%nat /\ packet_len l = 2 /\ soup_status (parse_soup_packet l) = MALFORMED) \/
  ((2 <= length l)%nat /\ 2 < packet_len l /\ Z.of_nat (length l) < packet_len l /\
     soup_status (parse_soup_packet l) = INCOMPLETE) \/
  (2 < packet_len l <= Z.of_nat (length l) /\ parse_soup_packet l = mkParseResult PACKET
     (mkSoupPacket (l !!! 2%nat) (subspan kSoupHeaderLen (Z.to_nat (packet_len l) - 3) l)) (Z.to_nat (packet_len l))).
Proof.
  intros Hu Hl. pose proof (load2_bound l Hu) as Hb. unfold parse_soup_packet, packet_len in *.
  set (len := load 2 false (take 2 l)) in *. destruct (Nat.ltb_spec (length l) 2); [by left|]. right.
  destruct (Z.eqb_spec len 0) as [->|]; [by left|]. right.
  destruct (Nat.ltb_spec (length l) (2 + Z.to_nat len)); [left|right]; (split; [lia|]); [split; [lia|]; split; [lia|done]|].
  f_equal; [|lia]. do 2 f_equal. lia.
Qed.

(** The header is in the first two bytes, a packet in the first [packet_len]. *)
Lemma packet_len_app l l' : (2 <= length l)%nat -> packet_len (l ++ l') = packet_len l.
Proof. intros Hl. unfold packet_len. by rewrite take_app_le. Qed.

Lemma too_long_app l l' : (2 <= length l)%nat -> too_long (l ++ l') = too_long l.
Proof. intros Hl. unfold too_long. by rewrite packet_len_app. Qed.

Lemma parse_app l l' :
  Forall is_u8 (l ++ l') -> 2 < packet_len l <= Z.of_nat (length l) -> parse_soup_packet (l ++ l') = parse_soup_packet l.
Proof.
  intros Hu Hp. assert (2 <= length l)%nat as Hl by lia. pose proof Hu as [Hul _]%Forall_app.
  assert (l <> []) as Hne by (intros ->; cbn in Hl; lia).
  assert (l ++ l' <> []) as Hne' by (intros [? _]%app_nil; done).
  destruct (parse_cases (l ++ l') Hu Hne') as [?|[?|[?|[_ ->]]]]; rewrite ?packet_len_app, ?length_app in * by done; try lia.
  destruct (parse_cases l Hul Hne) as [?|[?|[?|[_ ->]]]]; try lia.
  f_equal. f_equal; [by rewrite lookup_total_app_l by lia|]. unfold subspan, kSoupHeaderLen.
  rewrite drop_app_le, take_app_le by (rewrite ?length_drop; lia). done.
Qed.

Lemma short_stream_header l : Forall is_u8 l -> short_stream l -> (2 <= length l)%nat -> too_long l = false.
Proof.
  intros Hu Hs Hl. destruct Hs as [|l ? ? Ht|l Hm|l ? Ht]; [cbn in Hl; lia|auto| |done].
  assert (l <> []) as Hne by (intros ->; cbn in Hl; lia).
  destruct (parse_cases l Hu Hne) as [[? ?]|[[_ [E _]]|[[_ [_ [_ ?]]]|[_ E]]]]; [lia| |congruence|].
  - unfold too_long. by rewrite E.
  - by rewrite E in Hm.
Qed.

Lemma too_long_false l : too_long l = false -> packet_len l <= 512.
Proof. unfold too_long. rewrite Z.gtb_ltb. intros E. zbool. done. Qed.

(** ** The loop *)

Context `{!PacketSinkLaws C}.

Lemma packet_loop_fuel fuel1 fuel2 l s :
  Forall is_u8 l -> (length l <= fuel1)%nat -> (length l <= fuel2)%nat -> packet_loop fuel1 l s = packet_loop fuel2 l s.
Proof.
  revert fuel2 l s. induction fuel1 as [|fuel1 IH]; intros fuel2 l s Hu H1 H2.
  - destruct l; [by destruct fuel2|cbn in H1; lia].
  - destruct l as [|b l]; [by destruct fuel2|]. destruct fuel2 as [|fuel2]; [cbn in H2; lia|]. cbn [packet_loop].
    destruct (parse_cases (b :: l) Hu) as [[_ ->]|[(_ & _ & ->)|[(_ & _ & _ & ->)|[Hp ->]]]]; try done.
    cbn [soup_status soup_packet soup_consumed]. unfold mbind, M_bind. destruct (handle_packet _ s) as [[ok s']|]; [|done].
    destruct ok; cbn [negb]; [|done]. apply IH; [by apply Forall_drop|..]; rewrite length_drop; cbn [length] in *; lia.
Qed.

(** The reference: the loop run on a whole stream. *)
Definition read_stream (l : list Z) : M C unit := packet_loop (length l) l.

Lemma read_stream_packet l s :
  Forall is_u8 l -> 2 < packet_len l <= Z.of_nat (length l) ->
  read_stream l s =
  match handle_packet (soup_packet (parse_soup_packet l)) s with
  | None => None
  | Some (false, s') => Some (tt, s')
  | Some (true, s') => read_stream (drop (Z.to_nat (packet_len l)) l) s'
  end.
Proof.
  intros Hu Hp. unfold read_stream. destruct l as [|b l]; [cbn in Hp; lia|]. cbn [length packet_loop].
  destruct (parse_cases (b :: l) Hu) as [?|[?|[?|[_ ->]]]]; try lia; [done|].
  cbn [soup_status soup_packet soup_consumed]. unfold mbind, M_bind. destruct (handle_packet _ s) as [[ok s']|]; [|done].
  destruct ok; cbn [negb]; [|done]. apply packet_loop_fuel; [by apply Forall_drop|..]; rewrite length_drop; cbn [length] in *; lia.
Qed.

Lemma read_stream_malformed l s :
  l <> [] -> soup_status (parse_soup_packet l) = MALFORMED -> read_stream l s = disconnect s.
Proof. intros Hl Hm. unfold read_stream. destruct l; [done|]. cbn [length packet_loop]. by rewrite Hm. Qed.

Lemma read_stream_incomplete l s :
  l <> [] -> soup_status (parse_soup_packet l) = INCOMPLETE -> ((2 <= length l)%nat -> too_long l = false) ->
  (length l <= 512)%nat -> read_stream l s = Some (tt, set_partial l s).
Proof.
  intros Hl Hi Ht Hlen. unfold read_stream. destruct l as [|b l]; [done|]. cbn [length packet_loop]. rewrite Hi.
  assert ((2 <=? Datatypes.S (length l))%nat && too_long (b :: l) = false) as ->.
  { destruct (Nat.leb_spec 2 (Datatypes.S (length l))) as [?|?]; [by rewrite Ht by (cbn; lia)|done]. }
  rewrite modify_bind. unfold append_partial. rewrite partial_set. cbn [length] in *.
  rewrite (proj2 (Nat.leb_le _ _)) by (unfold kMaxInboundSoupPacket; cbn [length]; lia). by rewrite set_partial_set.
Qed.

(** An incomplete packet of a short stream fits the buffer. *)
Lemma incomplete_fits l :
  Forall is_u8 l -> l <> [] -> soup_status (parse_soup_packet l) = INCOMPLETE ->
  ((2 <= length l)%nat -> too_long l = false) -> (length l <= 512)%nat.
Proof.
  intros Hu Hl Hi Ht. destruct (parse_cases l Hu Hl) as [?|[(_ & _ & E)|[(H2 & _ & Hlt & _)|[_ E]]]];
    [lia|congruence| |by rewrite E in Hi]. pose proof (too_long_false l (Ht H2)). lia.
Qed.

Lemma short_stream_drop l :
  Forall is_u8 l -> short_stream l -> 2 < packet_len l <= Z.of_nat (length l) ->
  short_stream (drop (Z.to_nat (packet_len l)) l).
Proof.
  intros Hu Hs Hp. assert (l <> []) as Hl by (intros ->; cbn in Hp; lia).
  destruct (parse_cases l Hu Hl) as [?|[?|[?|[_ E]]]]; try lia.
  destruct Hs as [|l ? Hi|l Hi|l _ _ Hs]; [done|by rewrite E in Hi..|]. by rewrite E in Hs.
Qed.

Lemma short_stream_prefix l l' : Forall is_u8 (l ++ l') -> short_stream (l ++ l') -> short_stream l.
Proof.
  remember (length l) as n eqn:Hn. revert l Hn. induction (lt_wf n) as [n _ IH]. intros l -> Hu Hs.
  destruct (decide (l = [])) as [->|Hl]; [constructor|]. pose proof Hu as [Hu1 Hu2]%Forall_app.
  assert ((2 <= length l)%nat -> too_long l = false) as Ht.
  { intros H2. rewrite <- (too_long_app l l') by done. apply short_stream_header; [done..|]. rewrite length_app. lia. }
  destruct (parse_cases l Hu1 Hl) as [[_ Hi]|[(_ & _ & Hm)|[(_ & _ & _ & Hi)|[Hlen E]]]].
  - by apply short_incomplete.
  - by apply short_malformed.
  - by apply short_incomplete.
  - apply short_packet; rewrite ?E; [done|apply Ht; lia|]. cbn [soup_consumed].
    pose proof (short_stream_drop _ Hu Hs) as Hsd. rewrite packet_len_app, length_app, drop_app_le in Hsd by lia.
    eapply IH; [|reflexivity| |apply Hsd; lia]; [rewrite length_drop; lia|].
    apply Forall_app. split; [by apply Forall_drop|done].
Qed.

Lemma set_partial_nil s : partial s = [] -> set_partial [] s = s.
Proof. intros Hp. rewrite <- Hp at 1. apply set_partial_same. Qed.

(** Reading a stream in two parts: the rest of the first one waits in [partial]. *)
Lemma read_stream_app l1 l2 s :
  Forall is_u8 (l1 ++ l2) -> short_stream (l1 ++ l2) -> taking_input s = true -> partial s = [] ->
  read_stream (l1 ++ l2) s =
  match read_stream l1 s with
  | None => None
  | Some (_, s1) => if taking_input s1 then read_stream (partial s1 ++ l2) (set_partial [] s1) else Some (tt, s1)
  end.
Proof.
  remember (length l1) as n eqn:Hn. revert l1 Hn s. induction (lt_wf n) as [n _ IH]. intros l1 -> s Hu Hs Ht Hp.
  destruct (decide (l1 = [])) as [->|Hl1].
  { cbn [app read_stream length packet_loop mret M_ret]. by rewrite Ht, Hp, set_partial_nil. }
  pose proof Hu as [Hu1 _]%Forall_app. assert (l1 ++ l2 <> []) as Hl by (intros [? _]%app_nil; done).
  destruct (parse_cases l1 Hu1 Hl1) as [[Hlen Hi]|[(H2 & Hlen & Hm)|[(H2 & Hlen & Hlt & Hi)|[Hlen _]]]].
  - rewrite (read_stream_incomplete l1) by (auto; lia). rewrite taking_set, Ht, partial_set, set_partial_set.
    by rewrite set_partial_nil.
  - assert (soup_status (parse_soup_packet (l1 ++ l2)) = MALFORMED) as Hm'.
    { destruct (parse_cases _ Hu Hl) as [[? _]|[(_ & _ & E)|[(_ & ? & _)|[? _]]]]; [|done|..];
        rewrite ?packet_len_app, ?length_app in * by done; lia. }
    rewrite !read_stream_malformed by done. destruct (disconnect s) as [[[] s1]|] eqn:E; [|done].
    by rewrite (disconnect_result s s1 E).
  - pose proof (short_stream_header _ Hu Hs ltac:(rewrite length_app; lia)) as Hlong. rewrite too_long_app in Hlong by done.
    rewrite (read_stream_incomplete l1) by auto using incomplete_fits.
    rewrite taking_set, Ht, partial_set, set_partial_set. by rewrite set_partial_nil.
  - assert (2 < packet_len (l1 ++ l2) <= Z.of_nat (length (l1 ++ l2))) as Hlen'
      by (rewrite packet_len_app, length_app by lia; lia).
    rewrite (read_stream_packet (l1 ++ l2)), (read_stream_packet l1) by done. rewrite parse_app by done.
    destruct (handle_packet _ s) as [[ok s']|] eqn:Eh; [|done]. destruct (handle_result _ _ _ _ Eh Hp) as [-> Hp'].
    destruct (taking_input s') eqn:Et; [|by rewrite Et].
    pose proof (short_stream_drop _ Hu Hs Hlen') as Hsd. rewrite packet_len_app in Hsd |- * by lia.
    rewrite drop_app_le in Hsd |- * by lia. eapply IH; [|reflexivity|..]; try done.
    + rewrite length_drop. lia.
    + apply Forall_app in Hu as [? ?]. apply Forall_app. split; [by apply Forall_drop|done].
Qed.

(** ** [on_data_] reads the stream *)

Definition continue (rest : option (list Z)) : M C unit :=
  match rest with None => mret tt | Some bytes => read_stream bytes end.

Lemma append_partial_fits bytes s :
  (length (partial s) + length bytes <= 512)%nat ->
  append_partial bytes s = Some (tt, set_partial (partial s ++ bytes) s).
Proof. intros Hl. unfold append_partial. by rewrite (proj2 (Nat.leb_le _ _)). Qed.

Lemma finish_packet_reads b s :
  Forall is_u8 (partial s ++ b) -> (2 <= length (partial s))%nat ->
  Z.of_nat (length (partial s)) <= packet_len (partial s) <= 512 ->
  (finish_packet b ≫= continue) s = read_stream (partial s ++ b) (set_partial [] s).
Proof.
  intros Hu H2 Hlen. set (p := partial s) in *. set (total := packet_len p) in *. unfold finish_packet.
  rewrite bind_bind, gets_bind. fold p. cbv zeta. fold total. rewrite u64_id by ulia.
  set (n := Z.to_nat (Z.min _ _)). assert (p ++ b <> []) as Hne by (intros [E _]%app_nil; rewrite E in H2; cbn in H2; lia).
  assert (length (take n b) = n) as Htk by (rewrite length_take; lia).
  rewrite bind_bind. rewrite (bind_Some _ _ _ _ _ (append_partial_fits (take n b) s ltac:(fold p; lia))). fold p.
  rewrite bind_bind, gets_bind, partial_set, length_app, Htk.
  destruct (Z.ltb_spec (Z.of_nat (length p + n)) total) as [Hlt|Hge].
  - assert (take n b = b) as -> by (apply take_ge; lia). rewrite ret_bind.
    rewrite read_stream_incomplete; [by rewrite set_partial_set|done|..].
    + destruct (parse_cases (p ++ b) Hu Hne) as [[_ ?]|[(_ & E & _)|[(_ & _ & _ & ?)|[E _]]]]; try done;
        rewrite packet_len_app, ?length_app in E by done; fold total in E; lia.
    + intros _. rewrite too_long_app by done. unfold too_long. fold total. rewrite Z.gtb_ltb. apply Z.ltb_ge. change (Z.of_nat kMaxInboundSoupPacket) with 512. lia.
    + rewrite length_app. lia.
  - rewrite bind_bind, modify_bind, set_partial_set. set (q := p ++ take n b).
    assert (length q = Z.to_nat total) as Hq by (unfold q; rewrite length_app; lia).
    rewrite (take_ge q) by lia. assert (p ++ b = q ++ drop n b) as E by (unfold q; by rewrite <- app_assoc, take_drop).
    assert (packet_len q = total) as Hpq by (unfold q; by rewrite packet_len_app).
    rewrite E in Hu, Hne |- *. pose proof Hu as [Huq _]%Forall_app.
    assert (q <> []) as Hqe by (intros ->; cbn in Hq; lia).
    destruct (parse_cases q Huq Hqe) as [[? _]|[(_ & Et & Hm)|[(_ & _ & ? & _)|[Hpl Eq]]]]; [lia| |lia|].
    + rewrite Hm, bind_bind. unfold mbind, M_bind at 1. rewrite read_stream_malformed; [|done|].
      * destruct (disconnect _) as [[[] s1]|]; done.
      * destruct (parse_cases _ Hu Hne) as [[? _]|[(_ & _ & ?)|[(_ & E' & _)|[E' _]]]]; [|done|..];
          rewrite ?packet_len_app, ?length_app in * by lia; lia.
    + assert (2 < packet_len (q ++ drop n b) <= Z.of_nat (length (q ++ drop n b))) as Hlen'
        by (rewrite packet_len_app, length_app by lia; lia).
      rewrite (read_stream_packet (q ++ drop n b)), parse_app, packet_len_app by (done || lia).
      rewrite Eq. cbn [soup_status soup_packet]. rewrite bind_bind. unfold mbind, M_bind at 1.
      destruct (handle_packet _ _) as [[ok s']|]; [|done]. cbv beta iota delta [mret M_ret]. destruct ok; [|done]. cbn [continue].
      by rewrite Hpq, <- Hq, drop_app_length.
Qed.

(** What a connection may have waiting. *)
Definition pending_ok (p : list Z) : Prop :=
  p = [] \/ (p <> [] /\ soup_status (parse_soup_packet p) = INCOMPLETE /\ ((2 <= length p)%nat -> too_long p = false)).

(** Only a header over the limit, completed across segments, is not read as a stream. *)
Definition cut_long (p b : list Z) : bool :=
  negb (length p =? 0)%nat && (2 <=? length (p ++ b))%nat && too_long (p ++ b).

Lemma on_data_cases b s :
  Forall is_u8 (partial s ++ b) -> pending_ok (partial s) ->
  if cut_long (partial s) b then exists s0, on_data_ b s = disconnect (set_partial s0 s)
  else on_data_ b s = read_stream (partial s ++ b) (set_partial [] s).
Proof.
  intros Hu Hp. unfold on_data_. rewrite gets_bind. destruct Hp as [Hp|(Hp & Hi & Ht)].
  { unfold cut_long. rewrite Hp. cbn [length Nat.ltb Nat.leb app]. rewrite ret_bind, set_partial_nil by done. done. }
  rewrite (proj2 (Nat.ltb_lt 0 _)) by (destruct (partial s); [done|cbn; lia]). fold continue.
  change (fun rest => match rest with None => mret tt | Some bytes => packet_loop (length bytes) bytes end) with continue.
  rewrite bind_bind. unfold finish_length. rewrite bind_bind, gets_bind.
  pose proof Hu as [Hup _]%Forall_app. destruct (Nat.ltb_spec (length (partial s)) 2) as [Hl|Hl].
  - destruct (partial s) as [|b0 [|? ?]] eqn:Ep; [done| |cbn in Hl; lia]. cbn [length Nat.sub]. rewrite bind_bind.
    destruct b as [|b1 b].
    + change (cut_long [b0] []) with false. cbn [length Nat.min take]. rewrite (bind_Some _ _ _ _ _ (append_partial_fits [] s ltac:(rewrite Ep; cbn; lia))).
      rewrite bind_bind, gets_bind, partial_set, app_nil_r, Ep. cbn [length Nat.ltb Nat.leb]. rewrite ret_bind.
      rewrite read_stream_incomplete; [by rewrite set_partial_set|done|done|cbn; lia|cbn; lia].
    + cbn [length Nat.min take drop]. rewrite (bind_Some _ _ _ _ _ (append_partial_fits [b1] s ltac:(rewrite Ep; cbn; lia))).
      rewrite bind_bind, gets_bind, partial_set, Ep. cbn [length Nat.ltb Nat.leb app].
      assert (cut_long [b0] (b1 :: b) = too_long [b0; b1]) as ->
        by (unfold cut_long; cbn [length app Nat.eqb negb Nat.leb andb]; exact (too_long_app [b0; b1] b ltac:(cbn; lia))).
      change (b0 :: b1 :: b) with ([b0; b1] ++ b) in *. destruct (too_long [b0; b1]) eqn:Hlong.
      * exists [b0; b1]. rewrite bind_bind. unfold mbind, M_bind.
        by destruct (disconnect _) as [[[] s1]|].
      * rewrite ret_bind, drop_0. pose proof (too_long_false _ Hlong). pose proof (load2_bound [b0; b1]) as Hb.
        rewrite finish_packet_reads; rewrite ?partial_set; [by rewrite set_partial_set|done|cbn; lia|].
        unfold packet_len in *. cbn [length]. apply (Forall_app _ [b0; b1] b) in Hu as [Hu _]. specialize (Hb Hu). lia.
  - assert (cut_long (partial s) b = false) as -> by (unfold cut_long; rewrite too_long_app, (Ht Hl) by done; apply andb_false_r).
    rewrite ret_bind. pose proof (too_long_false _ (Ht Hl)) as Hlong.
    apply finish_packet_reads; [done|done|]. split; [|done].
    destruct (parse_cases _ Hup Hp) as [[? _]|[(_ & _ & E)|[(_ & _ & ? & _)|[_ E]]]]; [lia|congruence|lia|by rewrite E in Hi].
Qed.

Lemma on_data_reads b s :
  Forall is_u8 (partial s ++ b) -> short_stream (partial s ++ b) -> pending_ok (partial s) ->
  on_data_ b s = read_stream (partial s ++ b) (set_partial [] s).
Proof.
  intros Hu Hs Hp. pose proof (on_data_cases b s Hu Hp) as Hc. destruct (cut_long (partial s) b) eqn:Ec; [|done].
  unfold cut_long in Ec. apply andb_true_iff in Ec as [[_ H2%Nat.leb_le]%andb_true_iff Ht].
  by rewrite (short_stream_header _ Hu Hs H2) in Ht.
Qed.

(** ** Any bytes at all

    An invariant of the connection that the packet handler keeps is kept by
    [on_data_], which cannot fault: nothing is copied past the buffer. *)

Section Invariant.
Context (Inv : C -> Prop) (Inv_partial : forall l s, Inv s -> Inv (set_partial l s)).
Context (Inv_handle : forall packet s, Inv s -> taking_input s = true -> Forall is_u8 (soup_payload packet) ->
  exists b s', handle_packet packet s = Some (b, s') /\ Inv s').
Context (Inv_disconnect : forall s, Inv s -> exists s', disconnect s = Some (tt, s') /\ Inv s').

Lemma read_stream_inv l s :
  Forall is_u8 l -> Inv s -> taking_input s = true -> partial s = [] ->
  exists s', read_stream l s = Some (tt, s') /\ Inv s' /\
    (taking_input s' = true -> pending_ok (partial s') /\ Forall is_u8 (partial s')).
Proof.
  remember (length l) as n eqn:Hn. revert l Hn s. induction (lt_wf n) as [n _ IH]. intros l -> s Hu HI Ht Hp.
  assert (forall s1, Inv s1 -> exists s', disconnect s1 = Some (tt, s') /\ Inv s' /\
    (taking_input s' = true -> pending_ok (partial s') /\ Forall is_u8 (partial s'))) as Hdis.
  { intros s1 H1. destruct (Inv_disconnect s1 H1) as (s' & E & HI'). exists s'. split; [done|]. split; [done|].
    rewrite (disconnect_result _ _ E). done. }
  destruct (decide (l = [])) as [->|Hl].
  { exists s. split; [done|]. split; [done|]. intros _. rewrite Hp. split; [by left|constructor]. }
  destruct (parse_cases l Hu Hl) as [[Hlen Hi]|[(_ & _ & Hm)|[(H2 & Hlen & Hlt & Hi)|[Hlen E]]]].
  - rewrite read_stream_incomplete by (auto; lia). eexists. split; [done|]. split; [by apply Inv_partial|].
    intros _. rewrite partial_set. split; [|done]. right. split; [done|]. split; [done|lia].
  - rewrite read_stream_malformed by done. by apply Hdis.
  - destruct (too_long l) eqn:Hlong.
    + unfold read_stream. destruct l as [|b l]; [done|]. cbn [length packet_loop]. rewrite Hi, Hlong.
      rewrite (proj2 (Nat.leb_le _ _)) by (cbn in H2; lia). by apply Hdis.
    + rewrite read_stream_incomplete by auto using incomplete_fits. eexists. split; [done|]. split; [by apply Inv_partial|].
      intros _. rewrite partial_set. split; [|done]. by right.
  - rewrite read_stream_packet by done. rewrite E. cbn [soup_packet].
    destruct (Inv_handle (mkSoupPacket (l !!! 2%nat) (subspan kSoupHeaderLen (Z.to_nat (packet_len l) - 3) l)) s HI Ht)
      as (b & s' & Eh & HI'); [by apply Forall_take, Forall_drop|]. rewrite Eh.
    destruct (handle_result _ _ _ _ Eh Hp) as [-> Hp']. destruct (taking_input s') eqn:Et.
    + eapply IH; [|reflexivity|by apply Forall_drop|done..]. rewrite length_drop. lia.
    + exists s'. split; [done|]. split; [done|]. congruence.
Qed.

Lemma on_data_inv b s :
  Forall is_u8 (partial s) -> Forall is_u8 b -> pending_ok (partial s) -> Inv s -> taking_input s = true ->
  exists s', on_data_ b s = Some (tt, s') /\ Inv s' /\
    (taking_input s' = true -> pending_ok (partial s') /\ Forall is_u8 (partial s')).
Proof.
  intros Hup Hub Hp HI Ht. assert (Forall is_u8 (partial s ++ b)) as Hu by (by apply Forall_app).
  pose proof (on_data_cases b s Hu Hp) as Hc. destruct (cut_long (partial s) b); [destruct Hc as [s0 ->]|rewrite Hc].
  2: { apply read_stream_inv; rewrite ?taking_set, ?partial_set; auto. }
  - destruct (Inv_disconnect (set_partial s0 s)) as (s' & E & HI'); [auto|]. exists s'. split; [done|]. split; [done|].
    rewrite (disconnect_result _ _ E). done.
Qed.
End Invariant.

(** ** Segments *)

(** What is left of a stream once its whole packets have been handled. *)
Lemma read_stream_rest l1 l2 s s1 :
  Forall is_u8 (l1 ++ l2) -> short_stream (l1 ++ l2) -> partial s = [] ->
  read_stream l1 s = Some (tt, s1) -> taking_input s1 = true ->
  pending_ok (partial s1) /\ Forall is_u8 (partial s1 ++ l2) /\ short_stream (partial s1 ++ l2).
Proof.
  remember (length l1) as n eqn:Hn. revert l1 Hn s. induction (lt_wf n) as [n _ IH]. intros l1 -> s Hu Hs Hp Hr Ht.
  destruct (decide (l1 = [])) as [->|Hl1].
  { cbn in Hr. injection Hr as <-. rewrite Hp. split; [by left|done]. }
  pose proof Hu as [Hu1 Hu2]%Forall_app.
  destruct (parse_cases l1 Hu1 Hl1) as [[Hlen Hi]|[(_ & _ & Hm)|[(H2 & Hlen & Hlt & Hi)|[Hlen _]]]].
  - rewrite read_stream_incomplete in Hr by (auto; lia). injection Hr as <-. rewrite partial_set.
    split; [|done]. right. split; [done|]. split; [done|lia].
  - rewrite read_stream_malformed in Hr by done. rewrite (disconnect_result _ _ Hr) in Ht. done.
  - pose proof (short_stream_header _ Hu Hs ltac:(rewrite length_app; lia)) as Hlong. rewrite too_long_app in Hlong by done.
    rewrite read_stream_incomplete in Hr by auto using incomplete_fits. injection Hr as <-. rewrite partial_set.
    split; [|done]. by right.
  - rewrite read_stream_packet in Hr by done. destruct (handle_packet _ s) as [[[] s']|] eqn:Eh; [| |done].
    + destruct (handle_result _ _ _ _ Eh Hp) as [_ Hp'].
      assert (2 < packet_len (l1 ++ l2) <= Z.of_nat (length (l1 ++ l2))) as Hlen'
        by (rewrite packet_len_app, length_app by lia; lia).
      pose proof (short_stream_drop _ Hu Hs Hlen') as Hsd. rewrite packet_len_app, drop_app_le in Hsd by lia.
      eapply (IH (length (drop (Z.to_nat (packet_len l1)) l1))); [rewrite length_drop; lia|reflexivity| |exact Hsd|exact Hp'|exact Hr|done].
      apply Forall_app. split; [by apply Forall_drop|done].
    + injection Hr as <-. destruct (handle_result _ _ _ _ Eh Hp) as [E _]. congruence.
Qed.

Lemma deliver_all_over segments s : taking_input s = false -> deliver_all segments s = Some (tt, s).
Proof.
  intros Ht. induction segments as [|b segments IH]; [done|]. cbn [deliver_all]. unfold mbind, M_bind, deliver.
  rewrite Ht. exact IH.
Qed.

(** However a stream is cut into segments, it is read as one. *)
Lemma deliver_all_reads segments s :
  Forall is_u8 (partial s ++ concat segments) -> short_stream (partial s ++ concat segments) -> pending_ok (partial s) ->
  taking_input s = true ->
  deliver_all segments s = read_stream (partial s ++ concat segments) (set_partial [] s).
Proof.
  revert s. induction segments as [|b segments IH]; intros s Hu Hs Hp Ht.
  - cbn [deliver_all concat] in *. rewrite app_nil_r in *. destruct Hp as [Hp|(Hp & Hi & Hl)].
    + rewrite Hp, set_partial_nil by done. done.
    + rewrite read_stream_incomplete by auto using incomplete_fits. by rewrite set_partial_set, set_partial_same.
  - cbn [deliver_all concat] in *. rewrite app_assoc in Hu, Hs |- *. rewrite read_stream_app; rewrite ?taking_set, ?partial_set; try done.
    unfold mbind, M_bind, deliver. rewrite Ht. rewrite on_data_reads; [|by apply Forall_app in Hu as [? _]| |done].
    2: { by eapply short_stream_prefix. }
    destruct (read_stream (partial s ++ b) _) as [[[] s1]|] eqn:Er; [|done].
    destruct (taking_input s1) eqn:Et; [|by apply deliver_all_over].
    destruct (read_stream_rest _ _ _ _ Hu Hs (partial_set _ _) Er Et) as (Hp1 & Hu1 & Hs1). by apply IH.
Qed.
End Reassembly.
