(* ===== verification/SessionLog.v ===== *)
(** * SessionLog: the replay ring of a session
    ([src/exchange/server/include/session_log.hpp])

    A ring of bytes and a ring of start offsets, both indexed by masking.  The
    specification is the list of all packets ever appended: the session's byte stream
    is their concatenation, and the log holds its tail.  [log_holds] relates the two;
    every append preserves it, and replay from a retained sequence number gives back
    exactly the packets from there on. *)

From S2P Require Import Prelude WireCodec.

(** ** State *)

Record SessionLog := mkSessionLog {
  log_capacity_ : Z;
  index_capacity_ : Z;
  bytes_ : list Z;
  index_ : list Z;
  first_seq_ : Z;
  next_seq_ : Z;
  end_ : Z;
}.
#[export] Instance SessionLog_eta : Eta SessionLog := fun s =>
  mkSessionLog (log_capacity_ s) (index_capacity_ s) (bytes_ s) (index_ s) (first_seq_ s) (next_seq_ s) (end_ s).

Definition kBytesPerIndexEntry : Z := 32.

(** ** Operations *)

Definition SessionLog_new (capacity_bytes : Z) : SessionLog :=
  let index_capacity := capacity_bytes / kBytesPerIndexEntry in
  mkSessionLog capacity_bytes index_capacity (replicate (Z.to_nat capacity_bytes) 0)
    (replicate (Z.to_nat index_capacity) 0) 1 1 0.

Definition next_sequence (s : SessionLog) : Z := next_seq_ s.
Definition first_sequence (s : SessionLog) : Z := first_seq_ s.
Definition end_offset (s : SessionLog) : Z := end_ s.

(** [index_[seq & (index_capacity_ - 1)]]; the mask keeps it in range. *)
Definition index_at (seq : Z) (s : SessionLog) : Z :=
  index_ s !!! Z.to_nat (Z.land seq (index_capacity_ s - 1)).

Definition offset_of (seq : Z) (s : SessionLog) : option Z :=
  if (seq <? first_seq_ s) || (seq >? next_seq_ s) then None else
  if seq =? next_seq_ s then Some (end_ s) else
  Some (index_at seq s).

Definition would_overwrite (offset len : Z) (s : SessionLog) : bool :=
  u64 (end_ s + len - offset) >? log_capacity_ s.

(** The while loop of [append]; at most [next_seq_ - first_seq_] messages can go. *)
Fixpoint drop_oldest (fuel : nat) (len : Z) (s : SessionLog) : SessionLog :=
  match fuel with
  | O => s
  | S fuel =>
      if (first_seq_ s <? next_seq_ s) &&
         ((u64 (end_ s + len - index_at (first_seq_ s) s) >? log_capacity_ s) ||
          (u64 (next_seq_ s - first_seq_ s) >=? index_capacity_ s))
      then drop_oldest fuel len (s <| first_seq_ := u64 (first_seq_ s + 1) |>)
      else s
  end.

Definition append (packet : list Z) (s : SessionLog) : SessionLog :=
  let len := Z.of_nat (length packet) in
  let s := drop_oldest (Z.to_nat (next_seq_ s - first_seq_ s)) len s in
  let index := <[Z.to_nat (Z.land (next_seq_ s) (index_capacity_ s - 1)) := end_ s]> (index_ s) in
  let at_ := Z.land (end_ s) (log_capacity_ s - 1) in
  let first := Z.to_nat (Z.min len (log_capacity_ s - at_)) in
  let bytes := memcpy (Z.to_nat at_) (take first packet) (bytes_ s) in
  let bytes := memcpy 0 (drop first packet) bytes in
  s <| index_ := index |> <| bytes_ := bytes |> <| end_ := u64 (end_ s + len) |>
    <| next_seq_ := u64 (next_seq_ s + 1) |>.

Definition contiguous_from (offset : Z) (s : SessionLog) : list Z :=
  let at_ := Z.land offset (log_capacity_ s - 1) in
  let len := Z.min (u64 (end_ s - offset)) (log_capacity_ s - at_) in
  take (Z.to_nat len) (drop (Z.to_nat at_) (bytes_ s)).

(** ** Specification

    [hist] is every packet ever appended, the first under sequence number 1. *)

(** Where message [seq] starts in the stream. *)
Definition start_of (hist : list (list Z)) (seq : Z) : Z := Z.of_nat (length (concat (take (Z.to_nat (seq - 1)) hist))).

Record log_holds (cap : Z) (hist : list (list Z)) (s : SessionLog) : Prop := {
  lh_cap : log_capacity_ s = cap /\ index_capacity_ s = cap / 32;
  lh_len : length (bytes_ s) = Z.to_nat cap /\ length (index_ s) = Z.to_nat (cap / 32);
  lh_next : next_seq_ s = Z.of_nat (length hist) + 1;
  lh_end : end_ s = Z.of_nat (length (concat hist));
  lh_first : 1 <= first_seq_ s <= next_seq_ s;
  lh_count : next_seq_ s - first_seq_ s <= cap / 32;
  lh_kept : end_ s - start_of hist (first_seq_ s) <= cap;
  lh_index seq : first_seq_ s <= seq < next_seq_ s -> index_at seq s = start_of hist seq;
  lh_bytes (o : nat) : end_ s - cap <= Z.of_nat o < end_ s ->
    bytes_ s !! Z.to_nat (Z.of_nat o mod cap) = concat hist !! o;
}.

(** What has been dropped did not fit any more: too many bytes or too many messages since. *)
Definition log_gone (cap : Z) (hist : list (list Z)) (s : SessionLog) : Prop :=
  forall seq, 1 <= seq < first_seq_ s -> cap < end_ s - start_of hist seq \/ cap / 32 < next_seq_ s - seq.

(** Two residues of numbers less than a modulus apart differ. *)
Lemma mod_close_ne m a b : 0 < m -> 0 < a - b < m -> a mod m <> b mod m.
Proof.
  intros Hm Hab E. assert ((a - b) mod m = 0) as H0 by (by rewrite Zminus_mod, E, Z.sub_diag).
  rewrite Z.mod_small in H0 by lia. lia.
Qed.

Lemma start_of_app hist packet seq :
  1 <= seq <= Z.of_nat (length hist) + 1 -> start_of (hist ++ [packet]) seq = start_of hist seq.
Proof. intros H. unfold start_of. by rewrite take_app_le by lia. Qed.

Lemma start_of_mono hist a b : a <= b -> start_of hist a <= start_of hist b.
Proof.
  intros H. unfold start_of. apply inj_le.
  replace (Z.to_nat (b - 1)) with (Z.to_nat (a - 1) + (Z.to_nat (b - 1) - Z.to_nat (a - 1)))%nat by lia.
  rewrite <- take_take_drop, concat_app, length_app. lia.
Qed.

Lemma start_of_next hist : start_of hist (Z.of_nat (length hist) + 1) = Z.of_nat (length (concat hist)).
Proof. unfold start_of. rewrite take_ge by lia. done. Qed.

Lemma start_le_end cap hist s seq : log_holds cap hist s -> seq <= next_seq_ s -> 0 <= start_of hist seq <= end_ s.
Proof.
  intros H Hs. split; [apply Nat2Z.is_nonneg|]. rewrite (lh_end _ _ _ H), <- start_of_next, <- (lh_next _ _ _ H).
  by apply start_of_mono.
Qed.

Lemma offset_of_holds cap hist s seq :
  log_holds cap hist s ->
  offset_of seq s = if decide (first_seq_ s <= seq <= next_seq_ s) then Some (start_of hist seq) else None.
Proof.
  intros H. unfold offset_of. rewrite Z.gtb_ltb.
  destruct (Z.ltb_spec seq (first_seq_ s)); [by rewrite decide_False by lia|].
  destruct (Z.ltb_spec (next_seq_ s) seq); [by rewrite decide_False by lia|]. cbn [orb]. rewrite decide_True by lia.
  destruct (Z.eqb_spec seq (next_seq_ s)) as [->|]; f_equal; [|apply H; lia].
  by rewrite (lh_next _ _ _ H), start_of_next, (lh_end _ _ _ H).
Qed.

Section Log.
Context (k cap : Z) (Hk : 5 <= k) (Hcap : cap = 2 ^ k).

Lemma cap_pos : 32 <= cap /\ cap = 32 * (cap / 32) /\ 0 < cap / 32.
Proof.
  assert (cap = 32 * 2 ^ (k - 5)) as E.
  { rewrite Hcap. change 32 with (2 ^ 5). rewrite <- Z.pow_add_r by lia. f_equal. lia. }
  assert (0 < 2 ^ (k - 5)) by (apply Z.pow_pos_nonneg; lia).
  assert (cap / 32 = 2 ^ (k - 5)) as -> by (rewrite E, Z.mul_comm; apply Z.div_mul; done). lia.
Qed.

Lemma land_cap x : Z.land x (cap - 1) = x mod cap.
Proof. rewrite Hcap, <- (Z.land_ones x k) by lia. f_equal. rewrite Z.ones_equiv. lia. Qed.

Lemma land_icap x : Z.land x (cap / 32 - 1) = x mod (cap / 32).
Proof.
  assert (cap / 32 = 2 ^ (k - 5)) as ->.
  { rewrite Hcap. change 32 with (2 ^ 5). rewrite <- Z.pow_sub_r by lia. done. }
  rewrite <- (Z.land_ones x (k - 5)) by lia. f_equal. rewrite Z.ones_equiv. lia.
Qed.

Lemma SessionLog_new_holds : log_holds cap [] (SessionLog_new cap).
Proof.
  pose proof cap_pos. split; cbn -[replicate]; try lia; try (split; apply length_replicate); [done|].
  unfold start_of. cbn. lia.
Qed.

(** *** Dropping the oldest *)

(** Message [seq] has to go to make room for [len] bytes. *)
Definition no_room (hist : list (list Z)) (len seq : Z) : Prop :=
  cap < Z.of_nat (length (concat hist)) + len - start_of hist seq \/ cap / 32 <= Z.of_nat (length hist) + 1 - seq.

Lemma log_holds_first hist s f :
  log_holds cap hist s -> first_seq_ s <= f <= next_seq_ s -> log_holds cap hist (s <| first_seq_ := f |>).
Proof.
  intros H Hf. destruct H as [? ? ? ? ? ? Hkept Hidx ?]. split; cbn [log_capacity_ index_capacity_ bytes_ index_ first_seq_ next_seq_ end_]; auto; try lia.
  - pose proof (start_of_mono hist (first_seq_ s) f). lia.
  - intros seq Hs. apply Hidx. lia.
Qed.

Lemma drop_oldest_spec hist s len fuel :
  log_holds cap hist s -> 0 <= len -> end_ s + len < 18446744073709551616 -> next_seq_ s < 18446744073709551616 ->
  (Z.to_nat (next_seq_ s - first_seq_ s) <= fuel)%nat ->
  exists f, drop_oldest fuel len s = s <| first_seq_ := f |> /\ first_seq_ s <= f <= next_seq_ s /\
    (f < next_seq_ s -> ~ no_room hist len f) /\ (forall seq, first_seq_ s <= seq < f -> no_room hist len seq).
Proof.
  intros H Hlen Hend Hnext. revert s H Hend Hnext. induction fuel as [|fuel IH]; intros s H Hend Hnext Hfuel.
  - exists (first_seq_ s). pose proof (lh_first _ _ _ H). cbn [drop_oldest]. split; [by destruct s|]. split; [lia|]. split; intros; lia.
  - pose proof (lh_first _ _ _ H) as Hf. pose proof (start_le_end cap hist s (first_seq_ s) H) as Hst. pose proof cap_pos as Hc.
    pose proof (lh_next _ _ _ H) as Hn. pose proof (lh_end _ _ _ H) as He. destruct (lh_cap _ _ _ H) as [Hc1 Hc2]. cbn [drop_oldest].
    destruct (Z.ltb_spec (first_seq_ s) (next_seq_ s)) as [Hlt|Hge]; cbn [andb].
    2: { exists (first_seq_ s). split; [by destruct s|]. split; [lia|]. split; intros; lia. }
    rewrite (lh_index _ _ _ H) by lia. rewrite !u64_id by ulia.
    destruct ((_ >? _) || _) eqn:E; rewrite Hc1, Hc2 in E.
    + destruct (IH (s <| first_seq_ := first_seq_ s + 1 |>)) as (f & Hd & Hfb & Hstop & Hmin);
        cbn [first_seq_ next_seq_ end_] in *; [apply log_holds_first; [done|lia]|lia|lia|lia|].
      exists f. split; [exact Hd|]. split; [lia|]. split; [exact Hstop|]. intros seq Hs.
      destruct (Z.eq_dec seq (first_seq_ s)) as [->|]; [|apply Hmin; lia].
      apply orb_true_iff in E as [E|E]; [left|right]; rewrite ?Z.gtb_ltb, ?Z.geb_leb in E; zbool; lia.
    + exists (first_seq_ s). split; [by destruct s|]. split; [lia|]. split; [|intros; lia]. intros _.
      apply orb_false_iff in E as [E1 E2]. rewrite Z.gtb_ltb in E1. rewrite Z.geb_leb in E2. zbool. intros [?|?]; lia.
Qed.

(** *** The bytes *)

(** Copying a packet round the ring from offset [e]: its bytes land at their own
    residues, and the [cap - len] bytes before it are untouched. *)
Lemma ring_copy (bytes packet : list Z) (e : Z) :
  let len := Z.of_nat (length packet) in
  let first := Z.to_nat (Z.min len (cap - e mod cap)) in
  let bytes' := memcpy 0 (drop first packet) (memcpy (Z.to_nat (e mod cap)) (take first packet) bytes) in
  length bytes = Z.to_nat cap -> 0 <= e -> len < cap ->
  (forall j : nat, Z.of_nat j < len -> bytes' !! Z.to_nat ((e + Z.of_nat j) mod cap) = packet !! j) /\
  (forall o, e + len - cap <= o < e -> bytes' !! Z.to_nat (o mod cap) = bytes !! Z.to_nat (o mod cap)).
Proof.
  intros len first bytes' Hb He Hlen. pose proof cap_pos as Hc. pose proof (Z.mod_pos_bound e cap ltac:(lia)) as Ha.
  set (a := e mod cap) in *. assert (length (take first packet) = first) as Hf by (rewrite length_take; lia).
  assert (length (drop first packet) = length packet - first)%nat as Hd by apply length_drop.
  assert (forall d, 0 <= a + d < 2 * cap \/ - cap <= d < 0 ->
    (e + d) mod cap = if a + d <? 0 then a + d + cap else if a + d <? cap then a + d else a + d - cap) as Hmod.
  { intros d Hdd. unfold a in *. rewrite <- Z.add_mod_idemp_l by lia. set (r := e mod cap) in *.
    destruct (Z.ltb_spec (r + d) 0); [|destruct (Z.ltb_spec (r + d) cap)].
    - rewrite <- (Z_mod_plus_full _ 1), Z.mul_1_l. apply Z.mod_small. lia.
    - apply Z.mod_small. lia.
    - rewrite <- (Z_mod_plus_full _ (-1)). rewrite Z.mod_small; lia. }
  unfold bytes', memcpy. split.
  - intros j Hj. rewrite Hmod by lia. destruct (Z.ltb_spec (a + Z.of_nat j) 0); [lia|].
    destruct (Z.ltb_spec (a + Z.of_nat j) cap) as [Hin|Hout].
    + rewrite list_lookup_inserts_ge by lia. rewrite list_lookup_inserts by lia.
      rewrite lookup_take_lt by lia. f_equal. lia.
    + rewrite list_lookup_inserts by (rewrite ?length_inserts; lia). rewrite lookup_drop. f_equal. lia.
  - intros o Ho. replace o with (e + (o - e)) by lia. rewrite Hmod by lia.
    assert (forall p, (length packet - first <= p)%nat -> (p < Z.to_nat a)%nat \/ (Z.to_nat a + first <= p)%nat ->
      list_inserts 0 (drop first packet) (list_inserts (Z.to_nat a) (take first packet) bytes) !! p = bytes !! p) as Hout.
    { intros p H1 H2. rewrite list_lookup_inserts_ge by lia.
      destruct H2; [by rewrite list_lookup_inserts_lt by lia|by rewrite list_lookup_inserts_ge by lia]. }
    destruct (Z.ltb_spec (a + (o - e)) 0); [|destruct (Z.ltb_spec (a + (o - e)) cap); [|lia]]; apply Hout; lia.
Qed.

(** *** Append *)

(** Room for the packet's offset and number below 2^64. *)
Definition log_fits (packet : list Z) (s : SessionLog) : Prop :=
  Z.of_nat (length packet) < cap /\ end_ s + Z.of_nat (length packet) < 18446744073709551616 /\
  next_seq_ s + 1 < 18446744073709551616.

Lemma append_holds hist s packet :
  log_holds cap hist s -> log_fits packet s ->
  log_holds cap (hist ++ [packet]) (append packet s) /\
  (log_gone cap hist s -> log_gone cap (hist ++ [packet]) (append packet s)).
Proof.
  intros H (Hlen & Hend & Hnext). set (len := Z.of_nat (length packet)) in *. pose proof cap_pos as Hc.
  destruct (drop_oldest_spec hist s len (Z.to_nat (next_seq_ s - first_seq_ s)) H) as (f & Hd & Hf & Hstop & Hmin); [lia..|].
  unfold append. fold len. rewrite Hd. cbv zeta. cbn [log_capacity_ index_capacity_ bytes_ index_ first_seq_ next_seq_ end_].
  destruct H as [[Hc1 Hc2] [Hl1 Hl2] Hn He Hfirst Hcount Hkept Hidx Hbytes]. rewrite Hc1, Hc2, land_cap, land_icap.
  rewrite !u64_id by ulia. set (hist' := hist ++ [packet]).
  assert (length hist' = S (length hist)) as Hlh by (unfold hist'; rewrite length_app; cbn; lia).
  assert (concat hist' = concat hist ++ packet) as Hch by (unfold hist'; rewrite concat_app; cbn; by rewrite app_nil_r).
  assert (start_of hist' f = start_of hist f) as Hstart by (apply start_of_app; lia).
  assert (f < next_seq_ s -> end_ s + len - start_of hist f <= cap /\ next_seq_ s - f < cap / 32) as Hroom
    by (intros Hfn; specialize (Hstop Hfn); unfold no_room in Hstop; lia).
  assert (f = next_seq_ s -> start_of hist f = end_ s) as Hfull by (intros ->; rewrite Hn, start_of_next; lia).
  split.
  2: { unfold log_gone. cbn [first_seq_ next_seq_ end_]. intros Hg seq Hs. unfold hist'. rewrite start_of_app by lia.
    destruct (Z.ltb_spec seq (first_seq_ s)) as [Hlt|Hge]; [destruct (Hg seq); lia|].
    destruct (Hmin seq) as [?|?]; lia. }
  destruct (ring_copy (bytes_ s) packet (end_ s)) as [Hnew Hold]; [lia..|]. fold len in Hnew, Hold.
  pose proof (Z.mod_pos_bound (next_seq_ s) (cap / 32) ltac:(lia)) as Hmod.
  split; cbn [log_capacity_ index_capacity_ bytes_ index_ first_seq_ next_seq_ end_]; try lia.
  - unfold memcpy. by rewrite !length_inserts, length_insert.
  - rewrite Hch, length_app. lia.
  - intros seq Hs. unfold index_at. cbn [index_ index_capacity_]. rewrite land_icap.
    destruct (Z.eq_dec seq (next_seq_ s)) as [->|Hne].
    + rewrite list_lookup_total_insert_eq by lia. unfold hist'. by rewrite start_of_app, Hn, start_of_next by lia.
    + unfold hist'. rewrite start_of_app by lia. rewrite <- Hidx by lia. unfold index_at. rewrite Hc2, land_icap.
      apply list_lookup_total_insert_ne. pose proof (Z.mod_pos_bound seq (cap / 32) ltac:(lia)).
      pose proof (mod_close_ne (cap / 32) (next_seq_ s) seq). lia.
  - intros o Ho. rewrite Hch. destruct (Z.ltb_spec (Z.of_nat o) (end_ s)) as [Hlt|Hge].
    + rewrite lookup_app_l by lia. rewrite <- Hbytes by lia. apply Hold. lia.
    + rewrite lookup_app_r by lia. rewrite <- (Hnew (o - length (concat hist))%nat) by lia. do 3 f_equal. lia.
Qed.

(** *** Reading *)

Lemma contiguous_holds hist s offset :
  log_holds cap hist s -> end_ s < 18446744073709551616 -> 0 <= offset <= end_ s -> end_ s - cap <= offset ->
  contiguous_from offset s =
  take (Z.to_nat (Z.min (end_ s - offset) (cap - offset mod cap))) (drop (Z.to_nat offset) (concat hist)).
Proof.
  intros H Hend Ho Hh. unfold contiguous_from. destruct (lh_cap _ _ _ H) as [-> _]. rewrite land_cap, u64_id by ulia.
  pose proof cap_pos as Hc. pose proof (Z.mod_pos_bound offset cap ltac:(lia)) as Hm.
  set (n := Z.to_nat (Z.min (end_ s - offset) (cap - offset mod cap))).
  apply list_eq. intros i. destruct (decide (i < n)%nat) as [Hi|Hi].
  - rewrite !lookup_take_lt, !lookup_drop by done. rewrite <- (lh_bytes _ _ _ H (Z.to_nat offset + i)) by lia. f_equal.
    replace (Z.of_nat (Z.to_nat offset + i)) with (offset + Z.of_nat i) by lia.
    rewrite <- Z.add_mod_idemp_l, (Z.mod_small (offset mod cap + _)) by lia. lia.
  - by rewrite !lookup_take_ge by lia.
Qed.

(** An append that would overwrite nothing from [offset] on keeps those bytes. *)
Lemma would_overwrite_false hist s offset packet :
  log_holds cap hist s -> log_fits packet s -> 0 <= offset <= end_ s ->
  would_overwrite offset (Z.of_nat (length packet)) s = false ->
  end_ (append packet s) - cap <= offset.
Proof.
  intros H Hfit Ho Hw. unfold would_overwrite in Hw. destruct (lh_cap _ _ _ H) as [Hc _]. rewrite Hc in Hw.
  destruct (append_holds hist s packet H Hfit) as [H' _]. rewrite (lh_end _ _ _ H'), concat_app, length_app. cbn [concat].
  rewrite app_nil_r. pose proof (lh_end _ _ _ H). destruct Hfit as (_ & Hfit & _).
  rewrite u64_id, Z.gtb_ltb in Hw by ulia. zbool. lia.
Qed.

(** *** Any number of appends *)

Definition log_after (packets : list (list Z)) : SessionLog :=
  fold_left (fun s packet => append packet s) packets (SessionLog_new cap).

Lemma log_after_holds packets :
  Forall (fun packet => Z.of_nat (length packet) < cap) packets ->
  Z.of_nat (length (concat packets)) < 18446744073709551616 -> Z.of_nat (length packets) + 1 < 18446744073709551616 ->
  log_holds cap packets (log_after packets) /\ log_gone cap packets (log_after packets).
Proof.
  unfold log_after. induction packets as [|packet packets IH] using rev_ind; intros Hp Hb Hn.
  - split; [apply SessionLog_new_holds|]. intros seq. cbn [SessionLog_new fold_left first_seq_]. lia.
  - apply Forall_app in Hp as [Hp Hl]. apply Forall_inv in Hl. rewrite concat_app, !length_app in *. cbn [concat length] in *.
    rewrite app_nil_r in Hb. destruct IH as [H Hg]; [done|lia|lia|]. rewrite fold_left_app. cbn [fold_left].
    destruct (append_holds _ _ packet H) as [H' Hg']; [|by split; [|apply Hg']].
    split; [done|]. rewrite (lh_end _ _ _ H), (lh_next _ _ _ H). lia.
Qed.
End Log.

(** Reading from an offset to the end, one contiguous piece after another. *)
Fixpoint read_all (fuel : nat) (offset : Z) (s : SessionLog) : list Z :=
  match fuel with
  | O => []
  | S fuel =>
      if offset <? end_offset s then
        let piece := contiguous_from offset s in piece ++ read_all fuel (offset + Z.of_nat (length piece)) s
      else []
  end.

(** Two pieces are enough: up to the wrap point, and from there. *)
Lemma read_all_two k cap hist s offset :
  5 <= k -> cap = 2 ^ k -> log_holds cap hist s -> end_ s < 18446744073709551616 -> 0 <= offset <= end_ s ->
  end_ s - cap <= offset -> read_all 2 offset s = drop (Z.to_nat offset) (concat hist).
Proof.
  intros Hk Hcap H Hend Ho Hh. pose proof (cap_pos k cap Hk Hcap) as Hc. pose proof (lh_end _ _ _ H) as He.
  cbn [read_all]. unfold end_offset. destruct (Z.ltb_spec offset (end_ s)) as [Hlt|?]; [|rewrite drop_ge by lia; done].
  pose proof (Z.mod_pos_bound offset cap ltac:(lia)) as Hm. rewrite (contiguous_holds k cap Hk Hcap hist) by done.
  set (n := Z.min (end_ s - offset) (cap - offset mod cap)). rewrite length_take, length_drop.
  replace (Z.of_nat (Nat.min (Z.to_nat n) (length (concat hist) - Z.to_nat offset))) with n by lia.
  destruct (Z.ltb_spec (offset + n) (end_ s)) as [Hmore|Hdone].
  - rewrite (contiguous_holds k cap Hk Hcap hist) by (done || lia).
    assert ((offset + n) mod cap = 0) as ->.
    { assert (n = cap - offset mod cap) as -> by lia. rewrite <- Z.add_mod_idemp_l by lia.
      replace (offset mod cap + (cap - offset mod cap)) with cap by lia. apply Z.mod_same. lia. }
    rewrite app_nil_r, (take_ge (drop (Z.to_nat (offset + n)) _)) by (rewrite length_drop; lia).
    replace (Z.to_nat (offset + n)) with (Z.to_nat offset + Z.to_nat n)%nat by lia. by rewrite <- drop_drop, take_drop.
  - rewrite app_nil_r. apply take_ge. rewrite length_drop. lia.
Qed.

Lemma drop_concat (hist : list (list Z)) (n : nat) :
  drop (length (concat (take n hist))) (concat hist) = concat (drop n hist).
Proof. rewrite <- (take_drop n hist) at 2. by rewrite concat_app, drop_app_length. Qed.

(** ** Theorem *)

(** C35: The log replays what was sent: after any appends, message [seq] is held exactly
    when the bytes and the messages from it on fit the two rings, and then reading from
    its offset gives the packets from [seq] on, whole and in order, in at most two
    pieces; any other number is refused. *)
Theorem session_log_replays k packets seq :
  5 <= k -> Forall (fun packet => Z.of_nat (length packet) < 2 ^ k) packets ->
  Z.of_nat (length (concat packets)) < 18446744073709551616 -> Z.of_nat (length packets) + 1 < 18446744073709551616 ->
  let s := log_after (2 ^ k) packets in
  if decide (1 <= seq <= Z.of_nat (length packets) + 1 /\
             Z.of_nat (length (concat (drop (Z.to_nat (seq - 1)) packets))) <= 2 ^ k /\
             Z.of_nat (length packets) + 1 - seq <= 2 ^ k / 32)
  then exists offset, offset_of seq s = Some offset /\ read_all 2 offset s = concat (drop (Z.to_nat (seq - 1)) packets)
  else offset_of seq s = None.
Proof.
  intros Hk Hp Hb Hn s. destruct (log_after_holds k (2 ^ k) Hk eq_refl packets Hp Hb Hn) as [H Hg]. fold s in H, Hg.
  pose proof (cap_pos k (2 ^ k) Hk eq_refl) as Hc. rewrite (offset_of_holds (2 ^ k) packets) by done.
  pose proof (lh_next _ _ _ H) as Hnext. pose proof (lh_end _ _ _ H) as Hend. pose proof (lh_first _ _ _ H) as Hf.
  assert (1 <= seq -> Z.of_nat (length (concat (drop (Z.to_nat (seq - 1)) packets))) = end_ s - start_of packets seq) as Hlen.
  { intros _. rewrite <- drop_concat, length_drop. unfold start_of. rewrite Hend.
    pose proof (start_le_end (2 ^ k) packets s seq H). unfold start_of in *.
    enough (length (concat (take (Z.to_nat (seq - 1)) packets)) <= length (concat packets))%nat by lia.
    rewrite <- (take_drop (Z.to_nat (seq - 1)) packets) at 2. rewrite concat_app, length_app. lia. }
  case_decide as Hd.
  - destruct Hd as (Hs & Hbytes & Hcount). rewrite Hlen in Hbytes by lia. rewrite decide_True.
    + exists (start_of packets seq). split; [done|]. pose proof (start_le_end (2 ^ k) packets s seq H).
      rewrite (read_all_two k (2 ^ k) packets) by (done || lia). unfold start_of. rewrite Nat2Z.id. apply drop_concat.
    + split; [|lia]. destruct (Z.ltb_spec seq (first_seq_ s)); [|lia]. destruct (Hg seq); lia.
  - rewrite decide_False; [done|]. intros [H1 H2]. apply Hd. split; [lia|]. rewrite Hlen by lia.
    pose proof (lh_count _ _ _ H). pose proof (lh_kept _ _ _ H). pose proof (start_of_mono packets (first_seq_ s) seq). lia.
Qed.

(** A 32-byte log: the second packet pushes the first one out. *)
Lemma session_log_replays_witness :
  let s := log_after (2 ^ 5) [replicate 20 1; replicate 15 2] in
  offset_of 1 s = None /\ exists offset, offset_of 2 s = Some offset /\ read_all 2 offset s = replicate 15 2.
Proof.
  assert (Forall (fun packet : list Z => Z.of_nat (length packet) < 2 ^ 5) [replicate 20 1; replicate 15 2]) as Hp
    by (repeat constructor).
  pose proof (session_log_replays 5 _ 1 ltac:(lia) Hp eq_refl eq_refl) as H1.
  pose proof (session_log_replays 5 _ 2 ltac:(lia) Hp eq_refl eq_refl) as H2.
  cbv zeta in H1, H2. rewrite decide_False in H1 by (vm_compute; intros (_ & H & _); by apply H).
  rewrite decide_True in H2 by (vm_compute; repeat split; discriminate). exact (conj H1 H2).
Defined.
