(* ===== verification/RingBuffer.v ===== *)
(** * RingBuffer: the single-producer single-consumer ring
    ([src/infra/ring_buffer.hpp])

    [push], [pop] and [size] are the member functions run to completion by one
    thread.  The section on interleavings splits them at every access to a shared
    location into a step relation for one producer and one consumer thread; an
    acquire load may return any index the other side has published since the last
    load, so the relation also contains the executions in which a store becomes
    visible late. *)

From S2P Require Import Prelude.

Section Ring.
Context {T : Type}.

Record RingBuffer := mkRing {
  write_idx_ : Z;
  cached_read_idx_ : Z;
  read_idx_ : Z;
  cached_write_idx_ : Z;
  buffer : list T;
  mask : Z;
}.
#[export] Instance RingBuffer_eta : Eta RingBuffer := fun r =>
  mkRing (write_idx_ r) (cached_read_idx_ r) (read_idx_ r) (cached_write_idx_ r) (buffer r) (mask r).

(** [RingBuffer(uint32_t N)]; [dflt] is the value-initialised element. *)
Definition ring_new (dflt : T) (N : Z) : RingBuffer :=
  mkRing 0 0 0 0 (replicate (Z.to_nat N) dflt) (u32 (N - 1)).

(** The constructor's assertion. *)
Definition ring_assert (N : Z) : bool := Z.land N (u32 (N - 1)) =? 0.

Definition next_index (mask idx : Z) : Z := Z.land (u64 (idx + 1)) mask.

(** [buffer[idx] = item], a fault outside the array. *)
Definition buffer_store (idx : Z) (item : T) : M RingBuffer unit := fun r =>
  if (0 <=? idx) && (idx <? Z.of_nat (length (buffer r)))
  then Some (tt, r <| buffer := <[Z.to_nat idx := item]> (buffer r) |>) else None.

Definition buffer_load (idx : Z) : M RingBuffer T := fun r =>
  (fun x => (x, r)) <$> buffer r !! Z.to_nat idx.

(** ** Operations *)

Definition push (item : T) : M RingBuffer bool :=
  write_idx ← gets write_idx_;
  m ← gets mask;
  let next_write := next_index m write_idx in
  cached ← gets cached_read_idx_;
  full ← (if next_write =? cached then
            read_idx ← gets read_idx_;
            _ ← modify (fun r => r <| cached_read_idx_ := read_idx |>);
            mret (next_write =? read_idx)
          else mret false);
  if (full : bool) then mret false else
  _ ← buffer_store write_idx item;
  _ ← modify (fun r => r <| write_idx_ := next_write |>);
  mret true.

Definition pop : M RingBuffer (option T) :=
  read_idx ← gets read_idx_;
  cached ← gets cached_write_idx_;
  empty ← (if read_idx =? cached then
             write_idx ← gets write_idx_;
             _ ← modify (fun r => r <| cached_write_idx_ := write_idx |>);
             mret (read_idx =? write_idx)
           else mret false);
  if (empty : bool) then mret None else
  item ← buffer_load read_idx;
  m ← gets mask;
  _ ← modify (fun r => r <| read_idx_ := next_index m read_idx |>);
  mret (Some item).

(** The subtraction is in [size_t], the addition of [mask + 1] in [uint32_t]. *)
Definition size (r : RingBuffer) : Z :=
  if read_idx_ r <=? write_idx_ r then u64 (write_idx_ r - read_idx_ r)
  else u64 (u32 (mask r + 1) + u64 (write_idx_ r - read_idx_ r)).

(** ** Threads

    The producer and the consumer between two shared accesses. *)

Inductive producer_pc :=
| PIdle
| PRefresh (item : T)   (* cached read index equals the next write index *)
| PWrite (item : T)     (* about to store the element *)
| PPublish (item : T).  (* about to store write_idx_ *)

Inductive consumer_pc :=
| CIdle
| CRefresh
| CRead
| CPublish (item : T).

(** A configuration: the ring, the two program counters and, as history variables,
    the elements published and taken so far and how many operations of the other
    side each side has seen. *)
Record spsc := mkSpsc {
  ring : RingBuffer;
  ppc : producer_pc;
  cpc : consumer_pc;
  pushed : list T;
  popped : list T;
  pops_seen : Z;
  pushes_seen : Z;
}.
#[export] Instance spsc_eta : Eta spsc := fun s =>
  mkSpsc (ring s) (ppc s) (cpc s) (pushed s) (popped s) (pops_seen s) (pushes_seen s).

Definition spsc_init (dflt : T) (N : Z) : spsc :=
  mkSpsc (ring_new dflt N) PIdle CIdle [] [] 0 0.

(** The value an index has after [i] completed operations. *)
Definition index_after (N i : Z) : Z := i mod N.

(** The producer's steps: the entry of [push], the acquire load of [read_idx_]
    after [i] pops, the element store, the release store of [write_idx_]. *)
Inductive producer_step (N : Z) : spsc -> spsc -> Prop :=
| step_push_begin s item :
    ppc s = PIdle ->
    producer_step N s
      (s <| ppc := if next_index (mask (ring s)) (write_idx_ (ring s)) =? cached_read_idx_ (ring s)
                   then PRefresh item else PWrite item |>)
| step_push_refresh s item i :
    ppc s = PRefresh item -> pops_seen s <= i <= Z.of_nat (length (popped s)) ->
    producer_step N s
      (s <| ring := (ring s) <| cached_read_idx_ := index_after N i |> |>
         <| pops_seen := i |>
         <| ppc := if next_index (mask (ring s)) (write_idx_ (ring s)) =? index_after N i
                   then PIdle else PWrite item |>)
| step_push_write s item r' :
    ppc s = PWrite item -> buffer_store (write_idx_ (ring s)) item (ring s) = Some (tt, r') ->
    producer_step N s (s <| ring := r' |> <| ppc := PPublish item |>)
| step_push_publish s item :
    ppc s = PPublish item ->
    producer_step N s
      (s <| ring := (ring s) <| write_idx_ := next_index (mask (ring s)) (write_idx_ (ring s)) |> |>
         <| pushed := pushed s ++ [item] |> <| ppc := PIdle |>).

(** The consumer's steps, symmetrically. *)
Inductive consumer_step (N : Z) : spsc -> spsc -> Prop :=
| step_pop_begin s :
    cpc s = CIdle ->
    consumer_step N s
      (s <| cpc := if read_idx_ (ring s) =? cached_write_idx_ (ring s) then CRefresh else CRead |>)
| step_pop_refresh s i :
    cpc s = CRefresh -> pushes_seen s <= i <= Z.of_nat (length (pushed s)) ->
    consumer_step N s
      (s <| ring := (ring s) <| cached_write_idx_ := index_after N i |> |>
         <| pushes_seen := i |>
         <| cpc := if read_idx_ (ring s) =? index_after N i then CIdle else CRead |>)
| step_pop_read s item :
    cpc s = CRead -> buffer_load (read_idx_ (ring s)) (ring s) = Some (item, ring s) ->
    consumer_step N s (s <| cpc := CPublish item |>)
| step_pop_publish s item :
    cpc s = CPublish item ->
    consumer_step N s
      (s <| ring := (ring s) <| read_idx_ := next_index (mask (ring s)) (read_idx_ (ring s)) |> |>
         <| popped := popped s ++ [item] |> <| cpc := CIdle |>).

Definition spsc_step (N : Z) (s s' : spsc) : Prop := producer_step N s s' \/ consumer_step N s s'.

Definition spsc_reachable (dflt : T) (N : Z) : spsc -> Prop := rtc (spsc_step N) (spsc_init dflt N).


(** ** Index arithmetic *)

(** [N] is a power of two that fits the constructor's [uint32_t]. *)
Definition ring_size_ok (N : Z) : Prop := exists k, 0 <= k <= 31 /\ N = 2 ^ k.

Lemma ring_size_range N : ring_size_ok N -> 1 <= N < 4294967296.
Proof.
  intros (k & Hk & ->). pose proof (Z.pow_le_mono_r 2 0 k ltac:(lia) ltac:(lia)).
  pose proof (Z.pow_lt_mono_r 2 k 32 ltac:(lia) ltac:(lia) ltac:(lia)). lia.
Qed.

Lemma land_mask N x : ring_size_ok N -> Z.land x (N - 1) = x mod N.
Proof.
  intros (k & Hk & ->). rewrite <- Z.land_ones by lia.
  by rewrite Z.ones_equiv, <- Z.sub_1_r.
Qed.

Lemma next_index_mod N i : ring_size_ok N -> next_index (N - 1) (i mod N) = (i + 1) mod N.
Proof.
  intros HN. unfold next_index. pose proof (ring_size_range N HN).
  pose proof (Z.mod_pos_bound i N ltac:(lia)).
  rewrite u64_id by ulia. rewrite land_mask by done.
  by rewrite Z.add_mod_idemp_l by lia.
Qed.

Lemma mod_eq_close N a b : 0 < N -> a <= b < a + N -> a mod N = b mod N -> a = b.
Proof.
  intros HN Hab Heq.
  assert ((b - a) mod N = 0) as Hra by (rewrite Zminus_mod, Heq, Z.sub_diag; apply Z.mod_0_l; lia).
  rewrite Z.mod_small in Hra; lia.
Qed.

(** ** What a ring holds

    [ring_at N r W R CR CW l]: after [W] pushes and [R] pops, of which the caches
    reflect [CW] and [CR], the ring holds the elements [l]. *)


Record ring_at (N : Z) (r : RingBuffer) (W R CR CW : Z) (l : list T) : Prop := {
  ra_size : ring_size_ok N;
  ra_mask : mask r = N - 1;
  ra_len : length (buffer r) = Z.to_nat N;
  ra_write : write_idx_ r = W mod N;
  ra_read : read_idx_ r = R mod N;
  ra_cread : cached_read_idx_ r = CR mod N;
  ra_cwrite : cached_write_idx_ r = CW mod N;
  ra_order : 0 <= CR <= R /\ R <= CW <= W /\ W - CR < N;
  ra_count : W = R + Z.of_nat (length l);
  ra_elems : forall i x, l !! i = Some x -> buffer r !! Z.to_nat ((R + Z.of_nat i) mod N) = Some x;
}.

Definition ring_rep (N : Z) (r : RingBuffer) (l : list T) : Prop :=
  exists W R CR CW, ring_at N r W R CR CW l.

Lemma ring_new_rep (dflt : T) N : ring_size_ok N -> ring_at N (ring_new dflt N) 0 0 0 0 [].
Proof.
  intros HN. pose proof (ring_size_range N HN).
  split; cbn; rewrite ?Z.mod_0_l, ?length_replicate by lia; try done; try lia.
  apply u32_id. ulia.
Qed.

Lemma ring_index_lt N i : 0 < N -> (Z.to_nat (i mod N) < Z.to_nat N)%nat.
Proof. intros HN. pose proof (Z.mod_pos_bound i N HN). lia. Qed.

(** Storing at the write index keeps every held element. *)
Lemma ring_store_elems N r W R CR CW l item :
  ring_at N r W R CR CW l -> Z.of_nat (length l) < N ->
  forall i x, l !! i = Some x ->
  <[Z.to_nat (W mod N) := item]> (buffer r) !! Z.to_nat ((R + Z.of_nat i) mod N) = Some x.
Proof.
  intros H Hlt i x Hi. pose proof (ring_size_range N (ra_size _ _ _ _ _ _ _ H)).
  pose proof (lookup_lt_Some _ _ _ Hi). pose proof (ra_count _ _ _ _ _ _ _ H).
  rewrite list_lookup_insert_ne; [by eapply ra_elems|].
  pose proof (Z.mod_pos_bound W N ltac:(lia)).
  pose proof (Z.mod_pos_bound (R + Z.of_nat i) N ltac:(lia)).
  intros Heq. apply Z2Nat.inj in Heq; [|lia..].
  symmetry in Heq. apply mod_eq_close in Heq; lia.
Qed.

Lemma buffer_store_at N r W R CR CW l item :
  ring_at N r W R CR CW l ->
  buffer_store (write_idx_ r) item r
  = Some (tt, r <| buffer := <[Z.to_nat (W mod N) := item]> (buffer r) |>).
Proof.
  intros H. pose proof (ring_size_range N (ra_size _ _ _ _ _ _ _ H)).
  unfold buffer_store. rewrite (ra_write _ _ _ _ _ _ _ H), (ra_len _ _ _ _ _ _ _ H).
  pose proof (Z.mod_pos_bound W N ltac:(lia)).
  rewrite (proj2 (Z.leb_le _ _)), (proj2 (Z.ltb_lt _ _)); [done | lia | lia].
Qed.

Lemma buffer_load_at N r W R CR CW x l :
  ring_at N r W R CR CW (x :: l) -> buffer_load (read_idx_ r) r = Some (x, r).
Proof.
  intros H. unfold buffer_load. rewrite (ra_read _ _ _ _ _ _ _ H).
  pose proof (ra_elems _ _ _ _ _ _ _ H 0 x eq_refl) as E.
  rewrite Z.add_0_r in E. by rewrite E.
Qed.

(** The stored and published element is appended; the taken one is removed. *)
Lemma ring_at_publish N r W R CR CW l item :
  ring_at N r W R CR CW l -> W + 1 - CR < N ->
  buffer r !! Z.to_nat (W mod N) = Some item ->
  ring_at N (r <| write_idx_ := next_index (mask r) (write_idx_ r) |>) (W + 1) R CR CW (l ++ [item]).
Proof.
  intros [] Hroom Hit. split; cbn; try done; try lia.
  - rewrite ra_mask0, ra_write0. by apply next_index_mod.
  - rewrite length_app. simpl. lia.
  - intros i x Hi. apply lookup_app_Some in Hi as [Hi|[Hge Hi]]; [by apply ra_elems0|].
    apply list_lookup_singleton_Some in Hi as [Hz <-].
    rewrite <- Hit. do 2 f_equal. f_equal. lia.
Qed.

Lemma ring_at_take N r W R CR CW x l :
  ring_at N r W R CR CW (x :: l) -> R < CW ->
  ring_at N (r <| read_idx_ := next_index (mask r) (read_idx_ r) |>) W (R + 1) CR CW l.
Proof.
  intros [] Hlt. split; cbn in *; try done; try lia.
  - rewrite ra_mask0, ra_read0. by apply next_index_mod.
  - intros i y Hi. rewrite <- (ra_elems0 (S i) y Hi). do 2 f_equal. f_equal. lia.
Qed.

Lemma ring_at_cread N r W R CR CW l i :
  ring_at N r W R CR CW l -> CR <= i <= R ->
  ring_at N (r <| cached_read_idx_ := i mod N |>) W R i CW l.
Proof. intros [] Hi. split; cbn; try done; try lia. Qed.

Lemma ring_at_cwrite N r W R CR CW l i :
  ring_at N r W R CR CW l -> CW <= i <= W ->
  ring_at N (r <| cached_write_idx_ := i mod N |>) W R CR i l.
Proof. intros [] Hi. split; cbn; try done; try lia. Qed.

Lemma ring_at_buffer N r W R CR CW l item :
  ring_at N r W R CR CW l -> W + 1 - CR < N ->
  ring_at N (r <| buffer := <[Z.to_nat (W mod N) := item]> (buffer r) |>) W R CR CW l.
Proof.
  intros H Hroom. pose proof (ring_store_elems _ _ _ _ _ _ _ item H) as Hs.
  destruct H. split; cbn; try done; try lia.
  - by rewrite length_insert.
  - apply Hs. lia.
Qed.

(** The index comparisons decide the counts. *)
Lemma push_full_iff N r W R CR CW l c :
  ring_at N r W R CR CW l -> CR <= c <= R ->
  (next_index (mask r) (write_idx_ r) =? c mod N) = true <-> W + 1 - c = N.
Proof.
  intros [] Hc. rewrite ra_mask0, ra_write0, next_index_mod by done.
  pose proof (ring_size_range N ra_size0). rewrite Z.eqb_eq. split; intros Heq.
  - destruct (decide (W + 1 < c + N)); [|lia].
    apply eq_sym, mod_eq_close in Heq; lia.
  - replace (W + 1) with (c + 1 * N) by lia. apply Z_mod_plus_full.
Qed.

Lemma pop_empty_iff N r W R CR CW l c :
  ring_at N r W R CR CW l -> R <= c <= W ->
  (read_idx_ r =? c mod N) = true <-> R = c.
Proof.
  intros [] Hc. rewrite ra_read0. pose proof (ring_size_range N ra_size0).
  rewrite Z.eqb_eq. split; [|congruence]. apply mod_eq_close; lia.
Qed.

(** ** The sequential operations *)

Lemma push_spec N r l item :
  ring_rep N r l ->
  exists r', push item r = Some (Z.of_nat (length l) <? N - 1, r') /\
    ring_rep N r' (if Z.of_nat (length l) <? N - 1 then l ++ [item] else l).
Proof.
  intros (W & R & CR & CW & H). pose proof (ra_order _ _ _ _ _ _ _ H).
  pose proof (ra_count _ _ _ _ _ _ _ H).
  assert (forall r0 C, ring_at N r0 W R C CW l -> W + 1 - C < N ->
    exists r', (buffer_store (write_idx_ r0) item ≫= (fun _ =>
        modify (fun r : RingBuffer => r <| write_idx_ := next_index (mask r0) (write_idx_ r0) |>) ≫= (fun _ => mret true))) r0
      = Some (true, r') /\ ring_at N r' (W + 1) R C CW (l ++ [item])) as Hstore.
  { intros r0 C Hra Hroom. eexists. split.
    - erewrite bind_Some by (by eapply buffer_store_at). reflexivity.
    - apply (ring_at_publish N _ W R C CW l item (ring_at_buffer _ _ _ _ _ _ _ item Hra Hroom) Hroom).
      cbn. apply list_lookup_insert_eq. rewrite (ra_len _ _ _ _ _ _ _ Hra).
      apply ring_index_lt. pose proof (ring_size_range N (ra_size _ _ _ _ _ _ _ Hra)). lia. }
  unfold push. rewrite !gets_bind. rewrite (ra_cread _ _ _ _ _ _ _ H).
  destruct (next_index (mask r) (write_idx_ r) =? CR mod N) eqn:E1.
  - pose proof (proj1 (push_full_iff _ _ _ _ _ _ _ CR H ltac:(lia)) E1).
    rewrite bind_bind, gets_bind, bind_bind, modify_bind, ret_bind. cbv beta.
    pose proof (push_full_iff _ _ _ _ _ _ _ R H ltac:(lia)) as E2.
    pose proof (ring_at_cread _ _ _ _ _ _ _ R H ltac:(lia)) as H'.
    rewrite <- (ra_read _ _ _ _ _ _ _ H) in E2, H'.
    destruct (next_index (mask r) (write_idx_ r) =? read_idx_ r).
    + pose proof (proj1 E2 eq_refl). destruct (Z.ltb_spec (Z.of_nat (length l)) (N - 1)); [lia|].
      eexists. split; [done|]. do 4 eexists; eassumption.
    + assert (W + 1 - R <> N) by (intros Hx; by apply E2 in Hx).
      destruct (Z.ltb_spec (Z.of_nat (length l)) (N - 1)); [|lia].
      destruct (Hstore _ _ H' ltac:(lia)) as (r' & Hr & Hrep). exists r'.
      split; [done|]. do 4 eexists; eassumption.
  - assert (W + 1 - CR <> N) as Hn
      by (intros Hx; apply (push_full_iff _ _ _ _ _ _ _ CR H ltac:(lia)) in Hx; congruence).
    rewrite ret_bind. destruct (Z.ltb_spec (Z.of_nat (length l)) (N - 1)); [|lia].
    destruct (Hstore _ _ H ltac:(lia)) as (r' & Hr & Hrep). exists r'.
    split; [done|]. do 4 eexists; eassumption.
Qed.

Lemma pop_spec N r l :
  ring_rep N r l -> exists r', pop r = Some (head l, r') /\ ring_rep N r' (tail l).
Proof.
  intros (W & R & CR & CW & H). pose proof (ra_order _ _ _ _ _ _ _ H).
  pose proof (ra_count _ _ _ _ _ _ _ H) as Hc.
  assert (forall r0 C x l', ring_at N r0 W R CR C (x :: l') -> R < C ->
    exists r', (buffer_load (read_idx_ r0) ≫= (fun item => gets mask ≫= (fun m =>
        modify (fun r : RingBuffer => r <| read_idx_ := next_index m (read_idx_ r0) |>) ≫= (fun _ =>
        mret (Some item))))) r0
      = Some (Some x, r') /\ ring_at N r' W (R + 1) CR C l') as Hload.
  { intros r0 C x l' Hra Hlt. eexists. split.
    - erewrite bind_Some by (by eapply buffer_load_at). reflexivity.
    - by eapply ring_at_take. }
  unfold pop. rewrite !gets_bind. rewrite (ra_cwrite _ _ _ _ _ _ _ H).
  destruct (read_idx_ r =? CW mod N) eqn:E1.
  - pose proof (proj1 (pop_empty_iff _ _ _ _ _ _ _ CW H ltac:(lia)) E1).
    rewrite bind_bind, gets_bind, bind_bind, modify_bind, ret_bind. cbv beta.
    pose proof (pop_empty_iff _ _ _ _ _ _ _ W H ltac:(lia)) as E2.
    pose proof (ring_at_cwrite _ _ _ _ _ _ _ W H ltac:(lia)) as H'.
    rewrite <- (ra_write _ _ _ _ _ _ _ H) in E2, H'.
    destruct (read_idx_ r =? write_idx_ r).
    + pose proof (proj1 E2 eq_refl). destruct l; [|simpl in Hc; lia].
      eexists. split; [done|]. do 4 eexists; eassumption.
    + assert (R <> W) by (intros Hx; by apply E2 in Hx).
      destruct l as [|x l]; [simpl in Hc; lia|].
      destruct (Hload _ _ _ _ H' ltac:(lia)) as (r' & Hr & Hrep). exists r'.
      split; [done|]. do 4 eexists; eassumption.
  - assert (R <> CW) by (intros Hx; apply (pop_empty_iff _ _ _ _ _ _ _ CW H ltac:(lia)) in Hx; congruence).
    rewrite ret_bind. destruct l as [|x l]; [simpl in Hc; lia|].
    destruct (Hload _ _ _ _ H ltac:(lia)) as (r' & Hr & Hrep). exists r'.
    split; [done|]. do 4 eexists; eassumption.
Qed.

Lemma size_spec N r l : ring_rep N r l -> size r = Z.of_nat (length l).
Proof.
  intros (W & R & CR & CW & []). pose proof (ring_size_range N ra_size0).
  unfold size. rewrite ra_read0, ra_write0, ra_mask0.
  pose proof (Z.mod_pos_bound W N ltac:(lia)). pose proof (Z.mod_pos_bound R N ltac:(lia)).
  assert (W mod N = (R mod N + Z.of_nat (length l)) mod N) as E
    by (rewrite Z.add_mod_idemp_l by lia; congruence).
  set (a := R mod N + Z.of_nat (length l)) in E.
  assert (a mod N = if decide (a < N) then a else a - N) as Ea.
  { case_decide; [apply Z.mod_small; lia|].
    rewrite <- (Z_mod_plus_full a (-1)). apply Z.mod_small. lia. }
  rewrite Ea in E. destruct (Z.leb_spec (R mod N) (W mod N)); case_decide; try lia.
  - rewrite u64_id by ulia. lia.
  - replace (N - 1 + 1) with N by lia. rewrite (u32_id N) by ulia.
    unfold u64. rewrite Z.add_mod_idemp_r by lia. rewrite Z.mod_small; lia.
Qed.

(** ** Interleavings: the invariant *)

Definition producer_ok (N : Z) (s : spsc) : Prop :=
  match ppc s with
  | PIdle | PRefresh _ => True
  | PWrite _ => Z.of_nat (length (pushed s)) + 1 - pops_seen s < N
  | PPublish item =>
      Z.of_nat (length (pushed s)) + 1 - pops_seen s < N /\
      buffer (ring s) !! Z.to_nat (Z.of_nat (length (pushed s)) mod N) = Some item
  end.

Definition consumer_ok (s : spsc) : Prop :=
  match cpc s with
  | CIdle | CRefresh => True
  | CRead => Z.of_nat (length (popped s)) < pushes_seen s
  | CPublish item =>
      Z.of_nat (length (popped s)) < pushes_seen s /\ pushed s !! length (popped s) = Some item
  end.

Definition spsc_inv (N : Z) (s : spsc) : Prop :=
  (exists l, pushed s = popped s ++ l /\
    ring_at N (ring s) (Z.of_nat (length (pushed s))) (Z.of_nat (length (popped s)))
      (pops_seen s) (pushes_seen s) l) /\
  producer_ok N s /\ consumer_ok s.

Lemma spsc_init_inv dflt N : ring_size_ok N -> spsc_inv N (spsc_init dflt N).
Proof.
  intros HN. split; [|done]. exists []. split; [done|]. by apply ring_new_rep.
Qed.

Lemma producer_step_inv N s s' : producer_step N s s' -> spsc_inv N s -> spsc_inv N s'.
Proof.
  intros Hstep ((l & Hl & H) & Hp & Hc).
  destruct Hstep as [s item E|s item i E Hi|s item r' E Hst|s item E];
    unfold producer_ok in Hp; rewrite E in Hp.
  - split; [by exists l|]. split; [|done]. unfold producer_ok; cbn.
    pose proof (ra_order _ _ _ _ _ _ _ H). rewrite (ra_cread _ _ _ _ _ _ _ H).
    destruct (_ =? _) eqn:En; [done|].
    destruct (decide (Z.of_nat (length (pushed s)) + 1 - pops_seen s = N)); [|lia].
    apply (push_full_iff _ _ _ _ _ _ _ (pops_seen s) H) in e; [congruence|lia].
  - split; [exists l; split; [done|]; by apply ring_at_cread with (pops_seen s)|].
    split; [|done]. unfold producer_ok, index_after; cbn.
    pose proof (ra_order _ _ _ _ _ _ _ H). destruct (_ =? _) eqn:En; [done|].
    destruct (decide (Z.of_nat (length (pushed s)) + 1 - i = N)); [|lia].
    apply (push_full_iff _ _ _ _ _ _ _ i H) in e; [congruence|lia].
  - rewrite (buffer_store_at _ _ _ _ _ _ _ item H) in Hst. injection Hst as <-.
    split; [exists l; split; [done|]; by apply ring_at_buffer|].
    split; [|done]. split; [done|]. cbn. apply list_lookup_insert_eq.
    rewrite (ra_len _ _ _ _ _ _ _ H). apply ring_index_lt.
    pose proof (ring_size_range N (ra_size _ _ _ _ _ _ _ H)). lia.
  - destruct Hp as [Hroom Hit]. split; [|split; [done|]].
    + exists (l ++ [item]). cbn. rewrite length_app, Nat2Z.inj_add. cbn [length].
      split; [by rewrite Hl, app_assoc|]. by apply ring_at_publish.
    + unfold consumer_ok in *; cbn. destruct (cpc s); try done.
      destruct Hc as [Hlt Hx]. split; [done|]. by apply lookup_app_l_Some.
Qed.

Lemma consumer_step_inv N s s' : consumer_step N s s' -> spsc_inv N s -> spsc_inv N s'.
Proof.
  intros Hstep ((l & Hl & H) & Hp & Hc).
  assert (pushed s !! length (popped s) = head l) as Hhead
    by (rewrite Hl, lookup_app_r, Nat.sub_diag, <- head_lookup by lia; done).
  destruct Hstep as [s E|s i E Hi|s item E Hld|s item E];
    unfold consumer_ok in Hc; rewrite E in Hc.
  - split; [by exists l|]. split; [done|]. unfold consumer_ok; cbn.
    pose proof (ra_order _ _ _ _ _ _ _ H). rewrite (ra_cwrite _ _ _ _ _ _ _ H).
    destruct (_ =? _) eqn:En; [done|].
    destruct (decide (Z.of_nat (length (popped s)) = pushes_seen s)); [|lia].
    apply (pop_empty_iff _ _ _ _ _ _ _ (pushes_seen s) H) in e; [congruence|lia].
  - split; [exists l; split; [done|]; by apply ring_at_cwrite with (pushes_seen s)|].
    split; [done|]. unfold consumer_ok, index_after; cbn.
    pose proof (ra_order _ _ _ _ _ _ _ H). destruct (_ =? _) eqn:En; [done|].
    destruct (decide (Z.of_nat (length (popped s)) = i)); [|lia].
    apply (pop_empty_iff _ _ _ _ _ _ _ i H) in e; [congruence|lia].
  - split; [by exists l|]. split; [done|]. split; [done|]. cbn.
    pose proof (ra_order _ _ _ _ _ _ _ H). pose proof (ra_count _ _ _ _ _ _ _ H) as Hn.
    destruct l as [|x l]; [simpl in Hn; lia|].
    rewrite (buffer_load_at _ _ _ _ _ _ _ _ H) in Hld. injection Hld as <-. done.
  - destruct Hc as [Hlt Hx]. rewrite Hx in Hhead. destruct l as [|x l]; [done|].
    injection Hhead as <-. split; [|split; [|done]].
    + exists l. cbn. rewrite length_app, Nat2Z.inj_add. cbn [length].
      split; [by rewrite Hl, <- app_assoc|]. by eapply ring_at_take.
    + unfold producer_ok in *; cbn. by destruct (ppc s).
Qed.

Lemma spsc_reachable_inv dflt N s :
  ring_size_ok N -> spsc_reachable dflt N s -> spsc_inv N s.
Proof.
  intros HN. apply (rtc_ind_r (fun s => spsc_inv N s)).
  - by apply spsc_init_inv.
  - intros a b _ [Hs|Hs] IH; eauto using producer_step_inv, consumer_step_inv.
Qed.

(** ** Theorems *)

(** The ring is a FIFO queue of at most [N - 1] elements: [push] appends when
    there is room and otherwise refuses, [pop] takes the oldest element, [size]
    counts, and none of them leaves the array. *)
Theorem ring_is_queue N r l item :
  ring_rep N r l ->
  (exists r', push item r = Some (Z.of_nat (length l) <? N - 1, r') /\
     ring_rep N r' (if Z.of_nat (length l) <? N - 1 then l ++ [item] else l)) /\
  (exists r', pop r = Some (head l, r') /\ ring_rep N r' (tail l)) /\
  size r = Z.of_nat (length l).
Proof. intros H. split; [by apply push_spec|]. split; [by apply pop_spec|]. by eapply size_spec. Qed.

(** C28: Under every interleaving of one producer and one consumer, with each
    side's view of the other as stale as the caches allow, the elements popped are
    the first ones pushed, in order, and at most [N - 1] are in flight. *)
Theorem spsc_fifo dflt N s :
  ring_size_ok N -> spsc_reachable dflt N s ->
  exists held, pushed s = popped s ++ held /\ Z.of_nat (length held) <= N - 1.
Proof.
  intros HN Hs. destruct (spsc_reachable_inv dflt N s HN Hs) as ((l & Hl & H) & _). exists l. split; [done|].
  pose proof (ra_order _ _ _ _ _ _ _ H). pose proof (ra_count _ _ _ _ _ _ _ H). lia.
Qed.

(** C29: The two threads never touch the same cell at the same time, and neither
    access is out of bounds: whenever the producer is about to store an element
    and the consumer about to load one, both cells exist and they differ. *)
Theorem spsc_no_race dflt N s item :
  ring_size_ok N -> spsc_reachable dflt N s ->
  (ppc s = PWrite item -> exists r', buffer_store (write_idx_ (ring s)) item (ring s) = Some (tt, r')) /\
  (cpc s = CRead -> exists x, buffer_load (read_idx_ (ring s)) (ring s) = Some (x, ring s)) /\
  (ppc s = PWrite item -> cpc s = CRead -> write_idx_ (ring s) <> read_idx_ (ring s)).
Proof.
  intros HN Hs. destruct (spsc_reachable_inv dflt N s HN Hs) as ((l & Hl & H) & Hp & Hc).
  unfold producer_ok, consumer_ok in *. pose proof (ra_order _ _ _ _ _ _ _ H). pose proof (ra_count _ _ _ _ _ _ _ H).
  split; [|split].
  - intros _. eexists. by eapply buffer_store_at.
  - intros E. rewrite E in Hc. destruct l as [|x l]; [cbn in *; lia|]. exists x. by eapply buffer_load_at.
  - intros E1 E2. rewrite E1 in Hp. rewrite E2 in Hc.
    rewrite (ra_write _ _ _ _ _ _ _ H), (ra_read _ _ _ _ _ _ _ H). intros Heq. symmetry in Heq.
    apply mod_eq_close in Heq; lia.
Qed.
End Ring.

Arguments RingBuffer T : clear implicits.
Arguments spsc T : clear implicits.

(** ** Examples *)

Lemma ring_size_ok_8 : ring_size_ok 8.
Proof. exists 3. done. Qed.

Lemma ring_rep_example : ring_rep 8 (ring_new 0 8) [].
Proof. do 4 eexists. apply ring_new_rep, ring_size_ok_8. Qed.

Lemma ring_is_queue_witness :
  (exists r', push 5 (ring_new 0 8) = Some (true, r') /\ ring_rep 8 r' [5]) /\
  (exists r', pop (ring_new 0 8) = Some (None, r') /\ ring_rep 8 r' []) /\ size (ring_new 0 8) = 0.
Proof. exact (ring_is_queue 8 (ring_new 0 8) [] 5 ring_rep_example). Defined.

(** A run of the two threads, shown backwards: each line names the step and the
    state it was taken in. *)
Lemma produces (s t s' : spsc Z) : producer_step 8 s t -> t = s' -> spsc_reachable 0 8 s -> spsc_reachable 0 8 s'.
Proof. intros Hs <- H. eapply rtc_r; [exact H|]. by left. Qed.

Lemma consumes (s t s' : spsc Z) : consumer_step 8 s t -> t = s' -> spsc_reachable 0 8 s -> spsc_reachable 0 8 s'.
Proof. intros Hs <- H. eapply rtc_r; [exact H|]. by right. Qed.

Ltac taken step := eapply step; vm_compute; first [reflexivity | split; discriminate].
Tactic Notation "produces" constr(s) "by" open_constr(step) :=
  eapply (produces s); [taken step|vm_compute; reflexivity|].
Tactic Notation "consumes" constr(s) "by" open_constr(step) :=
  eapply (consumes s); [taken step|vm_compute; reflexivity|].

Definition spsc_at (w r cw : Z) (cells : list Z) (p : producer_pc) (c : consumer_pc)
    (pushed popped : list Z) (seen : Z) : spsc Z :=
  mkSpsc (mkRing w 0 r cw cells 7) p c pushed popped 0 seen.

(** Both threads inside their operations: 5 and 6 were pushed, 5 was popped, the
    consumer is about to load 6 and the producer about to store 7. *)
Definition spsc_example : spsc Z :=
  spsc_at 2 1 2 [5; 6; 0; 0; 0; 0; 0; 0] (PWrite 7) CRead [5; 6] [5] 2.

Lemma spsc_example_reachable : spsc_reachable 0 8 spsc_example.
Proof.
  produces (spsc_at 2 1 2 [5; 6; 0; 0; 0; 0; 0; 0] PIdle CRead [5; 6] [5] 2) by (step_push_begin 8 _ 7).
  consumes (spsc_at 2 1 1 [5; 6; 0; 0; 0; 0; 0; 0] PIdle CRefresh [5; 6] [5] 1) by (step_pop_refresh 8 _ 2).
  consumes (spsc_at 2 1 1 [5; 6; 0; 0; 0; 0; 0; 0] PIdle CIdle [5; 6] [5] 1) by (step_pop_begin 8).
  produces (spsc_at 1 1 1 [5; 6; 0; 0; 0; 0; 0; 0] (PPublish 6) CIdle [5] [5] 1) by (step_push_publish 8 _ 6).
  produces (spsc_at 1 1 1 [5; 0; 0; 0; 0; 0; 0; 0] (PWrite 6) CIdle [5] [5] 1) by (step_push_write 8 _ 6).
  produces (spsc_at 1 1 1 [5; 0; 0; 0; 0; 0; 0; 0] PIdle CIdle [5] [5] 1) by (step_push_begin 8 _ 6).
  consumes (spsc_at 1 0 1 [5; 0; 0; 0; 0; 0; 0; 0] PIdle (CPublish 5) [5] [] 1) by (step_pop_publish 8 _ 5).
  consumes (spsc_at 1 0 1 [5; 0; 0; 0; 0; 0; 0; 0] PIdle CRead [5] [] 1) by (step_pop_read 8 _ 5).
  consumes (spsc_at 1 0 0 [5; 0; 0; 0; 0; 0; 0; 0] PIdle CRefresh [5] [] 0) by (step_pop_refresh 8 _ 1).
  consumes (spsc_at 1 0 0 [5; 0; 0; 0; 0; 0; 0; 0] PIdle CIdle [5] [] 0) by (step_pop_begin 8).
  produces (spsc_at 0 0 0 [5; 0; 0; 0; 0; 0; 0; 0] (PPublish 5) CIdle [] [] 0) by (step_push_publish 8 _ 5).
  produces (spsc_at 0 0 0 [0; 0; 0; 0; 0; 0; 0; 0] (PWrite 5) CIdle [] [] 0) by (step_push_write 8 _ 5).
  produces (spsc_at 0 0 0 [0; 0; 0; 0; 0; 0; 0; 0] PIdle CIdle [] [] 0) by (step_push_begin 8 _ 5).
  constructor.
Qed.

Lemma spsc_fifo_witness :
  exists held, [5; 6] = [5] ++ held /\ Z.of_nat (length held) <= 8 - 1.
Proof. exact (spsc_fifo 0 8 spsc_example ring_size_ok_8 spsc_example_reachable). Defined.

Lemma spsc_no_race_witness :
  (exists r', buffer_store 2 7 (ring spsc_example) = Some (tt, r')) /\
  (exists x, buffer_load 1 (ring spsc_example) = Some (x, ring spsc_example)) /\
  write_idx_ (ring spsc_example) <> read_idx_ (ring spsc_example).
Proof.
  destruct (spsc_no_race 0 8 spsc_example 7 ring_size_ok_8 spsc_example_reachable) as (Hstore & Hload & Hrace).
  split; [exact (Hstore eq_refl)|]. split; [exact (Hload eq_refl)|exact (Hrace eq_refl eq_refl)].
Defined.
