(* ===== verification/PriceLevelQueue.v ===== *)
(** * PriceLevelQueue: orders, the arena they live in, and one level's FIFO

    [Order] ([src/exchange/engine/include/order.hpp]), the intrusive doubly-linked
    list of resting orders of one price ([price_level_queue.hpp]) and the pool that
    owns every order ([order_pool.hpp]).  An [Order*] is the index of its slot in
    the arena, [nullptr] is [None]; every dereference goes through the arena and
    faults when the slot does not exist.  The representation predicate [plq_rep]
    relates the pointers of a level to the sequence of slots it queues. *)

From S2P Require Import Prelude Types.

(** ** Orders *)

Abbreviation ptr := (option nat).
Notation nullptr := (@None nat).

Record Order := mkOrder {
  id_ : Z;
  prev_ : ptr;
  next_ : ptr;
  client_id_ : Z;
  price_ : Z;
  open_quantity_ : Z;
  executed_quantity_ : Z;
  side_ : Side;
}.
#[export] Instance Order_eta : Eta Order := fun o =>
  mkOrder (id_ o) (prev_ o) (next_ o) (client_id_ o) (price_ o) (open_quantity_ o)
    (executed_quantity_ o) (side_ o).

(** The constructor: unlinked. *)
Definition new_order (id client_id : Z) (side : Side) (price open_quantity executed_quantity : Z) : Order :=
  mkOrder id None None client_id price open_quantity executed_quantity side.

(** A value-initialised slot of the arena. *)
Definition default_order : Order := mkOrder 0 None None 0 0 0 0 BID.

Definition is_filled (o : Order) : bool := open_quantity_ o =? 0.

(** ** The arena *)

Abbreviation Arena := (list Order).

Definition deref (p : nat) : M Arena Order := fun a => (fun o => (o, a)) <$> a !! p.

Definition store_order (p : nat) (f : Order -> Order) : M Arena unit := fun a =>
  (fun o => (tt, <[p := f o]> a)) <$> a !! p.

Definition set_next (p : nat) (next : ptr) : M Arena unit :=
  store_order p (fun o => o <| next_ := next |>).

Definition set_prev (p : nat) (prev : ptr) : M Arena unit :=
  store_order p (fun o => o <| prev_ := prev |>).

(** ** The queue *)

Record PriceLevelQueue := mkPLQ { head_ : ptr; tail_ : ptr; size_ : Z }.
#[export] Instance PriceLevelQueue_eta : Eta PriceLevelQueue := fun q =>
  mkPLQ (head_ q) (tail_ q) (size_ q).

Definition plq_new : PriceLevelQueue := mkPLQ None None 0.

Definition plq_push (q : PriceLevelQueue) (new_order : nat) : M Arena PriceLevelQueue :=
  let q := match head_ q with None => q <| head_ := Some new_order |> | Some _ => q end in
  _ ← match tail_ q with
      | Some tail =>
          _ ← set_next tail (Some new_order);
          set_prev new_order (Some tail)
      | None => mret tt
      end;
  mret (q <| tail_ := Some new_order |> <| size_ := u64 (size_ q + 1) |>).

Definition plq_pop (q : PriceLevelQueue) : M Arena (ptr * PriceLevelQueue) :=
  match head_ q with
  | None => mret (None, q)
  | Some res =>
      o ← deref res;
      let q := q <| head_ := next_ o |> in
      q ← match head_ q with
          | Some h => _ ← set_prev h None; mret q
          | None => mret (q <| tail_ := nullptr |>)
          end;
      mret (Some res, q <| size_ := u64 (size_ q - 1) |>)
  end.

Definition plq_front (q : PriceLevelQueue) : ptr := head_ q.

Definition plq_remove (q : PriceLevelQueue) (to_remove : nat) : M Arena PriceLevelQueue :=
  o ← deref to_remove;
  let prev := prev_ o in
  let next := next_ o in
  q ← match prev with
      | Some p => _ ← set_next p next; mret q
      | None => mret (q <| head_ := next |>)
      end;
  q ← match next with
      | Some n => _ ← set_prev n prev; mret q
      | None => mret (q <| tail_ := prev |>)
      end;
  mret (q <| size_ := u64 (size_ q - 1) |>).

Definition plq_empty (q : PriceLevelQueue) : bool := match head_ q with None => true | Some _ => false end.

(** ** The pool

    [free_list_] is a stack; its back is the head of the list here. *)

Record OrderPool := mkPool { arena_ : Arena; free_list_ : list nat }.
#[export] Instance OrderPool_eta : Eta OrderPool := fun p => mkPool (arena_ p) (free_list_ p).

Definition pool_new (capacity : nat) : OrderPool :=
  mkPool (replicate capacity default_order) (seq 0 capacity).

Definition pool_allocate (order : Order) (p : OrderPool) : ptr * OrderPool :=
  match free_list_ p with
  | [] => (None, p)
  | slot :: rest => (Some slot, mkPool (<[slot := order]> (arena_ p)) rest)
  end.

Definition pool_deallocate (slot : nat) (p : OrderPool) : OrderPool :=
  p <| free_list_ := slot :: free_list_ p |>.

Definition pool_capacity (p : OrderPool) : nat := length (arena_ p).
Definition pool_available (p : OrderPool) : nat := length (free_list_ p).
Definition pool_in_use (p : OrderPool) : nat := (length (arena_ p) - length (free_list_ p))%nat.

(** ** Linked segments

    [links a prev l next]: the slots [l] are linked in this order, the first one's
    [prev_] is [prev] and the last one's [next_] is [next]. *)

Fixpoint links (a : Arena) (prev : ptr) (l : list nat) (next : ptr) : Prop :=
  match l with
  | [] => True
  | p :: l' =>
      (exists o, a !! p = Some o /\ prev_ o = prev /\
         next_ o = match l' with [] => next | y :: _ => Some y end) /\
      links a (Some p) l' next
  end.

Record plq_rep (a : Arena) (q : PriceLevelQueue) (l : list nat) : Prop := {
  pr_head : head_ q = head l;
  pr_tail : tail_ q = last l;
  pr_size : size_ q = u64 (Z.of_nat (length l));
  pr_nodup : NoDup l;
  pr_links : links a None l None;
}.

(** What an order is apart from its position in a list. *)
Definition unlinked (o : Order) : Order := o <| prev_ := nullptr |> <| next_ := nullptr |>.

(** Two arenas that hold the same orders up to links. *)
Definition same_data (a a' : Arena) : Prop := forall p, unlinked <$> a !! p = unlinked <$> a' !! p.

Global Instance same_data_equiv : Equivalence same_data.
Proof.
  split; [intros a p; done | intros a b H p; by rewrite H | intros a b c H1 H2 p; by rewrite H1].
Qed.

(** ** Lemmas on segments *)

Lemma links_app a prev l1 l2 next :
  links a prev (l1 ++ l2) next <->
  links a prev l1 (match l2 with [] => next | y :: _ => Some y end) /\
  links a (match last l1 with None => prev | Some x => Some x end) l2 next.
Proof.
  revert prev. induction l1 as [|p l1 IH]; intros prev.
  - simpl. tauto.
  - cbn [app links]. rewrite IH. destruct l1 as [|x l1]; [tauto|].
    assert (is_Some (last (x :: l1))) as [y Hy] by by apply last_is_Some.
    change (last (p :: x :: l1)) with (last (x :: l1)). rewrite Hy. cbn [app]. tauto.
Qed.

Lemma links_frame a a' prev l next :
  (forall p, p ∈ l -> a' !! p = a !! p) -> links a prev l next -> links a' prev l next.
Proof.
  revert prev. induction l as [|p l IH]; intros prev Hf; [done|].
  intros [(o & Ho & Hp & Hn) Hl]. split.
  - exists o. rewrite Hf by (left). done.
  - apply IH; [|done]. intros. apply Hf. by right.
Qed.

(** Only the link members matter. *)
Lemma links_upd a p f prev l next :
  (forall o, prev_ (f o) = prev_ o /\ next_ (f o) = next_ o) ->
  links a prev l next -> links (alter f p a) prev l next.
Proof.
  intros Hf. revert prev. induction l as [|x l IH]; intros prev; [done|].
  intros [(o & Ho & Hp & Hn) Hl]. split; [|by apply IH].
  destruct (decide (x = p)) as [->|].
  - exists (f o). rewrite list_lookup_alter_eq, Ho. destruct (Hf o) as [-> ->]. done.
  - exists o. by rewrite list_lookup_alter_ne by done.
Qed.

Lemma links_set_next a prev l x next next' :
  x ∉ l -> links a prev (l ++ [x]) next ->
  exists o, a !! x = Some o /\ links (<[x := o <| next_ := next' |>]> a) prev (l ++ [x]) next'.
Proof.
  intros Hx Hl. apply links_app in Hl as [H1 [(o & Ho & Hp & Hn) _]].
  exists o. split; [done|]. apply links_app. split.
  - eapply links_frame; [|done]. intros p Hp'. rewrite list_lookup_insert_ne; [done|]. by intros ->.
  - split; [|done]. eexists. split; [by apply list_lookup_insert_eq; eapply lookup_lt_Some|done].
Qed.

Lemma links_set_prev a prev prev' y l next :
  y ∉ l -> links a prev (y :: l) next ->
  exists o, a !! y = Some o /\ links (<[y := o <| prev_ := prev' |>]> a) prev' (y :: l) next.
Proof.
  intros Hy [(o & Ho & Hp & Hn) Hl]. exists o. split; [done|]. split.
  - eexists. split; [by apply list_lookup_insert_eq; eapply lookup_lt_Some|done].
  - eapply links_frame; [|done]. intros p Hp'. rewrite list_lookup_insert_ne; [done|]. by intros ->.
Qed.

Lemma links_lookup a prev l next p :
  links a prev l next -> p ∈ l -> is_Some (a !! p).
Proof.
  revert prev. induction l as [|x l IH]; intros prev Hl Hp; [by apply elem_of_nil in Hp|].
  destruct Hl as [(o & Ho & _) Hl]. apply elem_of_cons in Hp as [->|Hp]; eauto.
Qed.

Lemma same_data_insert a p o o' :
  a !! p = Some o -> unlinked o' = unlinked o -> same_data a (<[p := o']> a).
Proof.
  intros Ho Hu x. destruct (decide (x = p)) as [->|].
  - rewrite list_lookup_insert_eq by (by eapply lookup_lt_Some). rewrite Ho. simpl. by rewrite Hu.
  - by rewrite list_lookup_insert_ne.
Qed.

Lemma same_data_length a a' : same_data a a' -> length a = length a'.
Proof.
  intros H. apply Nat.le_antisymm; apply Nat.nlt_ge; intros Hlt.
  - destruct (lookup_lt_is_Some_2 _ _ Hlt) as [o Ho]. specialize (H (length a')).
    rewrite Ho, (lookup_ge_None_2 a') in H by lia. done.
  - destruct (lookup_lt_is_Some_2 _ _ Hlt) as [o Ho]. specialize (H (length a)).
    rewrite Ho, (lookup_ge_None_2 a) in H by lia. done.
Qed.

Lemma set_next_Some p n a o :
  a !! p = Some o -> set_next p n a = Some (tt, <[p := o <| next_ := n |>]> a).
Proof. intros H. unfold set_next, store_order. by rewrite H. Qed.

Lemma set_prev_Some p n a o :
  a !! p = Some o -> set_prev p n a = Some (tt, <[p := o <| prev_ := n |>]> a).
Proof. intros H. unfold set_prev, store_order. by rewrite H. Qed.

Lemma deref_Some p a o : a !! p = Some o -> deref p a = Some (o, a).
Proof. intros H. unfold deref. by rewrite H. Qed.

(** ** The queue operations on representations *)

Lemma u64_succ n : u64 (u64 n + 1) = u64 (n + 1).
Proof. unfold u64. by rewrite Z.add_mod_idemp_l by lia. Qed.

Lemma u64_pred n : u64 (u64 (n + 1) - 1) = u64 n.
Proof. unfold u64. rewrite Zminus_mod_idemp_l. f_equal. lia. Qed.

Lemma plq_new_rep a : plq_rep a plq_new [].
Proof. split; try done. apply NoDup_nil_2. Qed.

Lemma plq_rep_frame a a' q l :
  (forall p, p ∈ l -> a' !! p = a !! p) -> plq_rep a q l -> plq_rep a' q l.
Proof. intros Hf []. split; try done. by eapply links_frame. Qed.

Lemma plq_rep_upd a q l p f :
  (forall o, prev_ (f o) = prev_ o /\ next_ (f o) = next_ o) ->
  plq_rep a q l -> plq_rep (alter f p a) q l.
Proof. intros Hf []. split; try done. by apply links_upd. Qed.

Lemma plq_empty_rep a q l : plq_rep a q l -> plq_empty q = bool_decide (l = []).
Proof. intros []. unfold plq_empty. rewrite pr_head0. by destruct l. Qed.

Lemma plq_push_spec a q l n o :
  plq_rep a q l -> n ∉ l -> a !! n = Some o -> prev_ o = None -> next_ o = None ->
  exists q' a', plq_push q n a = Some (q', a') /\ plq_rep a' q' (l ++ [n]) /\ same_data a a' /\
    (forall p, p ∉ l ++ [n] -> a' !! p = a !! p).
Proof.
  intros [Hh Ht Hs Hd Hl] Hn Ho Hp Hx.
  assert (NoDup (l ++ [n])) as Hd'.
  { apply NoDup_app. split; [done|]. split; [|apply NoDup_singleton].
    intros x Hxl ->%list_elem_of_singleton. done. }
  destruct (snoc_case l) as [->|(l' & t & ->)].
  - unfold plq_push. rewrite Hh. cbn. rewrite Ht. cbn. eexists _, a. split; [reflexivity|].
    split; [|split; [done|done]]. split; cbn; try done.
    + by rewrite Hs, u64_succ.
    + split; [|done]. by exists o.
  - rewrite last_snoc in Ht.
    assert (t ∉ l') as Htl by (apply NoDup_app in Hd as (_ & Hd & _); intros H; apply (Hd t H); by left).
    assert (t <> n) as Hne by (intros ->; apply Hn; apply elem_of_app; right; by left).
    destruct (links_set_next a None l' t None (Some n) Htl Hl) as (ot & Hot & Hl1).
    set (a1 := <[t := ot <| next_ := Some n |>]> a) in Hl1.
    assert (a1 !! n = Some o) as Ho1 by (unfold a1; by rewrite list_lookup_insert_ne).
    set (a2 := <[n := o <| prev_ := Some t |>]> a1).
    exists (mkPLQ (head_ q) (Some n) (u64 (size_ q + 1))), a2. split; [|split; [|split]].
    + assert (exists h, head_ q = Some h) as [h Hq] by (rewrite Hh; destruct l'; by eexists).
      unfold plq_push. rewrite Hq. cbv zeta. rewrite Ht, bind_bind.
      rewrite (bind_Some _ _ _ _ _ (set_next_Some t (Some n) a ot Hot)).
      rewrite (bind_Some _ _ _ _ _ (set_prev_Some n (Some t) a1 o Ho1)), <- Hq. done.
    + split; cbn; try done.
      * rewrite Hh. by destruct l'.
      * by rewrite last_snoc.
      * rewrite Hs, u64_succ. rewrite !length_app. f_equal. simpl. lia.
      * rewrite <- app_assoc. apply links_app. cbn [app]. split.
        -- apply links_app in Hl1 as [Hl1 _]. eapply links_frame; [|done].
           intros p Hpl. unfold a2. rewrite list_lookup_insert_ne; [done|].
           intros ->. apply Hn, elem_of_app. by left.
        -- assert (a2 !! n = Some (o <| prev_ := Some t |>)) as Hn2
             by (unfold a2; rewrite list_lookup_insert_eq; [done|]; by eapply lookup_lt_Some).
           cbn [links]. split; [|split; [|done]].
           ++ apply links_app in Hl1 as [_ [(o' & Ho' & Hp' & Hn') _]]. exists o'.
              unfold a2. by rewrite list_lookup_insert_ne.
           ++ eexists. by split.
    + trans a1; eapply same_data_insert; done.
    + intros p Hpn. unfold a2, a1.
      rewrite !list_lookup_insert_ne; [done|..]; intros ->; apply Hpn; set_solver.
Qed.

Lemma plq_remove_spec a q l1 p l2 :
  plq_rep a q (l1 ++ p :: l2) ->
  exists q' a', plq_remove q p a = Some (q', a') /\ plq_rep a' q' (l1 ++ l2) /\ same_data a a' /\
    (forall x, x ∉ l1 ++ l2 -> a' !! x = a !! x).
Proof.
  intros [Hh Ht Hs Hd Hl].
  assert (NoDup (l1 ++ l2) /\ p ∉ l1 ++ l2) as [Hd' Hp'].
  { rewrite <- Permutation_middle in Hd. by apply NoDup_cons in Hd as [? ?]. }
  apply links_app in Hl as [Hl1 [(o & Ho & Hop & Hon') Hl2]].
  assert (next_ o = head l2) as Hon by (rewrite Hon'; by destruct l2). clear Hon'.
  assert (prev_ o = last l1) as Hop' by (rewrite Hop; by destruct (last l1)). clear Hop.
  assert (u64 (size_ q - 1) = u64 (Z.of_nat (length (l1 ++ l2)))) as Hs'.
  { rewrite Hs, !length_app. cbn [length].
    replace (Z.of_nat (length l1 + S (length l2))) with (Z.of_nat (length l1 + length l2) + 1) by lia.
    apply u64_pred. }
  (* unlink from the left neighbour *)
  assert (exists q1 a1, (match prev_ o with
      | Some p => set_next p (next_ o) ≫= (fun _ => mret q)
      | None => mret (q <| head_ := next_ o |>) end) a = Some (q1, a1) /\
      links a1 None l1 (head l2) /\ same_data a a1 /\ (forall x, x ∉ l1 -> a1 !! x = a !! x) /\
      head_ q1 = head (l1 ++ l2) /\ tail_ q1 = tail_ q /\ size_ q1 = size_ q)
    as (q1 & a1 & Hr1 & HL1 & Hsd1 & Hf1 & Hh1 & Ht1 & Hz1).
  { rewrite Hop'. destruct (snoc_case l1) as [->|(l1' & x & ->)].
    - cbn. eexists _, a. split; [reflexivity|]. rewrite Hon. cbn. repeat split; try done.
    - rewrite last_snoc.
      assert (x ∉ l1') as Hx by (apply NoDup_app in Hd' as (Hd' & _);
        apply NoDup_app in Hd' as (_ & Hd' & _); intros H; apply (Hd' x H); by left).
      destruct (links_set_next a None l1' x (Some p) (next_ o) Hx Hl1) as (ox & Hox & HL).
      eexists q, _. erewrite bind_Some by (by apply set_next_Some). split; [done|].
      split; [by rewrite <- Hon|]. split; [by eapply same_data_insert|].
      split; [intros y Hy; rewrite list_lookup_insert_ne; [done|]; set_solver|].
      split; [|done]. rewrite Hh. by destruct l1'. }
  assert (links a1 (Some p) l2 None) as HL2.
  { eapply links_frame; [|done]. intros x Hx. apply Hf1. intros H.
    apply NoDup_app in Hd' as (_ & Hd' & _). by apply (Hd' x). }
  (* and from the right one *)
  assert (exists q2 a2, (match next_ o with
      | Some n => set_prev n (prev_ o) ≫= (fun _ => mret q1)
      | None => mret (q1 <| tail_ := prev_ o |>) end) a1 = Some (q2, a2) /\
      links a2 (last l1) l2 None /\ same_data a1 a2 /\ (forall x, x ∉ l2 -> a2 !! x = a1 !! x) /\
      head_ q2 = head_ q1 /\ tail_ q2 = last (l1 ++ l2) /\ size_ q2 = size_ q1)
    as (q2 & a2 & Hr2 & HL2' & Hsd2 & Hf2 & Hh2 & Ht2 & Hz2).
  { rewrite Hon, Hop'. destruct l2 as [|y l2].
    - eexists _, a1. split; [reflexivity|]. cbn. rewrite app_nil_r. repeat split; try done.
    - assert (y ∉ l2) as Hy by (apply NoDup_app in Hd' as (_ & _ & Hd'); by apply NoDup_cons in Hd' as [? ?]).
      destruct (links_set_prev a1 (Some p) (last l1) y l2 None Hy HL2) as (oy & Hoy & HL).
      eexists q1, _. cbn [head]. erewrite bind_Some; [|apply set_prev_Some; exact Hoy].
      split; [done|]. split; [done|]. split; [by eapply same_data_insert|].
      split; [intros z Hz; rewrite list_lookup_insert_ne; [done|]; set_solver|].
      split; [done|]. by rewrite Ht1, Ht, !last_app_cons. }
  exists (q2 <| size_ := u64 (size_ q2 - 1) |>), a2. split; [|split; [|split]].
  - unfold plq_remove. erewrite bind_Some by (by apply deref_Some). cbv zeta.
    rewrite (bind_Some _ _ _ _ _ Hr1), (bind_Some _ _ _ _ _ Hr2). done.
  - split; cbn; try done; try congruence.
    apply links_app. split.
    + eapply links_frame with a1; [|by destruct l2]. intros x Hx. apply Hf2. intros H.
      apply NoDup_app in Hd' as (_ & Hd' & _). by apply (Hd' x).
    + by destruct (last l1).
  - by trans a1.
  - intros x Hx. rewrite Hf2, Hf1; set_solver.
Qed.

Lemma plq_pop_spec a q l :
  plq_rep a q l ->
  match l with
  | [] => plq_pop q a = Some ((None, q), a)
  | p :: l' => exists q' a', plq_pop q a = Some ((Some p, q'), a') /\ plq_rep a' q' l' /\
      same_data a a' /\ (forall x, x ∉ l' -> a' !! x = a !! x)
  end.
Proof.
  intros [Hh Ht Hs Hd Hl]. destruct l as [|p l].
  { unfold plq_pop. by rewrite Hh. }
  apply NoDup_cons in Hd as [Hp Hd]. destruct Hl as [(o & Ho & Hop & Hon) Hl].
  assert (u64 (size_ q - 1) = u64 (Z.of_nat (length l))) as Hs'.
  { rewrite Hs. cbn [length]. rewrite Nat2Z.inj_succ, <- Z.add_1_r. apply u64_pred. }
  unfold plq_pop. rewrite Hh. cbn [head]. rewrite (bind_Some _ _ _ _ _ (deref_Some p a o Ho)).
  cbv zeta. cbn [head_]. rewrite Hon. destruct l as [|y l].
  - eexists _, a. split; [reflexivity|]. split; [|done]. by split.
  - apply NoDup_cons in Hd as Hd'. destruct Hd' as [Hy _].
    destruct (links_set_prev a (Some p) None y l None Hy Hl) as (oy & Hoy & HL).
    rewrite bind_bind, (bind_Some _ _ _ _ _ (set_prev_Some y None a oy Hoy)).
    eexists _, _. split; [reflexivity|]. split; [by split|].
    split; [by eapply same_data_insert|].
    intros x Hx. rewrite list_lookup_insert_ne; [done|]. set_solver.
Qed.

(** ** The pool on representations

    The slots in use and the free list partition the arena. *)

Definition pool_wf (p : OrderPool) (used : list nat) : Prop :=
  used ++ free_list_ p ≡ₚ seq 0 (length (arena_ p)).

Global Instance pool_wf_proper p : Proper ((≡ₚ) ==> iff) (pool_wf p).
Proof. intros l1 l2 Hl. unfold pool_wf. by rewrite Hl. Qed.

Lemma pool_new_wf capacity : pool_wf (pool_new capacity) [].
Proof. unfold pool_wf. simpl. by rewrite length_replicate. Qed.

Lemma pool_wf_nodup p used : pool_wf p used -> NoDup used.
Proof.
  intros H. assert (NoDup (used ++ free_list_ p)) as Hd by (rewrite H; apply NoDup_seq).
  by apply NoDup_app in Hd as [? _].
Qed.

Lemma pool_wf_slot p used slot : pool_wf p used -> slot ∈ used -> (slot < length (arena_ p))%nat.
Proof.
  intros H Hs. assert (slot ∈ seq 0 (length (arena_ p))) as Hin by (rewrite <- H; set_solver).
  apply elem_of_seq in Hin. lia.
Qed.

Lemma pool_wf_available p used :
  pool_wf p used -> (length used + pool_available p = pool_capacity p)%nat.
Proof.
  intros H. apply Permutation_length in H. by rewrite length_app, length_seq in H.
Qed.

Lemma pool_allocate_spec p used order :
  pool_wf p used ->
  match pool_allocate order p with
  | (None, p') => pool_available p = 0%nat /\ p' = p
  | (Some slot, p') =>
      slot ∉ used /\ (slot < length (arena_ p))%nat /\
      pool_wf p' (slot :: used) /\ arena_ p' = <[slot := order]> (arena_ p) /\
      pool_available p = S (pool_available p')
  end.
Proof.
  intros H. unfold pool_allocate. destruct (free_list_ p) as [|slot rest] eqn:E; [by unfold pool_available; rewrite E|].
  unfold pool_wf in *. rewrite E in H.
  assert (NoDup (used ++ slot :: rest)) as Hd by (rewrite H; apply NoDup_seq).
  split; [|split; [|split; [|split]]]; cbn.
  - rewrite <- Permutation_middle in Hd. apply NoDup_cons in Hd as [Hd _]. set_solver.
  - assert (slot ∈ seq 0 (length (arena_ p))) as Hin by (rewrite <- H; set_solver).
    apply elem_of_seq in Hin. lia.
  - rewrite length_insert, <- H. by rewrite <- Permutation_middle.
  - done.
  - unfold pool_available. by rewrite E.
Qed.

Lemma pool_deallocate_spec p used slot :
  pool_wf p (slot :: used) -> pool_wf (pool_deallocate slot p) used.
Proof. intros H. unfold pool_wf in *. cbn in *. by rewrite <- H, <- Permutation_middle. Qed.

Lemma pool_wf_arena p used a :
  length a = length (arena_ p) -> pool_wf p used -> pool_wf (p <| arena_ := a |>) used.
Proof. intros Hl H. unfold pool_wf in *. cbn. by rewrite Hl. Qed.

(** ** Theorems *)

(** A price level is a FIFO queue threaded through the arena: [front] is its
    first order, [push] appends an unlinked order, [pop] takes the first, [remove]
    takes any order out of the middle, each without changing any order's data or
    touching an order outside the level. *)
Theorem level_is_queue a q l :
  plq_rep a q l ->
  plq_front q = head l /\ plq_empty q = bool_decide (l = []) /\
  (forall n o, n ∉ l -> a !! n = Some o -> prev_ o = None -> next_ o = None ->
    exists q' a', plq_push q n a = Some (q', a') /\ plq_rep a' q' (l ++ [n]) /\ same_data a a' /\
      (forall x, x ∉ l ++ [n] -> a' !! x = a !! x)) /\
  (exists q' a', plq_pop q a = Some ((head l, q'), a') /\ plq_rep a' q' (tail l) /\ same_data a a') /\
  (forall l1 p l2, l = l1 ++ p :: l2 ->
    exists q' a', plq_remove q p a = Some (q', a') /\ plq_rep a' q' (l1 ++ l2) /\ same_data a a' /\
      (forall x, x ∉ l1 ++ l2 -> a' !! x = a !! x)).
Proof.
  intros H. split; [apply H|]. split; [by eapply plq_empty_rep|]. split; [intros; by eapply plq_push_spec|]. split.
  - pose proof (plq_pop_spec a q l H) as Hp. destruct l as [|p l]; [by exists q, a|].
    destruct Hp as (q' & a' & Hr & Hrep & Hsd & _). by exists q', a'.
  - intros l1 p l2 ->. by apply plq_remove_spec.
Qed.

(** The pool hands out a slot that is not in use and holds nothing else, and
    only refuses when every slot is in use; a slot given back is free again.  Slots
    in use and free ones always partition the arena. *)
Theorem pool_partitions p used order :
  pool_wf p used ->
  match pool_allocate order p with
  | (None, p') => length used = pool_capacity p /\ p' = p
  | (Some slot, p') =>
      slot ∉ used /\ pool_wf p' (slot :: used) /\ arena_ p' !! slot = Some order /\
      (forall x, x <> slot -> arena_ p' !! x = arena_ p !! x) /\
      pool_wf (pool_deallocate slot p') used
  end.
Proof.
  intros H. pose proof (pool_allocate_spec p used order H) as Ha. destruct (pool_allocate order p) as [[slot|] p'].
  - destruct Ha as (Hn & Hlt & Hwf & Har & _). split; [done|]. split; [done|]. rewrite Har.
    split; [by apply list_lookup_insert_eq|]. split; [intros x Hx; by apply list_lookup_insert_ne|].
    by apply pool_deallocate_spec.
  - destruct Ha as [Hav ->]. split; [|done]. pose proof (pool_wf_available p used H). lia.
Qed.

Lemma level_is_queue_witness :
  exists q' a', plq_push plq_new 0 [default_order] = Some (q', a') /\ plq_rep a' q' [0%nat] /\
    same_data [default_order] a' /\ (forall x, x ∉ [] ++ [0%nat] -> a' !! x = [default_order] !! x).
Proof.
  refine (proj1 (proj2 (proj2 (level_is_queue [default_order] plq_new [] (plq_new_rep _)))) 0%nat default_order _ _ _ _);
    [by apply not_elem_of_nil|reflexivity..].
Defined.

Lemma pool_partitions_witness :
  match pool_allocate default_order (pool_new 2) with
  | (Some slot, p') => slot = 0%nat /\ pool_wf p' [slot] /\ pool_wf (pool_deallocate slot p') []
  | _ => False
  end.
Proof.
  pose proof (pool_partitions (pool_new 2) [] default_order (pool_new_wf 2)) as H. cbn in *.
  destruct H as (_ & ? & _ & _ & ?). done.
Defined.
