(* ===== verification/Validation.v ===== *)
(** * Validation: what the exchange accepts ([src/infra/validation.hpp])

    Conversions between OUCH and engine values, and the checks of an Enter Order
    and a Replace Order.  The theorems say exactly which prices and messages are
    accepted and that what is accepted suits the book's price ladder. *)

From S2P Require Import Prelude Types WireCodec OuchProto.

Record PriceBand := mkPriceBand { band_min : Z; band_max : Z }.

Definition kOuchMaxQuantity : Z := 999999.
Definition kOuchTicksPerCent : Z := 100.

Record EnginePrice := mkEnginePrice { ep_type : OrderType; ep_price : Z }.

Definition to_engine_price (ouch_price : Z) (band : PriceBand) : option EnginePrice :=
  if ouch_price >=? kOuchMarketPriceFloor then Some (mkEnginePrice MARKET 0) else
  if (ouch_price >? kOuchMaxLimitPrice) || negb (ouch_price mod kOuchTicksPerCent =? 0) then None else
  let cents := ouch_price / kOuchTicksPerCent in
  if (cents <? band_min band) || (cents >? band_max band) then None else
  Some (mkEnginePrice LIMIT (u32 cents)).

Definition to_ouch_price (cents : Z) : Z := u64 (cents * kOuchTicksPerCent).
Definition to_itch_price (cents : Z) : Z := u32 (u64 (cents * kOuchTicksPerCent)).

Definition to_engine_side (side : Z) : option Side :=
  if side =? ch "B" then Some BID else if side =? ch "S" then Some ASK else None.

Definition to_ouch_side (side : Side) : Z := match side with BID => ch "B" | ASK => ch "S" end.

Definition to_engine_tif (tif : Z) : option TimeInForce :=
  if tif =? ch "0" then Some DAY else if tif =? ch "3" then Some IOC else None.

Definition valid_quantity (quantity : Z) : bool := (quantity >? 0) && (quantity <=? kOuchMaxQuantity).

(** The members the template [unsupported_option_reason] reads, spelled alike in
    Enter and Replace. *)
Class OptionFields (M : Type) := {
  opt_min_qty : M -> Z;
  opt_max_floor : M -> Z;
  opt_price_type : M -> Z;
  opt_peg_offset : M -> Z;
  opt_discretion_price : M -> Z;
  opt_discretion_price_type : M -> Z;
  opt_discretion_peg_offset : M -> Z;
  opt_post_only : M -> Z;
  opt_random_reserves : M -> Z;
  opt_expire_time : M -> Z;
  opt_trade_now : M -> Z;
  opt_handle_inst : M -> Z;
  opt_aiq_strategy : M -> Z;
  opt_aiq_group_id : M -> list Z;
  opt_appendage : M -> OuchTagSet;
}.

#[export] Instance enter_options : OptionFields OuchEnterOrder := {|
  opt_min_qty := eo_min_qty; opt_max_floor := eo_max_floor; opt_price_type := eo_price_type;
  opt_peg_offset := eo_peg_offset; opt_discretion_price := eo_discretion_price;
  opt_discretion_price_type := eo_discretion_price_type; opt_discretion_peg_offset := eo_discretion_peg_offset;
  opt_post_only := eo_post_only; opt_random_reserves := eo_random_reserves; opt_expire_time := eo_expire_time;
  opt_trade_now := eo_trade_now; opt_handle_inst := eo_handle_inst; opt_aiq_strategy := eo_aiq_strategy;
  opt_aiq_group_id := eo_aiq_group_id; opt_appendage := eo_appendage;
|}.

#[export] Instance replace_options : OptionFields OuchReplaceOrder := {|
  opt_min_qty := ro_min_qty; opt_max_floor := ro_max_floor; opt_price_type := ro_price_type;
  opt_peg_offset := ro_peg_offset; opt_discretion_price := ro_discretion_price;
  opt_discretion_price_type := ro_discretion_price_type; opt_discretion_peg_offset := ro_discretion_peg_offset;
  opt_post_only := ro_post_only; opt_random_reserves := ro_random_reserves; opt_expire_time := ro_expire_time;
  opt_trade_now := ro_trade_now; opt_handle_inst := ro_handle_inst; opt_aiq_strategy := ro_aiq_strategy;
  opt_aiq_group_id := ro_aiq_group_id; opt_appendage := ro_appendage;
|}.

Definition unsupported_option_reason {M} `{OptionFields M} (m : M) : Z :=
  if negb (opt_min_qty m =? 0) then ouch_reject.kInvalidMinQuantity else
  if negb (opt_max_floor m =? 0) then ouch_reject.kInvalidMaxFloor else
  if negb (opt_price_type m =? ch "L") || negb (opt_peg_offset m =? 0) || negb (opt_discretion_price m =? 0) ||
     negb (opt_discretion_price_type m =? ch "L") || negb (opt_discretion_peg_offset m =? 0)
  then ouch_reject.kInvalidPegType else
  if negb (opt_post_only m =? ch "N") || negb (opt_random_reserves m =? 0) || negb (opt_expire_time m =? 0) ||
     negb (opt_trade_now m =? ch "N") || negb (opt_handle_inst m =? ch " ") || negb (opt_aiq_strategy m =? ch "*") ||
     negb (bool_decide (opt_aiq_group_id m = [ch "*"; ch "*"])) || tag_has USER_REF_IDX (opt_appendage m)
  then ouch_reject.kOther else 0.

Record EnterCheck := mkEnterCheck {
  ec_reject_reason : Z;
  ec_side : Side;
  ec_order_type : OrderType;
  ec_price : Z;
  ec_time_in_force : TimeInForce;
}.

(** [EnterCheck check;] with the reason set by the lambda [reject]. *)
Definition enter_reject (reason : Z) : EnterCheck := mkEnterCheck reason BID MARKET 0 DAY.

Definition check_enter (m : OuchEnterOrder) (band : PriceBand) : EnterCheck :=
  match to_engine_side (eo_side m) with
  | None => enter_reject ouch_reject.kInvalidSide
  | Some side =>
  if negb (valid_quantity (eo_quantity m)) then enter_reject ouch_reject.kInvalidQuantity else
  match to_engine_price (eo_price m) band with
  | None => enter_reject ouch_reject.kInvalidPrice
  | Some price =>
  match to_engine_tif (eo_time_in_force m) with
  | None => enter_reject ouch_reject.kOther
  | Some tif =>
  if negb (eo_display m =? ch "Y") then enter_reject ouch_reject.kInvalidDisplay else
  if negb (eo_capacity m =? ch "A") && negb (eo_capacity m =? ch "P") && negb (eo_capacity m =? ch "R") &&
     negb (eo_capacity m =? ch "O") then enter_reject ouch_reject.kOther else
  if negb (eo_intermarket_sweep_eligibility m =? ch "N") then enter_reject ouch_reject.kIsoNotAllowed else
  if negb (eo_cross_type m =? ch "N") then enter_reject ouch_reject.kInvalidCrossOrder else
  let reason := unsupported_option_reason m in
  if negb (reason =? 0) then enter_reject reason else
  mkEnterCheck 0 side (ep_type price) (ep_price price) tif
  end end end.

Record ReplaceCheck := mkReplaceCheck {
  rc_valid : bool;
  rc_price : Z;
  rc_time_in_force : TimeInForce;
}.

Definition replace_invalid : ReplaceCheck := mkReplaceCheck false 0 DAY.

Definition check_replace (m : OuchReplaceOrder) (orig_side : Z) (band : PriceBand) : ReplaceCheck :=
  if negb (valid_quantity (ro_quantity m)) then replace_invalid else
  match to_engine_price (ro_price m) band with
  | None => replace_invalid
  | Some price =>
  if negb (bool_decide (ep_type price = LIMIT)) then replace_invalid else
  match to_engine_tif (ro_time_in_force m) with
  | None => replace_invalid
  | Some tif =>
  if negb (ro_display m =? ch "Y") || negb (ro_intermarket_sweep_eligibility m =? ch "N") then replace_invalid else
  if tag_has SIDE (ro_appendage m) && negb (ro_side m =? orig_side) then replace_invalid else
  if negb (unsupported_option_reason m =? 0) then replace_invalid else
  mkReplaceCheck true (ep_price price) tif
  end end.

(** ** Conversions *)

Lemma to_ouch_price_small cents : 0 <= cents <= 19999999 -> to_ouch_price cents = cents * 100.
Proof. intros. apply u64_id. unfold kOuchTicksPerCent. ulia. Qed.

Lemma to_engine_price_limit x band p :
  0 <= x -> to_engine_price x band = Some (mkEnginePrice LIMIT p) ->
  band_min band <= p <= band_max band /\ x = p * 100 /\ 0 <= p <= 19999999.
Proof.
  unfold to_engine_price, kOuchMarketPriceFloor, kOuchMaxLimitPrice, kOuchTicksPerCent. intros Hx.
  case_if; [done|]. case_if; [done|]. case_if; [done|]. zbool. intros [= <-].
  pose proof (Z.div_mod x 100). pose proof (Z.div_pos x 100).
  rewrite u32_id by (split; [lia|]; apply Z.div_lt_upper_bound; lia). lia.
Qed.

Lemma to_engine_price_market x band p :
  to_engine_price x band = Some (mkEnginePrice MARKET p) -> kOuchMarketPriceFloor <= x /\ p = 0.
Proof. unfold to_engine_price. repeat case_if; try done. intros [= <-]. zbool. auto. Qed.

Lemma to_engine_price_cents p band :
  band_min band <= p <= band_max band -> 0 <= p <= 19999999 ->
  to_engine_price (p * 100) band = Some (mkEnginePrice LIMIT p).
Proof.
  intros Hb Hp. unfold to_engine_price, kOuchMarketPriceFloor, kOuchMaxLimitPrice, kOuchTicksPerCent.
  rewrite Z_mod_mult, Z.div_mul, Z.geb_leb, !Z.gtb_ltb by lia.
  rewrite (proj2 (Z.leb_gt _ _)), (proj2 (Z.ltb_ge 1999999900 _)), (proj2 (Z.ltb_ge p _)), (proj2 (Z.ltb_ge _ p)) by lia.
  cbn [negb orb Z.eqb]. by rewrite u32_id by ulia.
Qed.

Lemma to_engine_side_ouch c side : to_engine_side c = Some side -> c = to_ouch_side side.
Proof. unfold to_engine_side. repeat case_if; zbool; try done; by intros [= <-]. Qed.

Lemma to_engine_tif_ouch c tif :
  to_engine_tif c = Some tif -> c = match tif with DAY => ch "0" | IOC => ch "3" end.
Proof.
  unfold to_engine_tif. destruct (Z.eqb_spec c (ch "0")) as [->|]; [by intros [= <-]|].
  destruct (Z.eqb_spec c (ch "3")) as [->|]; [by intros [= <-]|done].
Qed.

Lemma valid_quantity_range q : valid_quantity q = true -> 0 < q <= 999999.
Proof. unfold valid_quantity. intros H. zbool. unfold kOuchMaxQuantity in *. lia. Qed.

(** Every option the book does not implement is at its default. *)
Definition options_default {M} `{OptionFields M} (m : M) : Prop :=
  opt_min_qty m = 0 /\ opt_max_floor m = 0 /\ opt_price_type m = ch "L" /\ opt_peg_offset m = 0 /\
  opt_discretion_price m = 0 /\ opt_discretion_price_type m = ch "L" /\ opt_discretion_peg_offset m = 0 /\
  opt_post_only m = ch "N" /\ opt_random_reserves m = 0 /\ opt_expire_time m = 0 /\ opt_trade_now m = ch "N" /\
  opt_handle_inst m = ch " " /\ opt_aiq_strategy m = ch "*" /\ opt_aiq_group_id m = [ch "*"; ch "*"] /\
  tag_has USER_REF_IDX (opt_appendage m) = false.

Lemma unsupported_option_reason_0 {M} `{OptionFields M} (m : M) : unsupported_option_reason m = 0 -> options_default m.
Proof.
  unfold unsupported_option_reason, options_default. repeat case_if; try done. intros _. zbool.
  repeat match goal with H : bool_decide _ = true |- _ => apply bool_decide_eq_true in H end. done.
Qed.

Lemma check_enter_facts m band :
  is_u64 (eo_price m) -> ec_reject_reason (check_enter m band) = 0 ->
  let c := check_enter m band in
  eo_side m = to_ouch_side (ec_side c) /\ 0 < eo_quantity m <= 999999 /\
  match ec_order_type c with
  | LIMIT => eo_price m = to_ouch_price (ec_price c) /\ band_min band <= ec_price c <= band_max band
  | MARKET => kOuchMarketPriceFloor <= eo_price m /\ ec_price c = 0
  end /\
  eo_time_in_force m = (match ec_time_in_force c with DAY => ch "0" | IOC => ch "3" end) /\
  eo_display m = ch "Y" /\ options_default m.
Proof.
  intros Hp. unfold check_enter. destruct (to_engine_side (eo_side m)) as [side|] eqn:Hs; [|done].
  destruct (valid_quantity (eo_quantity m)) eqn:Hq; cbn [negb]; [|done].
  destruct (to_engine_price (eo_price m) band) as [[ty p]|] eqn:Hpr; [|done].
  destruct (to_engine_tif (eo_time_in_force m)) as [tif|] eqn:Ht; [|done].
  case_if; [done|]. case_if; [done|]. case_if; [done|]. case_if; [done|]. cbv zeta.
  destruct (unsupported_option_reason m =? 0) eqn:Ho; cbn [negb]; [|intros Hr; zbool; cbn in Hr; congruence].
  intros _. cbn [ec_side ec_order_type ec_price ec_time_in_force ep_type ep_price]. zbool.
  split; [by apply to_engine_side_ouch|]. split; [by apply valid_quantity_range|]. split_and!; [| |done|by apply unsupported_option_reason_0].
  - destruct ty.
    + by destruct (to_engine_price_market _ _ _ Hpr).
    + destruct (to_engine_price_limit _ _ _ (proj1 Hp) Hpr) as (? & -> & ?). by rewrite to_ouch_price_small.
  - by apply to_engine_tif_ouch.
Qed.

Lemma unsupported_option_u16 {M} `{OptionFields M} (m : M) : is_u16 (unsupported_option_reason m).
Proof. unfold unsupported_option_reason. repeat case_if; done. Qed.

Lemma check_enter_reason_u16 m band : is_u16 (ec_reject_reason (check_enter m band)).
Proof.
  unfold check_enter. destruct (to_engine_side _); [|done]. case_if; [done|]. destruct (to_engine_price _ _); [|done].
  destruct (to_engine_tif _); [|done]. do 4 (case_if; [done|]). cbv zeta. case_if; [apply unsupported_option_u16|done].
Qed.

Lemma check_replace_facts m side band :
  is_u64 (ro_price m) -> rc_valid (check_replace m side band) = true ->
  0 < ro_quantity m <= 999999 /\
  ro_price m = to_ouch_price (rc_price (check_replace m side band)) /\
  band_min band <= rc_price (check_replace m side band) <= band_max band.
Proof.
  intros Hp. unfold check_replace. destruct (valid_quantity (ro_quantity m)) eqn:Hq; cbn [negb]; [|done].
  destruct (to_engine_price (ro_price m) band) as [[[] p]|] eqn:Hpr; [done| |done]. cbn [ep_type ep_price].
  rewrite bool_decide_true by done. cbn [negb]. destruct (to_engine_tif _); [|done]. do 3 (case_if; [done|]). intros _.
  destruct (to_engine_price_limit _ _ _ (proj1 Hp) Hpr) as (? & Hx & ?). split; [by apply valid_quantity_range|].
  cbn [rc_price]. by rewrite to_ouch_price_small.
Qed.

(** ** Theorems *)

(** Prices convert without loss: an OUCH price becomes the limit price [p]
    exactly when it is [p] cents, within the band and the protocol's maximum; it
    is a market order exactly from $200,000 on; every other price is refused. *)
Theorem price_conversion x band :
  is_u64 x ->
  (forall p, to_engine_price x band = Some (mkEnginePrice LIMIT p) <->
    x = to_ouch_price p /\ band_min band <= p <= band_max band /\ 0 <= p <= 19999999) /\
  (to_engine_price x band = Some (mkEnginePrice MARKET 0) <-> kOuchMarketPriceFloor <= x).
Proof.
  intros Hx. split; [intros p; split|split].
  - intros H. destruct (to_engine_price_limit x band p) as (? & -> & ?); [ulia|done|]. by rewrite to_ouch_price_small.
  - intros (-> & Hb & Hp). rewrite to_ouch_price_small by done. by apply to_engine_price_cents.
  - intros H. by destruct (to_engine_price_market _ _ _ H).
  - intros H. unfold to_engine_price. by rewrite Z.geb_leb, (proj2 (Z.leb_le _ _) H).
Qed.

(** An accepted Enter Order is understood as it was meant: the engine's side,
    price and time in force are those the message spells, the quantity is between 1
    and 999,999, and every option the book does not implement is at its default. *)
Theorem enter_check_sound m band :
  is_u64 (eo_price m) -> ec_reject_reason (check_enter m band) = 0 ->
  let c := check_enter m band in
  eo_side m = to_ouch_side (ec_side c) /\ 0 < eo_quantity m <= 999999 /\
  match ec_order_type c with
  | LIMIT => eo_price m = to_ouch_price (ec_price c) /\ band_min band <= ec_price c <= band_max band
  | MARKET => kOuchMarketPriceFloor <= eo_price m /\ ec_price c = 0
  end /\
  eo_time_in_force m = (match ec_time_in_force c with DAY => ch "0" | IOC => ch "3" end) /\
  eo_display m = ch "Y" /\ options_default m.
Proof. apply check_enter_facts. Qed.

(** A day order for 100 shares at $10.25. *)
Definition valid_enter : OuchEnterOrder := Eval vm_compute in
  ouch_default <| eo_user_ref_num := 1 |> <| eo_side := ch "B" |> <| eo_quantity := 100 |>
    <| eo_symbol := alpha 8 (str "SIM") |> <| eo_price := 102500 |> <| eo_time_in_force := ch "0" |>
    <| eo_display := ch "Y" |> <| eo_capacity := ch "A" |> <| eo_intermarket_sweep_eligibility := ch "N" |>
    <| eo_cross_type := ch "N" |>.

Lemma price_conversion_witness :
  to_engine_price 102500 (mkPriceBand 1 100000) = Some (mkEnginePrice LIMIT 1025).
Proof. apply price_conversion; [by split|]. by repeat split. Defined.

Lemma enter_check_sound_witness :
  let c := check_enter valid_enter (mkPriceBand 1 100000) in
  ec_reject_reason c = 0 /\ eo_side valid_enter = to_ouch_side (ec_side c).
Proof.
  assert (ec_reject_reason (check_enter valid_enter (mkPriceBand 1 100000)) = 0) as Hr by (vm_compute; reflexivity).
  assert (is_u64 (eo_price valid_enter)) as Hu by (vm_compute; split; [discriminate|reflexivity]).
  exact (conj Hr (proj1 (enter_check_sound valid_enter (mkPriceBand 1 100000) Hu Hr))).
Defined.
