(* ===== verification/Orderbook.v ===== *)
(** * Orderbook: the price-time-priority book
    ([src/exchange/engine/include/orderbook.hpp], [src/orderbook.cpp])

    The book at the level of the source: an arena of orders, one intrusive queue
    per tick and side, the id -> slot map, cached best prices and level counts.
    Every handler is a state transformer that faults on a null dereference or an
    index outside the ladder.  [OrderbookSpec] states what the handlers promise
    and [OrderbookRefine] proves that they keep it. *)

From S2P Require Import Prelude Types Clock ItchProto RingBuffer PriceLevelQueue Validation WireCodec.

Record Orderbook := mkBook {
  pool_ : OrderPool;
  bids_ : list PriceLevelQueue;
  asks_ : list PriceLevelQueue;
  orders_ : gmap Z nat;
  best_bid_price_ : Z;
  best_ask_price_ : Z;
  non_empty_bid_levels_ : Z;
  non_empty_ask_levels_ : Z;
  next_match_number_ : Z;
  out_ring_ : list EngineEvent;      (* every event pushed, in order *)
  market_data_ring_ : RingBuffer ITCH;
  market_data_drops_ : Z;
  clock_ : TscClock;
  ctx_answered : bool;               (* [Context::answered] of the current request *)
  tsc_reads : nat;                   (* reads of the timestamp counter so far *)
}.
#[export] Instance Orderbook_eta : Eta Orderbook := fun b =>
  mkBook (pool_ b) (bids_ b) (asks_ b) (orders_ b) (best_bid_price_ b) (best_ask_price_ b)
    (non_empty_bid_levels_ b) (non_empty_ask_levels_ b) (next_match_number_ b) (out_ring_ b)
    (market_data_ring_ b) (market_data_drops_ b) (clock_ b) (ctx_answered b) (tsc_reads b).

(** The request being processed and the stamps everything it produces shares. *)
Record Context := mkContext {
  ctx_req : EngineRequest;
  ctx_engine_pop_tsc : Z;
  ctx_itch_timestamp : Z;
}.

(** What a prefetch hint touches. *)
Inductive Prefetch :=
| PrefetchNothing
| PrefetchLevel (side : Side) (idx : nat)
| PrefetchBucket (order_id : Z).

Section Orderbook.
Context `{cfg : BookConfig}.
(** The [n]-th value read from the timestamp counter. *)
Context (rdtsc : nat -> Z).

Abbreviation B := (M Orderbook).

Definition ladder_size : nat := Z.to_nat (MAX_PRICE - MIN_PRICE + 1).

Definition Orderbook_new (market_data_ring : RingBuffer ITCH) (clock : TscClock) : Orderbook :=
  mkBook (pool_new PREALLOCATION_COUNT) (replicate ladder_size plq_new) (replicate ladder_size plq_new)
    ∅ MIN_PRICE MAX_PRICE 0 0 1 [] market_data_ring 0 clock false 0.

Definition kBookSymbol : list Z := alpha 8 BOOK_SYMBOL.

Definition open_after (total_liability executed : Z) : Z :=
  if executed <? total_liability then u32 (total_liability - executed) else 0.

(** ** Access to the arena and the ladder *)

Definition on_arena {A} (m : M Arena A) : B A := fun b =>
  match m (arena_ (pool_ b)) with
  | Some (x, a) => Some (x, b <| pool_ := (pool_ b) <| arena_ := a |> |>)
  | None => None
  end.

(** [price - MIN_PRICE], in [uint32_t] arithmetic. *)
Definition level_index (price : Z) : nat := Z.to_nat (u32 (price - MIN_PRICE)).

Definition bid_level (price : Z) : B PriceLevelQueue := fun b =>
  (fun q => (q, b)) <$> bids_ b !! level_index price.
Definition ask_level (price : Z) : B PriceLevelQueue := fun b =>
  (fun q => (q, b)) <$> asks_ b !! level_index price.

Definition store_bid_level (price : Z) (q : PriceLevelQueue) : B unit :=
  modify (fun b => b <| bids_ := <[level_index price := q]> (bids_ b) |>).
Definition store_ask_level (price : Z) (q : PriceLevelQueue) : B unit :=
  modify (fun b => b <| asks_ := <[level_index price := q]> (asks_ b) |>).

(** ** Output *)

Definition stamp (ctx : Context) (answers : bool) (push_tsc : Z) (e : EngineEvent) : EngineEvent :=
  mkEvent (rq_read_begin_tsc (ctx_req ctx)) (rq_recv_tsc (ctx_req ctx))
    (rq_server_push_tsc (ctx_req ctx)) (ctx_engine_pop_tsc ctx) push_tsc
    (ev_order_id e) (ev_orig_order_id e) (ev_match_number e) (ev_client_id e) (ev_price e)
    (ev_quantity e) (ev_type e) (ev_reason e) answers.

(** The spin on a full ring ends when the consumer makes room, with the event
    pushed exactly once. *)
Definition emit (ctx : Context) (e : EngineEvent) : B unit :=
  modify (fun b =>
    b <| out_ring_ := out_ring_ b ++ [stamp ctx (negb (ctx_answered b)) (rdtsc (tsc_reads b)) e] |>
      <| ctx_answered := true |>
      <| tsc_reads := S (tsc_reads b) |>).

Definition publish (msg : ITCH) : B unit := fun b =>
  match push msg (market_data_ring_ b) with
  | Some (ok, ring) =>
      let b := b <| market_data_ring_ := ring |> in
      Some (tt, if ok then b else b <| market_data_drops_ := u64 (market_data_drops_ b + 1) |>)
  | None => None
  end.

Definition itch_header (ctx : Context) (type : Z) : ItchHeader :=
  mkItchHeader type BOOK_STOCK_LOCATE 0 (ctx_itch_timestamp ctx).

(** ** Book maintenance *)

(** Each iteration lowers the price, so [best - MIN_PRICE + 1] rounds are enough. *)
Fixpoint update_best_bid_loop (fuel : nat) : B unit :=
  match fuel with
  | O => fun _ => None
  | S fuel =>
      best ← gets best_bid_price_;
      if MIN_PRICE <? best then
        q ← bid_level best;
        if plq_empty q then
          _ ← modify (fun b => b <| best_bid_price_ := u32 (best - 1) |>);
          update_best_bid_loop fuel
        else mret tt
      else mret tt
  end.

Definition update_best_bid : B unit := fun b =>
  update_best_bid_loop (S (Z.to_nat (best_bid_price_ b - MIN_PRICE))) b.

Fixpoint update_best_ask_loop (fuel : nat) : B unit :=
  match fuel with
  | O => fun _ => None
  | S fuel =>
      best ← gets best_ask_price_;
      if best <? MAX_PRICE then
        q ← ask_level best;
        if plq_empty q then
          _ ← modify (fun b => b <| best_ask_price_ := u32 (best + 1) |>);
          update_best_ask_loop fuel
        else mret tt
      else mret tt
  end.

Definition update_best_ask : B unit := fun b =>
  update_best_ask_loop (S (Z.to_nat (MAX_PRICE - best_ask_price_ b))) b.

Definition unlink (order : nat) : B unit :=
  o ← on_arena (deref order);
  let price := price_ o in
  match side_ o with
  | BID =>
      q ← bid_level price;
      q ← on_arena (plq_remove q order);
      _ ← store_bid_level price q;
      when (plq_empty q) (
        _ ← modify (fun b => b <| non_empty_bid_levels_ := u64 (non_empty_bid_levels_ b - 1) |>);
        levels ← gets non_empty_bid_levels_;
        best ← gets best_bid_price_;
        if levels =? 0 then modify (fun b => b <| best_bid_price_ := MIN_PRICE |>)
        else when (price =? best) update_best_bid)
  | ASK =>
      q ← ask_level price;
      q ← on_arena (plq_remove q order);
      _ ← store_ask_level price q;
      when (plq_empty q) (
        _ ← modify (fun b => b <| non_empty_ask_levels_ := u64 (non_empty_ask_levels_ b - 1) |>);
        levels ← gets non_empty_ask_levels_;
        best ← gets best_ask_price_;
        if levels =? 0 then modify (fun b => b <| best_ask_price_ := MAX_PRICE |>)
        else when (price =? best) update_best_ask)
  end.

Definition release (order : nat) : B unit :=
  o ← on_arena (deref order);
  _ ← modify (fun b => b <| orders_ := delete (id_ o) (orders_ b) |>);
  modify (fun b => b <| pool_ := pool_deallocate order (pool_ b) |>).

(** [pool_.allocate], dereferenced at once: a fault when the pool is exhausted. *)
Definition allocate (order : Order) : B nat := fun b =>
  match pool_allocate order (pool_ b) with
  | (Some slot, pool) => Some (slot, b <| pool_ := pool |>)
  | (None, _) => None
  end.

(** [orders_.emplace]: an id already there keeps its order. *)
Definition emplace (id : Z) (slot : nat) (m : gmap Z nat) : gmap Z nat :=
  match m !! id with Some _ => m | None => <[id := slot]> m end.

Definition rest (ctx : Context) (order : Order) (publish_add : bool) : B unit :=
  resting ← allocate order;
  o ← on_arena (deref resting);
  _ ← modify (fun b => b <| orders_ := emplace (id_ o) resting (orders_ b) |>);
  let price := price_ o in
  _ ← match side_ o with
      | BID =>
          q ← bid_level price;
          _ ← when (plq_empty q)
                (modify (fun b => b <| non_empty_bid_levels_ := u64 (non_empty_bid_levels_ b + 1) |>));
          q ← on_arena (plq_push q resting);
          _ ← store_bid_level price q;
          best ← gets best_bid_price_;
          when (best <? price) (modify (fun b => b <| best_bid_price_ := price |>))
      | ASK =>
          q ← ask_level price;
          _ ← when (plq_empty q)
                (modify (fun b => b <| non_empty_ask_levels_ := u64 (non_empty_ask_levels_ b + 1) |>));
          q ← on_arena (plq_push q resting);
          _ ← store_ask_level price q;
          best ← gets best_ask_price_;
          when (price <? best) (modify (fun b => b <| best_ask_price_ := price |>))
      end;
  o ← on_arena (deref resting);
  when publish_add
    (publish (itch_add_order (mkItchAddOrder (itch_header ctx ITCH_ADD_ORDER) (id_ o)
       (to_ouch_side (side_ o)) (open_quantity_ o) kBookSymbol (to_itch_price price)))).

(** ** Matching *)

Definition crosses (side : Side) (type : OrderType) (price : Z) (b : Orderbook) : bool :=
  match side with
  | BID =>
      if non_empty_ask_levels_ b =? 0 then false
      else match type with MARKET => true | LIMIT => best_ask_price_ b <=? price end
  | ASK =>
      if non_empty_bid_levels_ b =? 0 then false
      else match type with MARKET => true | LIMIT => price <=? best_bid_price_ b end
  end.

(** [level.front()], dereferenced by every use. *)
Definition front_order (q : PriceLevelQueue) : B nat := lift (plq_front q).

(** Every round trades at least one share or drops a filled order, so on books
    whose resting orders are open [quantity + 1] rounds are enough. *)
Fixpoint match_loop (ctx : Context) (id client_id : Z) (side : Side) (type : OrderType)
    (price quantity : Z) (fuel : nat) (filled : Z) : B Z :=
  match fuel with
  | O => fun _ => None
  | S fuel =>
      crossing ← gets (crosses side type price);
      if (filled <? quantity) && (crossing : bool) then
        level_price ← gets (match side with BID => best_ask_price_ | ASK => best_bid_price_ end);
        level ← match side with BID => ask_level level_price | ASK => bid_level level_price end;
        resting ← front_order level;
        r ← on_arena (deref resting);
        let fill := Z.min (u32 (quantity - filled)) (open_quantity_ r) in
        match_number ← gets next_match_number_;
        _ ← modify (fun b => b <| next_match_number_ := u64 (match_number + 1) |>);
        let filled := u32 (filled + fill) in
        _ ← on_arena (store_order resting (fun o => o <| open_quantity_ := u32 (open_quantity_ o - fill) |>));
        _ ← on_arena (store_order resting (fun o => o <| executed_quantity_ := u32 (executed_quantity_ o + fill) |>));
        _ ← emit ctx (event id 0 match_number client_id level_price fill EXECUTED kRemovedLiquidity);
        r ← on_arena (deref resting);
        _ ← emit ctx (event (id_ r) 0 match_number (client_id_ r) level_price fill EXECUTED kAddedLiquidity);
        _ ← publish (itch_order_executed (mkItchOrderExecuted (itch_header ctx ITCH_ORDER_EXECUTED)
              (id_ r) fill match_number));
        _ ← when (is_filled r) (_ ← unlink resting; release resting);
        match_loop ctx id client_id side type price quantity fuel filled
      else mret filled
  end.

Definition match_ (ctx : Context) (id client_id : Z) (side : Side) (type : OrderType)
    (price quantity : Z) : B Z :=
  match_loop ctx id client_id side type price quantity (S (Z.to_nat quantity)) 0.

(** ** Request handlers *)

Definition enter (ctx : Context) : B bool :=
  let req := ctx_req ctx in
  orders ← gets orders_;
  if decide (is_Some (orders !! rq_order_id req)) then mret false else
  let may_rest := bool_decide (rq_order_type req = LIMIT) && bool_decide (rq_time_in_force req = DAY) in
  available ← gets (fun b => pool_available (pool_ b));
  if may_rest && Nat.eqb available 0 then
    _ ← emit ctx (event (rq_order_id req) 0 0 (rq_client_id req) 0 0 REJECTED kBookFull);
    mret true
  else
  _ ← emit ctx (event (rq_order_id req) 0 0 (rq_client_id req) (rq_price req) (rq_quantity req) ACCEPTED 0);
  filled ← match_ ctx (rq_order_id req) (rq_client_id req) (rq_side req) (rq_order_type req)
             (rq_price req) (rq_quantity req);
  let remaining := u32 (rq_quantity req - filled) in
  if remaining =? 0 then mret true else
  _ ← (if may_rest then
         rest ctx (new_order (rq_order_id req) (rq_client_id req) (rq_side req) (rq_price req)
                     remaining filled) true
       else
         emit ctx (event (rq_order_id req) 0 0 (rq_client_id req) (rq_price req) remaining CANCELED
                     kImmediateOrCancel));
  mret true.

(** [find] and the ownership test the handlers start with. *)
Definition cancel (ctx : Context) : B bool :=
  let req := ctx_req ctx in
  orders ← gets orders_;
  match orders !! rq_order_id req with
  | None => mret false
  | Some order =>
      o ← on_arena (deref order);
      if negb (client_id_ o =? rq_client_id req) then mret false else
      let target_open := open_after (rq_quantity req) (executed_quantity_ o) in
      if open_quantity_ o <=? target_open then mret false else
      let decrement := u32 (open_quantity_ o - target_open) in
      _ ← emit ctx (event (id_ o) 0 0 (client_id_ o) (price_ o) decrement CANCELED kUserRequested);
      itch ← (if target_open =? 0 then
                _ ← unlink order;
                _ ← release order;
                mret (itch_order_delete (mkItchOrderDelete (itch_header ctx ITCH_ORDER_DELETE) (id_ o)))
              else
                _ ← on_arena (store_order order (fun o => o <| open_quantity_ := target_open |>));
                mret (itch_order_cancel (mkItchOrderCancel (itch_header ctx ITCH_ORDER_CANCEL) (id_ o)
                        decrement)));
      _ ← publish itch;
      mret true
  end.

Definition replace_ (ctx : Context) : B bool :=
  let req := ctx_req ctx in
  orders ← gets orders_;
  match orders !! rq_order_id req with
  | None => mret false
  | Some orig =>
      o ← on_arena (deref orig);
      if negb (client_id_ o =? rq_client_id req) then mret false else
      if decide (is_Some (orders !! rq_new_order_id req)) then mret false else
      let orig_id := id_ o in
      let side := side_ o in
      let executed := executed_quantity_ o in
      let open := open_after (rq_quantity req) executed in
      let itch := itch_order_delete (mkItchOrderDelete (itch_header ctx ITCH_ORDER_DELETE) orig_id) in
      if open =? 0 then
        _ ← emit ctx (event orig_id 0 0 (client_id_ o) (price_ o) (open_quantity_ o) CANCELED kUserRequested);
        _ ← unlink orig;
        _ ← release orig;
        _ ← publish itch;
        mret true
      else
      _ ← unlink orig;
      _ ← release orig;
      _ ← emit ctx (event (rq_new_order_id req) orig_id 0 (rq_client_id req) (rq_price req) open REPLACED 0);
      let day := bool_decide (rq_time_in_force req = DAY) in
      crossing ← gets (crosses side LIMIT (rq_price req));
      if day && negb crossing then
        _ ← rest ctx (new_order (rq_new_order_id req) (rq_client_id req) side (rq_price req) open executed)
              false;
        _ ← publish (itch_order_replace (mkItchOrderReplace (itch_header ctx ITCH_ORDER_REPLACE) orig_id
              (rq_new_order_id req) open (to_itch_price (rq_price req))));
        mret true
      else
      _ ← publish itch;
      filled ← match_ ctx (rq_new_order_id req) (rq_client_id req) side LIMIT (rq_price req) open;
      let remaining := u32 (open - filled) in
      if remaining =? 0 then mret true else
      _ ← (if day then
             rest ctx (new_order (rq_new_order_id req) (rq_client_id req) side (rq_price req) remaining
                         (u32 (executed + filled))) true
           else
             emit ctx (event (rq_new_order_id req) 0 0 (rq_client_id req) (rq_price req) remaining CANCELED
                         kImmediateOrCancel));
      mret true
  end.

Definition process (req : EngineRequest) (engine_pop_tsc : Z) : B bool := fun b =>
  let ctx := mkContext req engine_pop_tsc (ns_since_midnight (clock_ b) engine_pop_tsc) in
  let b := b <| ctx_answered := false |> in
  match rq_type req with
  | NEW => enter ctx b
  | CANCEL => cancel ctx b
  | REPLACE => replace_ ctx b
  end.

Definition prefetch (next : EngineRequest) : Prefetch :=
  match rq_type next with
  | NEW =>
      if (rq_price next <? MIN_PRICE) || (MAX_PRICE <? rq_price next) then PrefetchNothing
      else PrefetchLevel (rq_side next) (level_index (rq_price next))
  | CANCEL | REPLACE => PrefetchBucket (rq_order_id next)
  end.
End Orderbook.
