(* ===== verification/OrderbookSpec.v ===== *)
(** * OrderbookSpec: what the order book promises

    The abstract book is one list of resting orders per side in priority order:
    best price first, earliest first within a price.  A request is answered by a
    pure function on these lists; there are no slots, links, cached prices or
    level counts.  [OrderbookRefine] proves that [Orderbook.process] computes this
    function. *)

From S2P Require Import Prelude Types ItchProto PriceLevelQueue Validation WireCodec Orderbook.

(** ** Sides *)

Definition opposite (side : Side) : Side := match side with BID => ASK | ASK => BID end.

(** [better side p q]: on [side], price [p] comes strictly before price [q]. *)
Definition better (side : Side) (p q : Z) : bool :=
  match side with BID => q <? p | ASK => p <? q end.

(** An incoming order of [side] trades with a resting price. *)
Definition crosses_price (side : Side) (type : OrderType) (price resting : Z) : bool :=
  match type with
  | MARKET => true
  | LIMIT => match side with BID => resting <=? price | ASK => price <=? resting end
  end.

(** ** The book *)

Record SBook := mkSBook {
  sb_bids : list Order;
  sb_asks : list Order;
  sb_next_match : Z;
}.
#[export] Instance SBook_eta : Eta SBook := fun s => mkSBook (sb_bids s) (sb_asks s) (sb_next_match s).

Definition sb_side (side : Side) (s : SBook) : list Order :=
  match side with BID => sb_bids s | ASK => sb_asks s end.

Definition sb_set_side (side : Side) (l : list Order) (s : SBook) : SBook :=
  match side with BID => s <| sb_bids := l |> | ASK => s <| sb_asks := l |> end.

Definition sbook_new : SBook := mkSBook [] [] 1.

Definition find_id (id : Z) (l : list Order) : option Order := head (filter (fun o => id_ o = id) l).
Definition remove_id (id : Z) (l : list Order) : list Order := filter (fun o => id_ o <> id) l.

Definition sb_find (id : Z) (s : SBook) : option Order :=
  match find_id id (sb_bids s) with
  | Some o => Some o
  | None => find_id id (sb_asks s)
  end.

(** Behind every order of an equal or better price. *)
Fixpoint insert_order (side : Side) (o : Order) (l : list Order) : list Order :=
  match l with
  | [] => [o]
  | x :: l' => if better side (price_ o) (price_ x) then o :: l else x :: insert_order side o l'
  end.

(** ** Matching

    Walk the opposite side from its best order: each crossing order gives the
    smaller of what it has and what is wanted. *)

Definition fill_order (fill : Z) (r : Order) : Order :=
  r <| open_quantity_ := open_quantity_ r - fill |> <| executed_quantity_ := executed_quantity_ r + fill |>.

Fixpoint take_liquidity (side : Side) (type : OrderType) (price wanted : Z) (l : list Order)
    : list (Order * Z) * list Order :=
  match l with
  | [] => ([], [])
  | r :: l' =>
      if (0 <? wanted) && crosses_price side type price (price_ r) then
        let fill := Z.min wanted (open_quantity_ r) in
        if open_quantity_ r =? fill then
          let '(fills, kept) := take_liquidity side type price (wanted - fill) l' in
          ((r, fill) :: fills, kept)
        else ([(r, fill)], fill_order fill r :: l')
      else ([], l)
  end.

Definition filled_shares (fills : list (Order * Z)) : Z := foldr (fun f n => f.2 + n) 0 fills.

(** ** Output *)

Fixpoint fill_events (id client_id mn : Z) (fills : list (Order * Z)) : list EngineEvent :=
  match fills with
  | [] => []
  | (r, fill) :: fills' =>
      event id 0 mn client_id (price_ r) fill EXECUTED kRemovedLiquidity ::
      event (id_ r) 0 mn (client_id_ r) (price_ r) fill EXECUTED kAddedLiquidity ::
      fill_events id client_id (u64 (mn + 1)) fills'
  end.

Section Spec.
Context `{cfg : BookConfig}.

Fixpoint fill_itch (ctx : Context) (mn : Z) (fills : list (Order * Z)) : list ITCH :=
  match fills with
  | [] => []
  | (r, fill) :: fills' =>
      itch_order_executed (mkItchOrderExecuted (itch_header ctx ITCH_ORDER_EXECUTED) (id_ r) fill mn) ::
      fill_itch ctx (u64 (mn + 1)) fills'
  end.

Fixpoint after_fills (mn : Z) (fills : list (Order * Z)) : Z :=
  match fills with [] => mn | _ :: fills' => after_fills (u64 (mn + 1)) fills' end.

Definition add_itch (ctx : Context) (o : Order) : ITCH :=
  itch_add_order (mkItchAddOrder (itch_header ctx ITCH_ADD_ORDER) (id_ o) (to_ouch_side (side_ o))
    (open_quantity_ o) kBookSymbol (to_itch_price (price_ o))).

(** The outcome of a request: was it acted on, the book, the events (before
    [emit] stamps them) and the ITCH messages, in order. *)
Record Outcome := mkOutcome {
  oc_acted : bool;
  oc_book : SBook;
  oc_events : list EngineEvent;
  oc_itch : list ITCH;
}.

Definition ignored (s : SBook) : Outcome := mkOutcome false s [] [].

(** An incoming order trades, then its remainder rests or is cancelled. *)
Definition spec_incoming (ctx : Context) (s : SBook) (id client_id : Z) (side : Side)
    (type : OrderType) (price quantity executed : Z) (may_rest : bool) : SBook * list EngineEvent * list ITCH :=
  let '(fills, kept) := take_liquidity side type price quantity (sb_side (opposite side) s) in
  let remaining := quantity - filled_shares fills in
  let o := new_order id client_id side price remaining (executed + filled_shares fills) in
  let s1 := (sb_set_side (opposite side) kept s) <| sb_next_match := after_fills (sb_next_match s) fills |> in
  let evs := fill_events id client_id (sb_next_match s) fills in
  let itch := fill_itch ctx (sb_next_match s) fills in
  if remaining =? 0 then (s1, evs, itch)
  else if may_rest then
    (sb_set_side side (insert_order side o (sb_side side s1)) s1, evs, itch ++ [add_itch ctx o])
  else (s1, evs ++ [event id 0 0 client_id price remaining CANCELED kImmediateOrCancel], itch).

Definition resting_count (s : SBook) : nat := (length (sb_bids s) + length (sb_asks s))%nat.

Definition spec_enter (ctx : Context) (s : SBook) : Outcome :=
  let req := ctx_req ctx in
  if decide (is_Some (sb_find (rq_order_id req) s)) then ignored s else
  let may_rest := bool_decide (rq_order_type req = LIMIT) && bool_decide (rq_time_in_force req = DAY) in
  if may_rest && Nat.eqb (resting_count s) PREALLOCATION_COUNT then
    mkOutcome true s [event (rq_order_id req) 0 0 (rq_client_id req) 0 0 REJECTED kBookFull] []
  else
  let '(s', evs, itch) :=
    spec_incoming ctx s (rq_order_id req) (rq_client_id req) (rq_side req) (rq_order_type req)
      (rq_price req) (rq_quantity req) 0 may_rest in
  mkOutcome true s'
    (event (rq_order_id req) 0 0 (rq_client_id req) (rq_price req) (rq_quantity req) ACCEPTED 0 :: evs) itch.

(** Shares still open when the whole order may do [total], of which [executed] are done. *)
Definition still_open (total executed : Z) : Z := Z.max 0 (total - executed).

Definition sb_remove (o : Order) (s : SBook) : SBook :=
  sb_set_side (side_ o) (remove_id (id_ o) (sb_side (side_ o) s)) s.

Definition reduce_id (id target : Z) (l : list Order) : list Order :=
  (fun o => if decide (id_ o = id) then o <| open_quantity_ := target |> else o) <$> l.

Definition spec_cancel (ctx : Context) (s : SBook) : Outcome :=
  let req := ctx_req ctx in
  match sb_find (rq_order_id req) s with
  | None => ignored s
  | Some o =>
      if negb (client_id_ o =? rq_client_id req) then ignored s else
      let target := still_open (rq_quantity req) (executed_quantity_ o) in
      if open_quantity_ o <=? target then ignored s else
      let decrement := open_quantity_ o - target in
      let ev := event (id_ o) 0 0 (client_id_ o) (price_ o) decrement CANCELED kUserRequested in
      if target =? 0 then
        mkOutcome true (sb_remove o s) [ev]
          [itch_order_delete (mkItchOrderDelete (itch_header ctx ITCH_ORDER_DELETE) (id_ o))]
      else
        mkOutcome true (sb_set_side (side_ o) (reduce_id (id_ o) target (sb_side (side_ o) s)) s) [ev]
          [itch_order_cancel (mkItchOrderCancel (itch_header ctx ITCH_ORDER_CANCEL) (id_ o) decrement)]
  end.

(** No crossing order on the other side. *)
Definition no_cross (side : Side) (price : Z) (s : SBook) : bool :=
  match sb_side (opposite side) s with
  | [] => true
  | r :: _ => negb (crosses_price side LIMIT price (price_ r))
  end.

Definition spec_replace (ctx : Context) (s : SBook) : Outcome :=
  let req := ctx_req ctx in
  match sb_find (rq_order_id req) s with
  | None => ignored s
  | Some o =>
      if negb (client_id_ o =? rq_client_id req) then ignored s else
      if decide (is_Some (sb_find (rq_new_order_id req) s)) then ignored s else
      let open := still_open (rq_quantity req) (executed_quantity_ o) in
      let del := itch_order_delete (mkItchOrderDelete (itch_header ctx ITCH_ORDER_DELETE) (id_ o)) in
      let s1 := sb_remove o s in
      if open =? 0 then
        mkOutcome true s1
          [event (id_ o) 0 0 (client_id_ o) (price_ o) (open_quantity_ o) CANCELED kUserRequested] [del]
      else
      let rep := event (rq_new_order_id req) (id_ o) 0 (rq_client_id req) (rq_price req) open REPLACED 0 in
      let day := bool_decide (rq_time_in_force req = DAY) in
      if day && no_cross (side_ o) (rq_price req) s1 then
        let o' := new_order (rq_new_order_id req) (rq_client_id req) (side_ o) (rq_price req) open
                    (executed_quantity_ o) in
        mkOutcome true (sb_set_side (side_ o) (insert_order (side_ o) o' (sb_side (side_ o) s1)) s1) [rep]
          [itch_order_replace (mkItchOrderReplace (itch_header ctx ITCH_ORDER_REPLACE) (id_ o)
             (rq_new_order_id req) open (to_itch_price (rq_price req)))]
      else
      let '(s', evs, itch) :=
        spec_incoming ctx s1 (rq_new_order_id req) (rq_client_id req) (side_ o) LIMIT (rq_price req)
          open (executed_quantity_ o) day in
      mkOutcome true s' (rep :: evs) (del :: itch)
  end.

Definition spec_process (ctx : Context) (s : SBook) : Outcome :=
  match rq_type (ctx_req ctx) with
  | NEW => spec_enter ctx s
  | CANCEL => spec_cancel ctx s
  | REPLACE => spec_replace ctx s
  end.

(** The requests the gateway sends: members in range, and every limit price on
    the ladder. *)
Definition request_ok (r : EngineRequest) : Prop :=
  request_wf r /\
  match rq_type r with
  | NEW => rq_order_type r = LIMIT -> in_band (rq_price r)
  | REPLACE => in_band (rq_price r)
  | CANCEL => True
  end.
End Spec.
