(* ===== verification/OrderEntry.v ===== *)
(** * OrderEntry: OUCH order entry translated into engine requests
    ([src/exchange/server/include/order_entry.hpp], [src/order_entry.cpp])

    The gateway's state is the last UserRefNum of each client, the next OrderId
    and the map from (ClientId, UserRefNum) to order.  [translate] runs in the
    monad of [Prelude]: the code dereferences the optional side of a recorded
    order, and [None] stands for doing that on an empty one. *)

From S2P Require Import Prelude Types WireCodec OuchProto Validation OrderbookSpec.

(** ** Data *)

Record OrderRecord := mkRecord {
  rec_client_id : Z;
  rec_user_ref_num : Z;
  rec_quantity : Z;
  rec_price : Z;
  rec_symbol : list Z;
  rec_cl_ord_id : list Z;
  rec_side : Z;
  rec_time_in_force : Z;
  rec_display : Z;
  rec_capacity : Z;
  rec_intermarket_sweep_eligibility : Z;
  rec_cross_type : Z;
}.
#[export] Instance OrderRecord_eta : Eta OrderRecord := fun r =>
  mkRecord (rec_client_id r) (rec_user_ref_num r) (rec_quantity r) (rec_price r) (rec_symbol r) (rec_cl_ord_id r)
    (rec_side r) (rec_time_in_force r) (rec_display r) (rec_capacity r) (rec_intermarket_sweep_eligibility r)
    (rec_cross_type r).

Inductive NoteKind := ORDER_ENTERED | ORDER_REPLACING | NOTE_REJECTED.

Record GatewayNote := mkNote {
  note_kind : NoteKind;
  note_reject_reason : Z;
  note_order_id : Z;
  note_record : OrderRecord;
}.

Record Translation := mkTranslation {
  tr_note : option GatewayNote;
  tr_request : option EngineRequest;
}.

Definition no_translation : Translation := mkTranslation None None.

Record LiveOrder := mkLiveOrder { lo_order_id : Z; lo_record : OrderRecord }.

Record ClientState := mkClientState { last_user_ref_num : Z }.

Record OrderEntry := mkOrderEntry {
  band_ : PriceBand;
  next_order_id_ : Z;
  clients_ : gmap Z ClientState;
  entry_orders_ : gmap Z LiveOrder;
}.
#[export] Instance OrderEntry_eta : Eta OrderEntry := fun s =>
  mkOrderEntry (band_ s) (next_order_id_ s) (clients_ s) (entry_orders_ s).

Definition OrderEntry_new (band : PriceBand) : OrderEntry := mkOrderEntry band 1 ∅ ∅.

Definition key_ (client_id user_ref_num : Z) : Z := u64 (Z.lor (Z.shiftl client_id 32) user_ref_num).

(** ** Operations *)

(** [clients_[client_id]]: a client seen for the first time gets a zero entry. *)
Definition client_at (client_id : Z) : M OrderEntry ClientState := fun s =>
  let c := default (mkClientState 0) (clients_ s !! client_id) in
  Some (c, s <| clients_ := <[client_id := c]> (clients_ s) |>).

Definition set_last (client_id n : Z) : M OrderEntry unit :=
  modify (fun s => s <| clients_ := <[client_id := mkClientState n]> (clients_ s) |>).

(** [next_order_id_++] *)
Definition take_order_id : M OrderEntry Z := fun s =>
  Some (next_order_id_ s, s <| next_order_id_ := u64 (next_order_id_ s + 1) |>).

(** [orders_.emplace(key, order)]: a key already there keeps its order. *)
Definition emplace_order (key : Z) (order : LiveOrder) : M OrderEntry unit :=
  modify (fun s =>
    match entry_orders_ s !! key with
    | Some _ => s
    | None => s <| entry_orders_ := <[key := order]> (entry_orders_ s) |>
    end).

Definition entered_record (client_id : Z) (msg : OuchEnterOrder) : OrderRecord :=
  mkRecord client_id (eo_user_ref_num msg) (eo_quantity msg) (eo_price msg) (eo_symbol msg) (eo_cl_ord_id msg)
    (eo_side msg) (eo_time_in_force msg) (eo_display msg) (eo_capacity msg)
    (eo_intermarket_sweep_eligibility msg) (eo_cross_type msg).

Definition entry_enter (client_id : Z) (msg : OuchEnterOrder) : M OrderEntry Translation :=
  client ← client_at client_id;
  if eo_user_ref_num msg <=? last_user_ref_num client then mret no_translation else
  _ ← set_last client_id (eo_user_ref_num msg);
  let record := entered_record client_id msg in
  band ← gets band_;
  let check := check_enter msg band in
  if negb (ec_reject_reason check =? 0)
  then mret (mkTranslation (Some (mkNote NOTE_REJECTED (ec_reject_reason check) 0 record)) None)
  else
  order_id ← take_order_id;
  _ ← emplace_order (key_ client_id (eo_user_ref_num msg)) (mkLiveOrder order_id record);
  mret (mkTranslation
    (Some (mkNote ORDER_ENTERED 0 order_id record))
    (Some (mkRequest 0 0 0 order_id 0 client_id (ec_price check) (eo_quantity msg) NEW (ec_side check)
      (ec_order_type check) (ec_time_in_force check)))).

Definition entry_cancel (client_id : Z) (msg : OuchCancelOrder) : M OrderEntry Translation :=
  it ← gets (fun s => entry_orders_ s !! key_ client_id (xo_user_ref_num msg));
  match it with
  | None => mret no_translation
  | Some order =>
      side ← lift (to_engine_side (rec_side (lo_record order)));
      mret (mkTranslation None
        (Some (mkRequest 0 0 0 (lo_order_id order) 0 client_id 0 (xo_quantity msg) CANCEL side LIMIT DAY)))
  end.

Definition replaced_record (orig : OrderRecord) (msg : OuchReplaceOrder) : OrderRecord :=
  orig <| rec_user_ref_num := ro_user_ref_num msg |> <| rec_quantity := ro_quantity msg |>
       <| rec_price := ro_price msg |> <| rec_cl_ord_id := ro_cl_ord_id msg |>
       <| rec_time_in_force := ro_time_in_force msg |> <| rec_display := ro_display msg |>
       <| rec_intermarket_sweep_eligibility := ro_intermarket_sweep_eligibility msg |>.

Definition entry_replace (client_id : Z) (msg : OuchReplaceOrder) : M OrderEntry Translation :=
  orig ← gets (fun s => entry_orders_ s !! key_ client_id (ro_orig_user_ref_num msg));
  match orig with
  | None => mret no_translation
  | Some orig =>
      client ← client_at client_id;
      if ro_user_ref_num msg <=? last_user_ref_num client then mret no_translation else
      let orig_order_id := lo_order_id orig in
      let orig_record := lo_record orig in
      side ← lift (to_engine_side (rec_side orig_record));
      band ← gets band_;
      let check := check_replace msg (rec_side orig_record) band in
      if negb (rc_valid check)
      then mret (mkTranslation None
        (Some (mkRequest 0 0 0 orig_order_id 0 client_id 0 0 CANCEL side LIMIT DAY)))
      else
      _ ← set_last client_id (ro_user_ref_num msg);
      let record := replaced_record orig_record msg in
      new_order_id ← take_order_id;
      _ ← emplace_order (key_ client_id (ro_user_ref_num msg)) (mkLiveOrder new_order_id record);
      mret (mkTranslation
        (Some (mkNote ORDER_REPLACING 0 new_order_id record))
        (Some (mkRequest 0 0 0 orig_order_id new_order_id client_id (rc_price check) (ro_quantity msg) REPLACE side
          LIMIT (rc_time_in_force check))))
  end.

Definition translate (client_id : Z) (msg : OuchInboundFrame) : M OrderEntry Translation :=
  match msg with
  | enter_order m => entry_enter client_id m
  | cancel_order m => entry_cancel client_id m
  | replace_order m => entry_replace client_id m
  | INBOUND_NONE => mret no_translation
  end.

(** ** Typing

    The members of a frame, and of a record, fit their C++ types. *)

Definition frame_typed (msg : OuchInboundFrame) : Prop :=
  match msg with
  | INBOUND_NONE => True
  | enter_order m => Forall (field_ok m) ouch_core
  | replace_order m => Forall (field_ok m) ouch_core
  | cancel_order m => Forall (field_ok m) ouch_core
  end.

Definition record_typed (r : OrderRecord) : Prop :=
  is_u32 (rec_client_id r) /\ is_u32 (rec_user_ref_num r) /\ is_u32 (rec_quantity r) /\ is_u64 (rec_price r) /\
  length (rec_symbol r) = 8%nat /\ length (rec_cl_ord_id r) = 14%nat /\ is_u8 (rec_side r) /\
  is_u8 (rec_time_in_force r) /\ is_u8 (rec_display r) /\ is_u8 (rec_capacity r) /\
  is_u8 (rec_intermarket_sweep_eligibility r) /\ is_u8 (rec_cross_type r).

(** Reads the facts about the members off a [Forall] over a literal field list. *)
Ltac typed_members H :=
  repeat match type of H with
  | Forall _ (_ :: _) => let H1 := fresh in apply Forall_cons in H; destruct H as [H1 H]; cbn in H1
  end.

Lemma entered_record_typed client_id m :
  is_u32 client_id -> Forall (field_ok m) ouch_core -> record_typed (entered_record client_id m).
Proof. intros Hc H. cbv delta [ouch_core OuchEnterOrder_msg] beta iota in H. typed_members H. done. Qed.

Lemma replaced_record_typed r m :
  record_typed r -> Forall (field_ok m) ouch_core -> record_typed (replaced_record r m).
Proof.
  intros Hr Hm. cbv delta [ouch_core OuchReplaceOrder_msg] beta iota in Hm. typed_members Hm.
  destruct Hr as (? & ? & ? & ? & ? & ? & ? & ? & ? & ? & ? & ?). by split_and!.
Qed.

Lemma key_inj c1 n1 c2 n2 :
  is_u32 c1 -> is_u32 n1 -> is_u32 c2 -> is_u32 n2 -> key_ c1 n1 = key_ c2 n2 -> c1 = c2 /\ n1 = n2.
Proof.
  assert (forall c n, is_u32 c -> is_u32 n -> key_ c n = c * 4294967296 + n) as Hk.
  { intros c n Hc Hn. unfold key_. rewrite (lor_shiftl 32) by ulia. apply u64_id. ulia. }
  intros H1 H2 H3 H4. rewrite !Hk by done. ulia.
Qed.

Lemma typed_u64_price_enter (m : OuchEnterOrder) : Forall (field_ok m) ouch_core ->
  is_u32 (eo_quantity m) /\ is_u64 (eo_price m) /\ is_u32 (eo_user_ref_num m).
Proof. intros H. cbv delta [ouch_core OuchEnterOrder_msg] beta iota in H. typed_members H. done. Qed.

Lemma typed_u64_price_replace (m : OuchReplaceOrder) : Forall (field_ok m) ouch_core ->
  is_u32 (ro_quantity m) /\ is_u64 (ro_price m) /\ is_u32 (ro_user_ref_num m) /\ is_u32 (ro_orig_user_ref_num m).
Proof. intros H. cbv delta [ouch_core OuchReplaceOrder_msg] beta iota in H. typed_members H. done. Qed.

Lemma typed_cancel (m : OuchCancelOrder) : Forall (field_ok m) ouch_core ->
  is_u32 (xo_quantity m) /\ is_u32 (xo_user_ref_num m).
Proof. intros H. cbv delta [ouch_core OuchCancelOrder_msg] beta iota in H. typed_members H. done. Qed.

(** ** Invariant *)

Section Entry.
Context `{cfg : BookConfig}.

Definition last_of (s : OrderEntry) (client_id : Z) : Z :=
  last_user_ref_num (default (mkClientState 0) (clients_ s !! client_id)).

(** The gateway may keep [lo] under the key [k]. *)
Record live_ok (s : OrderEntry) (k : Z) (lo : LiveOrder) : Prop := {
  live_key : k = key_ (rec_client_id (lo_record lo)) (rec_user_ref_num (lo_record lo));
  live_used : rec_user_ref_num (lo_record lo) <= last_of s (rec_client_id (lo_record lo));
  live_id : 1 <= lo_order_id lo < next_order_id_ s;
  live_typed : record_typed (lo_record lo);
  live_side : is_Some (to_engine_side (rec_side (lo_record lo)));
}.

Record entry_wf (s : OrderEntry) : Prop := {
  ew_band : band_ s = mkPriceBand MIN_PRICE MAX_PRICE;
  ew_next : 1 <= next_order_id_ s < 18446744073709551616;
  ew_live k lo : entry_orders_ s !! k = Some lo -> live_ok s k lo;
  ew_ids k1 k2 lo1 lo2 : entry_orders_ s !! k1 = Some lo1 -> entry_orders_ s !! k2 = Some lo2 ->
    lo_order_id lo1 = lo_order_id lo2 -> k1 = k2;
}.

Lemma OrderEntry_new_wf : entry_wf (OrderEntry_new (mkPriceBand MIN_PRICE MAX_PRICE)).
Proof. split; cbn; [done|lia|intros k lo; by rewrite lookup_empty..]. Qed.

(** What the gateway makes of a message: nothing, a reject, a new order, a cancel
    of one of the client's orders, or a replacement of one. *)
Inductive translated (s : OrderEntry) (client_id : Z) : Translation -> Prop :=
| translated_none : translated s client_id no_translation
| translated_reject reason rec :
    is_u16 reason -> reason <> 0 -> record_typed rec -> rec_client_id rec = client_id ->
    translated s client_id (mkTranslation (Some (mkNote NOTE_REJECTED reason 0 rec)) None)
| translated_new rec rq :
    record_typed rec -> rec_client_id rec = client_id -> request_ok rq -> rq_type rq = NEW ->
    rq_order_id rq = next_order_id_ s -> rq_client_id rq = client_id -> 0 < rq_quantity rq ->
    translated s client_id (mkTranslation (Some (mkNote ORDER_ENTERED 0 (next_order_id_ s) rec)) (Some rq))
| translated_cancel k lo rq :
    entry_orders_ s !! k = Some lo -> rec_client_id (lo_record lo) = client_id -> request_ok rq -> rq_type rq = CANCEL ->
    rq_order_id rq = lo_order_id lo -> rq_client_id rq = client_id ->
    translated s client_id (mkTranslation None (Some rq))
| translated_replace k lo rec rq :
    entry_orders_ s !! k = Some lo -> rec_client_id (lo_record lo) = client_id -> record_typed rec ->
    rec_client_id rec = client_id -> request_ok rq -> rq_type rq = REPLACE -> rq_order_id rq = lo_order_id lo ->
    rq_new_order_id rq = next_order_id_ s -> rq_client_id rq = client_id -> 0 < rq_quantity rq ->
    translated s client_id (mkTranslation (Some (mkNote ORDER_REPLACING 0 (next_order_id_ s) rec)) (Some rq)).

(** Order ids handed out by a translation. *)
Definition ids_taken (t : Translation) : Z :=
  match tr_note t with Some (mkNote NOTE_REJECTED _ _ _) | None => 0 | Some _ => 1 end.

Lemma live_ok_grow s s' k lo :
  live_ok s k lo -> (forall c, last_of s c <= last_of s' c) -> next_order_id_ s <= next_order_id_ s' -> live_ok s' k lo.
Proof. intros [? ? ? ? ?] Hl Hn. split; auto; [etransitivity; eauto|lia]. Qed.

(** Touching a client's entry, or raising its last number, keeps the invariant. *)
Lemma entry_wf_clients s m :
  entry_wf s -> (forall c, last_of s c <= last_user_ref_num (default (mkClientState 0) (m !! c))) ->
  entry_wf (s <| clients_ := m |>).
Proof.
  intros [Hb Hn Hl Hi] Hm. split; auto. intros k lo Hk. apply (live_ok_grow s); [by apply Hl|exact Hm|cbn; lia].
Qed.

Lemma last_of_insert s c d n :
  last_of s c <= n ->
  last_of s d <= last_user_ref_num (default (mkClientState 0) (<[c := mkClientState n]> (clients_ s) !! d)).
Proof.
  intros H. destruct (decide (c = d)) as [<-|Hne].
  - by rewrite lookup_insert_eq.
  - rewrite lookup_insert_ne by done. apply Z.le_refl.
Qed.

(** A new order under the next id, for a number the client has not used. *)
Lemma entry_wf_new s rec :
  entry_wf s -> record_typed rec -> is_Some (to_engine_side (rec_side rec)) ->
  last_of s (rec_client_id rec) < rec_user_ref_num rec -> next_order_id_ s + 1 < 18446744073709551616 ->
  let k := key_ (rec_client_id rec) (rec_user_ref_num rec) in
  entry_orders_ s !! k = None /\
  entry_wf (s <| clients_ := <[rec_client_id rec := mkClientState (rec_user_ref_num rec)]> (clients_ s) |>
              <| next_order_id_ := next_order_id_ s + 1 |>
              <| entry_orders_ := <[k := mkLiveOrder (next_order_id_ s) rec]> (entry_orders_ s) |>).
Proof.
  intros [Hb Hn Hl Hi] Ht Hs Hlast Hnext k. cbn.
  assert (entry_orders_ s !! k = None) as Hk.
  { destruct (entry_orders_ s !! k) as [lo|] eqn:E; [|done]. exfalso. destruct (Hl _ _ E) as [Hkey Hu _ Hty _].
    destruct (key_inj _ _ _ _ (proj1 Ht) (proj1 (proj2 Ht)) (proj1 Hty) (proj1 (proj2 Hty)) Hkey) as [Hc Hr].
    rewrite <- Hc, <- Hr in Hu. lia. }
  split; [done|]. split; cbn; [done|lia| |].
  - intros k' lo [(<- & <-)|(Hne & E)]%lookup_insert_Some.
    + split; cbn; [done| |lia|done|done]. unfold last_of. cbn. by rewrite lookup_insert_eq.
    + eapply live_ok_grow; [by apply Hl| |cbn; lia]. intros c. apply last_of_insert. lia.
  - intros k1 k2 lo1 lo2 [(<- & <-)|(Hne1 & E1)]%lookup_insert_Some [(<- & <-)|(Hne2 & E2)]%lookup_insert_Some Heq;
      [done| | |by eapply Hi]; cbn in Heq.
    + pose proof (live_id _ _ _ (Hl _ _ E2)). lia.
    + pose proof (live_id _ _ _ (Hl _ _ E1)). lia.
Qed.

(** The outcome of one message: it never faults, and what it leaves and returns. *)
Definition handled (client_id : Z) (s : OrderEntry) (r : option (Translation * OrderEntry)) : Prop :=
  exists t s', r = Some (t, s') /\ entry_wf s' /\ translated s client_id t /\
    next_order_id_ s' = next_order_id_ s + ids_taken t /\ entry_orders_ s ⊆ entry_orders_ s'.

Ltac run_entry :=
  cbv beta iota delta [mbind M_bind mret M_ret client_at set_last gets modify take_order_id emplace_order lift];
  cbn [band_ next_order_id_ entry_orders_ clients_].

Lemma client_touched s c :
  entry_wf s ->
  entry_wf (s <| clients_ := <[c := default (mkClientState 0) (clients_ s !! c)]> (clients_ s) |>).
Proof.
  intros H. apply entry_wf_clients; [done|]. intros d.
  pose proof (last_of_insert s c d (last_of s c) (Z.le_refl _)) as Hl. unfold last_of at 2 in Hl.
  by destruct (default (mkClientState 0) (clients_ s !! c)).
Qed.

Lemma band_request id new_id client_id price quantity ty side otype tif :
  is_u64 id -> is_u64 new_id -> is_u32 client_id -> is_u32 quantity ->
  MIN_PRICE <= price <= MAX_PRICE \/ price = 0 /\ (ty = CANCEL \/ ty = NEW /\ otype = MARKET) ->
  request_ok (mkRequest 0 0 0 id new_id client_id price quantity ty side otype tif).
Proof.
  intros Hi Hn Hc Hq Hp. pose proof MIN_PRICE_nonneg. pose proof MAX_PRICE_itch.
  split; [split_and!; cbn; try done; destruct Hp as [?|[-> _]]; ulia|]. cbn.
  destruct Hp as [Hp|[-> [->|[-> ->]]]]; [|done..]. by destruct ty.
Qed.

Lemma entry_enter_handled s client_id m :
  entry_wf s -> is_u32 client_id -> Forall (field_ok m) ouch_core -> next_order_id_ s + 1 < 18446744073709551616 ->
  handled client_id s (entry_enter client_id m s).
Proof.
  intros H Hc Hm Hn. destruct (typed_u64_price_enter m Hm) as (Hq & Hp & Hu).
  pose proof (entered_record_typed client_id m Hc Hm) as Hrec.
  unfold entry_enter, handled. run_entry. fold (last_of s client_id). case_if; zbool; run_entry.
  { eexists _, _. split; [done|]. split; [by apply client_touched|]. split; [constructor|]. cbn. split; [lia|done]. }
  case_if; zbool; run_entry; rewrite insert_insert_eq.
  { eexists _, _. split; [done|]. split; [|split; [|cbn; split; [lia|done]]].
    - apply (entry_wf_clients s); [done|]. intros d. apply last_of_insert. lia.
    - apply translated_reject; [apply check_enter_reason_u16|done..]. }
  destruct (check_enter_facts m (band_ s) Hp E0) as (Hside & Hqty & Hprice & _).
  destruct (entry_wf_new s (entered_record client_id m) H Hrec) as [Hk Hwf]; [|cbn; lia|done|].
  { cbn. rewrite Hside. by destruct (ec_side _). }
  cbn [entered_record rec_client_id rec_user_ref_num] in Hk, Hwf. rewrite Hk.
  rewrite u64_id by (pose proof (ew_next s H); ulia).
  eexists _, _. split; [done|]. split; [exact Hwf|]. split; [|cbn; split; [lia|by apply insert_subseteq]].
  apply translated_new; try done; [|cbn; lia]. pose proof (ew_next s H).
  apply band_request; [ulia|done|done|done|]. rewrite (ew_band s H) in Hprice |- *.
  destruct (ec_order_type _); [right; split; [apply Hprice|by right]|left; apply Hprice].
Qed.

(** An order found under a client's key is that client's. *)
Lemma own_order s client_id n lo :
  entry_wf s -> is_u32 client_id -> is_u32 n -> entry_orders_ s !! key_ client_id n = Some lo ->
  rec_client_id (lo_record lo) = client_id /\ rec_user_ref_num (lo_record lo) = n.
Proof.
  intros H Hc Hn E. destruct (ew_live s H _ _ E) as [Hkey _ _ (? & ? & _) _].
  by destruct (key_inj client_id n (rec_client_id (lo_record lo)) (rec_user_ref_num (lo_record lo))) as [-> ->].
Qed.

Lemma entry_cancel_handled s client_id m :
  entry_wf s -> is_u32 client_id -> Forall (field_ok m) ouch_core -> handled client_id s (entry_cancel client_id m s).
Proof.
  intros H Hc Hm. destruct (typed_cancel m Hm) as [Hq Hu]. unfold entry_cancel, handled. run_entry.
  destruct (entry_orders_ s !! _) as [lo|] eqn:E; run_entry.
  - destruct (ew_live s H _ _ E) as [_ _ Hid _ [side Hside]]. rewrite Hside. cbn [fmap option_fmap option_map].
    eexists _, _. split; [done|]. split; [done|]. split; [|cbn; split; [lia|done]].
    pose proof (ew_next s H). eapply translated_cancel; [exact E| |apply band_request; auto; ulia|done..].
    by apply (own_order s client_id _ lo H Hc Hu).
  - eexists _, _. split; [done|]. split; [done|]. split; [constructor|]. cbn. split; [lia|done].
Qed.

Lemma entry_replace_handled s client_id m :
  entry_wf s -> is_u32 client_id -> Forall (field_ok m) ouch_core -> next_order_id_ s + 1 < 18446744073709551616 ->
  handled client_id s (entry_replace client_id m s).
Proof.
  intros H Hc Hm Hn. destruct (typed_u64_price_replace m Hm) as (Hq & Hp & Hu & Ho). pose proof (ew_next s H) as Hnext.
  unfold entry_replace, handled. run_entry. destruct (entry_orders_ s !! _) as [lo|] eqn:E; run_entry.
  2: { eexists _, _. split; [done|]. split; [done|]. split; [constructor|]. cbn. split; [lia|done]. }
  destruct (ew_live s H _ _ E) as [_ _ Hid Hty [side Hside]]. destruct (own_order s client_id _ lo H Hc Ho E) as [Hown _].
  fold (last_of s client_id). case_if; zbool; run_entry.
  { eexists _, _. split; [done|]. split; [by apply client_touched|]. split; [constructor|]. cbn. split; [lia|done]. }
  rewrite Hside. cbn [fmap option_fmap option_map]. run_entry. case_if; run_entry.
  { eexists _, _. split; [done|]. split; [by apply client_touched|]. split; [|cbn; split; [lia|done]].
    eapply translated_cancel; [exact E|done|apply band_request; auto; ulia|done..]. }
  rewrite insert_insert_eq. zbool. destruct (check_replace_facts _ _ _ Hp E1) as (Hqty & _ & Hband).
  pose proof (replaced_record_typed (lo_record lo) m Hty Hm) as Hrec.
  destruct (entry_wf_new s (replaced_record (lo_record lo) m) H Hrec) as [Hk Hwf]; [cbn; by rewrite Hside|cbn; rewrite Hown; lia|done|].
  cbn [replaced_record rec_client_id rec_user_ref_num] in Hk, Hwf. rewrite Hown in Hk, Hwf. rewrite Hk.
  rewrite u64_id by ulia. eexists _, _. split; [done|]. split; [exact Hwf|].
  split; [|cbn; split; [lia|by apply insert_subseteq]].
  eapply translated_replace; [exact E|done|exact Hrec|done| |done..|cbn; lia].
  apply band_request; [ulia|ulia|done|done|]. rewrite (ew_band s H) in Hband |- *. by left.
Qed.

Lemma translate_handled s client_id msg :
  entry_wf s -> is_u32 client_id -> frame_typed msg -> next_order_id_ s + 1 < 18446744073709551616 ->
  handled client_id s (translate client_id msg s).
Proof.
  intros H Hc Hm Hn. destruct msg as [|m|m|m]; cbn [translate].
  - exists no_translation, s. split; [done|]. split; [done|]. split; [constructor|]. cbn. split; [lia|done].
  - by apply entry_enter_handled.
  - by apply entry_replace_handled.
  - by apply entry_cancel_handled.
Qed.

(** A client whose last number is known is not changed by looking it up. *)
Lemma client_at_known s client_id n :
  clients_ s !! client_id = Some (mkClientState n) -> client_at client_id s = Some (mkClientState n, s).
Proof. intros E. unfold client_at. rewrite E. cbn. rewrite insert_id by done. by destruct s. Qed.

Lemma entry_enter_used s client_id m n :
  clients_ s !! client_id = Some (mkClientState n) -> eo_user_ref_num m <= n ->
  entry_enter client_id m s = Some (no_translation, s).
Proof.
  intros E Hn. unfold entry_enter. rewrite (bind_Some _ _ _ _ _ (client_at_known _ _ _ E)). cbn.
  by rewrite (proj2 (Z.leb_le _ _) Hn).
Qed.

(** ** Theorems *)

(** C34: The gateway keeps its invariant: on a well-formed state any message of any
    client is handled without dereferencing an empty side; it becomes nothing, a
    reject, or a request the book accepts, carrying the sender's id; a new or
    replacement order gets the next unused OrderId, and a cancel or replace names
    an order of the sender. *)
Theorem translate_sound s client_id msg :
  entry_wf s -> is_u32 client_id -> frame_typed msg -> next_order_id_ s + 1 < 18446744073709551616 ->
  exists t s', translate client_id msg s = Some (t, s') /\ entry_wf s' /\ translated s client_id t /\
    next_order_id_ s' = next_order_id_ s + ids_taken t /\ entry_orders_ s ⊆ entry_orders_ s'.
Proof. apply translate_handled. Qed.

(** A retransmitted Enter Order is ignored: sent twice, whatever became of it
    the first time, the second one produces nothing and changes nothing. *)
Theorem enter_retransmission s client_id m t s' :
  translate client_id (enter_order m) s = Some (t, s') ->
  translate client_id (enter_order m) s' = Some (no_translation, s').
Proof.
  cbn [translate]. intros Hr. enough (exists n, clients_ s' !! client_id = Some (mkClientState n) /\ eo_user_ref_num m <= n)
    as (n & E & Hn) by (by eapply entry_enter_used).
  revert Hr. unfold entry_enter. run_entry. fold (last_of s client_id). case_if; zbool; run_entry.
  { intros [= _ <-]. cbn. exists (last_of s client_id). rewrite lookup_insert_eq. unfold last_of in *.
    by destruct (default _ _). }
  case_if; run_entry; [|destruct (entry_orders_ s !! _)]; intros [= _ <-]; cbn; exists (eo_user_ref_num m);
    (split; [apply lookup_insert_eq|lia]).
Qed.
End Entry.

(** Client 3 enters an order on an empty gateway. *)
Definition entry_example : OrderEntry := OrderEntry_new (mkPriceBand 1 100000).

Lemma valid_enter_typed : frame_typed (enter_order valid_enter).
Proof. repeat (apply Forall_cons; split; [vm_compute; repeat split; (reflexivity || discriminate)|]); by apply Forall_nil. Qed.

Lemma translate_sound_witness :
  exists t s', translate 3 (enter_order valid_enter) entry_example = Some (t, s') /\ entry_wf (cfg:=exchange_config) s'.
Proof.
  destruct (translate_sound (cfg:=exchange_config) entry_example 3 (enter_order valid_enter)
    (OrderEntry_new_wf (cfg:=exchange_config))) as (t & s' & Hr & Hwf & _);
    [by split|exact valid_enter_typed|vm_compute; reflexivity|].
  exact (ex_intro _ t (ex_intro _ s' (conj Hr Hwf))).
Defined.

Lemma enter_retransmission_witness :
  exists t s', translate 3 (enter_order valid_enter) entry_example = Some (t, s') /\ tr_request t <> None /\
    translate 3 (enter_order valid_enter) s' = Some (no_translation, s').
Proof.
  destruct (translate 3 (enter_order valid_enter) entry_example) as [[t s']|] eqn:E; [|vm_compute in E; discriminate].
  exists t, s'. split; [reflexivity|]. split; [vm_compute in E; injection E as <- _; discriminate|].
  exact (enter_retransmission entry_example 3 valid_enter t s' E).
Defined.
