(* ===== verification/OuchTyped.v ===== *)
(** * OuchTyped: what the OUCH decoder delivers fits its types

    Whatever bytes arrive, every member of a decoded message is within its C++ type, and
    so is everything the gateway makes of it: the records it keeps and the notes it hands
    on ([OrderEntry]).  This is what the outbound thread needs of a note. *)

From S2P Require Import Prelude Types WireCodec OuchProto OuchCorrect Validation OrderEntry.

(** ** Decoding *)

Lemma load_unsigned_range bytes : Forall is_u8 bytes -> 0 <= load_unsigned bytes < 2 ^ (8 * Z.of_nat (length bytes)).
Proof.
  rewrite <- pow256. induction 1 as [|b bytes Hb Hbs IH]; [done|]. unfold load_unsigned at 1 2. cbn [fold_left length].
  rewrite load_acc, lor_shiftl8 by done. rewrite Nat2Z.inj_succ, Z.pow_succ_r by lia. set (p := 256 ^ _) in *. unfold is_u8 in Hb. nia.
Qed.

Definition core_typed {T} `{OuchMsg T} (m : T) : Prop := Forall (field_ok m) ouch_core.

(** What [read_field] stores when the bytes are there. *)
Definition set_bytes {T} (f : wire_field T) (bytes : list Z) (m : T) : T :=
  match f with
  | WInt n signed _ set => set (load n signed bytes) m
  | WBytes _ _ set => set bytes m
  end.

(** Reading any field of the message keeps the core typed. *)
Class TypedMsg (T : Type) `{OuchMsg T} : Prop := {
  default_typed : core_typed (ouch_default (T:=T));
  core_set m bytes : core_typed m -> Forall is_u8 bytes ->
    Forall (fun f => length bytes = wire_size f -> core_typed (set_bytes f bytes m)) (ouch_core (T:=T));
  tag_set_typed m bytes : core_typed m -> Forall (fun tf => core_typed (set_bytes tf.2 bytes m)) (ouch_tags (T:=T));
  appendage_typed m tags : core_typed m -> core_typed (set_appendage (T:=T) tags m);
}.

Section Decode.
Context {T : Type} `{TypedMsg T}.

Lemma read_field_cases (r : WireReader) (m : T) f :
  (read_field (r, m) f).2 = m \/
  exists bytes, length bytes = wire_size f /\ (Forall is_u8 (r_in r) -> Forall is_u8 bytes) /\ (read_field (r, m) f).2 = set_bytes f bytes m.
Proof.
  unfold read_field, reader_claim. destruct (negb (r_ok r) || _) eqn:E; [by left|]. right. apply orb_false_iff in E as [_ E%Nat.ltb_ge].
  exists (take (wire_size f) (drop (r_pos r) (r_in r))). split; [rewrite length_take, length_drop; lia|]. split; [intros Hu; by apply Forall_take, Forall_drop|].
  by destruct f.
Qed.

Lemma read_field_in (r : WireReader) (m : T) f : r_in (read_field (r, m) f).1 = r_in r.
Proof. unfold read_field, reader_claim. destruct (negb (r_ok r) || _); [done|]. by destruct f. Qed.

Lemma read_fields_typed fs r (m : T) : fs ⊆ ouch_core -> Forall is_u8 (r_in r) -> core_typed m -> core_typed (read_fields fs r m).2.
Proof.
  unfold read_fields. revert r m. induction fs as [|f fs IH]; intros r m Hfs Hu Hm; [done|]. cbn [fold_left].
  pose proof (read_field_in r m f) as Hin. pose proof (read_field_cases r m f) as Hc. destruct (read_field (r, m) f) as [r' m']. cbn [fst snd] in *.
  apply IH; [set_solver|by rewrite Hin|]. destruct Hc as [->|(bytes & Hl & Hb & ->)]; [done|].
  pose proof (core_set m bytes Hm (Hb Hu)) as Hf. rewrite Forall_forall in Hf. apply Hf; [|done]. apply Hfs. by left.
Qed.

Lemma read_tag_typed raw_tag value st tf : tf ∈ ouch_tags (T:=T) -> core_typed st.2 -> core_typed (read_tag raw_tag value st tf).2.
Proof.
  destruct st as [malformed m], tf as [tag f]. cbn [snd]. intros Htf Hm. unfold read_tag. destruct (negb _); [done|]. destruct (negb _); [done|].
  pose proof (read_field_cases (reader_init value) m f) as Hc. destruct (read_field _ f) as [r' m']. cbn [snd] in *. apply appendage_typed.
  destruct Hc as [->|(bytes & _ & _ & ->)]; [done|]. pose proof (tag_set_typed m bytes Hm) as Hf. rewrite Forall_forall in Hf. exact (Hf _ Htf).
Qed.

Lemma read_tags_typed raw_tag value tags st : tags ⊆ ouch_tags (T:=T) -> core_typed st.2 -> core_typed (fold_left (read_tag raw_tag value) tags st).2.
Proof.
  revert st. induction tags as [|tf tags IH]; intros st Hs Hm; [done|]. cbn [fold_left]. apply IH; [set_solver|]. apply read_tag_typed; [|done]. apply Hs. by left.
Qed.

Lemma appendage_loop_typed fuel r (m : T) ok m' : appendage_loop fuel r m = Some (ok, m') -> core_typed m -> core_typed m'.
Proof.
  revert r m. induction fuel as [|fuel IH]; intros r m E Hm; [done|]. cbn [appendage_loop] in E. destruct (_ =? 0)%nat; [by injection E as _ <-|].
  destruct (read_int 1 false 0 r) as [len r1]. destruct (_ || _); [by injection E as _ <-|]. destruct (read_int 1 false 0 r1) as [raw r2].
  destruct (reader_take _ r2) as [value r3]. pose proof (read_tags_typed raw value ouch_tags (false, m) ltac:(done) Hm) as Ht.
  destruct (fold_left _ ouch_tags (false, m)) as [malformed m1]. cbn [snd] in Ht. destruct malformed; [by injection E as _ <-|]. by eapply IH.
Qed.

Lemma ouch_decode_typed bytes (m : T) ok m' : ouch_detail_decode bytes m = Some (ok, m') -> Forall is_u8 bytes -> core_typed m -> core_typed m'.
Proof.
  intros E Hu Hm. unfold ouch_detail_decode in E. pose proof (read_fields_typed ouch_core (reader_init bytes) m ltac:(done) Hu Hm) as Ht.
  destruct (read_fields _ _ m) as [r m1]. cbn [snd] in Ht. destruct (negb _); [by injection E as _ <-|]. destruct (_ =? 0)%nat; [by injection E as _ <-|].
  destruct (read_int 2 false 0 r) as [len r1]. destruct (_ || _); [by injection E as _ <-|]. by eapply appendage_loop_typed.
Qed.

Lemma ouch_decode_as_typed {F} (con : T -> F) none bytes x :
  ouch_decode_as con none bytes = Some x -> Forall is_u8 bytes -> x = none \/ exists m, x = con m /\ core_typed m.
Proof.
  intros E Hu. unfold ouch_decode_as in E. destruct (ouch_detail_decode bytes ouch_default) as [[ok m]|] eqn:Ed; [|done].
  injection E as <-. destruct ok; [right|by left]. exists m. split; [done|]. eapply ouch_decode_typed; [done..|apply default_typed].
Qed.
End Decode.

(** *** The three messages of a client *)

(** Splits the core of a message into its members. *)
Ltac core_members :=
  unfold core_typed in *; cbv delta [ouch_core ouch_tags set_appendage OuchEnterOrder_msg OuchReplaceOrder_msg OuchCancelOrder_msg] beta iota in *.

Ltac member_typed Hu :=
  cbn [field_ok set_bytes wire_size snd]; first
  [ done
  | match goal with Hl : length ?bytes = _ |- _ => pose proof (load_unsigned_range bytes Hu) as Hr; rewrite Hl in Hr; exact Hr end ].

Ltac typed_msg :=
  split; [core_members; repeat (apply Forall_cons; split; [done|]); by apply Forall_nil|..];
  [ intros m bytes Hm Hu; core_members; typed_members Hm; repeat (apply Forall_cons; split; [intros Hl; cbn [wire_size] in Hl; repeat (apply Forall_cons; split; [member_typed Hu|]); by apply Forall_nil|]); by apply Forall_nil
  | intros m bytes Hm; core_members; typed_members Hm; repeat (apply Forall_cons; split; [repeat (apply Forall_cons; split; [done|]); by apply Forall_nil|]); by apply Forall_nil
  | intros m tags Hm; core_members; typed_members Hm; repeat (apply Forall_cons; split; [done|]); by apply Forall_nil ].

#[export] Instance OuchEnterOrder_typed : TypedMsg OuchEnterOrder.
Proof. typed_msg. Qed.
#[export] Instance OuchReplaceOrder_typed : TypedMsg OuchReplaceOrder.
Proof. typed_msg. Qed.
#[export] Instance OuchCancelOrder_typed : TypedMsg OuchCancelOrder.
Proof. typed_msg. Qed.

Lemma decode_inbound_typed bytes msg : decode_inbound_ouch bytes = Some msg -> Forall is_u8 bytes -> frame_typed msg.
Proof.
  unfold decode_inbound_ouch. destruct bytes as [|b0 bs]; [by intros [= <-]|]. set (bytes := b0 :: bs). intros E Hu.
  destruct (_ =? _); [|destruct (_ =? _); [|destruct (_ =? _); [|by injection E as <-]]];
    (destruct (ouch_decode_as_typed _ _ _ _ E Hu) as [->|(m & -> & Hm)]; [done|exact Hm]).
Qed.

(** ** The gateway *)

(** What a note of the gateway carries for a client: an order of his, its members in range. *)
Definition note_typed (client_id : Z) (g : GatewayNote) : Prop :=
  record_typed (note_record g) /\ is_u16 (note_reject_reason g) /\ rec_client_id (note_record g) = client_id.

(** Every order kept is typed and under its own key. *)
Definition entry_typed (s : OrderEntry) : Prop :=
  map_Forall (fun k lo => k = key_ (rec_client_id (lo_record lo)) (rec_user_ref_num (lo_record lo)) /\ record_typed (lo_record lo)) (entry_orders_ s).

Lemma OrderEntry_new_typed band : entry_typed (OrderEntry_new band).
Proof. apply map_Forall_empty. Qed.

Lemma typed_order s client_id n lo :
  entry_typed s -> is_u32 client_id -> is_u32 n -> entry_orders_ s !! key_ client_id n = Some lo ->
  rec_client_id (lo_record lo) = client_id /\ record_typed (lo_record lo).
Proof.
  intros H Hc Hn E. destruct (H _ _ E) as [Hk Hr]. split; [|done]. pose proof Hr as (? & ? & _).
  by destruct (key_inj client_id n (rec_client_id (lo_record lo)) (rec_user_ref_num (lo_record lo))).
Qed.

Lemma emplace_typed s s' id rec :
  entry_typed s -> record_typed rec -> entry_orders_ s' = <[key_ (rec_client_id rec) (rec_user_ref_num rec) := mkLiveOrder id rec]> (entry_orders_ s) ->
  entry_typed s'.
Proof. intros H Hr E. unfold entry_typed. rewrite E. by apply map_Forall_insert_2. Qed.

Definition translation_typed (client_id : Z) (t : Translation) : Prop := match tr_note t with Some g => note_typed client_id g | None => True end.

Lemma enter_typed s client_id m t s' :
  entry_enter client_id m s = Some (t, s') -> entry_typed s -> is_u32 client_id -> core_typed m -> entry_typed s' /\ translation_typed client_id t.
Proof.
  intros E H Hc Hm. pose proof (entered_record_typed client_id m Hc Hm) as Hrec. unfold entry_enter in E.
  apply bind_inv in E as (c & s1 & [= <- <-] & E). destruct (_ <=? _); [by injection E as <- <-|]. unfold set_last in E. rewrite modify_bind, gets_bind in E. cbv zeta in E.
  destruct (negb _); [injection E as <- <-; split; [done|]; split; [done|]; split; [apply check_enter_reason_u16|done]|].
  apply bind_inv in E as (id & s2 & [= <- <-] & E). unfold emplace_order in E. rewrite modify_bind in E. injection E as <- <-.
  split; [|done]. case_match; [exact H|]. by apply (emplace_typed s _ (next_order_id_ s) (entered_record client_id m)).
Qed.

Lemma replace_typed s client_id m t s' :
  entry_replace client_id m s = Some (t, s') -> entry_typed s -> is_u32 client_id -> core_typed m -> entry_typed s' /\ translation_typed client_id t.
Proof.
  intros E H Hc Hm. destruct (typed_u64_price_replace m Hm) as (_ & _ & Hu & Ho). unfold entry_replace in E. rewrite gets_bind in E.
  destruct (entry_orders_ s !! _) as [lo|] eqn:El; [|by injection E as <- <-]. destruct (typed_order s client_id _ lo H Hc Ho El) as [Hown Hty].
  apply bind_inv in E as (c & s1 & [= <- <-] & E). destruct (_ <=? _); [by injection E as <- <-|]. cbv zeta in E.
  apply bind_inv in E as (side & s1 & E1 & E). unfold lift in E1. destruct (to_engine_side _); [|done]. injection E1 as _ <-. rewrite gets_bind in E.
  destruct (negb _); [by injection E as <- <-|]. unfold set_last in E. rewrite modify_bind in E. apply bind_inv in E as (id & s2 & [= <- <-] & E).
  unfold emplace_order in E. rewrite modify_bind in E. injection E as <- <-. pose proof (replaced_record_typed (lo_record lo) m Hty Hm) as Hrec.
  split; [|done]. case_match; [exact H|]. rewrite <- Hown.
  by apply (emplace_typed s _ (next_order_id_ s) (replaced_record (lo_record lo) m)).
Qed.

Lemma translate_typed s client_id msg t s' :
  translate client_id msg s = Some (t, s') -> entry_typed s -> is_u32 client_id -> frame_typed msg -> entry_typed s' /\ translation_typed client_id t.
Proof.
  intros E H Hc Hm. destruct msg as [|m|m|m]; cbn [translate] in E; [by injection E as <- <-|by eapply enter_typed|by eapply replace_typed|].
  unfold entry_cancel in E. rewrite gets_bind in E. destruct (_ !! _); [|by injection E as <- <-].
  apply bind_inv in E as (side & s1 & E1 & E). unfold lift in E1. destruct (to_engine_side _); [|done]. injection E1 as _ <-. by injection E as <- <-.
Qed.
