(* ===== verification/OuchResponder.v ===== *)
(** * OuchResponder: engine events and gateway notes back into OUCH
    ([src/exchange/server/include/ouch_responder.hpp], [src/ouch_responder.cpp])

    The responder keeps the record and the open shares of every order it has been
    told of.  [on_note] and [on_event] are total; the optional response is the
    code's.  The lemmas relate the responder's map to the orders resting on the
    book: [tracks] says it knows each of them, with its owner and open shares. *)

From S2P Require Import Prelude Types WireCodec OuchProto OuchCorrect Validation OrderEntry.

(** ** Data *)

Record OuchResponse := mkResponse {
  resp_client_id : Z;
  resp_ouch : OuchOutboundFrame;
}.

(** [OuchResponder::LiveOrder] *)
Record RespOrder := mkRespOrder { lr_record : OrderRecord; lr_open : Z }.

Abbreviation OuchResponder := (gmap Z RespOrder).

(** ** Operations *)

Definition rejected_msg (timestamp : Z) (r : OrderRecord) (reason : Z) : OuchOrderRejected :=
  Eval lazy beta iota delta
    [ouch_default OuchOrderRejected_msg rej_message_type rej_timestamp rej_user_ref_num rej_reason
     rej_cl_ord_id rej_user_ref_idx rej_appendage] in
  ouch_default <| rej_timestamp := timestamp |> <| rej_user_ref_num := rec_user_ref_num r |>
    <| rej_reason := reason |> <| rej_cl_ord_id := rec_cl_ord_id r |>.

Definition on_note (note : GatewayNote) (timestamp : Z) (orders_ : OuchResponder)
    : option OuchResponse * OuchResponder :=
  match note_kind note with
  | ORDER_ENTERED | ORDER_REPLACING =>
      (None, <[note_order_id note := mkRespOrder (note_record note) 0]> orders_)
  | NOTE_REJECTED =>
      let r := note_record note in
      (Some (mkResponse (rec_client_id r) (order_rejected (rejected_msg timestamp r (note_reject_reason note)))), orders_)
  end.

(** [reduce_] *)
Definition resp_reduce (order_id : Z) (live : RespOrder) (shares : Z) (orders_ : OuchResponder) : OuchResponder :=
  let open := if shares <? lr_open live then lr_open live - shares else 0 in
  if open =? 0 then delete order_id orders_ else <[order_id := mkRespOrder (lr_record live) open]> orders_.

Definition accepted_msg (timestamp : Z) (r : OrderRecord) (event : EngineEvent) : OuchOrderAccepted :=
  Eval lazy beta iota delta
    [ouch_default OuchOrderAccepted_msg acc_message_type acc_timestamp acc_user_ref_num acc_side acc_quantity
     acc_symbol acc_price acc_time_in_force acc_display acc_order_reference_number acc_capacity
     acc_intermarket_sweep_eligibility acc_cross_type acc_order_state acc_cl_ord_id acc_firm acc_min_qty
     acc_customer_type acc_max_floor acc_price_type acc_peg_offset acc_discretion_price
     acc_discretion_price_type acc_discretion_peg_offset acc_post_only acc_random_reserves acc_route
     acc_expire_time acc_trade_now acc_handle_inst acc_bbo_weight_indicator acc_group_id acc_shares_located
     acc_user_ref_idx acc_aiq_strategy acc_aiq_group_id acc_appendage] in
  ouch_default <| acc_timestamp := timestamp |> <| acc_user_ref_num := rec_user_ref_num r |>
    <| acc_side := rec_side r |> <| acc_quantity := ev_quantity event |> <| acc_symbol := rec_symbol r |>
    <| acc_price := rec_price r |> <| acc_time_in_force := rec_time_in_force r |> <| acc_display := rec_display r |>
    <| acc_order_reference_number := ev_order_id event |> <| acc_capacity := rec_capacity r |>
    <| acc_intermarket_sweep_eligibility := rec_intermarket_sweep_eligibility r |>
    <| acc_cross_type := rec_cross_type r |> <| acc_order_state := ch "L" |> <| acc_cl_ord_id := rec_cl_ord_id r |>.

Definition replaced_msg (timestamp orig_user_ref_num : Z) (r : OrderRecord) (event : EngineEvent) : OuchOrderReplaced :=
  Eval lazy beta iota delta
    [ouch_default OuchOrderReplaced_msg rep_message_type rep_timestamp rep_orig_user_ref_num rep_user_ref_num
     rep_side rep_quantity rep_symbol rep_price rep_time_in_force rep_display rep_order_reference_number
     rep_capacity rep_intermarket_sweep_eligibility rep_cross_type rep_order_state rep_cl_ord_id rep_firm
     rep_min_qty rep_max_floor rep_price_type rep_post_only rep_expire_time rep_trade_now rep_handle_inst
     rep_bbo_weight_indicator rep_user_ref_idx rep_aiq_strategy rep_aiq_group_id rep_appendage] in
  ouch_default <| rep_timestamp := timestamp |> <| rep_orig_user_ref_num := orig_user_ref_num |>
    <| rep_user_ref_num := rec_user_ref_num r |> <| rep_side := rec_side r |> <| rep_quantity := ev_quantity event |>
    <| rep_symbol := rec_symbol r |> <| rep_price := rec_price r |> <| rep_time_in_force := rec_time_in_force r |>
    <| rep_display := rec_display r |> <| rep_order_reference_number := ev_order_id event |>
    <| rep_capacity := rec_capacity r |>
    <| rep_intermarket_sweep_eligibility := rec_intermarket_sweep_eligibility r |>
    <| rep_cross_type := rec_cross_type r |> <| rep_order_state := ch "L" |> <| rep_cl_ord_id := rec_cl_ord_id r |>.

Definition canceled_msg (timestamp : Z) (r : OrderRecord) (event : EngineEvent) : OuchOrderCanceled :=
  Eval lazy beta iota delta
    [ouch_default OuchOrderCanceled_msg can_message_type can_timestamp can_user_ref_num can_decrement_shares
     can_reason can_user_ref_idx can_appendage] in
  ouch_default <| can_timestamp := timestamp |> <| can_user_ref_num := rec_user_ref_num r |>
    <| can_decrement_shares := ev_quantity event |> <| can_reason := ev_reason event |>.

Definition executed_msg (timestamp : Z) (r : OrderRecord) (event : EngineEvent) : OuchOrderExecuted :=
  Eval lazy beta iota delta
    [ouch_default OuchOrderExecuted_msg exe_message_type exe_timestamp exe_user_ref_num exe_executed_shares
     exe_execution_price exe_liquidity_flag exe_match_number exe_user_ref_idx exe_appendage] in
  ouch_default <| exe_timestamp := timestamp |> <| exe_user_ref_num := rec_user_ref_num r |>
    <| exe_executed_shares := ev_quantity event |> <| exe_execution_price := to_ouch_price (ev_price event) |>
    <| exe_liquidity_flag := ev_reason event |> <| exe_match_number := ev_match_number event |>.

(** The engine never reports an order as replacing itself; the code's erase of the
    original leaves the replacement's element alone. *)
Definition on_event (event : EngineEvent) (timestamp : Z) (orders_ : OuchResponder)
    : option OuchResponse * OuchResponder :=
  match orders_ !! ev_order_id event with
  | None => (None, orders_)
  | Some order =>
      let r := lr_record order in
      let response := mkResponse (rec_client_id r) in
      match ev_type event with
      | ACCEPTED =>
          (Some (response (order_accepted (accepted_msg timestamp r event))),
           <[ev_order_id event := mkRespOrder r (ev_quantity event)]> orders_)
      | REPLACED =>
          match orders_ !! ev_orig_order_id event with
          | None => (None, orders_)
          | Some orig =>
              (Some (response (order_replaced (replaced_msg timestamp (rec_user_ref_num (lr_record orig)) r event))),
               <[ev_order_id event := mkRespOrder r (ev_quantity event)]> (delete (ev_orig_order_id event) orders_))
          end
      | CANCELED =>
          (Some (response (order_canceled (canceled_msg timestamp r event))),
           resp_reduce (ev_order_id event) order (ev_quantity event) orders_)
      | EXECUTED =>
          (Some (response (order_executed (executed_msg timestamp r event))),
           resp_reduce (ev_order_id event) order (ev_quantity event) orders_)
      | REJECTED =>
          (Some (response (order_rejected (rejected_msg timestamp r ouch_reject.kProcessingError))),
           delete (ev_order_id event) orders_)
      end
  end.

Definition live_orders (orders_ : OuchResponder) : nat := size orders_.

(** ** Responses fit the wire *)

Definition event_typed (ev : EngineEvent) : Prop :=
  is_u64 (ev_order_id ev) /\ is_u32 (ev_quantity ev) /\ is_u64 (ev_match_number ev) /\ is_u8 (ev_reason ev).

(** A message with no optional field: absent members have their defaults. *)
Ltac plain_message :=
  split; [reflexivity|]; split;
  [repeat (apply Forall_cons; split; [cbn; try done; ulia|]); by apply Forall_nil
  |repeat (apply Forall_cons; split; [reflexivity|]); by apply Forall_nil
  |intros i Hi; change (Z.testbit 0 i = true) in Hi; by rewrite Z.bits_0 in Hi].

Lemma rejected_msg_wf ts r reason :
  is_u64 ts -> record_typed r -> is_u16 reason -> outbound_wf (order_rejected (rejected_msg ts r reason)).
Proof. intros Ht (? & ? & ? & ? & ? & ? & _) ?. plain_message. Qed.

Lemma accepted_msg_wf ts r ev :
  is_u64 ts -> record_typed r -> event_typed ev -> outbound_wf (order_accepted (accepted_msg ts r ev)).
Proof. intros Ht (? & ? & ? & ? & ? & ? & ? & ? & ? & ? & ? & ?) (? & ? & ? & ?). plain_message. Qed.

Lemma replaced_msg_wf ts orig r ev :
  is_u64 ts -> is_u32 orig -> record_typed r -> event_typed ev ->
  outbound_wf (order_replaced (replaced_msg ts orig r ev)).
Proof. intros Ht Ho (? & ? & ? & ? & ? & ? & ? & ? & ? & ? & ? & ?) (? & ? & ? & ?). plain_message. Qed.

Lemma canceled_msg_wf ts r ev :
  is_u64 ts -> record_typed r -> event_typed ev -> outbound_wf (order_canceled (canceled_msg ts r ev)).
Proof. intros Ht (? & ? & _) (? & ? & ? & ?). plain_message. Qed.

Lemma executed_msg_wf ts r ev :
  is_u64 ts -> record_typed r -> event_typed ev -> outbound_wf (order_executed (executed_msg ts r ev)).
Proof. intros Ht (? & ? & _) (? & ? & ? & ?). pose proof (u64_range (ev_price ev * kOuchTicksPerCent)). plain_message. Qed.

#[export] Hint Resolve rejected_msg_wf accepted_msg_wf replaced_msg_wf canceled_msg_wf executed_msg_wf : exch.

Definition resp_typed (orders_ : OuchResponder) : Prop := map_Forall (fun _ o => record_typed (lr_record o)) orders_.

Lemma resp_reduce_typed id o shares R : resp_typed R -> R !! id = Some o -> resp_typed (resp_reduce id o shares R).
Proof.
  intros H E. unfold resp_reduce. cbv zeta. set (open := if _ <? _ then _ else _).
  destruct (open =? 0); [by apply map_Forall_delete|]. apply map_Forall_insert_2; [apply (H _ _ E)|done].
Qed.

(** Whatever the responder answers can be put on the wire. *)
Lemma on_event_typed ev ts R :
  resp_typed R -> event_typed ev -> is_u64 ts ->
  resp_typed (on_event ev ts R).2 /\
  match (on_event ev ts R).1 with None => True | Some r => outbound_wf (resp_ouch r) end.
Proof.
  intros H Hev Hts. unfold on_event. destruct (R !! _) as [o|] eqn:E; [|done]. pose proof (H _ _ E) as Ho.
  destruct (ev_type ev); cbn [fst snd resp_ouch].
  - split; [apply map_Forall_insert_2; [exact Ho|done]|auto with exch].
  - destruct (R !! ev_orig_order_id ev) as [orig|] eqn:E2; [|done]. cbn [fst snd resp_ouch]. split.
    + apply map_Forall_insert_2; [exact Ho|by apply map_Forall_delete].
    + apply replaced_msg_wf; auto. apply (H _ _ E2).
  - split; [by apply resp_reduce_typed|auto with exch].
  - split; [by apply resp_reduce_typed|auto with exch].
  - split; [by apply map_Forall_delete|]. by apply rejected_msg_wf.
Qed.

Lemma on_note_typed note ts R :
  resp_typed R -> record_typed (note_record note) -> is_u16 (note_reject_reason note) -> is_u64 ts ->
  resp_typed (on_note note ts R).2 /\
  match (on_note note ts R).1 with None => True | Some r => outbound_wf (resp_ouch r) end.
Proof.
  intros H Hr Hre Hts. unfold on_note. destruct (note_kind note); cbn [fst snd resp_ouch].
  1, 2: split; [by apply map_Forall_insert_2|done].
  split; [done|auto with exch].
Qed.

(** ** Following events

    [answered evs R R']: the responder in state [R] answers every event of [evs],
    each to the owner the engine named, and ends in [R'], whatever the time. *)

Definition owed (ev : EngineEvent) (R R1 : OuchResponder) : Prop :=
  forall ts, exists f, on_event ev ts R = (Some (mkResponse (ev_client_id ev) f), R1).

Inductive answered : list EngineEvent -> OuchResponder -> OuchResponder -> Prop :=
| answered_nil R : answered [] R R
| answered_cons ev evs R R1 R2 :
    owed ev R R1 -> answered evs R1 R2 -> answered (ev :: evs) R R2.

#[export] Hint Constructors answered : exch.

Lemma answered_app evs1 evs2 R R1 R2 : answered evs1 R R1 -> answered evs2 R1 R2 -> answered (evs1 ++ evs2) R R2.
Proof. induction 1; cbn; eauto with exch. Qed.

(** The responder does not look at the engine's stamps. *)
Definition unstamped (ev : EngineEvent) : EngineEvent :=
  event (ev_order_id ev) (ev_orig_order_id ev) (ev_match_number ev) (ev_client_id ev) (ev_price ev) (ev_quantity ev)
    (ev_type ev) (ev_reason ev).

Lemma on_event_unstamped ev ts R : on_event (unstamped ev) ts R = on_event ev ts R.
Proof. by destruct ev. Qed.

Lemma answered_unstamped evs evs' R R' :
  unstamped <$> evs = unstamped <$> evs' -> answered evs R R' -> answered evs' R R'.
Proof.
  intros Heq H. revert evs' Heq. induction H as [R|ev evs R R1 R2 He _ IH]; intros [|ev' evs'] Heq; try done; [constructor|].
  rewrite !fmap_cons in Heq. apply (inj2 cons) in Heq as [Hev Hevs]. eapply answered_cons; [|by apply IH].
  intros ts. destruct (He ts) as [f Hf]. exists f. rewrite <- on_event_unstamped, <- Hev, on_event_unstamped, Hf.
  change (ev_client_id ev') with (ev_client_id (unstamped ev')). by rewrite <- Hev.
Qed.

(** A record the events do not name stays apart. *)
Lemma resp_reduce_insert id o shares n x R :
  id <> n -> resp_reduce id o shares (<[n := x]> R) = <[n := x]> (resp_reduce id o shares R).
Proof.
  intros Hne. unfold resp_reduce. cbv zeta. destruct (_ =? 0); [by apply delete_insert_ne|by apply insert_insert_ne].
Qed.

Lemma on_event_insert ev ts R n x :
  ev_order_id ev <> n -> ev_orig_order_id ev <> n ->
  on_event ev ts (<[n := x]> R) = ((on_event ev ts R).1, <[n := x]> (on_event ev ts R).2).
Proof.
  intros Hid Horig. unfold on_event. rewrite !lookup_insert_ne by done. destruct (R !! _) as [o|]; [|done].
  destruct (ev_type ev); cbn [fst snd].
  - by rewrite insert_insert_ne.
  - destruct (R !! ev_orig_order_id ev) as [orig|]; [|done]. by rewrite delete_insert_ne, insert_insert_ne.
  - by rewrite resp_reduce_insert.
  - by rewrite resp_reduce_insert.
  - by rewrite delete_insert_ne.
Qed.

Lemma answered_insert evs R R' n x :
  Forall (fun ev => ev_order_id ev <> n /\ ev_orig_order_id ev <> n) evs ->
  answered evs R R' -> answered evs (<[n := x]> R) (<[n := x]> R').
Proof.
  intros Hevs H. induction H as [R|ev evs R R1 R2 He _ IH]; [constructor|]. apply Forall_cons in Hevs as [[Hid Ho] Hevs].
  eapply answered_cons; [|by apply IH]. intros ts. destruct (He ts) as [f Hf]. exists f. by rewrite on_event_insert, Hf.
Qed.

(** One execution or cancellation of shares the order has. *)
Lemma answered_reduce ev R rec open :
  R !! ev_order_id ev = Some (mkRespOrder rec open) -> rec_client_id rec = ev_client_id ev ->
  ev_type ev = EXECUTED \/ ev_type ev = CANCELED -> 0 < ev_quantity ev <= open ->
  answered [ev] R (if open - ev_quantity ev =? 0 then delete (ev_order_id ev) R
                   else <[ev_order_id ev := mkRespOrder rec (open - ev_quantity ev)]> R).
Proof.
  intros HR Hc Hty Hq. eapply answered_cons; [|constructor]. intros ts. unfold on_event. rewrite HR. cbn [lr_record].
  rewrite Hc. assert (resp_reduce (ev_order_id ev) (mkRespOrder rec open) (ev_quantity ev) R
    = if open - ev_quantity ev =? 0 then delete (ev_order_id ev) R
      else <[ev_order_id ev := mkRespOrder rec (open - ev_quantity ev)]> R) as Hr.
  { unfold resp_reduce. cbn [lr_open lr_record]. destruct (Z.ltb_spec (ev_quantity ev) open); [done|].
    by replace (open - ev_quantity ev) with 0 by lia. }
  destruct Hty as [-> | ->]; rewrite Hr; by eexists.
Qed.

(** ** Theorem *)

(** Types are preserved and answers fit the wire: from a responder whose records
    fit their C++ types, a note or an event in range leaves such a responder, and what
    it answers is an OUCH message that encodes. *)
Theorem responses_well_typed R note ev ts :
  resp_typed R -> is_u64 ts -> record_typed (note_record note) -> is_u16 (note_reject_reason note) -> event_typed ev ->
  (resp_typed (on_note note ts R).2 /\ from_option (fun r => outbound_wf (resp_ouch r)) True (on_note note ts R).1) /\
  (resp_typed (on_event ev ts R).2 /\ from_option (fun r => outbound_wf (resp_ouch r)) True (on_event ev ts R).1).
Proof. intros HR Hts Hn Hr He. split; [by apply on_note_typed|by apply on_event_typed]. Qed.

(** The note of an order, then its acceptance. *)
Definition example_note : GatewayNote := mkNote ORDER_ENTERED 0 1 (entered_record 3 valid_enter).
Definition example_accepted : EngineEvent := event 1 0 0 3 100 10 ACCEPTED 0.

Lemma example_note_typed : record_typed (note_record example_note).
Proof. vm_compute. repeat split; (reflexivity || discriminate). Qed.

Lemma responses_well_typed_witness :
  let R := (on_note example_note 7 ∅).2 in
  resp_typed R /\ exists r, (on_event example_accepted 8 R).1 = Some r /\ resp_client_id r = 3 /\ outbound_wf (resp_ouch r).
Proof.
  assert (is_u64 7) as H7 by ulia. assert (is_u64 8) as H8 by ulia. assert (is_u16 0) as H0 by ulia.
  assert (event_typed example_accepted) as He by (vm_compute; repeat split; (reflexivity || discriminate)).
  destruct (responses_well_typed ∅ example_note example_accepted 7 (map_Forall_empty _) H7 example_note_typed H0 He)
    as [[HR _] _]. split; [exact HR|].
  destruct (responses_well_typed _ example_note example_accepted 8 HR H8 example_note_typed H0 He) as [_ [_ Hw]].
  revert Hw. destruct ((on_event example_accepted 8 _).1) as [r|] eqn:E; [|vm_compute in E; discriminate].
  intros Hw. exists r. split; [reflexivity|]. split; [|exact Hw]. vm_compute in E. injection E as <-. reflexivity.
Defined.
