(* ===== verification/Ladder.v ===== *)
(** * Ladder: one side of the book as a sequence of levels

    The dense ladder of one side ([bids_] or [asks_], [best_*_price_],
    [non_empty_*_levels_] of [orderbook.hpp]) against a ghost ladder [qs] that
    lists the slots every level queues.  [side_slots] reads the ghost ladder in
    priority order; the lemmas say what pushing, removing and reducing an order
    does to the levels, the cached best price, the level count and that order. *)

From S2P Require Import Prelude Types PriceLevelQueue Validation Orderbook OrderbookSpec.

(** ** The order of levels *)

(** Level [i] comes strictly before level [j] on [side]. *)
Definition before (side : Side) (i j : nat) : Prop :=
  match side with BID => (j < i)%nat | ASK => (i < j)%nat end.

Definition prio {A} (side : Side) (l : list A) : list A :=
  match side with BID => reverse l | ASK => l end.

Definition side_slots (side : Side) (qs : list (list nat)) : list nat := concat (prio side qs).

(** The orders in a list of slots, links dropped. *)
Definition slot_orders (a : Arena) (l : list nat) : list Order :=
  omap (fun p => unlinked <$> a !! p) l.

Lemma before_total side i j : i = j \/ before side i j \/ before side j i.
Proof. destruct side; simpl; lia. Qed.

Lemma before_irrefl side i : ~ before side i i.
Proof. destruct side; simpl; lia. Qed.

Lemma before_trans side i j k : before side i j -> before side j k -> before side i k.
Proof. destruct side; simpl; lia. Qed.

Lemma side_slots_perm side qs : side_slots side qs ≡ₚ concat qs.
Proof.
  destruct side; [|done]. unfold side_slots. simpl. induction qs as [|l qs IH]; [done|].
  rewrite reverse_cons, concat_app, IH. simpl. rewrite app_nil_r. apply Permutation_app_comm.
Qed.

Lemma elem_of_concat {A} (qs : list (list A)) p :
  p ∈ concat qs <-> exists i l, qs !! i = Some l /\ p ∈ l.
Proof.
  rewrite list_elem_of_In, in_concat. split.
  - intros (l & Hl & Hp). apply list_elem_of_In, list_elem_of_lookup in Hl as [i Hi].
    exists i, l. by rewrite list_elem_of_In.
  - intros (i & l & Hi & Hp). exists l. rewrite <- !list_elem_of_In. split; [|done].
    by eapply list_elem_of_lookup_2.
Qed.

Lemma elem_of_level {A} (qs : list (list A)) i l1 p l2 : qs !! i = Some (l1 ++ p :: l2) -> p ∈ concat qs.
Proof. intros Hi. apply elem_of_concat. exists i, (l1 ++ p :: l2). split; [done|]. set_solver. Qed.

Lemma concat_disjoint {A} (qs : list (list A)) i j l l' p :
  NoDup (concat qs) -> qs !! i = Some l -> qs !! j = Some l' -> p ∈ l -> p ∈ l' -> i = j.
Proof.
  intros Hd Hi Hj Hp Hp'. destruct (decide (i = j)) as [|Hne]; [done|]. exfalso.
  rewrite (concat_split qs i l Hi) in Hd. apply NoDup_app in Hd as (_ & Hd1 & Hd).
  apply NoDup_app in Hd as (_ & Hd2 & _). destruct (decide (j < i)%nat).
  - apply (Hd1 p); [|set_solver]. apply elem_of_concat. exists j, l'. split; [|done].
    by rewrite lookup_take_lt.
  - apply (Hd2 p Hp). apply elem_of_concat. exists (j - S i)%nat, l'. split; [|done].
    rewrite lookup_drop. by replace (S i + (j - S i))%nat with j by lia.
Qed.

(** Reading the ladder around level [i], whatever the level holds. *)
Lemma side_split side qs i l :
  qs !! i = Some l ->
  exists pre post,
    (forall l', side_slots side (<[i := l']> qs) = pre ++ l' ++ post) /\
    (forall p, p ∈ pre -> exists j m, before side j i /\ qs !! j = Some m /\ p ∈ m) /\
    (forall p, p ∈ post -> exists j m, before side i j /\ qs !! j = Some m /\ p ∈ m).
Proof.
  intros Hi.
  assert (forall p, p ∈ concat (take i qs) -> exists j m, (j < i)%nat /\ qs !! j = Some m /\ p ∈ m) as Hlo.
  { intros p (j & m & Hj & Hp)%elem_of_concat. apply lookup_take_Some in Hj as [Hj ?]. by exists j, m. }
  assert (forall p, p ∈ concat (drop (S i) qs) -> exists j m, (i < j)%nat /\ qs !! j = Some m /\ p ∈ m) as Hhi.
  { intros p (j & m & Hj & Hp)%elem_of_concat. rewrite lookup_drop in Hj. exists (S i + j)%nat, m.
    split; [lia|done]. }
  assert (forall l', <[i := l']> qs = take i qs ++ l' :: drop (S i) qs) as Hins
    by (intros; apply insert_take_drop; by eapply lookup_lt_Some).
  destruct side; simpl.
  - exists (concat (reverse (drop (S i) qs))), (concat (reverse (take i qs))). split; [|split].
    + intros l'. unfold side_slots. simpl. rewrite Hins, reverse_app, reverse_cons, !concat_app. simpl.
      by rewrite app_nil_r, <- app_assoc.
    + intros p Hp. apply Hhi. by rewrite <- (side_slots_perm BID).
    + intros p Hp. apply Hlo. by rewrite <- (side_slots_perm BID).
  - exists (concat (take i qs)), (concat (drop (S i) qs)). split; [|done].
    intros l'. unfold side_slots. simpl. by rewrite Hins, concat_app.
Qed.

(** ** Level counts *)

Definition nonempty_levels (qs : list (list nat)) : nat := length (filter (fun l => l <> []) qs).

Definition occupied (l : list nat) : nat := if decide (l = []) then 0 else 1.

Lemma nonempty_levels_app l1 l2 : nonempty_levels (l1 ++ l2) = (nonempty_levels l1 + nonempty_levels l2)%nat.
Proof. unfold nonempty_levels. by rewrite filter_app, length_app. Qed.

Lemma nonempty_levels_cons l qs : nonempty_levels (l :: qs) = (occupied l + nonempty_levels qs)%nat.
Proof. unfold nonempty_levels, occupied. rewrite filter_cons. by destruct l. Qed.

Lemma nonempty_levels_insert qs i l l' :
  qs !! i = Some l ->
  (nonempty_levels (<[i := l']> qs) + occupied l = nonempty_levels qs + occupied l')%nat.
Proof.
  intros Hi. rewrite <- (take_drop_middle qs i l Hi) at 2.
  rewrite insert_take_drop by (by eapply lookup_lt_Some).
  rewrite !nonempty_levels_app, !nonempty_levels_cons. lia.
Qed.

Lemma nonempty_levels_le qs : (nonempty_levels qs <= length qs)%nat.
Proof. apply length_filter. Qed.

Lemma nonempty_levels_0 qs : nonempty_levels qs = 0%nat <-> forall i l, qs !! i = Some l -> l = [].
Proof.
  induction qs as [|m qs IH]; [done|]. rewrite nonempty_levels_cons. unfold occupied. split.
  - intros H [|i] l Hl; simplify_eq/=; [case_decide; [done|lia]|]. eapply IH; [lia|done].
  - intros H. rewrite decide_True by (apply (H 0%nat); done). apply IH. intros i l. apply (H (S i)).
Qed.

Lemma nonempty_levels_slots side qs : nonempty_levels qs = 0%nat <-> side_slots side qs = [].
Proof.
  rewrite nonempty_levels_0. split.
  - intros H. apply elem_of_nil_inv. intros p. rewrite side_slots_perm.
    intros (i & l & Hi & Hp)%elem_of_concat.
    rewrite (H i l Hi) in Hp. by apply elem_of_nil in Hp.
  - intros H i l Hi. apply elem_of_nil_inv. intros p Hp.
    assert (p ∈ side_slots side qs) as Hin by (rewrite side_slots_perm; apply elem_of_concat; eauto).
    rewrite H in Hin. by apply elem_of_nil in Hin.
Qed.

(** ** Ladders

    Every level's pointers represent its ghost queue, and an order's price is the
    price of its level. *)

Section Ladder.
Context `{cfg : BookConfig}.

Definition level_price (i : nat) : Z := MIN_PRICE + Z.of_nat i.

Definition slot_ok (a : Arena) (side : Side) (i : nat) (p : nat) : Prop :=
  exists o, a !! p = Some o /\ side_ o = side /\ price_ o = level_price i.

Record ladder_rep (a : Arena) (side : Side) (levels : list PriceLevelQueue) (qs : list (list nat)) : Prop := {
  lr_len : length levels = ladder_size;
  lr_levels : Forall2 (plq_rep a) levels qs;
  lr_slots : forall i l, qs !! i = Some l -> Forall (slot_ok a side i) l;
}.

Lemma level_price_band i : (i < ladder_size)%nat -> in_band (level_price i).
Proof. unfold level_price, ladder_size, in_band. pose proof MIN_PRICE_nonneg. lia. Qed.

Lemma band_u32 price : in_band price -> is_u32 price.
Proof. unfold in_band. pose proof MIN_PRICE_nonneg. pose proof MAX_PRICE_itch. ulia. Qed.

Lemma level_index_price i : (i < ladder_size)%nat -> level_index (level_price i) = i.
Proof.
  intros Hi. pose proof (band_u32 _ (level_price_band i Hi)). pose proof MIN_PRICE_nonneg.
  unfold level_index, level_price in *. rewrite u32_id by ulia. lia.
Qed.

Lemma level_price_index price :
  in_band price -> level_price (level_index price) = price /\ (level_index price < ladder_size)%nat.
Proof.
  intros Hp. pose proof (band_u32 _ Hp). pose proof MIN_PRICE_nonneg.
  unfold level_index, level_price, ladder_size, in_band in *. rewrite u32_id by ulia. lia.
Qed.

Lemma better_level_price side i j : better side (level_price i) (level_price j) = true <-> before side i j.
Proof. unfold level_price. destruct side; simpl; rewrite Z.ltb_lt; lia. Qed.

Lemma ladder_level a side levels qs i :
  ladder_rep a side levels qs -> (i < ladder_size)%nat ->
  exists q l, levels !! i = Some q /\ qs !! i = Some l /\ plq_rep a q l.
Proof.
  intros [Hlen H2 _] Hi. destruct (lookup_lt_is_Some_2 levels i) as [q Hq]; [by rewrite Hlen|].
  destruct (Forall2_lookup_l _ _ _ _ _ H2 Hq) as (l & Hl & Hr). by exists q, l.
Qed.

Lemma ladder_qs_len a side levels qs : ladder_rep a side levels qs -> length qs = ladder_size.
Proof. intros [<- H2 _]. symmetry. by eapply Forall2_length. Qed.

Lemma ladder_qs_lt a side levels qs i l :
  ladder_rep a side levels qs -> qs !! i = Some l -> (i < ladder_size)%nat.
Proof. intros H Hi. rewrite <- (ladder_qs_len _ _ _ _ H). by eapply lookup_lt_Some. Qed.

Lemma same_data_lookup a a' p o :
  same_data a a' -> a !! p = Some o -> exists o', a' !! p = Some o' /\ unlinked o' = unlinked o.
Proof.
  intros Hd Ho. specialize (Hd p). rewrite Ho in Hd. destruct (a' !! p) as [o'|]; [|done].
  exists o'. simpl in Hd. split; [done|]. congruence.
Qed.

Lemma slot_ok_same_data a a' side i p : same_data a a' -> slot_ok a side i p -> slot_ok a' side i p.
Proof.
  intros Hd (o & Ho & Hs & Hp). destruct (same_data_lookup a a' p o Hd Ho) as (o' & Ho' & Hu).
  exists o'. split; [done|]. apply (f_equal side_) in Hu as H1. apply (f_equal price_) in Hu as H2.
  simpl in H1, H2. split; congruence.
Qed.

Lemma ladder_new : forall a side, ladder_rep a side (replicate ladder_size plq_new) (replicate ladder_size []).
Proof.
  intros. split.
  - apply length_replicate.
  - apply Forall2_replicate, plq_new_rep.
  - intros i l [-> _]%lookup_replicate. done.
Qed.

Lemma ladder_frame a a' side levels qs :
  (forall p, p ∈ concat qs -> a' !! p = a !! p) ->
  ladder_rep a side levels qs -> ladder_rep a' side levels qs.
Proof.
  intros Hf [Hlen H2 Hs]. split; [done|..].
  - apply Forall2_same_length_lookup_2; [by eapply Forall2_length|]. intros i q l Hq Hl.
    eapply plq_rep_frame; [|by eapply Forall2_lookup_lr].
    intros p Hp. apply Hf, elem_of_concat. eauto.
  - intros i l Hi. apply Forall_forall. intros p Hp.
    pose proof (proj1 (Forall_forall _ _) (Hs i l Hi) p Hp) as (o & Ho & H). exists o.
    rewrite Hf; [done|]. apply elem_of_concat. eauto.
Qed.

Lemma ladder_same_data a a' side (qs : list (list nat)) :
  same_data a a' ->
  (forall i l, qs !! i = Some l -> Forall (slot_ok a side i) l) ->
  forall i l, qs !! i = Some l -> Forall (slot_ok a' side i) l.
Proof. intros Hd H i l Hi. eapply Forall_impl; [by apply H|]. intros p. by apply slot_ok_same_data. Qed.

(** Replacing level [i], when the arena changes only on its slots. *)
Lemma ladder_update a a' side levels qs i q' l l' :
  ladder_rep a side levels qs -> NoDup (concat qs) -> same_data a a' ->
  qs !! i = Some l -> plq_rep a' q' l' -> Forall (slot_ok a side i) l' ->
  (forall p, p ∈ concat qs -> p ∉ l -> a' !! p = a !! p) ->
  ladder_rep a' side (<[i := q']> levels) (<[i := l']> qs).
Proof.
  intros [Hlen H2 Hs] Hd Hsd Hi Hq' Hl' Hf. split.
  - by rewrite length_insert.
  - apply Forall2_same_length_lookup_2.
    { rewrite !length_insert. by eapply Forall2_length. }
    intros j x y Hx Hy. destruct (decide (i = j)) as [<-|Hne].
    + apply list_lookup_insert_Some in Hx as [(_ & <- & _)|[? _]]; [|done].
      apply list_lookup_insert_Some in Hy as [(_ & <- & _)|[? _]]; [|done]. done.
    + rewrite list_lookup_insert_ne in Hx by done. rewrite list_lookup_insert_ne in Hy by done.
      eapply plq_rep_frame; [|by eapply Forall2_lookup_lr].
      intros p Hp. apply Hf; [apply elem_of_concat; eauto|].
      intros Hpl. apply Hne. by eapply (concat_disjoint qs i j l y p).
  - eapply ladder_same_data; [done|]. intros j m.
    intros [(-> & <- & _)|[_ Hm]]%list_lookup_insert_Some; [done|by apply Hs].
Qed.

Lemma ladder_remove a side levels qs i l1 p l2 q :
  ladder_rep a side levels qs -> NoDup (concat qs) ->
  qs !! i = Some (l1 ++ p :: l2) -> levels !! i = Some q ->
  exists q' a', plq_remove q p a = Some (q', a') /\ plq_rep a' q' (l1 ++ l2) /\
    ladder_rep a' side (<[i := q']> levels) (<[i := l1 ++ l2]> qs) /\ same_data a a' /\
    (forall x, x ∉ concat qs -> a' !! x = a !! x).
Proof.
  intros H Hd Hi Hq.
  assert (plq_rep a q (l1 ++ p :: l2)) as Hr by (eapply Forall2_lookup_lr; [apply H|done..]).
  destruct (plq_remove_spec a q l1 p l2 Hr) as (q' & a' & Hrun & Hr' & Hsd & Hf).
  exists q', a'. split; [done|]. split; [done|].
  assert (forall x, x ∈ l1 ++ l2 -> x ∈ concat qs) as Hin.
  { intros x Hx. apply elem_of_concat. exists i, (l1 ++ p :: l2). split; [done|]. set_solver. }
  split; [|split; [done|]].
  - eapply ladder_update; [done..| |].
    + pose proof (lr_slots _ _ _ _ H i _ Hi) as Hs. apply Forall_app in Hs as [? [_ ?]%Forall_cons].
      by apply Forall_app.
    + intros x _ Hx. apply Hf. set_solver.
  - intros x Hx. apply Hf. intros Hx'. by apply Hx, Hin.
Qed.

Lemma ladder_push a side levels qs i l n o q :
  ladder_rep a side levels qs -> NoDup (concat qs) -> n ∉ concat qs ->
  qs !! i = Some l -> levels !! i = Some q ->
  a !! n = Some o -> prev_ o = None -> next_ o = None -> slot_ok a side i n ->
  exists q' a', plq_push q n a = Some (q', a') /\ plq_rep a' q' (l ++ [n]) /\
    ladder_rep a' side (<[i := q']> levels) (<[i := l ++ [n]]> qs) /\ same_data a a' /\
    (forall x, x ∉ n :: concat qs -> a' !! x = a !! x).
Proof.
  intros H Hd Hn Hi Hq Ho Hp Hx Hok.
  assert (forall x, x ∈ l -> x ∈ concat qs) as Hin by (intros; apply elem_of_concat; eauto).
  assert (plq_rep a q l) as Hr by (eapply Forall2_lookup_lr; [apply H|done..]).
  destruct (plq_push_spec a q l n o Hr) as (q' & a' & Hrun & Hr' & Hsd & Hf); [by auto|done..|].
  exists q', a'. split; [done|]. split; [done|]. split; [|split; [done|]].
  - eapply ladder_update; [done..| |].
    + apply Forall_app. split; [by apply (lr_slots _ _ _ _ H)|]. by apply Forall_singleton.
    + intros x Hx1 Hx2. apply Hf. set_solver.
  - intros x Hx'. apply Hf. set_solver.
Qed.

Lemma ladder_alter a side levels qs p f :
  (forall o, prev_ (f o) = prev_ o /\ next_ (f o) = next_ o /\ side_ (f o) = side_ o /\ price_ (f o) = price_ o) ->
  ladder_rep a side levels qs -> ladder_rep (alter f p a) side levels qs.
Proof.
  intros Hf [Hlen H2 Hs]. split; [done|..].
  - eapply Forall2_impl; [done|]. intros q l Hr. apply plq_rep_upd; [|done].
    intros o. destruct (Hf o) as (-> & -> & _). done.
  - intros i l Hi. eapply Forall_impl; [by apply Hs|]. intros x (o & Ho & Hsd & Hp).
    destruct (decide (x = p)) as [->|].
    + exists (f o). rewrite list_lookup_alter_eq, Ho. destruct (Hf o) as (_ & _ & -> & ->). done.
    + exists o. by rewrite list_lookup_alter_ne.
Qed.

(** ** The cached best price *)

(** Where the best price of an empty side is parked. *)
Definition worst (side : Side) : Z := match side with BID => MIN_PRICE | ASK => MAX_PRICE end.

Definition first_level (side : Side) (qs : list (list nat)) (j : nat) : Prop :=
  (exists p l, qs !! j = Some (p :: l)) /\
  (forall k l, before side k j -> qs !! k = Some l -> l = []).

Definition best_ok (side : Side) (qs : list (list nat)) (best : Z) : Prop :=
  (nonempty_levels qs = 0%nat /\ best = worst side) \/
  (exists j, first_level side qs j /\ best = level_price j).

Lemma first_level_exists side qs :
  nonempty_levels qs <> 0%nat -> exists j, first_level side qs j.
Proof.
  intros Hne.
  assert (exists k l, list_find (fun l => l <> []) (prio side qs) = Some (k, l)) as (k & l & Hf).
  { destruct (list_find (fun l => l <> []) (prio side qs)) as [[k l]|] eqn:E; [eauto|]. exfalso.
    apply Hne, nonempty_levels_0. intros i l Hi. apply list_find_None in E.
    apply dec_stable. intros Hl. refine (proj1 (Forall_forall _ _) E l _ Hl).
    apply list_elem_of_lookup_2 in Hi. destruct side; simpl; [by apply elem_of_reverse|done]. }
  apply list_find_Some in Hf as (Hk & Hl & Hmin). destruct l as [|p l]; [done|].
  destruct side; simpl in *.
  - apply reverse_lookup_Some in Hk as [Hk Hlt]. exists (length qs - S k)%nat. split; [eauto|].
    intros j m Hj Hm. simpl in Hj. pose proof (lookup_lt_Some _ _ _ Hm).
    apply dec_stable. intros Hne'. apply (Hmin (length qs - S j)%nat m); [|lia|done].
    apply reverse_lookup_Some. split; [|lia]. by replace (length qs - S (length qs - S j))%nat with j by lia.
  - exists k. split; [eauto|]. intros j m Hj Hm. simpl in Hj. apply dec_stable. intros Hne'.
    by apply (Hmin j m).
Qed.

Lemma first_level_head side qs j p l :
  first_level side qs j -> qs !! j = Some (p :: l) -> exists post, side_slots side qs = p :: post.
Proof.
  intros [_ Hb] Hj. destruct (side_split side qs j _ Hj) as (pre & post & Hins & Hpre & _).
  specialize (Hins (p :: l)). rewrite list_insert_id in Hins by done.
  destruct pre as [|x pre]; [by eexists|]. exfalso.
  destruct (Hpre x) as (k & m & Hk & Hm & Hx); [by left|].
  rewrite (Hb k m Hk Hm) in Hx. by apply elem_of_nil in Hx.
Qed.

Lemma first_level_unique side qs i j : first_level side qs i -> first_level side qs j -> i = j.
Proof.
  intros [(p & l & Hi) Hbi] [(p' & l' & Hj) Hbj].
  destruct (before_total side i j) as [|[H|H]]; [done|..].
  - by specialize (Hbj _ _ H Hi).
  - by specialize (Hbi _ _ H Hj).
Qed.

Lemma first_level_count side qs j : first_level side qs j -> nonempty_levels qs <> 0%nat.
Proof. intros [(p & l & Hj) _] H0. by specialize (proj1 (nonempty_levels_0 qs) H0 _ _ Hj). Qed.

(** Level [i] keeps an order. *)
Lemma best_ok_keep side qs best i l l' :
  best_ok side qs best -> qs !! i = Some l -> l <> [] -> l' <> [] -> best_ok side (<[i := l']> qs) best.
Proof.
  intros Hb Hi Hl Hl'. right. destruct Hb as [[H0 _]|(j & [(p & m & Hj) Hbj] & ->)].
  { exfalso. by apply Hl, (proj1 (nonempty_levels_0 qs) H0 i). }
  exists j. split; [|done]. split.
  - destruct (decide (i = j)) as [<-|].
    + destruct l' as [|x l']; [done|]. exists x, l'. apply list_lookup_insert_eq. by eapply lookup_lt_Some.
    + exists p, m. by rewrite list_lookup_insert_ne.
  - intros k x Hk [(-> & <- & _)|[_ Hx]]%list_lookup_insert_Some; [|by eapply Hbj].
    exfalso. by apply Hl, (Hbj k).
Qed.

(** Level [i], not the best one, becomes empty. *)
Lemma best_ok_clear side qs best i l :
  best_ok side qs best -> qs !! i = Some l -> l <> [] -> best <> level_price i ->
  best_ok side (<[i := []]> qs) best.
Proof.
  intros Hb Hi Hl Hne. right. destruct Hb as [[H0 _]|(j & [(p & m & Hj) Hbj] & ->)].
  { exfalso. by apply Hl, (proj1 (nonempty_levels_0 qs) H0 i). }
  exists j. split; [|done]. split.
  - exists p, m. rewrite list_lookup_insert_ne; [done|]. by intros ->.
  - intros k x Hk [(-> & <- & _)|[_ Hx]]%list_lookup_insert_Some; [done|by eapply Hbj].
Qed.

(** An order arrives at level [i]. *)
Lemma best_ok_push side qs best i l l' :
  length qs = ladder_size -> best_ok side qs best -> qs !! i = Some l -> l' <> [] ->
  best_ok side (<[i := l']> qs) (if better side (level_price i) best then level_price i else best).
Proof.
  intros Hlen Hb Hi Hl'. right. pose proof (lookup_lt_Some _ _ _ Hi) as Hlt.
  assert (exists p m, <[i := l']> qs !! i = Some (p :: m)) as Hnew.
  { destruct l' as [|x l']; [done|]. exists x, l'. by apply list_lookup_insert_eq. }
  destruct Hb as [[H0 ->]|(j & [(p & m & Hj) Hbj] & ->)].
  - exists i. split; [split; [done|]|].
    + intros k x Hk [(-> & _)|[_ Hx]]%list_lookup_insert_Some; [by apply before_irrefl in Hk|].
      by apply (proj1 (nonempty_levels_0 qs) H0 k).
    + pose proof (level_price_band i ltac:(lia)) as Hb. unfold in_band in Hb.
      destruct side; simpl; case_if; zbool; lia.
  - destruct (better side (level_price i) (level_price j)) eqn:E.
    + apply better_level_price in E. exists i. split; [split; [done|]|done].
      intros k x Hk [(-> & _)|[_ Hx]]%list_lookup_insert_Some; [by apply before_irrefl in Hk|].
      apply (Hbj k); [|done]. by eapply before_trans.
    + assert (~ before side i j) as Hnb by (intros H; apply better_level_price in H; congruence).
      exists j. split; [split|done].
      * destruct (decide (i = j)) as [<-|]; [done|]. exists p, m. by rewrite list_lookup_insert_ne.
      * intros k x Hk [(-> & <- & _)|[_ Hx]]%list_lookup_insert_Some; [done|]. by apply (Hbj k).
Qed.

(** The level the search for a new best price stops at. *)
Lemma first_level_after side qs i :
  (forall k l, before side k i -> qs !! k = Some l -> l = []) -> nonempty_levels qs <> 0%nat ->
  exists j, first_level side qs j /\ (i = j \/ before side i j).
Proof.
  intros Hb Hne. destruct (first_level_exists side qs Hne) as [j Hj]. exists j. split; [done|].
  destruct (before_total side i j) as [|[H|H]]; [by left|by right|].
  destruct Hj as [(p & l & Hl) _]. by specialize (Hb _ _ H Hl).
Qed.

(** ** Orders in priority order *)

Lemma slot_orders_app a l1 l2 : slot_orders a (l1 ++ l2) = slot_orders a l1 ++ slot_orders a l2.
Proof. apply omap_app. Qed.

Lemma slot_orders_cons a p l o : a !! p = Some o -> slot_orders a (p :: l) = unlinked o :: slot_orders a l.
Proof. intros Ho. unfold slot_orders. simpl. by rewrite Ho. Qed.

Lemma slot_orders_ext a a' l :
  (forall p, p ∈ l -> unlinked <$> a !! p = unlinked <$> a' !! p) -> slot_orders a l = slot_orders a' l.
Proof.
  induction l as [|p l IH]; intros H; [done|]. change (p :: l) with ([p] ++ l).
  rewrite !slot_orders_app. f_equal; [|apply IH; intros; apply H; by right].
  unfold slot_orders. cbn. by rewrite (H p) by left.
Qed.

Lemma slot_orders_elem a l o :
  o ∈ slot_orders a l <-> exists p o', p ∈ l /\ a !! p = Some o' /\ o = unlinked o'.
Proof.
  unfold slot_orders. rewrite list_elem_of_omap. split.
  - intros (p & Hp & (o' & Ho' & ->)%fmap_Some). eauto 6.
  - intros (p & o' & Hp & Ho' & ->). exists p. by rewrite Ho'.
Qed.

Lemma slot_orders_length a l : (forall p, p ∈ l -> is_Some (a !! p)) -> length (slot_orders a l) = length l.
Proof.
  induction l as [|p l IH]; intros H; [done|]. destruct (H p) as [o Ho]; [by left|].
  rewrite (slot_orders_cons _ _ _ _ Ho). simpl. rewrite IH; [done|]. intros. apply H. by right.
Qed.

Lemma insert_order_middle side o l1 l2 :
  Forall (fun x => better side (price_ o) (price_ x) = false) l1 ->
  Forall (fun x => better side (price_ o) (price_ x) = true) l2 ->
  insert_order side o (l1 ++ l2) = l1 ++ o :: l2.
Proof.
  intros H1 H2. induction H1 as [|x l1 Hx _ IH]; simpl.
  - destruct H2 as [|y l2 Hy _]; simpl; [done|]. by rewrite Hy.
  - by rewrite Hx, IH.
Qed.

Lemma remove_id_none id l : Forall (fun o => id_ o <> id) l -> remove_id id l = l.
Proof.
  induction 1 as [|o l Ho _ IH]; [done|]. unfold remove_id in *.
  by rewrite filter_cons_True, IH.
Qed.

Lemma slot_orders_remove a pre p post o :
  a !! p = Some o ->
  (forall x o', x ∈ pre ++ post -> a !! x = Some o' -> id_ o' <> id_ o) ->
  remove_id (id_ o) (slot_orders a (pre ++ p :: post)) = slot_orders a (pre ++ post).
Proof.
  intros Ho Hid. rewrite !slot_orders_app, (slot_orders_cons _ _ _ _ Ho). unfold remove_id.
  rewrite filter_app, filter_cons_False by (simpl; tauto).
  assert (forall l, (forall x, x ∈ l -> x ∈ pre ++ post) ->
    filter (fun y => id_ y <> id_ o) (slot_orders a l) = slot_orders a l) as Hl.
  { intros l Hin. apply remove_id_none, Forall_forall. intros y (x & o' & Hx & Ho' & ->)%slot_orders_elem.
    simpl. eauto. }
  rewrite !Hl; set_solver.
Qed.

Lemma find_id_Some id l o :
  o ∈ l -> id_ o = id -> (forall o', o' ∈ l -> id_ o' = id -> o' = o) -> find_id id l = Some o.
Proof.
  intros Ho Hid Hu. unfold find_id.
  destruct (filter (fun o => id_ o = id) l) as [|x f] eqn:E.
  - exfalso. assert (o ∈ filter (fun o => id_ o = id) l) as Hin by (by apply list_elem_of_filter).
    rewrite E in Hin. by apply elem_of_nil in Hin.
  - simpl. f_equal. assert (x ∈ filter (fun o => id_ o = id) l) as Hx by (rewrite E; by left).
    apply list_elem_of_filter in Hx as [? ?]. by apply Hu.
Qed.

Lemma find_id_None id l : (forall o, o ∈ l -> id_ o <> id) -> find_id id l = None.
Proof.
  intros H. unfold find_id. destruct (filter (fun o => id_ o = id) l) as [|x f] eqn:E; [done|].
  assert (x ∈ filter (fun o => id_ o = id) l) as Hx by (rewrite E; by left).
  apply list_elem_of_filter in Hx as [? ?]. by destruct (H x).
Qed.
End Ladder.
