(* ===== verification/OrderbookRefine.v ===== *)
(** * OrderbookRefine: the book implements its specification

    [book_rep] relates the arena, the queues, the caches and the id map of
    [Orderbook] to the priority lists of [OrderbookSpec].  The lemmas run each
    operation of [orderbook.cpp] on a represented book: none faults or loops, and
    each has the effect the specification names. *)

From S2P Require Import Prelude Types Clock ItchProto RingBuffer PriceLevelQueue Validation WireCodec.
From S2P Require Import Orderbook OrderbookSpec Ladder.

Section Refine.
Context `{cfg : BookConfig}.

(** ** The two sides of the book as one *)

Definition levels (side : Side) (b : Orderbook) : list PriceLevelQueue :=
  match side with BID => bids_ b | ASK => asks_ b end.
Definition best_price (side : Side) (b : Orderbook) : Z :=
  match side with BID => best_bid_price_ b | ASK => best_ask_price_ b end.
Definition level_count (side : Side) (b : Orderbook) : Z :=
  match side with BID => non_empty_bid_levels_ b | ASK => non_empty_ask_levels_ b end.

Definition with_side (side : Side) (lv : list PriceLevelQueue) (best count : Z) (b : Orderbook) : Orderbook :=
  match side with
  | BID => b <| bids_ := lv |> <| best_bid_price_ := best |> <| non_empty_bid_levels_ := count |>
  | ASK => b <| asks_ := lv |> <| best_ask_price_ := best |> <| non_empty_ask_levels_ := count |>
  end.

Definition with_arena (a : Arena) (b : Orderbook) : Orderbook := b <| pool_ := (pool_ b) <| arena_ := a |> |>.

Definition set_best (side : Side) (best : Z) (b : Orderbook) : Orderbook :=
  with_side side (levels side b) best (level_count side b) b.

Definition update_best_loop (side : Side) : nat -> M Orderbook unit :=
  match side with BID => update_best_bid_loop | ASK => update_best_ask_loop end.
Definition update_best (side : Side) : M Orderbook unit :=
  match side with BID => update_best_bid | ASK => update_best_ask end.

(** The neighbouring price that is worse. *)
Definition worse_price (side : Side) (price : Z) : Z := match side with BID => price - 1 | ASK => price + 1 end.

Lemma update_best_loop_step side fuel b :
  update_best_loop side (S fuel) b =
  if better side (best_price side b) (worst side) then
    match levels side b !! level_index (best_price side b) with
    | None => None
    | Some q =>
        if plq_empty q then
          update_best_loop side fuel (set_best side (u32 (worse_price side (best_price side b))) b)
        else Some (tt, b)
    end
  else Some (tt, b).
Proof.
  destruct side; cbn [update_best_loop update_best_bid_loop update_best_ask_loop]; rewrite gets_bind; cbn;
    (case_if; [|done]); unfold bid_level, ask_level, mbind, M_bind;
    destruct (_ !! level_index _) as [q|]; cbn; try done; by destruct (plq_empty q).
Qed.

Lemma on_arena_run {A} (m : M Arena A) b x a :
  m (arena_ (pool_ b)) = Some (x, a) -> on_arena m b = Some (x, with_arena a b).
Proof. intros H. unfold on_arena. by rewrite H. Qed.

Lemma set_best_id side b : set_best side (best_price side b) b = b.
Proof. by destruct side, b. Qed.

Lemma set_best_with_side side lv best best' count b :
  set_best side best' (with_side side lv best count b) = with_side side lv best' count b.
Proof. by destruct side. Qed.

(** Walking from level [i] to the first level that holds an order. *)
Lemma update_best_loop_run side a qs j fuel i b :
  length qs = ladder_size -> Forall2 (plq_rep a) (levels side b) qs ->
  first_level side qs j -> i = j \/ before side i j -> best_price side b = level_price i ->
  (i < ladder_size)%nat -> (Z.to_nat (Z.abs (Z.of_nat i - Z.of_nat j)) < fuel)%nat ->
  update_best_loop side fuel b = Some (tt, set_best side (level_price j) b).
Proof.
  intros Hlen H2 Hj. revert i b H2. induction fuel as [|fuel IH]; intros i b H2 Hij Hbest Hi Hf; [lia|].
  destruct (lookup_lt_is_Some_2 qs i) as [l Hl]; [by rewrite Hlen|].
  destruct (Forall2_lookup_r _ _ _ _ _ H2 Hl) as (q & Hq & Hr).
  rewrite update_best_loop_step, Hbest, (level_index_price i Hi), Hq, (plq_empty_rep _ _ _ Hr).
  destruct Hij as [->|Hij].
  - destruct Hj as [(p & m & Hm) _]. rewrite bool_decide_eq_false_2 by congruence.
    rewrite <- Hbest, set_best_id. by case_if.
  - rewrite bool_decide_eq_true_2 by (by eapply (proj2 Hj)).
    assert (j < ladder_size)%nat as Hjlt.
    { destruct Hj as [(p & m & Hm) _]. rewrite <- Hlen. by eapply lookup_lt_Some. }
    pose proof (level_price_band i Hi) as Hbi. pose proof (level_price_band j Hjlt) as Hbj.
    pose proof (band_u32 _ Hbi) as Hui. pose proof MAX_PRICE_itch. pose proof MIN_PRICE_nonneg.
    unfold in_band in *.
    assert (better side (level_price i) (worst side) = true) as ->.
    { apply better_level_price in Hij. destruct side; simpl in *; zbool; apply Z.ltb_lt; lia. }
    set (i' := match side with BID => (i - 1)%nat | ASK => (i + 1)%nat end).
    assert (u32 (worse_price side (level_price i)) = level_price i') as ->.
    { unfold level_price in *. destruct side; simpl in *; rewrite u32_id; ulia. }
    rewrite (IH i'); [by destruct side|..].
    + by destruct side.
    + destruct side; simpl in *; lia.
    + by destruct side.
    + destruct side; simpl in *; lia.
    + destruct side; simpl in *; lia.
Qed.

Lemma update_best_run side a qs i j b :
  length qs = ladder_size -> Forall2 (plq_rep a) (levels side b) qs ->
  first_level side qs j -> i = j \/ before side i j -> best_price side b = level_price i ->
  (i < ladder_size)%nat ->
  update_best side b = Some (tt, set_best side (level_price j) b).
Proof.
  intros Hlen H2 Hj Hij Hbest Hi.
  assert (j < ladder_size)%nat as Hjlt.
  { destruct Hj as [(p & m & Hm) _]. rewrite <- Hlen. by eapply lookup_lt_Some. }
  pose proof (level_price_band i Hi) as B1. pose proof (level_price_band j Hjlt) as B2.
  unfold in_band, level_price in B1, B2.
  assert (update_best side b = update_best_loop side (S (Z.to_nat
    match side with BID => best_price side b - MIN_PRICE | ASK => MAX_PRICE - best_price side b end)) b)
    as -> by (by destruct side).
  eapply (update_best_loop_run side a qs j _ i); try done.
  rewrite Hbest. unfold level_price. destruct side; simpl in Hij; lia.
Qed.

(** ** Taking an order out of its level *)

Lemma with_arena_id b : with_arena (arena_ (pool_ b)) b = b.
Proof. by destruct b as [[]]. Qed.

Lemma deref_run p b o :
  arena_ (pool_ b) !! p = Some o -> on_arena (deref p) b = Some (o, b).
Proof.
  intros Ho. rewrite (on_arena_run _ _ o (arena_ (pool_ b))); [by rewrite with_arena_id|].
  by apply deref_Some.
Qed.

(** [unlink], with the two branches of the source read as one. *)
Lemma unlink_step p b o q q' a' :
  arena_ (pool_ b) !! p = Some o ->
  levels (side_ o) b !! level_index (price_ o) = Some q ->
  plq_remove q p (arena_ (pool_ b)) = Some (q', a') ->
  let side := side_ o in
  let at_ := fun best count =>
    with_side side (<[level_index (price_ o) := q']> (levels side b)) best count (with_arena a' b) in
  let count := u64 (level_count side b - 1) in
  unlink p b =
  if plq_empty q' then
    if count =? 0 then Some (tt, at_ (worst side) count)
    else if price_ o =? best_price side b then update_best side (at_ (best_price side b) count)
    else Some (tt, at_ (best_price side b) count)
  else Some (tt, at_ (best_price side b) (level_count side b)).
Proof.
  intros Ho Hq Hrm. cbv zeta. unfold unlink. rewrite (bind_Some _ _ _ _ _ (deref_run p b o Ho)). cbv zeta.
  destruct (side_ o); cbn [levels best_price level_count worst update_best] in *;
    (erewrite bind_Some by (unfold bid_level, ask_level; by rewrite Hq));
    rewrite (bind_Some _ _ _ _ _ (on_arena_run _ _ _ _ Hrm));
    unfold store_bid_level, store_ask_level; rewrite modify_bind;
    unfold when; (destruct (plq_empty q'); [|done]); rewrite modify_bind, !gets_bind; cbn;
    by repeat case_if.
Qed.

(** One side after a change: its ladder, best price and count agree. *)
Definition side_rep (a : Arena) (side : Side) (b : Orderbook) (qs : list (list nat)) : Prop :=
  ladder_rep a side (levels side b) qs /\ best_ok side qs (best_price side b) /\
  level_count side b = Z.of_nat (nonempty_levels qs).

Lemma ladder_size_u64 (qs : list (list nat)) :
  length qs = ladder_size -> 0 <= Z.of_nat (nonempty_levels qs) <= 4294967296.
Proof.
  intros Hl. pose proof (nonempty_levels_le qs). pose proof MAX_PRICE_itch. pose proof MIN_PRICE_nonneg.
  unfold ladder_size in Hl. ulia.
Qed.

(** The best level is emptied: where the search for the next one ends. *)
Lemma best_ok_next side qs best i l :
  best_ok side qs best -> qs !! i = Some l -> l <> [] -> best = level_price i ->
  nonempty_levels (<[i := []]> qs) <> 0%nat ->
  exists j, first_level side (<[i := []]> qs) j /\ (i = j \/ before side i j).
Proof.
  intros Hb Hi Hl Hbest Hne. apply first_level_after; [|done].
  destruct Hb as [[H0 _]|(j & [_ Hbj] & Hj)].
  { exfalso. by apply Hl, (proj1 (nonempty_levels_0 qs) H0 i). }
  assert (j = i) as -> by (unfold level_price in *; lia).
  intros k m Hk [(-> & <- & _)|[_ Hm]]%list_lookup_insert_Some; [done|]. by apply (Hbj k).
Qed.

Lemma unlink_run side b qs i l1 p l2 :
  side_rep (arena_ (pool_ b)) side b qs -> NoDup (concat qs) -> qs !! i = Some (l1 ++ p :: l2) ->
  exists lv best count a',
    let b' := with_side side lv best count (with_arena a' b) in
    unlink p b = Some (tt, b') /\ side_rep a' side b' (<[i := l1 ++ l2]> qs) /\
    same_data (arena_ (pool_ b)) a' /\ (forall x, x ∉ concat qs -> a' !! x = arena_ (pool_ b) !! x).
Proof.
  intros (Hlad & Hbest & Hcount) Hd Hi. pose proof (ladder_qs_lt _ _ _ _ _ _ Hlad Hi) as Hlt.
  pose proof (ladder_qs_len _ _ _ _ Hlad) as Hlen. pose proof (ladder_size_u64 qs Hlen) as Hcs.
  destruct (ladder_level _ _ _ _ _ Hlad Hlt) as (q & l & Hq & Hl & _). simplify_eq.
  destruct (ladder_remove _ _ _ _ _ _ _ _ _ Hlad Hd Hi Hq) as (q' & a' & Hrm & Hr' & Hlad' & Hsd & Hf).
  destruct (proj1 (Forall_forall _ _) (lr_slots _ _ _ _ Hlad i _ Hi) p) as (o & Ho & Hs & Hp); [set_solver|].
  assert (l1 ++ p :: l2 <> []) as Hne by (by destruct l1).
  pose proof (nonempty_levels_insert qs i _ (l1 ++ l2) Hi) as Hn. unfold occupied in Hn.
  rewrite (decide_False (P := l1 ++ p :: l2 = [])) in Hn by done.
  assert (level_index (price_ o) = i) as Hidx by (rewrite Hp; by apply level_index_price).
  rewrite <- Hs in *. pose proof (unlink_step p b o q q' a' Ho) as Hrun. rewrite Hidx in Hrun.
  specialize (Hrun Hq Hrm). cbv zeta in Hrun. rewrite (plq_empty_rep _ _ _ Hr') in Hrun.
  set (side' := side_ o) in *. rewrite Hcount, Hp in Hrun.
  case_bool_decide as He; [rewrite He in *|].
  - rewrite decide_True in Hn by done. rewrite u64_id in Hrun by ulia.
    destruct (_ - 1 =? 0) eqn:Ez in Hrun; zbool.
    + do 4 eexists. split; [exact Hrun|]. split; [|done]. split; [by destruct side'|]. split.
      * left. split; [lia|by destruct side'].
      * destruct side'; simpl; lia.
    + destruct (level_price i =? best_price side' b) eqn:Eb in Hrun; zbool.
      * destruct (best_ok_next _ _ _ _ _ Hbest Hi Hne (eq_sym Eb)) as (j & Hj & Hij); [lia|].
        erewrite update_best_run in Hrun;
          [|by rewrite length_insert|by destruct side'; apply Hlad'|done|done|by destruct side'|done].
        rewrite set_best_with_side in Hrun. do 4 eexists. split; [exact Hrun|]. split; [|done].
        split; [by destruct side'|]. split; [right; exists j; by destruct side'|destruct side'; simpl; lia].
      * do 4 eexists. split; [exact Hrun|]. split; [|done]. split; [by destruct side'|]. split.
        -- replace (best_price _ _) with (best_price side' b) by (by destruct side').
           eapply best_ok_clear; [done..|]. by intros ?.
        -- destruct side'; simpl; lia.
  - rewrite decide_False in Hn by done.
    do 4 eexists. split; [exact Hrun|]. split; [|done]. split; [by destruct side'|]. split.
    + replace (best_price _ _) with (best_price side' b) by (by destruct side').
      eapply best_ok_keep; [done..|]. done.
    + destruct side'; simpl; lia.
Qed.

(** ** Putting an order into its level *)

(** [rest], with the two branches of the source read as one. *)
Lemma rest_step ctx order publish_add b slot fl q q' a' o' :
  free_list_ (pool_ b) = slot :: fl -> (slot < length (arena_ (pool_ b)))%nat ->
  levels (side_ order) b !! level_index (price_ order) = Some q ->
  plq_push q slot (<[slot := order]> (arena_ (pool_ b))) = Some (q', a') ->
  a' !! slot = Some o' -> unlinked o' = unlinked order ->
  let side := side_ order in
  rest ctx order publish_add b =
  when publish_add (publish (add_itch ctx order))
    (with_side side (<[level_index (price_ order) := q']> (levels side b))
       (if better side (price_ order) (best_price side b) then price_ order else best_price side b)
       (if plq_empty q then u64 (level_count side b + 1) else level_count side b)
       (b <| pool_ := mkPool a' fl |> <| orders_ := emplace (id_ order) slot (orders_ b) |>)).
Proof.
  intros Hfree Hslot Hq Hpush Ho' Hu. cbv zeta. unfold rest.
  erewrite bind_Some by (unfold allocate, pool_allocate; by rewrite Hfree).
  erewrite bind_Some by (apply deref_run; cbn; by apply list_lookup_insert_eq).
  rewrite modify_bind. cbv zeta.
  assert (add_itch ctx o' = add_itch ctx order) as Hitch.
  { unfold add_itch. by rewrite (f_equal id_ Hu : id_ o' = id_ order), (f_equal side_ Hu : side_ o' = side_ order),
      (f_equal open_quantity_ Hu : open_quantity_ o' = open_quantity_ order),
      (f_equal price_ Hu : price_ o' = price_ order). }
  assert (forall b1, arena_ (pool_ b1) = <[slot := order]> (arena_ (pool_ b)) ->
    on_arena (plq_push q slot) b1 = Some (q', with_arena a' b1)) as Hrun
    by (intros b1 Hb1; apply on_arena_run; by rewrite Hb1).
  erewrite bind_Some; [erewrite bind_Some|].
  3: { instantiate (1 := with_side (side_ order) (<[level_index (price_ order) := q']> (levels (side_ order) b))
       (if better (side_ order) (price_ order) (best_price (side_ order) b) then price_ order
        else best_price (side_ order) b)
       (if plq_empty q then u64 (level_count (side_ order) b + 1) else level_count (side_ order) b)
       (b <| pool_ := mkPool a' fl |> <| orders_ := emplace (id_ order) slot (orders_ b) |>)).
       instantiate (1 := tt).
    destruct (side_ order); cbn [levels best_price level_count better] in *;
      (erewrite bind_Some by (unfold bid_level, ask_level; cbn; by rewrite Hq));
      unfold when; destruct (plq_empty q); rewrite ?modify_bind, ?ret_bind;
      (erewrite bind_Some by (by apply Hrun));
      unfold store_bid_level, store_ask_level; rewrite modify_bind, gets_bind; cbn; by case_if. }
  - rewrite <- Hitch. unfold add_itch. by rewrite (f_equal price_ Hu : price_ o' = price_ order).
  - apply deref_run. by destruct (side_ order).
Qed.

(** ** The representation of a book *)

(** The slots every level of both sides queues. *)
Abbreviation Ghost := (Side -> list (list nat)).

Definition book_slots (qs : Ghost) : list nat := concat (qs BID) ++ concat (qs ASK).

Definition set_qs (side : Side) (l : list (list nat)) (qs : Ghost) : Ghost :=
  fun side' => if decide (side' = side) then l else qs side'.

Record book_rep (b : Orderbook) (qs : Ghost) (s : SBook) : Prop := {
  br_pool : pool_wf (pool_ b) (book_slots qs);
  br_capacity : length (arena_ (pool_ b)) = PREALLOCATION_COUNT;
  br_sides : forall side, side_rep (arena_ (pool_ b)) side b (qs side);
  br_orders : forall id slot,
    orders_ b !! id = Some slot <-> slot ∈ book_slots qs /\ id_ <$> arena_ (pool_ b) !! slot = Some id;
  br_spec : forall side, sb_side side s = slot_orders (arena_ (pool_ b)) (side_slots side (qs side));
  br_match : next_match_number_ b = sb_next_match s;
}.

(** Everything but the resting orders. *)
Record same_output (b b' : Orderbook) : Prop := {
  so_out : out_ring_ b' = out_ring_ b;
  so_md : market_data_ring_ b' = market_data_ring_ b;
  so_drops : market_data_drops_ b' = market_data_drops_ b;
  so_clock : clock_ b' = clock_ b;
  so_answered : ctx_answered b' = ctx_answered b;
  so_tsc : tsc_reads b' = tsc_reads b;
}.

Lemma book_slots_elem qs p : p ∈ book_slots qs <-> exists side, p ∈ concat (qs side).
Proof.
  unfold book_slots. rewrite elem_of_app. split; [intros [?|?]; eauto|].
  intros [[|] ?]; eauto.
Qed.

Lemma book_slots_nodup b qs s side : book_rep b qs s -> NoDup (concat (qs side)).
Proof.
  intros H. pose proof (pool_wf_nodup _ _ (br_pool _ _ _ H)) as Hd.
  unfold book_slots in Hd. apply NoDup_app in Hd as (? & _ & ?). by destruct side.
Qed.

Lemma book_slots_side b qs s side side' p :
  book_rep b qs s -> p ∈ concat (qs side) -> p ∈ concat (qs side') -> side = side'.
Proof.
  intros H Hp Hp'. pose proof (pool_wf_nodup _ _ (br_pool _ _ _ H)) as Hd.
  apply NoDup_app in Hd as (_ & Hd & _).
  destruct side, side'; try done; by destruct (Hd p).
Qed.

(** Where a slot in use is queued. *)
Lemma book_slot_lookup b qs s p :
  book_rep b qs s -> p ∈ book_slots qs ->
  exists side i l1 l2 o, qs side !! i = Some (l1 ++ p :: l2) /\ arena_ (pool_ b) !! p = Some o /\
    side_ o = side /\ price_ o = level_price i.
Proof.
  intros H [side Hp]%book_slots_elem. apply elem_of_concat in Hp as (i & l & Hi & Hp).
  destruct (br_sides _ _ _ H side) as (Hlad & _).
  destruct (proj1 (Forall_forall _ _) (lr_slots _ _ _ _ Hlad i l Hi) p Hp) as (o & Ho & Hs & Hpr).
  apply list_elem_of_split in Hp as (l1 & l2 & ->). by exists side, i, l1, l2, o.
Qed.

(** An id names one slot. *)
Lemma book_id_unique b qs s p p' o o' :
  book_rep b qs s -> p ∈ book_slots qs -> p' ∈ book_slots qs ->
  arena_ (pool_ b) !! p = Some o -> arena_ (pool_ b) !! p' = Some o' -> id_ o = id_ o' -> p = p'.
Proof.
  intros H Hp Hp' Ho Ho' Hid.
  assert (orders_ b !! id_ o = Some p) as E1 by (apply (br_orders _ _ _ H); by rewrite Ho).
  assert (orders_ b !! id_ o = Some p') as E2 by (apply (br_orders _ _ _ H); rewrite Ho', Hid; done).
  congruence.
Qed.

Lemma book_elem b qs s side o :
  book_rep b qs s ->
  o ∈ sb_side side s <-> exists p o', p ∈ concat (qs side) /\ arena_ (pool_ b) !! p = Some o' /\ o = unlinked o'.
Proof.
  intros H. rewrite (br_spec _ _ _ H), slot_orders_elem. by setoid_rewrite side_slots_perm.
Qed.

Lemma sb_find_rep b qs s id :
  book_rep b qs s -> sb_find id s = unlinked <$> (orders_ b !! id ≫= (fun p => arena_ (pool_ b) !! p)).
Proof.
  intros H.
  assert (forall side p o, orders_ b !! id = Some p -> arena_ (pool_ b) !! p = Some o ->
    p ∈ concat (qs side) -> find_id id (sb_side side s) = Some (unlinked o)) as Hin.
  { intros side p o Hp Ho Hc. apply (br_orders _ _ _ H) in Hp as [Hs Hid]. rewrite Ho in Hid. simplify_eq/=.
    apply find_id_Some; [by apply (book_elem _ _ _ _ _ H); eauto|done|].
    intros o' (p' & o'' & Hp' & Ho'' & ->)%(book_elem _ _ _ _ _ H) Hid.
    assert (p' = p) as -> by (eapply book_id_unique; [done|apply book_slots_elem; eauto|done..]).
    congruence. }
  assert (forall side, (forall p, orders_ b !! id = Some p -> p ∉ concat (qs side)) ->
    find_id id (sb_side side s) = None) as Hout.
  { intros side Hn. apply find_id_None. intros o (p & o' & Hp & Ho & ->)%(book_elem _ _ _ _ _ H) Hid.
    apply (Hn p); [|done]. apply (br_orders _ _ _ H). rewrite Ho.
    split; [apply book_slots_elem; eauto|by rewrite <- Hid]. }
  assert (sb_find id s = match find_id id (sb_side BID s) with
    Some o => Some o | None => find_id id (sb_side ASK s) end) as -> by done.
  destruct (orders_ b !! id) as [p|] eqn:E; [|by rewrite !Hout].
  pose proof E as [Hs _]%(br_orders _ _ _ H).
  destruct (book_slot_lookup _ _ _ _ H Hs) as (side & i & l1 & l2 & o & Hi & Ho & _).
  cbn [mbind option_bind]. rewrite Ho.
  assert (p ∈ concat (qs side)) as Hc by (by eapply elem_of_level).
  destruct side.
  - by rewrite (Hin BID p o).
  - rewrite (Hout BID), (Hin ASK p o); try done.
    intros p' [= <-] Hc'. by pose proof (book_slots_side _ _ _ _ _ _ H Hc Hc').
Qed.

(** A book with one side, the pool and the id map replaced. *)
Definition with_book (side : Side) (lv : list PriceLevelQueue) (best count : Z) (pool : OrderPool)
    (orders : gmap Z nat) (b : Orderbook) : Orderbook :=
  with_side side lv best count (b <| pool_ := pool |> <| orders_ := orders |>).

Lemma with_book_output side lv best count pool orders b :
  same_output b (with_book side lv best count pool orders b).
Proof. by destruct side. Qed.

Lemma with_book_side side lv best count pool orders b :
  let b' := with_book side lv best count pool orders b in
  levels side b' = lv /\ best_price side b' = best /\ level_count side b' = count.
Proof. by destruct side. Qed.

Lemma side_rep_frame a a' side b b' qs :
  (forall p, p ∈ concat qs -> a' !! p = a !! p) -> levels side b' = levels side b ->
  best_price side b' = best_price side b -> level_count side b' = level_count side b ->
  side_rep a side b qs -> side_rep a' side b' qs.
Proof.
  intros Hf H1 H2 H3 (Hlad & Hb & Hc). unfold side_rep. rewrite H1, H2, H3.
  split; [by eapply ladder_frame|done].
Qed.

Lemma set_qs_eq side l qs : set_qs side l qs side = l.
Proof. unfold set_qs. by rewrite decide_True. Qed.

Lemma set_qs_ne side side' l qs : side' <> side -> set_qs side l qs side' = qs side'.
Proof. intros. unfold set_qs. by rewrite decide_False. Qed.

Lemma book_rep_update b qs s side lv best count pool orders qs' :
  let b' := with_book side lv best count pool orders b in
  book_rep b qs s ->
  (forall p, p ∉ concat (qs side) -> p ∈ book_slots qs -> arena_ pool !! p = arena_ (pool_ b) !! p) ->
  pool_wf pool (book_slots (set_qs side qs' qs)) ->
  length (arena_ pool) = length (arena_ (pool_ b)) ->
  side_rep (arena_ pool) side b' qs' ->
  (forall id slot, orders !! id = Some slot <->
    slot ∈ book_slots (set_qs side qs' qs) /\ id_ <$> arena_ pool !! slot = Some id) ->
  book_rep b' (set_qs side qs' qs)
    (sb_set_side side (slot_orders (arena_ pool) (side_slots side qs')) s).
Proof.
  intros b' H Hf Hpool Hlen Hside Hord.
  assert (forall side', side' <> side -> forall p, p ∈ concat (qs side') ->
    arena_ pool !! p = arena_ (pool_ b) !! p) as Hother.
  { intros side' Hne p Hp. apply Hf; [|apply book_slots_elem; eauto].
    intros Hp'. by apply Hne; eapply book_slots_side. }
  assert (pool_ b' = pool) as Hpb by (by destruct side).
  split; rewrite ?Hpb.
  - done.
  - rewrite Hlen. apply H.
  - intros side'. destruct (decide (side' = side)) as [->|Hne]; [by rewrite set_qs_eq|].
    rewrite set_qs_ne by done.
    apply (side_rep_frame (arena_ (pool_ b)) _ _ b); [by apply Hother|..|apply H];
      by destruct side, side'.
  - replace (orders_ b') with orders by (by destruct side). done.
  - intros side'. destruct (decide (side' = side)) as [->|Hne].
    + rewrite set_qs_eq. by destruct side.
    + rewrite set_qs_ne by done.
      transitivity (sb_side side' s); [by destruct side, side'|]. rewrite (br_spec _ _ _ H).
      apply slot_orders_ext. intros p. rewrite side_slots_perm. intros Hp. by rewrite (Hother side').
  - transitivity (next_match_number_ b); [by destruct side|]. rewrite (br_match _ _ _ H). by destruct side.
Qed.

Lemma book_slots_update qs side i l l' n :
  qs side !! i = Some l -> l ≡ₚ n ++ l' ->
  book_slots qs ≡ₚ n ++ book_slots (set_qs side (<[i := l']> (qs side)) qs).
Proof.
  intros Hi Hl.
  assert (concat (qs side) ≡ₚ n ++ concat (<[i := l']> (qs side))) as Hc.
  { rewrite (concat_split _ _ _ Hi), (concat_insert _ _ _ _ Hi), Hl, <- !app_assoc.
    by rewrite !(Permutation_app_comm (concat (take i (qs side)))), <- !app_assoc. }
  unfold book_slots. destruct side.
  - rewrite set_qs_eq, set_qs_ne, Hc by done. by rewrite app_assoc.
  - rewrite set_qs_eq, set_qs_ne, Hc by done. rewrite (Permutation_app_comm (concat (qs BID))), <- app_assoc.
    by rewrite (Permutation_app_comm (concat (qs BID))).
Qed.

Lemma same_data_id a a' p : same_data a a' -> id_ <$> a !! p = id_ <$> a' !! p.
Proof.
  intros H. specialize (H p). destruct (a !! p), (a' !! p); try done. simpl in *. f_equal.
  apply (f_equal (fmap id_)) in H. by simplify_eq/=.
Qed.

Lemma book_slots_insert qs side i l n :
  qs side !! i = Some l ->
  book_slots (set_qs side (<[i := l ++ [n]]> (qs side)) qs) ≡ₚ n :: book_slots qs.
Proof.
  intros Hi. set (qs2 := set_qs side (<[i := l ++ [n]]> (qs side)) qs).
  assert (qs2 side !! i = Some (l ++ [n])) as Hi2.
  { unfold qs2. rewrite set_qs_eq. apply list_lookup_insert_eq. by eapply lookup_lt_Some. }
  rewrite (book_slots_update qs2 side i _ l [n] Hi2) by apply Permutation_app_comm.
  simpl. f_equiv. unfold book_slots, qs2. destruct side;
    by rewrite !set_qs_eq, !set_qs_ne, list_insert_insert_eq, list_insert_id by done.
Qed.

(** ** Removing an order *)

Lemma drop_rep b qs s id p :
  book_rep b qs s -> orders_ b !! id = Some p ->
  exists o b1 b2 qs', arena_ (pool_ b) !! p = Some o /\ unlink p b = Some (tt, b1) /\
    release p b1 = Some (tt, b2) /\ book_rep b2 qs' (sb_remove o s) /\ same_output b b2.
Proof.
  intros H Hid. pose proof Hid as [Hs Hid']%(br_orders _ _ _ H).
  destruct (book_slot_lookup _ _ _ _ H Hs) as (side & i & l1 & l2 & o & Hi & Ho & Hsd & Hpr).
  rewrite Ho in Hid'. injection Hid' as <-.
  pose proof (book_slots_nodup _ _ _ side H) as Hd.
  destruct (unlink_run side b (qs side) i l1 p l2 (br_sides _ _ _ H side) Hd Hi)
    as (lv & best & count & a' & Hun & Hrep & Hsame & Hframe).
  set (qs' := <[i := l1 ++ l2]> (qs side)) in *.
  set (pool := pool_deallocate p ((pool_ b) <| arena_ := a' |>)).
  set (orders := delete (id_ o) (orders_ b)).
  assert (book_slots qs ≡ₚ p :: book_slots (set_qs side qs' qs)) as Hslots
    by (apply (book_slots_update qs side i _ _ [p] Hi); symmetry; exact (Permutation_middle l1 l2 p)).
  assert (p ∉ book_slots (set_qs side qs' qs)) as Hp.
  { pose proof (pool_wf_nodup _ _ (br_pool _ _ _ H)) as Hn. rewrite Hslots in Hn. by apply NoDup_cons in Hn as [? _]. }
  destruct (same_data_lookup _ _ _ _ Hsame Ho) as (o' & Ho' & Hu).
  exists o, (with_side side lv best count (with_arena a' b)), (with_book side lv best count pool orders b), (set_qs side qs' qs).
  split; [done|]. split; [done|]. split; [|split; [|apply with_book_output]].
  { assert (arena_ (pool_ (with_side side lv best count (with_arena a' b))) !! p = Some o') as Hp'
      by (by destruct side).
    unfold release. rewrite (bind_Some _ _ _ _ _ (deref_run p _ o' Hp')).
    rewrite modify_bind. unfold orders. rewrite <- (f_equal id_ Hu : id_ o' = id_ o).
    by destruct side. }
  unfold sb_remove. rewrite Hsd.
  replace (remove_id _ _) with (slot_orders (arena_ pool) (side_slots side qs')).
  apply book_rep_update; try done.
  - intros x Hx _. by apply Hframe.
  - apply pool_deallocate_spec, pool_wf_arena; [symmetry; by apply same_data_length|].
    rewrite <- Hslots. apply H.
  - symmetry. by apply same_data_length.
  - by destruct side.
  - intros id slot. unfold orders, pool. cbn. rewrite lookup_delete_Some, (br_orders _ _ _ H), Hslots.
    rewrite <- (same_data_id _ _ slot Hsame). split.
    + intros (Hne & [->|?]%elem_of_cons & Hid'); [|done]. rewrite Ho in Hid'. by simplify_eq/=.
    + intros [Hin Hid']. split; [|split; [by right|done]]. intros <-.
      apply Hp. replace p with slot; [done|].
      assert (orders_ b !! id_ o = Some slot) as Hs2; [|congruence].
      apply (br_orders _ _ _ H). rewrite Hslots. split; [by right|done].
  - rewrite (br_spec _ _ _ H). destruct (side_split side (qs side) i _ Hi) as (pre & post & Hins & _).
    pose proof Hins as Hins'. unfold qs'. rewrite Hins. specialize (Hins (l1 ++ p :: l2)). rewrite list_insert_id in Hins by done.
    rewrite Hins, <- !app_assoc. cbn [app]. rewrite (app_assoc pre l1 (p :: l2 ++ post)), (app_assoc pre l1).
    rewrite (slot_orders_remove _ _ _ _ _ Ho).
    + symmetry. apply slot_orders_ext. intros x _. apply Hsame.
    + intros x o2 Hx Ho2 Heq. apply Hp.
      assert (x ∈ book_slots (set_qs side qs' qs)) as Hin.
      { apply book_slots_elem. exists side. rewrite set_qs_eq, <- (side_slots_perm side). unfold qs'.
        rewrite Hins', <- !app_assoc. by rewrite <- app_assoc in Hx. }
      replace p with x; [done|]. eapply (book_id_unique b qs s); try done. rewrite Hslots. by right.
Qed.

(** ** Resting an order *)

(** Placing [o] behind level [i] is [insert_order]. *)
Lemma insert_order_level a side lv qs i l n o :
  ladder_rep a side lv qs -> qs !! i = Some l -> a !! n = Some o -> price_ o = level_price i ->
  slot_orders a (side_slots side (<[i := l ++ [n]]> qs))
  = insert_order side (unlinked o) (slot_orders a (side_slots side qs)).
Proof.
  intros Hlad Hi Ho Hp. destruct (side_split side qs i l Hi) as (pre & post & Hins & Hpre & Hpost).
  rewrite Hins. specialize (Hins l). rewrite list_insert_id in Hins by done. rewrite Hins.
  assert (forall j m x o', qs !! j = Some m -> x ∈ m -> a !! x = Some o' -> price_ o' = level_price j) as Hpr.
  { intros j m x o' Hj Hx Ho'.
    destruct (proj1 (Forall_forall _ _) (lr_slots _ _ _ _ Hlad j m Hj) x Hx) as (o2 & Ho2 & _ & <-).
    congruence. }
  replace (pre ++ (l ++ [n]) ++ post) with ((pre ++ l) ++ n :: post) by (by rewrite <- !app_assoc).
  rewrite (app_assoc pre l post), !(slot_orders_app a (pre ++ l)), (slot_orders_cons _ _ _ _ Ho).
  symmetry. apply insert_order_middle; apply Forall_forall; intros x (y & o' & Hy & Ho' & ->)%slot_orders_elem;
    cbn [price_ unlinked]; change (price_ (unlinked o)) with (price_ o); rewrite Hp.
  - apply elem_of_app in Hy as [Hy|Hy].
    + destruct (Hpre y Hy) as (j & m & Hb & Hj & Hm). rewrite (Hpr j m y o' Hj Hm Ho').
      destruct (better _ _ _) eqn:E; [|done]. apply better_level_price in E.
      by destruct (before_irrefl side i); eapply before_trans.
    + rewrite (Hpr i l y o' Hi Hy Ho'). destruct (better _ _ _) eqn:E; [|done].
      apply better_level_price in E. by destruct (before_irrefl side i).
  - destruct (Hpost y Hy) as (j & m & Hb & Hj & Hm). rewrite (Hpr j m y o' Hj Hm Ho').
    by apply better_level_price.
Qed.

(** The caches after a push at level [i]. *)
Lemma side_rep_push a a' side b b' qs i l n q lv' :
  side_rep a side b qs -> qs !! i = Some l -> plq_rep a q l ->
  ladder_rep a' side lv' (<[i := l ++ [n]]> qs) -> levels side b' = lv' ->
  best_price side b' = (if better side (level_price i) (best_price side b) then level_price i else best_price side b) ->
  level_count side b' = (if plq_empty q then u64 (level_count side b + 1) else level_count side b) ->
  side_rep a' side b' (<[i := l ++ [n]]> qs).
Proof.
  intros (Hlad & Hbest & Hcount) Hi Hr Hlad' Hl' Hb' Hc'. pose proof (ladder_qs_len _ _ _ _ Hlad) as Hlen.
  assert (l ++ [n] <> []) as Hne by (by destruct l).
  unfold side_rep. rewrite Hl', Hb', Hc'. split; [done|]. split; [by eapply best_ok_push|].
  pose proof (nonempty_levels_insert qs i l (l ++ [n]) Hi) as Hn.
  pose proof (ladder_size_u64 qs Hlen) as Hz. rewrite Hcount, (plq_empty_rep _ _ _ Hr).
  unfold occupied in Hn. rewrite (decide_False (P := l ++ [n] = [])) in Hn by done.
  case_bool_decide; case_decide; try done; [rewrite u64_id by ulia|]; lia.
Qed.

Lemma rest_rep ctx b qs s order publish_add :
  book_rep b qs s -> in_band (price_ order) -> unlinked order = order ->
  orders_ b !! id_ order = None -> pool_available (pool_ b) <> 0%nat ->
  let side := side_ order in
  exists b1 qs', rest ctx order publish_add b = when publish_add (publish (add_itch ctx order)) b1 /\
    book_rep b1 qs' (sb_set_side side (insert_order side order (sb_side side s)) s) /\ same_output b b1.
Proof.
  intros H Hband Hun Hid Hav side.
  pose proof (pool_allocate_spec _ _ order (br_pool _ _ _ H)) as Hal. unfold pool_allocate in Hal.
  destruct (free_list_ (pool_ b)) as [|slot fl] eqn:Hfree; [by destruct Hal|].
  destruct Hal as (Hnew & Hlt & Hwf & _ & _). set (a0 := <[slot := order]> (arena_ (pool_ b))) in *.
  assert (forall x, x ∈ book_slots qs -> a0 !! x = arena_ (pool_ b) !! x) as Hf0.
  { intros x Hx. unfold a0. rewrite list_lookup_insert_ne; [done|]. by intros ->. }
  assert (a0 !! slot = Some order) as Hslot by (by apply list_lookup_insert_eq).
  destruct (level_price_index _ Hband) as [Hlp Hli]. set (i := level_index (price_ order)) in *.
  assert (side_rep a0 side b (qs side)) as (Hlad & Hbest & Hcount).
  { eapply side_rep_frame; [|done..|apply H]. intros x Hx. apply Hf0, book_slots_elem. eauto. }
  destruct (ladder_level _ _ _ _ _ Hlad Hli) as (q & l & Hq & Hl & Hr).
  assert (slot ∉ concat (qs side)) as Hns by (intros Hx; apply Hnew, book_slots_elem; eauto).
  destruct (ladder_push a0 side (levels side b) (qs side) i l slot order q) as (q' & a' & Hpush & Hr' & Hlad' & Hsame & Hf);
    try done; [by eapply book_slots_nodup|by rewrite <- Hun|by rewrite <- Hun|by exists order|].
  destruct (same_data_lookup _ _ _ _ Hsame Hslot) as (o' & Ho' & Hu').
  set (qs' := <[i := l ++ [slot]]> (qs side)) in *.
  assert (book_slots (set_qs side qs' qs) ≡ₚ slot :: book_slots qs) as Hslots.
  { unfold qs'. by apply book_slots_insert. }
  eexists _, (set_qs side qs' qs). split; [by eapply rest_step|]. split; [|by destruct (side_ order)].
  fold side. fold i.
  assert (insert_order side order (sb_side side s) = slot_orders a' (side_slots side qs')) as ->.
  { rewrite (slot_orders_ext a' a0) by (intros x _; symmetry; apply Hsame). unfold qs'.
    rewrite (insert_order_level _ _ _ _ _ _ _ _ Hlad Hl Hslot (eq_sym Hlp)), Hun. f_equal.
    rewrite (br_spec _ _ _ H). apply slot_orders_ext. intros x. rewrite side_slots_perm. intros Hx.
    rewrite Hf0; [done|]. apply book_slots_elem. eauto. }
  apply (book_rep_update b qs s side _ _ _ (mkPool a' fl) _ qs' H); cbn [arena_].
  - intros x Hx1 Hx2. rewrite Hf; [by apply Hf0|]. intros [->|?]%elem_of_cons; done.
  - rewrite Hslots. apply (pool_wf_arena (mkPool a0 fl)); [symmetry; by apply same_data_length|done].
  - rewrite <- (same_data_length _ _ Hsame). apply length_insert.
  - destruct (with_book_side side (<[i := q']> (levels side b))
      (if better side (price_ order) (best_price side b) then price_ order else best_price side b)
      (if plq_empty q then u64 (level_count side b + 1) else level_count side b)
      (mkPool a' fl) (emplace (id_ order) slot (orders_ b)) b) as (E1 & E2 & E3).
    eapply side_rep_push; [done|done|done|done|exact E1|by rewrite Hlp|exact E3].
  - intros id x. rewrite Hslots, <- (same_data_id _ _ x Hsame), elem_of_cons.
    unfold emplace. rewrite Hid, lookup_insert_Some, (br_orders _ _ _ H). split.
    + intros [[<- <-]|(Hne & Hx & Hid')]; [rewrite Hslot; auto|]. rewrite Hf0 by done. auto.
    + intros [[->|Hx] Hid']; [rewrite Hslot in Hid'; by simplify_eq/=; left|].
      rewrite Hf0 in Hid' by done. right. split; [|done]. intros <-.
      assert (orders_ b !! id_ order = Some x) as Hs2 by (by apply (br_orders _ _ _ H)). congruence.
Qed.

(** ** Changing the quantities of an order in place *)

Record keeps_place (f : Order -> Order) : Prop := {
  kp_links : forall o, prev_ (f o) = prev_ o /\ next_ (f o) = next_ o /\ side_ (f o) = side_ o /\ price_ (f o) = price_ o;
  kp_id : forall o, id_ (f o) = id_ o;
  kp_unlinked : forall o, unlinked (f o) = f (unlinked o);
}.

Definition update_id (id : Z) (f : Order -> Order) (l : list Order) : list Order :=
  (fun o => if decide (id_ o = id) then f o else o) <$> l.

Lemma store_run p f b o :
  arena_ (pool_ b) !! p = Some o ->
  on_arena (store_order p f) b = Some (tt, with_arena (alter f p (arena_ (pool_ b))) b).
Proof.
  intros Ho. apply on_arena_run. unfold store_order. rewrite Ho. simpl. do 2 f_equal.
  rewrite list_insert_alter. apply list_alter_ext; [|done]. congruence.
Qed.

Lemma slot_orders_alter a p f o l :
  a !! p = Some o -> keeps_place f ->
  (forall x o', x ∈ l -> a !! x = Some o' -> id_ o' = id_ o -> x = p) ->
  slot_orders (alter f p a) l = update_id (id_ o) f (slot_orders a l).
Proof.
  intros Ho Hf. induction l as [|x l IH]; intros Hid; [done|]. change (x :: l) with ([x] ++ l).
  unfold update_id in *. rewrite !slot_orders_app, fmap_app, IH by (intros; eapply Hid; [by right|done..]).
  f_equal. unfold slot_orders. cbn. destruct (decide (x = p)) as [->|Hne].
  - rewrite list_lookup_alter_eq, Ho. cbn. rewrite decide_True by done. by rewrite (kp_unlinked _ Hf).
  - rewrite list_lookup_alter_ne by done. destruct (a !! x) as [o'|] eqn:Ho'; [|done]. cbn.
    rewrite decide_False; [done|]. intros Heq. apply Hne. eapply Hid; [left|done..].
Qed.

Lemma alter_rep b qs s p o f :
  book_rep b qs s -> p ∈ book_slots qs -> arena_ (pool_ b) !! p = Some o -> keeps_place f ->
  let side := side_ o in
  book_rep (with_arena (alter f p (arena_ (pool_ b))) b) qs
    (sb_set_side side (update_id (id_ o) f (sb_side side s)) s).
Proof.
  intros H Hp Ho Hf side.
  destruct (book_slot_lookup _ _ _ _ H Hp) as (side' & i & l1 & l2 & o2 & Hi & Ho2 & Hsd & Hpr).
  assert (o2 = o) as -> by congruence. assert (p ∈ concat (qs side)) as Hps by (subst side side'; by eapply elem_of_level).
  clear side' Hsd Hi Hpr Ho2.
  assert (forall x, id_ <$> alter f p (arena_ (pool_ b)) !! x = id_ <$> arena_ (pool_ b) !! x) as Hids.
  { intros x. destruct (decide (x = p)) as [->|]; [|by rewrite list_lookup_alter_ne].
    rewrite list_lookup_alter_eq, Ho. simpl. by rewrite (kp_id _ Hf). }
  split; cbn.
  - apply pool_wf_arena; [by rewrite length_alter|apply H].
  - rewrite length_alter. apply H.
  - intros side'. destruct (br_sides _ _ _ H side') as (Hlad & Hb & Hc). split; [|by destruct side'].
    apply ladder_alter; [apply Hf|]. by destruct side'.
  - intros id x. rewrite Hids. apply H.
  - intros side'. destruct (decide (side' = side)) as [->|Hne].
    + rewrite (slot_orders_alter _ _ _ _ _ Ho Hf), <- (br_spec _ _ _ H); [by destruct side|].
      intros x o'. rewrite side_slots_perm. intros Hx Ho' Hid.
      eapply (book_id_unique b qs s); try done. apply book_slots_elem; eauto.
    + transitivity (sb_side side' s); [by destruct side, side'|]. rewrite (br_spec _ _ _ H).
      apply slot_orders_ext. intros x. rewrite side_slots_perm. intros Hx.
      rewrite list_lookup_alter_ne; [done|]. intros <-. apply Hne. by eapply book_slots_side.
  - rewrite (br_match _ _ _ H). by destruct side.
Qed.

(** ** Output *)

Context (rdtsc : nat -> Z).

(** Events as [emit] stamps them: only the first one of a request answers it. *)
Fixpoint stamp_events (ctx : Context) (answered : bool) (tsc : nat) (evs : list EngineEvent) : list EngineEvent :=
  match evs with
  | [] => []
  | e :: evs' => stamp ctx (negb answered) (rdtsc tsc) e :: stamp_events ctx true (S tsc) evs'
  end.

(** What the market-data ring holds and drops: a message that finds [N - 1] others
    is lost and counted. *)
Definition feed_step (N : Z) (st : list ITCH * Z) (msg : ITCH) : list ITCH * Z :=
  if Z.of_nat (length st.1) <? N - 1 then (st.1 ++ [msg], st.2) else (st.1, u64 (st.2 + 1)).
Definition feed (N : Z) (st : list ITCH * Z) (msgs : list ITCH) : list ITCH * Z :=
  fold_left (feed_step N) msgs st.

Definition is_empty {A} (l : list A) : bool := match l with [] => true | _ => false end.

Record produced (N : Z) (ctx : Context) (evs : list EngineEvent) (itch : list ITCH) (b b' : Orderbook) : Prop := {
  pd_out : out_ring_ b' = out_ring_ b ++ stamp_events ctx (ctx_answered b) (tsc_reads b) evs;
  pd_answered : ctx_answered b' = ctx_answered b || negb (is_empty evs);
  pd_tsc : tsc_reads b' = (tsc_reads b + length evs)%nat;
  pd_clock : clock_ b' = clock_ b;
  pd_feed : forall l, ring_rep N (market_data_ring_ b) l ->
    ring_rep N (market_data_ring_ b') (feed N (l, market_data_drops_ b) itch).1 /\
    market_data_drops_ b' = (feed N (l, market_data_drops_ b) itch).2;
}.

(** The resting orders are the same. *)
Record same_book (b b' : Orderbook) : Prop := {
  sk_pool : pool_ b' = pool_ b;
  sk_bids : bids_ b' = bids_ b;
  sk_asks : asks_ b' = asks_ b;
  sk_orders : orders_ b' = orders_ b;
  sk_best_bid : best_bid_price_ b' = best_bid_price_ b;
  sk_best_ask : best_ask_price_ b' = best_ask_price_ b;
  sk_bid_levels : non_empty_bid_levels_ b' = non_empty_bid_levels_ b;
  sk_ask_levels : non_empty_ask_levels_ b' = non_empty_ask_levels_ b;
  sk_match : next_match_number_ b' = next_match_number_ b;
}.

Lemma book_rep_same b b' qs s : same_book b b' -> book_rep b qs s -> book_rep b' qs s.
Proof.
  intros [] []. split; rewrite ?sk_pool0, ?sk_orders0, ?sk_match0; try done.
  intros side. specialize (br_sides0 side).
  eapply side_rep_frame; [done|..|done]; by destruct side.
Qed.

Lemma stamp_events_app ctx answered tsc evs1 evs2 :
  stamp_events ctx answered tsc (evs1 ++ evs2) =
  stamp_events ctx answered tsc evs1 ++
  stamp_events ctx (answered || negb (is_empty evs1)) (tsc + length evs1) evs2.
Proof.
  revert answered tsc. induction evs1 as [|e evs1 IH]; intros answered tsc; cbn.
  - by rewrite orb_false_r, Nat.add_0_r.
  - by rewrite IH, orb_true_r, Nat.add_succ_r.
Qed.

Lemma produced_trans N ctx evs1 evs2 itch1 itch2 b b1 b2 :
  produced N ctx evs1 itch1 b b1 -> produced N ctx evs2 itch2 b1 b2 ->
  produced N ctx (evs1 ++ evs2) (itch1 ++ itch2) b b2.
Proof.
  intros H1 H2. split.
  - rewrite (pd_out _ _ _ _ _ _ H2), (pd_out _ _ _ _ _ _ H1), <- app_assoc, stamp_events_app.
    by rewrite (pd_answered _ _ _ _ _ _ H1), (pd_tsc _ _ _ _ _ _ H1).
  - rewrite (pd_answered _ _ _ _ _ _ H2), (pd_answered _ _ _ _ _ _ H1), <- orb_assoc. f_equal.
    by destruct evs1, evs2.
  - rewrite (pd_tsc _ _ _ _ _ _ H2), (pd_tsc _ _ _ _ _ _ H1), length_app. lia.
  - by rewrite (pd_clock _ _ _ _ _ _ H2), (pd_clock _ _ _ _ _ _ H1).
  - intros l Hl. destruct (pd_feed _ _ _ _ _ _ H1 l Hl) as [Hr Hd].
    destruct (pd_feed _ _ _ _ _ _ H2 _ Hr) as [Hr' Hd'].
    unfold feed in *. rewrite fold_left_app. rewrite Hd, <- surjective_pairing in Hr', Hd'. done.
Qed.

Lemma same_output_produced N ctx b b' : same_output b b' -> produced N ctx [] [] b b'.
Proof.
  intros []. split; cbn; rewrite ?app_nil_r, ?orb_false_r, ?Nat.add_0_r; try done.
  intros l Hl. by rewrite so_md0, so_drops0.
Qed.

Lemma emit_run N ctx e b :
  exists b', emit rdtsc ctx e b = Some (tt, b') /\ same_book b b' /\ produced N ctx [e] [] b b'.
Proof.
  eexists. split; [reflexivity|]. split; [done|]. split; cbn; try done.
  - by rewrite orb_true_r.
  - lia.
Qed.

Lemma publish_run N ctx msg b l :
  ring_rep N (market_data_ring_ b) l ->
  exists b', publish msg b = Some (tt, b') /\ same_book b b' /\ produced N ctx [] [msg] b b'.
Proof.
  intros Hl. unfold publish. destruct (push_spec N _ l msg Hl) as (r' & Hpush & Hr').
  rewrite Hpush. cbv zeta. eexists. split; [reflexivity|]. set (ok := _ <? _) in *.
  split; [by destruct ok|].
  split; try (destruct ok; cbn; rewrite ?app_nil_r, ?orb_false_r, ?Nat.add_0_r; done).
  intros l' Hl'. destruct (push_spec N _ l' msg Hl') as (r2 & Hpush2 & Hr2).
  rewrite Hpush in Hpush2. injection Hpush2 as Hok <-. unfold feed, feed_step. cbn. rewrite <- Hok.
  rewrite <- Hok in Hr2. by destruct ok.
Qed.
End Refine.

Arguments produced_trans {_ _ _ _ _ _ _ _ _ _} _ _.
Arguments pd_out {_ _ _ _ _ _ _} _.
Arguments pd_answered {_ _ _ _ _ _ _} _.
Arguments pd_tsc {_ _ _ _ _ _ _} _.
Arguments pd_clock {_ _ _ _ _ _ _} _.
Arguments pd_feed {_ _ _ _ _ _ _} _.
