(* ===== verification/OrderbookCorrect.v ===== *)
(** * OrderbookCorrect: the request handlers compute the specification

    On a represented book, [match_], [enter], [cancel], [replace_] and [process]
    of [orderbook.cpp] return, keep the representation and produce exactly the
    events and ITCH messages of [OrderbookSpec]. *)

From S2P Require Import Prelude Types Clock ItchProto RingBuffer PriceLevelQueue Validation WireCodec.
From S2P Require Import Orderbook OrderbookSpec Ladder OrderbookRefine.

Section Correct.
Context `{cfg : BookConfig}.
Context (rdtsc : nat -> Z).

(** ** The top of a side *)

Lemma book_ids_nodup b qs s side : book_rep b qs s -> NoDup (id_ <$> sb_side side s).
Proof.
  intros H. rewrite (br_spec _ _ _ H).
  assert (NoDup (side_slots side (qs side))) as Hd by (rewrite side_slots_perm; by eapply book_slots_nodup).
  assert (forall p, p ∈ side_slots side (qs side) -> p ∈ book_slots qs) as Hin.
  { intros p. rewrite side_slots_perm. intros. apply book_slots_elem. eauto. }
  induction (side_slots side (qs side)) as [|p l IH]; [apply NoDup_nil_2|].
  apply NoDup_cons in Hd as [Hp Hd]. specialize (IH Hd ltac:(intros; apply Hin; by right)).
  destruct (book_slot_lookup _ _ _ p H (Hin p ltac:(left))) as (_ & _ & _ & _ & o & _ & Ho & _).
  rewrite (slot_orders_cons _ _ _ _ Ho). cbn. apply NoDup_cons. split; [|done].
  intros (y & Hid & (x & o' & Hx & Ho' & ->)%slot_orders_elem)%list_elem_of_fmap.
  apply Hp. replace p with x; [done|].
  eapply (book_id_unique b qs s); [done|apply Hin; by right|apply Hin; by left|done..].
Qed.

Record top (side : Side) (b : Orderbook) (r : Order) (p : nat) (o : Order) : Prop := {
  tp_level : exists q, levels side b !! level_index (best_price side b) = Some q /\ plq_front q = Some p;
  tp_order : arena_ (pool_ b) !! p = Some o;
  tp_data : unlinked o = r;
  tp_best : best_price side b = price_ r;
  tp_side : side_ r = side;
  tp_count : level_count side b <> 0;
}.

Lemma book_top b qs s side r l :
  book_rep b qs s -> sb_side side s = r :: l ->
  exists p o, top side b r p o /\ p ∈ book_slots qs /\ orders_ b !! id_ r = Some p.
Proof.
  intros H Hs. rewrite (br_spec _ _ _ H) in Hs. destruct (br_sides _ _ _ H side) as (Hlad & Hbest & Hcount).
  destruct Hbest as [[H0 _]|(j & Hj & Hb)].
  { apply (nonempty_levels_slots side) in H0. by rewrite H0 in Hs. }
  pose proof (first_level_count _ _ _ Hj). pose proof Hj as [(p & m & Hm) _].
  destruct (first_level_head _ _ _ _ _ Hj Hm) as [post Hpost].
  destruct (proj1 (Forall_forall _ _) (lr_slots _ _ _ _ Hlad j _ Hm) p) as (o & Ho & Hsd & Hpr); [by left|].
  rewrite Hpost, (slot_orders_cons _ _ _ _ Ho) in Hs. injection Hs as <- _.
  assert (p ∈ book_slots qs) as Hp by (apply book_slots_elem; exists side; by apply (elem_of_level _ j [] p m)).
  exists p, o. split; [|split; [done|]].
  - pose proof (ladder_qs_lt _ _ _ _ _ _ Hlad Hm) as Hlt.
    destruct (ladder_level _ _ _ _ _ Hlad Hlt) as (q & l' & Hq & Hl' & Hr). simplify_eq.
    split; try done; [|cbn; congruence|lia].
    exists q. rewrite Hb, level_index_price by done. split; [done|]. apply Hr.
  - apply (br_orders _ _ _ H). by rewrite Ho.
Qed.

Lemma book_bottom b qs s side : book_rep b qs s -> sb_side side s = [] -> level_count side b = 0.
Proof.
  intros H Hs. rewrite (br_spec _ _ _ H) in Hs. destruct (br_sides _ _ _ H side) as (_ & _ & ->).
  rewrite (proj2 (nonempty_levels_slots side _)); [done|].
  apply length_zero_iff_nil. rewrite <- (slot_orders_length (arena_ (pool_ b))); [by rewrite Hs|].
  intros p Hp. rewrite side_slots_perm in Hp.
  destruct (book_slot_lookup b qs s p H) as (_ & _ & _ & _ & o & _ & Ho & _); [|by eexists].
  apply book_slots_elem. eauto.
Qed.

Lemma crosses_step side type price b :
  crosses side type price b =
  if level_count (opposite side) b =? 0 then false
  else crosses_price side type price (best_price (opposite side) b).
Proof. by destruct side, type. Qed.

Lemma crosses_rep b qs s side type price :
  book_rep b qs s ->
  crosses side type price b =
  match sb_side (opposite side) s with [] => false | r :: _ => crosses_price side type price (price_ r) end.
Proof.
  intros H. rewrite crosses_step. destruct (sb_side (opposite side) s) as [|r l] eqn:Hs.
  - by rewrite (book_bottom _ _ _ _ H Hs).
  - destruct (book_top _ _ _ _ _ _ H Hs) as (p & o & [] & _).
    by rewrite (proj2 (Z.eqb_neq _ _) tp_count0), tp_best0.
Qed.

(** ** One round of matching *)

(** The quantities of a resting order. *)
Definition qty_ok (o : Order) : Prop :=
  0 < open_quantity_ o /\ 0 <= executed_quantity_ o /\ is_u32 (open_quantity_ o + executed_quantity_ o).

Lemma sb_side_set side l s : sb_side side (sb_set_side side l s) = l.
Proof. by destruct side. Qed.

Lemma sb_set_set side l l' s : sb_set_side side l (sb_set_side side l' s) = sb_set_side side l s.
Proof. by destruct side. Qed.

Lemma sb_set_id side s : sb_set_side side (sb_side side s) s = s.
Proof. by destruct side, s. Qed.

Lemma sb_side_match side s n : sb_side side (s <| sb_next_match := n |>) = sb_side side s.
Proof. by destruct side. Qed.

Lemma sb_set_match side l s n :
  sb_set_side side l (s <| sb_next_match := n |>) = (sb_set_side side l s) <| sb_next_match := n |>.
Proof. by destruct side. Qed.

Lemma sb_next_set side l s : sb_next_match (sb_set_side side l s) = sb_next_match s.
Proof. by destruct side. Qed.

Lemma book_rep_match b qs s n :
  book_rep b qs s -> book_rep (b <| next_match_number_ := n |>) qs (s <| sb_next_match := n |>).
Proof.
  intros H. split; [apply H|apply H| |apply H| |done].
  - intros side. pose proof (br_sides _ _ _ H side) as Hs. by destruct side.
  - intros side. pose proof (br_spec _ _ _ H side) as Hs. by destruct side.
Qed.

Lemma update_id_head id f r l :
  id_ r = id -> id ∉ (id_ <$> l) -> update_id id f (r :: l) = f r :: l.
Proof.
  intros Hr Hl. unfold update_id. cbn. rewrite decide_True by done. f_equal.
  induction l as [|x l IH]; [done|]. cbn in *. rewrite decide_False, IH; [done|set_solver..].
Qed.

Definition take_open (fill : Z) (o : Order) : Order := o <| open_quantity_ := u32 (open_quantity_ o - fill) |>.
Definition add_executed (fill : Z) (o : Order) : Order :=
  o <| executed_quantity_ := u32 (executed_quantity_ o + fill) |>.

Lemma take_open_keeps fill : keeps_place (take_open fill).
Proof. by split. Qed.

Lemma add_executed_keeps fill : keeps_place (add_executed fill).
Proof. by split. Qed.

Lemma fill_order_run fill r :
  qty_ok r -> 0 <= fill <= open_quantity_ r -> add_executed fill (take_open fill r) = fill_order fill r.
Proof.
  intros (H1 & H2 & H3) Hf. unfold add_executed, take_open, fill_order. cbn.
  rewrite !u32_id by ulia. done.
Qed.

(** The two stores of a fill. *)
Lemma fill_rep b qs s side p o fill l :
  book_rep b qs s -> p ∈ book_slots qs -> arena_ (pool_ b) !! p = Some o -> side_ o = side ->
  sb_side side s = unlinked o :: l -> qty_ok o -> 0 <= fill <= open_quantity_ o ->
  let a1 := alter (take_open fill) p (arena_ (pool_ b)) in
  let a2 := alter (add_executed fill) p a1 in
  on_arena (store_order p (take_open fill)) b = Some (tt, with_arena a1 b) /\
  on_arena (store_order p (add_executed fill)) (with_arena a1 b) = Some (tt, with_arena a2 b) /\
  book_rep (with_arena a2 b) qs (sb_set_side side (fill_order fill (unlinked o) :: l) s) /\
  a2 !! p = Some (fill_order fill o).
Proof.
  intros H Hp Ho Hsd Hs Hq Hf a1 a2. subst side. pose proof (take_open_keeps fill) as K1.
  pose proof (add_executed_keeps fill) as K2.
  assert (a1 !! p = Some (take_open fill o)) as Ho1 by (unfold a1; by rewrite list_lookup_alter_eq, Ho).
  assert (id_ o ∉ (id_ <$> l)) as Hnd.
  { pose proof (book_ids_nodup _ _ _ (side_ o) H) as Hd. rewrite Hs in Hd. by apply NoDup_cons in Hd as [? _]. }
  split; [by apply (store_run p _ b o)|]. split; [by apply (store_run p _ (with_arena a1 b) (take_open fill o))|].
  split.
  - pose proof (alter_rep _ _ _ _ _ _ H Hp Ho K1) as H1.
    pose proof (alter_rep _ _ _ _ (take_open fill o) _ H1 Hp Ho1 K2) as H2.
    cbn [side_ id_ take_open] in H2. rewrite sb_side_set, sb_set_set in H2.
    rewrite Hs, !update_id_head, fill_order_run in H2; done.
  - unfold a2. rewrite list_lookup_alter_eq, Ho1. cbn [fmap option_fmap option_map]. f_equal. by apply fill_order_run.
Qed.

(** A filled order leaves the book. *)
Lemma when_filled_run b qs s side p o l :
  book_rep b qs s -> p ∈ book_slots qs -> arena_ (pool_ b) !! p = Some o -> side_ o = side ->
  sb_side side s = unlinked o :: l ->
  exists b' qs', when (is_filled o) (_ ← unlink p; release p) b = Some (tt, b') /\
    book_rep b' qs' (sb_set_side side (if open_quantity_ o =? 0 then l else unlinked o :: l) s) /\
    same_output b b'.
Proof.
  intros H Hp Ho Hsd Hs. unfold is_filled, when. destruct (open_quantity_ o =? 0).
  - assert (orders_ b !! id_ o = Some p) as Hid by (apply (br_orders _ _ _ H); by rewrite Ho).
    destruct (drop_rep _ _ _ _ _ H Hid) as (o2 & b1 & b2 & qs' & Ho2 & Hun & Hrel & Hrep & Hout).
    assert (o2 = o) as -> by congruence. exists b2, qs'.
    rewrite (bind_Some _ _ _ _ _ Hun). split; [done|]. split; [|done].
    unfold sb_remove in Hrep. rewrite Hsd, Hs in Hrep.
    replace (remove_id (id_ o) (unlinked o :: l)) with l in Hrep; [done|].
    pose proof (book_ids_nodup _ _ _ side H) as Hd. rewrite Hs in Hd. apply NoDup_cons in Hd as [Hn _].
    unfold remove_id. rewrite filter_cons_False by (cbn; tauto). symmetry. apply remove_id_none.
    apply Forall_forall. intros x Hx Heq. apply Hn. cbn. rewrite <- Heq. by apply list_elem_of_fmap_2.
  - exists b, qs. rewrite <- Hs, sb_set_id. done.
Qed.

(** Reading the opposite level of the source's two branches as one. *)
Lemma opposite_best side b :
  (match side with BID => best_ask_price_ | ASK => best_bid_price_ end) b = best_price (opposite side) b.
Proof. by destruct side. Qed.

Lemma opposite_level side price b q :
  levels (opposite side) b !! level_index price = Some q ->
  (match side with BID => ask_level price | ASK => bid_level price end) b = Some (q, b).
Proof. intros H. destruct side; unfold ask_level, bid_level; cbn in *; by rewrite H. Qed.

Lemma match_round N ctx id client_id side type price quantity fuel filled b qs s r l feed0 :
  book_rep b qs s -> ring_rep N (market_data_ring_ b) feed0 ->
  sb_side (opposite side) s = r :: l -> qty_ok r ->
  0 <= filled < quantity -> is_u32 quantity -> crosses_price side type price (price_ r) = true ->
  let fill := Z.min (quantity - filled) (open_quantity_ r) in
  let mn := sb_next_match s in
  exists b' qs',
    match_loop rdtsc ctx id client_id side type price quantity (S fuel) filled b
    = match_loop rdtsc ctx id client_id side type price quantity fuel (filled + fill) b' /\
    book_rep b' qs'
      ((sb_set_side (opposite side) (if open_quantity_ r =? fill then l else fill_order fill r :: l) s)
        <| sb_next_match := u64 (mn + 1) |>) /\
    produced rdtsc N ctx (fill_events id client_id mn [(r, fill)]) (fill_itch ctx mn [(r, fill)]) b b'.
Proof.
  intros H Hring Hs Hq Hfd Hquant Hcr fill mn.
  destruct (book_top _ _ _ _ _ _ H Hs) as (p & o & [(q & Hlev & Hfront) Ho Hdata Hbest Hsd Hcount] & Hp & Hid).
  assert (0 <= fill <= open_quantity_ r /\ 0 < fill <= quantity - filled) as [Hf1 Hf2]
    by (unfold fill; destruct Hq; lia).
  pose proof (book_rep_match _ _ _ (u64 (mn + 1)) H) as H1.
  set (b1 := b <| next_match_number_ := u64 (mn + 1) |>) in H1.
  set (s1 := s <| sb_next_match := u64 (mn + 1) |>) in H1.
  destruct (fill_rep b1 qs s1 (opposite side) p o fill l) as (Hst1 & Hst2 & H3 & Ho3);
    [done|done|done|by rewrite <- Hdata in Hsd|by rewrite Hdata; unfold s1; rewrite sb_side_match|
     by rewrite <- Hdata in Hq|by rewrite <- Hdata in Hf1|].
  set (a2 := alter (add_executed fill) p (alter (take_open fill) p (arena_ (pool_ b1)))) in *.
  set (b3 := with_arena a2 b1) in *.
  destruct (emit_run rdtsc N ctx (event id 0 mn client_id (price_ r) fill EXECUTED kRemovedLiquidity) b3)
    as (b4 & He1 & Hk1 & Hpd1).
  destruct (emit_run rdtsc N ctx (event (id_ r) 0 mn (client_id_ r) (price_ r) fill EXECUTED kAddedLiquidity) b4)
    as (b5 & He2 & Hk2 & Hpd2).
  assert (ring_rep N (market_data_ring_ b5) feed0) as Hring5.
  { apply (pd_feed Hpd2). apply (pd_feed Hpd1). done. }
  destruct (publish_run rdtsc N ctx (itch_order_executed (mkItchOrderExecuted (itch_header ctx ITCH_ORDER_EXECUTED)
              (id_ r) fill mn)) b5 feed0 Hring5) as (b6 & Hpub & Hk3 & Hpd3).
  assert (book_rep b6 qs (sb_set_side (opposite side) (fill_order fill (unlinked o) :: l) s1)) as H6
    by (by eapply book_rep_same, book_rep_same, book_rep_same).
  assert (arena_ (pool_ b6) = a2 /\ arena_ (pool_ b5) = a2) as [Ha6 Ha5].
  { by rewrite (sk_pool _ _ Hk3), (sk_pool _ _ Hk2), (sk_pool _ _ Hk1). }
  destruct (when_filled_run b6 qs (sb_set_side (opposite side) (fill_order fill (unlinked o) :: l) s1)
              (opposite side) p (fill_order fill o) l) as (b7 & qs' & Hw & H7 & Hout);
    [done|done|by rewrite Ha6|by rewrite <- Hdata in Hsd|by rewrite sb_side_set|].
  exists b7, qs'. split; [|split].
  - cbn [match_loop]. rewrite gets_bind, (crosses_rep _ _ _ _ _ _ H), Hs, Hcr.
    rewrite (proj2 (Z.ltb_lt filled quantity)) by lia. cbn [andb]. rewrite gets_bind, opposite_best, Hbest.
    rewrite Hbest in Hlev. rewrite (bind_Some _ _ _ _ _ (opposite_level _ _ _ _ Hlev)).
    unfold front_order. rewrite (lift_bind _ _ _ _ Hfront), (bind_Some _ _ _ _ _ (deref_run p b o Ho)).
    rewrite gets_bind, modify_bind, (br_match _ _ _ H). fold mn. fold b1. cbv zeta.
    rewrite (u32_id (quantity - filled)) by ulia.
    change (open_quantity_ o) with (open_quantity_ (unlinked o)). rewrite Hdata. fold fill.
    rewrite (u32_id (filled + fill)) by ulia.
    change (fun o0 => o0 <| open_quantity_ := u32 (open_quantity_ o0 - fill) |>) with (take_open fill).
    change (fun o0 => o0 <| executed_quantity_ := u32 (executed_quantity_ o0 + fill) |>) with (add_executed fill).
    rewrite (bind_Some _ _ _ _ _ Hst1), (bind_Some _ _ _ _ _ Hst2), (bind_Some _ _ _ _ _ He1).
    erewrite bind_Some by (apply (deref_run p b4 (fill_order fill o)); by rewrite (sk_pool _ _ Hk1)).
    change (id_ (fill_order fill o)) with (id_ (unlinked o)).
    change (client_id_ (fill_order fill o)) with (client_id_ (unlinked o)). rewrite Hdata.
    by rewrite (bind_Some _ _ _ _ _ He2), (bind_Some _ _ _ _ _ Hpub), (bind_Some _ _ _ _ _ Hw).
  - rewrite sb_set_set in H7. unfold s1 in H7. rewrite sb_set_match in H7.
    change (unlinked (fill_order fill o)) with (fill_order fill (unlinked o)) in H7.
    change (open_quantity_ (fill_order fill o)) with (open_quantity_ (unlinked o) - fill) in H7.
    rewrite Hdata in H7. replace (open_quantity_ r =? fill) with (open_quantity_ r - fill =? 0); [done|].
    apply eq_true_iff_eq. rewrite !Z.eqb_eq. lia.
  - assert (same_output b b3) as Hout0 by done.
    pose proof (same_output_produced rdtsc N ctx _ _ Hout) as Hpd4.
    pose proof (same_output_produced rdtsc N ctx _ _ Hout0) as Hpd0.
    exact (produced_trans (produced_trans (produced_trans (produced_trans Hpd0 Hpd1) Hpd2) Hpd3) Hpd4).
Qed.

(** ** The matching loop *)

Lemma take_liquidity_0 side type price l : take_liquidity side type price 0 l = ([], l).
Proof. by destruct l. Qed.

(** [produced] keeps the ring usable. *)
Lemma produced_ring N ctx evs itch b b' l :
  produced rdtsc N ctx evs itch b b' -> ring_rep N (market_data_ring_ b) l ->
  exists l', ring_rep N (market_data_ring_ b') l'.
Proof. intros H Hl. eexists. by apply (pd_feed H). Qed.

Lemma produced_nil N ctx b : produced rdtsc N ctx [] [] b b.
Proof. by apply same_output_produced. Qed.

(** One fill, then the rest. *)
Lemma fill_events_cons id client_id mn f fills :
  fill_events id client_id mn (f :: fills)
  = fill_events id client_id mn [f] ++ fill_events id client_id (u64 (mn + 1)) fills.
Proof. by destruct f. Qed.

Lemma fill_itch_cons ctx mn f fills :
  fill_itch ctx mn (f :: fills) = fill_itch ctx mn [f] ++ fill_itch ctx (u64 (mn + 1)) fills.
Proof. by destruct f. Qed.

(** The loop returned [filled] plus the shares of [fills], left [kept] on the
    opposite side and reported every fill. *)
Definition matched N ctx id client_id side (filled : Z) (fills : list (Order * Z)) (kept : list Order)
    (b : Orderbook) (s : SBook) (res : option (Z * Orderbook)) : Prop :=
  exists b' qs',
    res = Some (filled + filled_shares fills, b') /\
    book_rep b' qs' ((sb_set_side (opposite side) kept s)
      <| sb_next_match := after_fills (sb_next_match s) fills |>) /\
    produced rdtsc N ctx (fill_events id client_id (sb_next_match s) fills)
      (fill_itch ctx (sb_next_match s) fills) b b'.

Lemma match_loop_stop N ctx id client_id side type price quantity fuel filled b qs s :
  book_rep b qs s -> ((filled <? quantity) && crosses side type price b)%bool = false ->
  matched N ctx id client_id side filled [] (sb_side (opposite side) s) b s
    (match_loop rdtsc ctx id client_id side type price quantity (S fuel) filled b).
Proof.
  intros H Hcond. exists b, qs. cbn [match_loop]. rewrite gets_bind, Hcond, sb_set_id. cbn.
  rewrite Z.add_0_r. split; [done|]. split; [by destruct s|apply produced_nil].
Qed.

Lemma matched_cons N ctx id client_id side filled r fill fills mid kept b b1 s res :
  let s1 := (sb_set_side (opposite side) mid s) <| sb_next_match := u64 (sb_next_match s + 1) |> in
  produced rdtsc N ctx (fill_events id client_id (sb_next_match s) [(r, fill)])
    (fill_itch ctx (sb_next_match s) [(r, fill)]) b b1 ->
  matched N ctx id client_id side (filled + fill) fills kept b1 s1 res ->
  matched N ctx id client_id side filled ((r, fill) :: fills) kept b s res.
Proof.
  intros s1 Hpd (b2 & qs2 & Hrun & H2 & Hpd2). exists b2, qs2. split; [|split].
  - rewrite Hrun. cbn [filled_shares foldr snd]. by rewrite Z.add_assoc.
  - unfold s1 in H2. rewrite sb_set_match, sb_set_set in H2. exact H2.
  - rewrite fill_events_cons, fill_itch_cons. exact (produced_trans Hpd Hpd2).
Qed.

Lemma match_loop_run N ctx id client_id side type price quantity fuel filled b qs s feed0 fills kept :
  book_rep b qs s -> ring_rep N (market_data_ring_ b) feed0 ->
  Forall qty_ok (sb_side (opposite side) s) ->
  0 <= filled <= quantity -> is_u32 quantity -> (Z.to_nat (quantity - filled) < fuel)%nat ->
  take_liquidity side type price (quantity - filled) (sb_side (opposite side) s) = (fills, kept) ->
  matched N ctx id client_id side filled fills kept b s
    (match_loop rdtsc ctx id client_id side type price quantity fuel filled b).
Proof.
  revert filled b qs s feed0 fills kept. induction fuel as [|fuel IH]; [lia|].
  intros filled b qs s feed0 fills kept H Hring Hqty Hfd Hquant Hfuel Htake.
  pose proof (match_loop_stop N ctx id client_id side type price quantity fuel filled b qs s H) as Hstop.
  rewrite (crosses_rep _ _ _ _ _ _ H) in Hstop.
  destruct (sb_side (opposite side) s) as [|r l] eqn:Hs.
  { injection Htake as <- <-. apply Hstop. apply andb_false_r. }
  cbn [take_liquidity] in Htake.
  destruct ((0 <? quantity - filled) && crosses_price side type price (price_ r)) eqn:Hgo; cycle 1.
  { injection Htake as <- <-. apply Hstop. destruct (filled <? quantity) eqn:E; [|done]. zbool.
    by rewrite (proj2 (Z.ltb_lt 0 (quantity - filled))) in Hgo by lia. }
  clear Hstop. apply andb_true_iff in Hgo as [Hw Hcr]. zbool.
  apply Forall_cons in Hqty as [Hqr Hql].
  destruct (match_round N ctx id client_id side type price quantity fuel filled b qs s r l feed0)
    as (b1 & qs1 & Hrun & H1 & Hpd); [done..|lia|done|done|]. cbv zeta in Hrun, H1, Hpd, Htake.
  set (fill := Z.min (quantity - filled) (open_quantity_ r)) in *.
  destruct (produced_ring _ _ _ _ _ _ _ Hpd Hring) as [feed1 Hring1].
  assert (0 < fill <= quantity - filled /\ fill <= open_quantity_ r) as [Hf1 Hf2] by (unfold fill; destruct Hqr; lia).
  rewrite Hrun. destruct (open_quantity_ r =? fill) eqn:Hall.
  - destruct (take_liquidity side type price (quantity - filled - fill) l) as [fills' kept'] eqn:Ht'.
    injection Htake as <- <-. apply (matched_cons _ _ _ _ _ _ _ _ _ l _ _ b1 _ _ Hpd).
    eapply IH; [exact H1|exact Hring1|..|lia|done|lia|]; rewrite sb_side_match, sb_side_set; [done|].
    by rewrite Z.sub_add_distr.
  - injection Htake as <- <-. zbool. assert (fill = quantity - filled) as Hfill by (unfold fill in *; lia).
    apply (matched_cons _ _ _ _ _ _ _ _ _ (fill_order fill r :: l) _ _ b1 _ _ Hpd).
    eapply IH; [exact H1|exact Hring1|..|lia|done|lia|]; rewrite sb_side_match, sb_side_set.
    + apply Forall_cons. split; [|done]. destruct Hqr as (? & ? & ?). unfold qty_ok, fill_order. cbn. ulia.
    + replace (quantity - _) with 0 by lia. apply take_liquidity_0.
Qed.

(** ** Facts about the specification the handlers rely on *)

Lemma take_liquidity_shares side type price wanted l fills kept :
  Forall qty_ok l -> 0 <= wanted -> take_liquidity side type price wanted l = (fills, kept) ->
  0 <= filled_shares fills <= wanted.
Proof.
  intros Hl. revert wanted fills kept. induction Hl as [|r l Hr _ IH]; intros wanted fills kept Hw Ht.
  { injection Ht as <- <-. done. }
  cbn in Ht. destruct ((0 <? wanted) && _) eqn:E in Ht; [|by injection Ht as <- <-]. zbool.
  destruct Hr as (Hr & _). destruct (open_quantity_ r =? _) eqn:E2 in Ht; zbool.
  - destruct (take_liquidity _ _ _ _ l) as [fills' kept'] eqn:Ht' in Ht. injection Ht as <- <-.
    apply IH in Ht'; [|lia]. unfold filled_shares in *. cbn [foldr snd]. lia.
  - injection Ht as <- <-. cbn. lia.
Qed.

(** What is kept is what was there, quantities apart. *)
Lemma take_liquidity_ids side type price wanted l fills kept :
  take_liquidity side type price wanted l = (fills, kept) ->
  exists gone, id_ <$> l = gone ++ (id_ <$> kept).
Proof.
  revert wanted fills kept. induction l as [|r l IH]; intros wanted fills kept Ht.
  { injection Ht as <- <-. by exists []. }
  cbn in Ht. destruct ((0 <? wanted) && _) in Ht; [|injection Ht as <- <-; by exists []].
  destruct (open_quantity_ r =? _) in Ht.
  - destruct (take_liquidity _ _ _ _ l) as [fills' kept'] eqn:Ht' in Ht. injection Ht as <- <-.
    destruct (IH _ _ _ Ht') as [gone Hg]. exists (id_ r :: gone). cbn. by rewrite Hg.
  - injection Ht as <- <-. by exists [].
Qed.

Definition sb_ids (s : SBook) : list Z := (id_ <$> sb_bids s) ++ (id_ <$> sb_asks s).

Lemma find_id_elem id l : find_id id l = None <-> id ∉ (id_ <$> l).
Proof.
  split.
  - intros H (o & -> & Ho)%list_elem_of_fmap. unfold find_id in H.
    assert (o ∈ filter (fun x => id_ x = id_ o) l) as Hin by (by apply list_elem_of_filter).
    destruct (filter _ l); [by apply elem_of_nil in Hin|done].
  - intros H. apply find_id_None. intros o Ho <-. apply H. by apply list_elem_of_fmap_2.
Qed.

Lemma sb_find_None id s : sb_find id s = None <-> id ∉ sb_ids s.
Proof.
  unfold sb_find, sb_ids. rewrite not_elem_of_app, <- !find_id_elem.
  destruct (find_id id (sb_bids s)); naive_solver.
Qed.

Lemma sb_find_orders b qs s id : book_rep b qs s -> sb_find id s = None -> orders_ b !! id = None.
Proof.
  intros H. rewrite (sb_find_rep _ _ _ _ H). destruct (orders_ b !! id) as [p|] eqn:E; [|done].
  apply (br_orders _ _ _ H) in E as [_ E]. cbn. destruct (_ !! p); done.
Qed.

Lemma available_rep b qs s :
  book_rep b qs s -> (resting_count s + pool_available (pool_ b) = PREALLOCATION_COUNT)%nat.
Proof.
  intros H. pose proof (pool_wf_available _ _ (br_pool _ _ _ H)) as Ha. unfold pool_capacity in Ha.
  rewrite (br_capacity _ _ _ H) in Ha. rewrite <- Ha. f_equal. unfold resting_count, book_slots.
  change (sb_bids s) with (sb_side BID s). change (sb_asks s) with (sb_side ASK s).
  rewrite !(br_spec _ _ _ H), length_app.
  assert (forall side, length (slot_orders (arena_ (pool_ b)) (side_slots side (qs side))) = length (concat (qs side))) as Hl.
  { intros side. rewrite slot_orders_length; [by rewrite side_slots_perm|].
    intros p. rewrite side_slots_perm. intros Hp.
    destruct (book_slot_lookup b qs s p H) as (_ & _ & _ & _ & o & _ & Ho & _); [|by eexists].
    apply book_slots_elem. eauto. }
  by rewrite !Hl.
Qed.

Lemma kept_count side type price wanted fills kept s n :
  take_liquidity side type price wanted (sb_side (opposite side) s) = (fills, kept) ->
  (resting_count ((sb_set_side (opposite side) kept s) <| sb_next_match := n |>) <= resting_count s)%nat.
Proof.
  intros Ht. destruct (take_liquidity_ids _ _ _ _ _ _ _ Ht) as [gone Hg].
  apply (f_equal length) in Hg. rewrite length_app, !length_fmap in Hg.
  unfold resting_count. destruct side; cbn in *; lia.
Qed.

Lemma kept_find side type price wanted fills kept s n id :
  take_liquidity side type price wanted (sb_side (opposite side) s) = (fills, kept) ->
  sb_find id s = None -> sb_find id ((sb_set_side (opposite side) kept s) <| sb_next_match := n |>) = None.
Proof.
  intros Ht. destruct (take_liquidity_ids _ _ _ _ _ _ _ Ht) as [gone Hg].
  rewrite !sb_find_None. unfold sb_ids. destruct side; cbn in *; rewrite Hg; set_solver.
Qed.

(** ** Handlers *)

(** [m] ran on [b]: it returned [res], the book now represents [s'] and the
    request produced these events and messages. *)
Definition ran {A} N ctx (m : M Orderbook A) (res : A) (s' : SBook) (evs : list EngineEvent) (itch : list ITCH)
    (b : Orderbook) : Prop :=
  exists b' qs', m b = Some (res, b') /\ book_rep b' qs' s' /\ produced rdtsc N ctx evs itch b b'.

Lemma ran_bind {A B} N ctx (m : M Orderbook A) (k : A -> M Orderbook B) res res' s1 s2 evs1 evs2 itch1 itch2 b l :
  ring_rep N (market_data_ring_ b) l ->
  ran N ctx m res s1 evs1 itch1 b ->
  (forall b1 qs1 l1, book_rep b1 qs1 s1 -> ring_rep N (market_data_ring_ b1) l1 ->
    ran N ctx (k res) res' s2 evs2 itch2 b1) ->
  ran N ctx (m ≫= k) res' s2 (evs1 ++ evs2) (itch1 ++ itch2) b.
Proof.
  intros Hl (b1 & qs1 & Hm & H1 & Hpd) Hk. destruct (produced_ring _ _ _ _ _ _ _ Hpd Hl) as [l1 Hl1].
  destruct (Hk b1 qs1 l1 H1 Hl1) as (b2 & qs2 & Hm2 & H2 & Hpd2). exists b2, qs2.
  rewrite (bind_Some _ _ _ _ _ Hm). split; [done|]. split; [done|]. exact (produced_trans Hpd Hpd2).
Qed.

Lemma ran_ret {A} N ctx (x : A) s b qs : book_rep b qs s -> ran N ctx (mret x) x s [] [] b.
Proof. intros H. exists b, qs. split; [done|]. split; [done|apply produced_nil]. Qed.

Lemma ran_then_ret {A B} N ctx (m : M Orderbook A) (x : B) y s evs itch b :
  ran N ctx m y s evs itch b -> ran N ctx (m ≫= (fun _ => mret x)) x s evs itch b.
Proof. intros (b1 & qs1 & Hm & H1 & Hpd). exists b1, qs1. by rewrite (bind_Some _ _ _ _ _ Hm). Qed.

Lemma ran_emit N ctx e s b qs : book_rep b qs s -> ran N ctx (emit rdtsc ctx e) tt s [e] [] b.
Proof.
  intros H. destruct (emit_run rdtsc N ctx e b) as (b' & Hr & Hk & Hpd). exists b', qs.
  split; [done|]. split; [|done]. by eapply book_rep_same.
Qed.

Lemma ran_publish N ctx msg s b qs l :
  book_rep b qs s -> ring_rep N (market_data_ring_ b) l -> ran N ctx (publish msg) tt s [] [msg] b.
Proof.
  intros H Hl. destruct (publish_run rdtsc N ctx msg b l Hl) as (b' & Hr & Hk & Hpd). exists b', qs.
  split; [done|]. split; [|done]. by eapply book_rep_same.
Qed.

Lemma ran_rest N ctx order publish_add s b qs l :
  book_rep b qs s -> ring_rep N (market_data_ring_ b) l ->
  in_band (price_ order) -> unlinked order = order ->
  sb_find (id_ order) s = None -> (resting_count s < PREALLOCATION_COUNT)%nat ->
  let side := side_ order in
  ran N ctx (rest ctx order publish_add) tt (sb_set_side side (insert_order side order (sb_side side s)) s)
    [] (if publish_add then [add_itch ctx order] else []) b.
Proof.
  intros H Hl Hb Hu Hid Hc side. pose proof (available_rep _ _ _ H).
  destruct (rest_rep ctx b qs s order publish_add) as (b1 & qs1 & Hrun & H1 & Hout);
    [done|done|done|by eapply sb_find_orders|lia|].
  pose proof (same_output_produced rdtsc N ctx _ _ Hout) as Hpd.
  destruct publish_add; cbn [when] in Hrun.
  - destruct (produced_ring _ _ _ _ _ _ _ Hpd Hl) as [l1 Hl1].
    destruct (ran_publish N ctx (add_itch ctx order) _ b1 qs1 l1 H1 Hl1) as (b2 & qs2 & Hr & H2 & Hpd2).
    exists b2, qs2. rewrite Hrun. split; [done|]. split; [done|]. exact (produced_trans Hpd Hpd2).
  - exists b1, qs1. rewrite Hrun. done.
Qed.

(** The order leaves the book. *)
Lemma ran_drop {A} N ctx (h k : unit -> M Orderbook A) s b qs id p o res s' evs itch :
  (forall b1, h tt b1 = (release p ≫= k) b1) ->
  book_rep b qs s -> orders_ b !! id = Some p -> arena_ (pool_ b) !! p = Some o ->
  (forall b1 qs1 l1, book_rep b1 qs1 (sb_remove o s) -> ring_rep N (market_data_ring_ b1) l1 ->
    ran N ctx (k tt) res s' evs itch b1) ->
  forall l, ring_rep N (market_data_ring_ b) l ->
  ran N ctx (unlink p ≫= h) res s' evs itch b.
Proof.
  intros Hh H Hid Ho Hk l Hl. destruct (drop_rep _ _ _ _ _ H Hid) as (o2 & b1 & b2 & qs' & Ho2 & Hun & Hrel & Hrep & Hout).
  assert (o2 = o) as -> by congruence.
  pose proof (same_output_produced rdtsc N ctx _ _ Hout) as Hpd.
  destruct (produced_ring _ _ _ _ _ _ _ Hpd Hl) as [l2 Hl2].
  destruct (Hk b2 qs' l2 Hrep Hl2) as (b3 & qs3 & Hr & H3 & Hpd3). exists b3, qs3.
  rewrite (bind_Some _ _ _ _ _ Hun), Hh, (bind_Some _ _ _ _ _ Hrel). split; [done|]. split; [done|].
  exact (produced_trans Hpd Hpd3).
Qed.

Lemma ran_match N ctx id client_id side type price quantity s b qs l fills kept :
  book_rep b qs s -> ring_rep N (market_data_ring_ b) l ->
  Forall qty_ok (sb_side (opposite side) s) -> is_u32 quantity ->
  take_liquidity side type price quantity (sb_side (opposite side) s) = (fills, kept) ->
  ran N ctx (match_ rdtsc ctx id client_id side type price quantity) (filled_shares fills)
    ((sb_set_side (opposite side) kept s) <| sb_next_match := after_fills (sb_next_match s) fills |>)
    (fill_events id client_id (sb_next_match s) fills) (fill_itch ctx (sb_next_match s) fills) b.
Proof.
  intros H Hl Hq Hquant Ht. unfold match_.
  destruct (match_loop_run N ctx id client_id side type price quantity (S (Z.to_nat quantity)) 0 b qs s l fills kept)
    as (b' & qs' & Hr & H' & Hpd); try done; [ulia|lia|by rewrite Z.sub_0_r|].
  exists b', qs'. done.
Qed.

(** An incoming order: match, then rest or cancel what remains. *)
Lemma ran_incoming N ctx id client_id side type price quantity executed may_rest (ex : Z -> Z) s b qs l s' evs itch :
  book_rep b qs s -> ring_rep N (market_data_ring_ b) l ->
  Forall qty_ok (sb_side (opposite side) s) -> is_u32 quantity ->
  (forall f, 0 <= f <= quantity -> ex f = executed + f) ->
  (may_rest = true -> in_band price /\ (resting_count s < PREALLOCATION_COUNT)%nat) ->
  sb_find id s = None ->
  spec_incoming ctx s id client_id side type price quantity executed may_rest = (s', evs, itch) ->
  ran N ctx (filled ← match_ rdtsc ctx id client_id side type price quantity;
             let remaining := u32 (quantity - filled) in
             if remaining =? 0 then mret true else
             _ ← (if may_rest then rest ctx (new_order id client_id side price remaining (ex filled)) true
                  else emit rdtsc ctx (event id 0 0 client_id price remaining CANCELED kImmediateOrCancel));
             mret true) true s' evs itch b.
Proof.
  intros H Hl Hq Hquant Hex Hrest Hid Hspec. unfold spec_incoming in Hspec.
  destruct (take_liquidity _ _ _ _ _) as [fills kept] eqn:Ht in Hspec. cbv zeta in Hspec.
  assert (0 <= quantity) as Hq0 by ulia. pose proof (take_liquidity_shares _ _ _ _ _ _ _ Hq Hq0 Ht) as Hsh.
  pose proof (ran_match N ctx id client_id side type price quantity s b qs l fills kept H Hl Hq Hquant Ht) as Hm.
  assert (u32 (quantity - filled_shares fills) = quantity - filled_shares fills) as Hrem by (apply u32_id; ulia).
  destruct (quantity - filled_shares fills =? 0) eqn:E0; [|destruct may_rest].
  - injection Hspec as <- <- <-. rewrite <- (app_nil_r (fill_events _ _ _ _)), <- (app_nil_r (fill_itch _ _ _)).
    eapply ran_bind; [done|done|]. intros b1 qs1 l1 H1 Hl1. cbv zeta. rewrite Hrem, E0. by eapply ran_ret.
  - injection Hspec as <- <- <-. rewrite <- (app_nil_r (fill_events _ _ _ _)).
    eapply ran_bind; [done|done|]. intros b1 qs1 l1 H1 Hl1. cbv zeta. rewrite Hrem, E0.
    destruct (Hrest eq_refl) as [Hband Hcount]. rewrite Hex by lia.
    eapply ran_then_ret, (ran_rest N ctx (new_order id client_id side price (quantity - filled_shares fills)
      (executed + filled_shares fills)) true); [done..| |].
    + by eapply kept_find.
    + eapply Nat.le_lt_trans; [by eapply kept_count|done].
  - injection Hspec as <- <- <-. rewrite <- (app_nil_r (fill_itch _ _ _)).
    eapply ran_bind; [done|done|]. intros b1 qs1 l1 H1 Hl1. cbv zeta. rewrite Hrem, E0.
    by eapply ran_then_ret, ran_emit.
Qed.

(** What the book must satisfy for a request to run: open quantities in range. *)
Definition sbook_ok (s : SBook) : Prop := forall side, Forall qty_ok (sb_side side s).

Definition runs_as N ctx (m : M Orderbook bool) (oc : Outcome) (b : Orderbook) : Prop :=
  ran N ctx m (oc_acted oc) (oc_book oc) (oc_events oc) (oc_itch oc) b.

Lemma ran_gets {A B} N ctx (f : Orderbook -> A) (k : A -> M Orderbook B) res s evs itch b :
  ran N ctx (k (f b)) res s evs itch b -> ran N ctx (gets f ≫= k) res s evs itch b.
Proof. done. Qed.

Lemma ran_deref {A} N ctx p o (k : Order -> M Orderbook A) res s evs itch b :
  arena_ (pool_ b) !! p = Some o ->
  ran N ctx (k o) res s evs itch b -> ran N ctx (on_arena (deref p) ≫= k) res s evs itch b.
Proof.
  intros Ho (b1 & qs1 & Hm & H1 & Hpd). exists b1, qs1.
  by rewrite (bind_Some _ _ _ _ _ (deref_run p b o Ho)).
Qed.

Lemma ran_assoc {A B C} N ctx (m : M Orderbook A) (k : A -> M Orderbook B) (h : B -> M Orderbook C) res s evs itch b :
  ran N ctx (m ≫= (fun a => k a ≫= h)) res s evs itch b -> ran N ctx ((m ≫= k) ≫= h) res s evs itch b.
Proof. intros (b1 & qs1 & Hm & H1). exists b1, qs1. by rewrite bind_bind. Qed.

Lemma ran_store_bind {A} N ctx p o f (k : unit -> M Orderbook A) res s s' evs itch b qs :
  book_rep b qs s -> p ∈ book_slots qs -> arena_ (pool_ b) !! p = Some o -> keeps_place f ->
  (forall b1, market_data_ring_ b1 = market_data_ring_ b ->
    book_rep b1 qs (sb_set_side (side_ o) (update_id (id_ o) f (sb_side (side_ o) s)) s) ->
    ran N ctx (k tt) res s' evs itch b1) ->
  ran N ctx (on_arena (store_order p f) ≫= k) res s' evs itch b.
Proof.
  intros H Hp Ho Hf Hk. pose proof (alter_rep _ _ _ _ _ _ H Hp Ho Hf) as H1.
  destruct (Hk (with_arena (alter f p (arena_ (pool_ b))) b) eq_refl H1) as (b2 & qs2 & Hr & H2 & Hpd).
  exists b2, qs2. rewrite (bind_Some _ _ _ _ _ (store_run p f b o Ho)). split; [done|]. split; [done|].
  refine (produced_trans (same_output_produced rdtsc N ctx b _ _) Hpd). done.
Qed.

Lemma ran_emit_bind {A} N ctx e (k : unit -> M Orderbook A) res s s' evs itch b qs l :
  book_rep b qs s -> ring_rep N (market_data_ring_ b) l ->
  (forall b1 l1, book_rep b1 qs s -> ring_rep N (market_data_ring_ b1) l1 -> same_book b b1 ->
    ran N ctx (k tt) res s' evs itch b1) ->
  ran N ctx (emit rdtsc ctx e ≫= k) res s' (e :: evs) itch b.
Proof.
  intros H Hl Hk. destruct (emit_run rdtsc N ctx e b) as (b1 & Hr & Hsame & Hpd).
  destruct (produced_ring _ _ _ _ _ _ _ Hpd Hl) as [l1 Hl1].
  destruct (Hk b1 l1 ltac:(by eapply book_rep_same) Hl1 Hsame) as (b2 & qs2 & Hr2 & H2 & Hpd2).
  exists b2, qs2. rewrite (bind_Some _ _ _ _ _ Hr). split; [done|]. split; [done|].
  exact (produced_trans Hpd Hpd2).
Qed.

Lemma find_orders b qs s id :
  book_rep b qs s ->
  match orders_ b !! id with
  | None => sb_find id s = None
  | Some p => exists o, arena_ (pool_ b) !! p = Some o /\ id_ o = id /\ sb_find id s = Some (unlinked o)
  end.
Proof.
  intros H. rewrite (sb_find_rep _ _ _ _ H). destruct (orders_ b !! id) as [p|] eqn:E; [|done].
  apply (br_orders _ _ _ H) in E as [_ E]. cbn [mbind option_bind].
  destruct (_ !! p) as [o|]; [|done]. exists o. by simplify_eq/=.
Qed.

Lemma find_decide b qs s id {A} (x y : A) :
  book_rep b qs s ->
  (if decide (is_Some (orders_ b !! id)) then x else y) = (if decide (is_Some (sb_find id s)) then x else y).
Proof.
  intros H. pose proof (find_orders _ _ _ id H) as Hf. destruct (orders_ b !! id) as [p|].
  - destruct Hf as (o & _ & _ & ->). by rewrite !decide_True by eauto.
  - rewrite Hf. by rewrite !decide_False by (by intros []).
Qed.

Lemma enter_run N ctx s b qs l :
  book_rep b qs s -> ring_rep N (market_data_ring_ b) l -> sbook_ok s ->
  request_ok (ctx_req ctx) -> rq_type (ctx_req ctx) = NEW ->
  runs_as N ctx (enter rdtsc ctx) (spec_enter ctx s) b.
Proof.
  intros H Hl Hok [Hwf Hreq] Htype. rewrite Htype in Hreq. unfold runs_as, enter, spec_enter. cbv zeta.
  set (req := ctx_req ctx) in *.
  set (may_rest := bool_decide (rq_order_type req = LIMIT) && bool_decide (rq_time_in_force req = DAY)).
  apply ran_gets. rewrite (find_decide _ _ _ _ _ _ H).
  destruct (decide (is_Some (sb_find (rq_order_id req) s))) as [|Hnone]; [by eapply ran_ret|].
  apply eq_None_not_Some in Hnone. apply ran_gets. pose proof (available_rep _ _ _ H) as Hav.
  assert (may_rest && Nat.eqb (pool_available (pool_ b)) 0 = may_rest && Nat.eqb (resting_count s) PREALLOCATION_COUNT) as Hfull.
  { f_equal. apply eq_true_iff_eq. rewrite !Nat.eqb_eq. lia. }
  rewrite Hfull. clear Hfull. destruct (may_rest && _) eqn:Ef; [by eapply ran_then_ret, ran_emit|].
  destruct (spec_incoming _ _ _ _ _ _ _ _ _ _) as [[s' evs] itch] eqn:Hs. cbn [oc_acted oc_book oc_events oc_itch].
  eapply ran_emit_bind; [done..|]. intros b1 l1 H1 Hl1 _.
  eapply (ran_incoming N ctx _ _ _ _ _ _ 0 may_rest (fun f => f)); try done.
  - destruct Hwf as (_ & _ & _ & _ & ?). done.
  - intros Hm. rewrite Hm in Ef. cbn in Ef. apply Nat.eqb_neq in Ef. split; [|lia].
    apply Hreq. apply andb_true_iff in Hm as [Hm _]. by apply bool_decide_eq_true in Hm.
Qed.

(** ** Orders found in the specification's book *)

Lemma find_id_in id l o : find_id id l = Some o -> o ∈ l /\ id_ o = id.
Proof.
  unfold find_id. destruct (filter _ l) as [|x f] eqn:E; [done|]. intros [= ->].
  assert (o ∈ filter (fun y => id_ y = id) l) as Hx by (rewrite E; by left).
  by apply list_elem_of_filter in Hx as [? ?].
Qed.

Lemma sb_find_in id s o : sb_find id s = Some o -> (o ∈ sb_bids s \/ o ∈ sb_asks s) /\ id_ o = id.
Proof.
  unfold sb_find. destruct (find_id id (sb_bids s)) as [x|] eqn:E.
  - intros [= ->]. apply find_id_in in E as [? ?]. auto.
  - intros [? ?]%find_id_in. auto.
Qed.

Lemma sb_find_ok id s o : sbook_ok s -> sb_find id s = Some o -> qty_ok o.
Proof.
  intros Hok [[Ho|Ho] _]%sb_find_in; [pose proof (Hok BID) as Hs|pose proof (Hok ASK) as Hs];
    by apply (proj1 (Forall_forall _ _) Hs).
Qed.

Lemma open_after_still total executed :
  is_u32 total -> 0 <= executed -> open_after total executed = still_open total executed.
Proof. intros. unfold open_after, still_open. case_if; zbool; [rewrite u32_id by ulia|]; lia. Qed.

Lemma sb_remove_ok o s : sbook_ok s -> sbook_ok (sb_remove o s).
Proof.
  intros Hok side. unfold sb_remove. destruct (decide (side = side_ o)) as [->|Hne].
  - rewrite sb_side_set. apply Forall_forall. intros x [_ Hx]%list_elem_of_filter.
    by apply (proj1 (Forall_forall _ _) (Hok (side_ o))).
  - specialize (Hok side). by destruct side, (side_ o).
Qed.

Lemma sb_remove_find o s id : sb_find id s = None -> sb_find id (sb_remove o s) = None.
Proof.
  rewrite !sb_find_None. unfold sb_remove, sb_ids, remove_id. intros H Hin. apply H. clear H.
  destruct (side_ o); cbn in *; rewrite elem_of_app in *; (destruct Hin as [Hin|Hin]; [left|right]); try done;
    apply list_elem_of_fmap in Hin as (x & -> & [_ Hx]%list_elem_of_filter); by apply list_elem_of_fmap_2.
Qed.

Lemma remove_id_length id l : id ∈ (id_ <$> l) -> (length (remove_id id l) < length l)%nat.
Proof.
  unfold remove_id. induction l as [|x l IH]; [by intros ?%elem_of_nil|].
  pose proof (length_filter (fun o => id_ o <> id) l). rewrite fmap_cons, filter_cons.
  case_decide; cbn [length]; [|lia]. intros [->|Hin]%elem_of_cons; [done|]. specialize (IH Hin). lia.
Qed.

Lemma sb_remove_count o s :
  o ∈ sb_side (side_ o) s -> (resting_count (sb_remove o s) < resting_count s)%nat.
Proof.
  intros Ho. apply (list_elem_of_fmap_2 id_), remove_id_length in Ho.
  unfold resting_count, sb_remove. destruct (side_ o); cbn in *; lia.
Qed.

Lemma find_side b qs s id o :
  book_rep b qs s -> sb_find id s = Some o -> o ∈ sb_side (side_ o) s.
Proof.
  intros H [Hin _]%sb_find_in.
  assert (exists side, o ∈ sb_side side s) as [side Ho] by (destruct Hin; [by exists BID|by exists ASK]).
  pose proof Ho as (p & o' & Hp & Ho' & ->)%(book_elem _ _ _ _ _ H).
  apply elem_of_concat in Hp as (i & m & Hi & Hp).
  destruct (br_sides _ _ _ H side) as (Hlad & _).
  destruct (proj1 (Forall_forall _ _) (lr_slots _ _ _ _ Hlad i m Hi) p Hp) as (o2 & Ho2 & Hs & _).
  cbn. by replace (side_ o') with side by congruence.
Qed.

Lemma cancel_run N ctx s b qs l :
  book_rep b qs s -> ring_rep N (market_data_ring_ b) l -> sbook_ok s -> request_ok (ctx_req ctx) ->
  runs_as N ctx (cancel rdtsc ctx) (spec_cancel ctx s) b.
Proof.
  intros H Hl Hok [Hwf _]. unfold runs_as, cancel, spec_cancel. cbv zeta. set (req := ctx_req ctx) in *.
  apply ran_gets. pose proof (find_orders _ _ _ (rq_order_id req) H) as Hf.
  destruct (orders_ b !! rq_order_id req) as [p|] eqn:Hp; [|rewrite Hf; by eapply ran_ret].
  destruct Hf as (o & Ho & Hid & Hf). rewrite Hf. pose proof (sb_find_ok _ _ _ Hok Hf) as (Hq1 & Hq2 & Hq3).
  cbn in Hq1, Hq2, Hq3. apply (ran_deref _ _ _ o); [done|].
  cbn [client_id_ executed_quantity_ open_quantity_ id_ side_ price_ unlinked].
  destruct (negb (client_id_ o =? rq_client_id req)); [by eapply ran_ret|].
  destruct Hwf as (_ & _ & _ & _ & Hquant). rewrite open_after_still by done.
  set (target := still_open (rq_quantity req) (executed_quantity_ o)).
  assert (0 <= target) as Ht by (unfold target, still_open; lia).
  destruct (open_quantity_ o <=? target) eqn:E; [by eapply ran_ret|]. zbool.
  rewrite (u32_id (open_quantity_ o - target)) by ulia.
  destruct (target =? 0) eqn:Et; cbn [oc_acted oc_book oc_events oc_itch].
  - eapply ran_emit_bind; [done..|]. intros b1 l1 H1 Hl1 Hsame. apply ran_assoc.
    eapply ran_drop; [intros; apply bind_bind|done|by rewrite (sk_orders _ _ Hsame)|by rewrite (sk_pool _ _ Hsame)| |done].
    intros b2 qs2 l2 H2 Hl2. by eapply ran_then_ret, ran_publish.
  - eapply ran_emit_bind; [done..|]. intros b1 l1 H1 Hl1 Hsame. apply ran_assoc.
    eapply ran_store_bind; [done| |by rewrite (sk_pool _ _ Hsame)|by split|].
    { by apply (br_orders _ _ _ H) in Hp as [? _]. }
    intros b2 Hmd H2. eapply ran_then_ret, ran_publish; [exact H2|by rewrite Hmd].
Qed.

Lemma no_cross_rep b qs s side price :
  book_rep b qs s -> negb (crosses side LIMIT price b) = no_cross side price s.
Proof.
  intros H. rewrite (crosses_rep _ _ _ _ _ _ H). unfold no_cross. by destruct (sb_side _ s).
Qed.

Lemma replace_run N ctx s b qs l :
  book_rep b qs s -> ring_rep N (market_data_ring_ b) l -> sbook_ok s ->
  request_ok (ctx_req ctx) -> rq_type (ctx_req ctx) = REPLACE ->
  runs_as N ctx (replace_ rdtsc ctx) (spec_replace ctx s) b.
Proof.
  intros H Hl Hok [Hwf Hband] Htype. rewrite Htype in Hband. unfold runs_as, replace_, spec_replace. cbv zeta.
  set (req := ctx_req ctx) in *. apply ran_gets. pose proof (find_orders _ _ _ (rq_order_id req) H) as Hf.
  destruct (orders_ b !! rq_order_id req) as [p|] eqn:Hp; [|rewrite Hf; by eapply ran_ret].
  destruct Hf as (o & Ho & Hid & Hf). rewrite Hf. pose proof (sb_find_ok _ _ _ Hok Hf) as (Hq1 & Hq2 & Hq3).
  pose proof (sb_remove_count _ _ (find_side _ _ _ _ _ H Hf)) as Hcount. pose proof (available_rep _ _ _ H) as Hav.
  cbn in Hq1, Hq2, Hq3. apply (ran_deref _ _ _ o); [done|].
  cbn [client_id_ executed_quantity_ open_quantity_ id_ side_ price_ unlinked].
  destruct (negb (client_id_ o =? rq_client_id req)); [by eapply ran_ret|].
  rewrite (find_decide _ _ _ _ _ _ H).
  destruct (decide (is_Some (sb_find (rq_new_order_id req) s))) as [|Hnone]; [by eapply ran_ret|].
  apply eq_None_not_Some in Hnone.
  destruct Hwf as (_ & _ & _ & _ & Hquant). rewrite open_after_still by done.
  set (open := still_open (rq_quantity req) (executed_quantity_ o)).
  assert (is_u32 open /\ (open <> 0 -> open + executed_quantity_ o = rq_quantity req)) as [Hou Hoe]
    by (unfold open, still_open; ulia).
  change (sb_remove (unlinked o) s) with (sb_remove o s) in *.
  destruct (open =? 0) eqn:Eo; zbool.
  { eapply ran_emit_bind; [done..|]. intros b1 l1 H1 Hl1 Hsame.
    eapply ran_drop; [done|done|by rewrite (sk_orders _ _ Hsame)|by rewrite (sk_pool _ _ Hsame)| |done].
    intros b2 qs2 l2 H2 Hl2. by eapply ran_then_ret, ran_publish. }
  set (day := bool_decide (rq_time_in_force req = DAY)).
  pose proof (sb_remove_ok o s Hok) as Hok1. pose proof (sb_remove_find o _ _ Hnone) as Hnone1.
  set (s1 := sb_remove o s) in *.
  destruct (day && no_cross (side_ o) (rq_price req) s1) eqn:Edc;
    [|destruct (spec_incoming _ _ _ _ _ _ _ _ _ _) as [[s' evs] itch] eqn:Hs]; cbn [oc_acted oc_book oc_events oc_itch].
  - eapply ran_drop; [done|done|done|done| |done]. intros b1 qs1 l1 H1 Hl1.
    eapply ran_emit_bind; [done..|]. intros b2 l2 H2 Hl2 _. apply ran_gets.
    rewrite (no_cross_rep _ _ _ _ _ H2). fold s1. rewrite Edc.
    eapply (ran_bind _ _ _ _ _ _ _ _ [] [] [] [_]); [done|..].
    + eapply (ran_rest N ctx (new_order _ _ _ _ _ _) false); [done..|]. fold s1. lia.
    + intros b3 qs3 l3 H3 Hl3. by eapply ran_then_ret, ran_publish.
  - eapply ran_drop; [done|done|done|done| |done]. intros b1 qs1 l1 H1 Hl1.
    eapply ran_emit_bind; [done..|]. intros b2 l2 H2 Hl2 _. apply ran_gets.
    rewrite (no_cross_rep _ _ _ _ _ H2). fold s1. rewrite Edc.
    eapply (ran_bind _ _ _ _ _ _ _ _ [] _ [_] _); [done|by eapply ran_publish|].
    intros b3 qs3 l3 H3 Hl3. eapply ran_incoming; try done.
    + intros f Hfr. apply u32_id. specialize (Hoe Eo). ulia.
    + intros Hday. split; [done|]. fold s1. lia.
Qed.

(** ** The dispatcher *)

Lemma process_run N req pop_tsc s b qs l :
  book_rep b qs s -> ring_rep N (market_data_ring_ b) l -> sbook_ok s -> request_ok req ->
  let ctx := mkContext req pop_tsc (ns_since_midnight (clock_ b) pop_tsc) in
  runs_as N ctx (process rdtsc req pop_tsc) (spec_process ctx s) (b <| ctx_answered := false |>).
Proof.
  intros H Hl Hok Hreq ctx. unfold runs_as, ran, process, spec_process. cbn [clock_]. fold ctx.
  set (b0 := b <| ctx_answered := false |>).
  assert (book_rep b0 qs s) as H0 by (by apply (book_rep_same b)).
  destruct (rq_type req) eqn:Ht; cbn [ctx_req ctx]; rewrite Ht.
  - by eapply enter_run.
  - by eapply cancel_run.
  - by eapply replace_run.
Qed.
End Correct.
