(* ===== verification/BookInvariant.v ===== *)
(** * BookInvariant: the invariant of the order book

    What every book reachable by gateway requests satisfies: each side sorted by
    price, quantities in range, ids unique, bids below asks, no more orders than
    the pool holds.  The lemmas on [take_liquidity] and [insert_order] are shared
    by the theorems on priority, conservation and the market-data feed. *)

From stdpp Require Import sorting.
From S2P Require Import Prelude Types ItchProto PriceLevelQueue Validation WireCodec Orderbook OrderbookSpec.
From S2P Require Import Ladder OrderbookRefine OrderbookCorrect.

Section Invariant.
Context `{cfg : BookConfig}.

(** [x] may stand before [y] on [side]. *)
Definition ahead (side : Side) (x y : Order) : Prop := better side (price_ y) (price_ x) = false.

Definition order_wf (side : Side) (o : Order) : Prop :=
  side_ o = side /\ in_band (price_ o) /\ qty_ok o /\ unlinked o = o /\ is_u64 (id_ o).

Definition side_wf (side : Side) (l : list Order) : Prop :=
  StronglySorted (ahead side) l /\ Forall (order_wf side) l.

(** No bid at or above an ask. *)
Definition uncrossed (bids asks : list Order) : Prop :=
  forall x y, x ∈ bids -> y ∈ asks -> price_ x < price_ y.

Record sbook_wf (s : SBook) : Prop := {
  sw_side : forall side, side_wf side (sb_side side s);
  sw_ids : NoDup (sb_ids s);
  sw_uncrossed : uncrossed (sb_bids s) (sb_asks s);
  sw_count : (resting_count s <= PREALLOCATION_COUNT)%nat;
  sw_match : is_u64 (sb_next_match s);
}.

Lemma sbook_new_wf : sbook_wf sbook_new.
Proof.
  split.
  - intros side. destruct side; split; constructor.
  - constructor.
  - intros x y Hx. by apply elem_of_nil in Hx.
  - cbn. lia.
  - done.
Qed.

Lemma sbook_wf_ok s : sbook_wf s -> sbook_ok s.
Proof.
  intros H side. destruct (sw_side _ H side) as [_ Hw]. eapply Forall_impl; [done|].
  by intros o (_ & _ & ? & _).
Qed.

(** ** Matching

    [swept] is [take_liquidity] as rules: orders are hit from the front, each one
    completely unless the incoming order is exhausted by it. *)

Inductive swept (side : Side) (type : OrderType) (price : Z) :
  Z -> list Order -> list (Order * Z) -> list Order -> Prop :=
| swept_done l : swept side type price 0 l [] l
| swept_empty wanted : swept side type price wanted [] [] []
| swept_stop wanted r l :
    crosses_price side type price (price_ r) = false ->
    swept side type price wanted (r :: l) [] (r :: l)
| swept_full wanted r l fills kept :
    crosses_price side type price (price_ r) = true -> 0 < open_quantity_ r <= wanted ->
    swept side type price (wanted - open_quantity_ r) l fills kept ->
    swept side type price wanted (r :: l) ((r, open_quantity_ r) :: fills) kept
| swept_part wanted r l :
    crosses_price side type price (price_ r) = true -> 0 < wanted < open_quantity_ r ->
    swept side type price wanted (r :: l) [(r, wanted)] (fill_order wanted r :: l).

Lemma take_liquidity_swept side type price wanted l fills kept :
  Forall qty_ok l -> 0 <= wanted -> take_liquidity side type price wanted l = (fills, kept) ->
  swept side type price wanted l fills kept.
Proof.
  intros Hl. revert wanted fills kept. induction Hl as [|r l (Hr & _) Hl IH]; intros wanted fills kept Hw Ht.
  { injection Ht as <- <-. constructor. }
  cbn in Ht. destruct (0 <? wanted) eqn:Ew; cbn [andb] in Ht; zbool.
  2: { injection Ht as <- <-. replace wanted with 0 by lia. constructor. }
  destruct (crosses_price side type price (price_ r)) eqn:Ec; [|injection Ht as <- <-; by constructor].
  destruct (open_quantity_ r =? _) eqn:E2 in Ht; zbool.
  - rewrite <- E2 in Ht. destruct (take_liquidity _ _ _ _ l) as [fills' kept'] eqn:Ht' in Ht.
    injection Ht as <- <-. constructor; [done|lia|]. apply IH; [lia|done].
  - replace (wanted `min` open_quantity_ r) with wanted in Ht by lia. injection Ht as <- <-. constructor; [done|lia].
Qed.

Section Swept.
Context (side : Side) (type : OrderType) (price : Z).
Abbreviation sw := (swept side type price).

(** The orders hit are the first ones, and only the last can be hit in part. *)
Lemma swept_front wanted l fills kept :
  sw wanted l fills kept ->
  exists hit rest, l = hit ++ rest /\ fills.*1 = hit /\
    Forall (fun r => crosses_price side type price (price_ r) = true) hit /\
    (kept = rest /\ fills.*2 = open_quantity_ <$> hit \/
     exists r fill, last hit = Some r /\ 0 < fill < open_quantity_ r /\ kept = fill_order fill r :: rest /\
       fills.*2 = (open_quantity_ <$> removelast hit) ++ [fill]).
Proof.
  induction 1 as [l|wanted|wanted r l Hc|wanted r l fills kept Hc Hr _ IH|wanted r l Hc Hw].
  - exists [], l. auto 6.
  - exists [], []. auto 6.
  - exists [], (r :: l). auto 6.
  - destruct IH as (hit & rest & -> & Hf & Hall & Hk). exists (r :: hit), rest. cbn. rewrite Hf.
    split; [done|]. split; [done|]. split; [by apply Forall_cons|].
    destruct Hk as [[-> Hq]|(r' & f & Hlast & Hf' & -> & Hq)]; [left; by rewrite Hq|right].
    exists r', f. destruct hit as [|x hit]; [done|]. cbn in *. by rewrite Hq.
  - exists [r], l. cbn. split; [done|]. split; [done|]. split; [by apply Forall_singleton|]. right.
    exists r, wanted. done.
Qed.

Lemma swept_forall (P : Order -> Prop) wanted l fills kept :
  (forall o f, P o -> 0 < f < open_quantity_ o -> P (fill_order f o)) ->
  sw wanted l fills kept -> Forall P l -> Forall P kept.
Proof.
  intros HP. induction 1 as [l|wanted|wanted r l Hc|wanted r l fills kept Hc Hr _ IH|wanted r l Hc Hw]; try done.
  - intros [_ Hl]%Forall_cons. auto.
  - intros [Hr Hl]%Forall_cons. apply Forall_cons. auto.
Qed.

Lemma swept_sorted wanted l fills kept s :
  sw wanted l fills kept -> StronglySorted (ahead s) l -> StronglySorted (ahead s) kept.
Proof.
  induction 1 as [l|wanted|wanted r l Hc|wanted r l fills kept Hc Hr _ IH|wanted r l Hc Hw]; try done.
  - intros [Hs _]%StronglySorted_inv. auto.
  - intros [Hs Hf]%StronglySorted_inv. by constructor.
Qed.

(** Shares are neither made nor lost. *)
Definition open_shares (l : list Order) : Z := foldr (fun o n => open_quantity_ o + n) 0 l.

Lemma swept_shares wanted l fills kept :
  sw wanted l fills kept -> 0 <= wanted ->
  open_shares kept + filled_shares fills = open_shares l /\ 0 <= filled_shares fills <= wanted.
Proof.
  induction 1 as [l|wanted|wanted r l Hc|wanted r l fills kept Hc Hr _ IH|wanted r l Hc Hw];
    intros H0; unfold filled_shares, open_shares in *; cbn [foldr snd fill_order open_quantity_] in *; lia.
Qed.

(** A limit order with shares left meets no crossing order any more. *)
Lemma swept_exhausted wanted l fills kept :
  sw wanted l fills kept -> filled_shares fills < wanted ->
  StronglySorted (ahead (opposite side)) l ->
  Forall (fun r => crosses_price side type price (price_ r) = false) kept.
Proof.
  induction 1 as [l|wanted|wanted r l Hc|wanted r l fills kept Hc Hr _ IH|wanted r l Hc Hw]; intros Hlt Hs.
  - cbn in Hlt. lia.
  - constructor.
  - apply StronglySorted_inv in Hs as [_ Hf]. apply Forall_cons. split; [done|].
    eapply Forall_impl; [done|]. intros x Hx. unfold ahead in Hx.
    destruct type; [done|]. destruct side; cbn in *; zbool; [apply Z.leb_gt|apply Z.leb_gt]; lia.
  - apply StronglySorted_inv in Hs as [Hs _]. apply IH; [|done]. unfold filled_shares in *. cbn in Hlt. lia.
  - cbn in Hlt. lia.
Qed.
End Swept.

(** ** Insertion *)

Lemma insert_order_perm side o l : insert_order side o l ≡ₚ o :: l.
Proof.
  induction l as [|x l IH]; [done|]. cbn. destruct (better _ _ _); [done|]. rewrite IH. constructor.
Qed.

Lemma insert_order_sorted side o l :
  StronglySorted (ahead side) l -> StronglySorted (ahead side) (insert_order side o l).
Proof.
  induction 1 as [|x l Hs IH Hx]; cbn; [by repeat constructor|].
  destruct (better side (price_ o) (price_ x)) eqn:E.
  - constructor; [by constructor|]. apply Forall_cons. unfold ahead in *. split.
    + destruct side; cbn in *; zbool; apply Z.ltb_ge; lia.
    + eapply Forall_impl; [done|]. intros y Hy. destruct side; cbn in *; zbool; apply Z.ltb_ge; lia.
  - constructor; [done|]. rewrite insert_order_perm. apply Forall_cons. done.
Qed.

(** ** The operations on books *)

Lemma sb_ids_set side l s :
  sb_ids (sb_set_side side l s) ≡ₚ (id_ <$> l) ++ (id_ <$> sb_side (opposite side) s).
Proof. unfold sb_ids. destruct side; cbn; [done|apply Permutation_app_comm]. Qed.

Lemma sb_ids_side side s : sb_ids s ≡ₚ (id_ <$> sb_side side s) ++ (id_ <$> sb_side (opposite side) s).
Proof. rewrite <- sb_ids_set, sb_set_id. done. Qed.

Lemma resting_count_set side l s :
  resting_count (sb_set_side side l s) = (length l + length (sb_side (opposite side) s))%nat.
Proof. unfold resting_count. destruct side; cbn; lia. Qed.

Lemma resting_count_side side s :
  resting_count s = (length (sb_side side s) + length (sb_side (opposite side) s))%nat.
Proof. unfold resting_count. destruct side; cbn; lia. Qed.

(** [x] on [side] and [y] on the other do not cross. *)
Definition apart (side : Side) (x y : Order) : Prop := crosses_price side LIMIT (price_ x) (price_ y) = false.

Lemma uncrossed_apart side s :
  uncrossed (sb_bids s) (sb_asks s) <->
  (forall x y, x ∈ sb_side side s -> y ∈ sb_side (opposite side) s -> apart side x y).
Proof.
  unfold uncrossed, apart. destruct side; cbn; setoid_rewrite Z.leb_gt; split; intros H x y Hx Hy; by apply H.
Qed.

(** Replacing one side by a list of the same orders or fewer. *)
Lemma sbook_wf_shrink side l s :
  sbook_wf s -> side_wf side l -> id_ <$> l ⊆+ id_ <$> sb_side side s ->
  (forall x, x ∈ l -> exists x', x' ∈ sb_side side s /\ price_ x' = price_ x) ->
  sbook_wf (sb_set_side side l s).
Proof.
  intros H Hl Hids Hpr. split.
  - intros side'. destruct (decide (side' = side)) as [->|Hne]; [by rewrite sb_side_set|].
    pose proof (sw_side _ H side'). by destruct side, side'.
  - rewrite sb_ids_set. pose proof (sw_ids _ H) as Hd. rewrite (sb_ids_side side) in Hd.
    eapply nodup_submseteq; [|exact Hd]. by apply submseteq_app.
  - apply (uncrossed_apart side). rewrite sb_side_set. intros x y Hx Hy.
    destruct (Hpr x Hx) as (x' & Hx' & Hp). unfold apart. rewrite <- Hp.
    apply (proj1 (uncrossed_apart side s)); [apply H|done|by destruct side].
  - rewrite resting_count_set. pose proof (sw_count _ H) as Hc. rewrite (resting_count_side side) in Hc.
    apply submseteq_length in Hids. rewrite !length_fmap in Hids. lia.
  - rewrite sb_next_set. apply H.
Qed.

Lemma sbook_wf_match s n : sbook_wf s -> is_u64 n -> sbook_wf (s <| sb_next_match := n |>).
Proof. intros [] Hn. by split. Qed.

Lemma after_fills_u64 mn fills : is_u64 mn -> is_u64 (after_fills mn fills).
Proof. revert mn. induction fills as [|f fills IH]; cbn; intros mn Hm; [done|]. apply IH, u64_range. Qed.

Lemma sbook_wf_insert side o s :
  sbook_wf s -> order_wf side o -> id_ o ∉ sb_ids s -> (resting_count s < PREALLOCATION_COUNT)%nat ->
  Forall (apart side o) (sb_side (opposite side) s) ->
  sbook_wf (sb_set_side side (insert_order side o (sb_side side s)) s).
Proof.
  intros H Ho Hid Hc Hap. split.
  - intros side'. destruct (decide (side' = side)) as [->|Hne].
    + rewrite sb_side_set. destruct (sw_side _ H side) as [Hs Hf]. split; [by apply insert_order_sorted|].
      rewrite insert_order_perm. by apply Forall_cons.
    + pose proof (sw_side _ H side'). by destruct side, side'.
  - rewrite sb_ids_set, insert_order_perm. cbn. apply NoDup_cons.
    rewrite <- (sb_ids_side side). split; [done|apply H].
  - apply (uncrossed_apart side). rewrite sb_side_set.
    replace (sb_side (opposite side) (sb_set_side side (insert_order side o (sb_side side s)) s))
      with (sb_side (opposite side) s) by (by destruct side).
    intros x y Hx Hy. rewrite insert_order_perm in Hx. apply elem_of_cons in Hx as [->|Hx].
    + by apply (proj1 (Forall_forall _ _) Hap).
    + apply (proj1 (uncrossed_apart side s)); [apply H|done..].
  - rewrite resting_count_set, insert_order_perm. rewrite (resting_count_side side) in Hc. cbn. lia.
  - rewrite sb_next_set. apply H.
Qed.

Lemma side_wf_qty side l : side_wf side l -> Forall qty_ok l.
Proof. intros [_ H]. eapply Forall_impl; [done|]. by intros o (_ & _ & ? & _). Qed.

Lemma order_wf_fill side o f : order_wf side o -> 0 < f < open_quantity_ o -> order_wf side (fill_order f o).
Proof.
  intros (Hs & Hb & (Hq1 & Hq2 & Hq3) & Hu & Hi) Hf. split; [done|]. split; [done|]. split; [|split; [|done]].
  - unfold qty_ok, fill_order. cbn. ulia.
  - rewrite <- Hu. done.
Qed.

Lemma sbook_wf_kept side type price wanted fills kept s :
  sbook_wf s -> 0 <= wanted ->
  take_liquidity side type price wanted (sb_side (opposite side) s) = (fills, kept) ->
  sbook_wf ((sb_set_side (opposite side) kept s) <| sb_next_match := after_fills (sb_next_match s) fills |>).
Proof.
  intros H Hw Ht. apply sbook_wf_match; [|apply after_fills_u64, H]. destruct (sw_side _ H (opposite side)) as [Hs Hf].
  pose proof (take_liquidity_swept _ _ _ _ _ _ _ (side_wf_qty _ _ (sw_side _ H (opposite side))) Hw Ht) as Hsw.
  apply sbook_wf_shrink; [done|split|..].
  - by eapply swept_sorted.
  - eapply swept_forall; [|done..]. apply order_wf_fill.
  - destruct (take_liquidity_ids _ _ _ _ _ _ _ Ht) as [gone ->]. apply submseteq_inserts_l. done.
  - intros x Hx. set (l := sb_side (opposite side) s) in *.
    refine (proj1 (Forall_forall _ _) (swept_forall _ _ _ (fun o => exists x', x' ∈ l /\ price_ x' = price_ o) _ _ _ _ _ Hsw _) x Hx).
    + intros o f (x' & ? & ?) _. by exists x'.
    + apply Forall_forall. intros o Ho. by exists o.
Qed.

Lemma sbook_wf_remove o s : sbook_wf s -> sbook_wf (sb_remove o s).
Proof.
  intros H. unfold sb_remove, remove_id. set (l := sb_side (side_ o) s).
  assert (filter (fun x => id_ x <> id_ o) l `sublist_of` l) as Hsub by apply sublist_filter.
  destruct (sw_side _ H (side_ o)) as [Hs Hf]. fold l in Hs, Hf. apply sbook_wf_shrink; [done|split|..].
  - clear Hf Hsub. induction Hs as [|x l0 Hs IH Hx]; [constructor|]. rewrite filter_cons.
    case_decide; [|done]. constructor; [done|]. apply Forall_forall. intros y [_ Hy]%list_elem_of_filter.
    by apply (proj1 (Forall_forall _ _) Hx).
  - apply Forall_forall. intros y [_ Hy]%list_elem_of_filter. by apply (proj1 (Forall_forall _ _) Hf).
  - by apply fmap_submseteq, sublist_submseteq.
  - intros x [_ Hx]%list_elem_of_filter. by exists x.
Qed.

Lemma reduce_id_ids id target l : id_ <$> reduce_id id target l = id_ <$> l.
Proof. unfold reduce_id. rewrite <- list_fmap_compose. apply list_fmap_ext. intros i o _. cbn. by case_decide. Qed.

Lemma sbook_wf_reduce o target s :
  sbook_wf s -> o ∈ sb_side (side_ o) s -> 0 < target < open_quantity_ o ->
  sbook_wf (sb_set_side (side_ o) (reduce_id (id_ o) target (sb_side (side_ o) s)) s).
Proof.
  intros H Ho Ht. set (l := sb_side (side_ o) s) in *. destruct (sw_side _ H (side_ o)) as [Hs Hf]. fold l in Hs, Hf.
  assert (forall x, price_ (if decide (id_ x = id_ o) then x <| open_quantity_ := target |> else x) = price_ x) as Hp
    by (intros x; by case_decide).
  apply sbook_wf_shrink; [done|split|..].
  - unfold reduce_id. eapply StronglySorted_fmap; [|done]. intros x y Hxy. unfold ahead in *. by rewrite !Hp.
  - unfold reduce_id. apply Forall_fmap, Forall_forall. intros x Hx. cbn.
    pose proof (proj1 (Forall_forall _ _) Hf x Hx) as (Hsd & Hb & Hq & Hu & Hi). case_decide as Heq; [|done].
    assert (x = o) as ->.
    { eapply (nodup_fmap_inj id_ l); try done. pose proof (sw_ids _ H) as Hd.
      rewrite (sb_ids_side (side_ o)) in Hd. by apply NoDup_app in Hd as [? _]. }
    split; [done|]. split; [done|]. split; [|split; [by rewrite <- Hu|done]].
    destruct Hq as (? & ? & ?). unfold qty_ok. cbn. ulia.
  - by rewrite reduce_id_ids.
  - intros x (y & -> & Hy)%list_elem_of_fmap. exists y. by rewrite Hp.
Qed.

Lemma find_in_side s id o : sbook_wf s -> sb_find id s = Some o -> o ∈ sb_side (side_ o) s /\ id_ o = id.
Proof.
  intros H [[Ho|Ho] Hid]%sb_find_in; (split; [|done]).
  - destruct (sw_side _ H BID) as [_ Hf]. destruct (proj1 (Forall_forall _ _) Hf o Ho) as (-> & _). done.
  - destruct (sw_side _ H ASK) as [_ Hf]. destruct (proj1 (Forall_forall _ _) Hf o Ho) as (-> & _). done.
Qed.

Lemma find_order_wf s id o : sbook_wf s -> sb_find id s = Some o -> order_wf (side_ o) o.
Proof.
  intros H Hf. destruct (find_in_side _ _ _ H Hf) as [Ho _].
  destruct (sw_side _ H (side_ o)) as [_ Hw]. by apply (proj1 (Forall_forall _ _) Hw).
Qed.

Lemma incoming_wf ctx s id client_id side type price quantity executed may_rest s' evs itch :
  sbook_wf s -> id ∉ sb_ids s -> is_u64 id -> 0 <= quantity -> 0 <= executed -> is_u32 (quantity + executed) ->
  (may_rest = true -> type = LIMIT /\ in_band price /\ (resting_count s < PREALLOCATION_COUNT)%nat) ->
  spec_incoming ctx s id client_id side type price quantity executed may_rest = (s', evs, itch) ->
  sbook_wf s'.
Proof.
  intros H Hid Hi Hq Hex Hu Hrest Hs. unfold spec_incoming in Hs.
  destruct (take_liquidity _ _ _ _ _) as [fills kept] eqn:Ht in Hs. cbv zeta in Hs.
  pose proof (sbook_wf_kept _ _ _ _ _ _ _ H Hq Ht) as H1.
  destruct (quantity - filled_shares fills =? 0) eqn:E0; [by injection Hs as <- _ _|].
  destruct may_rest; [|by injection Hs as <- _ _]. injection Hs as <- _ _. zbool.
  destruct (Hrest eq_refl) as (-> & Hband & Hcount).
  pose proof (take_liquidity_swept _ _ _ _ _ _ _ (side_wf_qty _ _ (sw_side _ H (opposite side))) Hq Ht) as Hsw.
  destruct (swept_shares _ _ _ _ _ _ _ Hsw Hq) as [_ Hsh].
  apply sbook_wf_insert; [done|..].
  - split; [done|]. split; [done|]. split; [|done]. unfold qty_ok. cbn. ulia.
  - apply sb_find_None. eapply kept_find; [done|]. by apply sb_find_None.
  - eapply Nat.le_lt_trans; [by eapply kept_count|done].
  - replace (sb_side (opposite side) _) with kept by (by destruct side). eapply (swept_exhausted side LIMIT price); [done|lia|]. apply (sw_side _ H).
Qed.

Lemma no_cross_apart s side o :
  sbook_wf s -> no_cross side (price_ o) s = true -> Forall (apart side o) (sb_side (opposite side) s).
Proof.
  intros H Hn. unfold no_cross in Hn. destruct (sw_side _ H (opposite side)) as [Hs _].
  destruct (sb_side (opposite side) s) as [|r l]; [constructor|]. zbool.
  apply (swept_exhausted side LIMIT (price_ o) 1 (r :: l) []); [by constructor|cbn; lia|done].
Qed.

(** The invariant, request by request. *)
Lemma spec_process_wf ctx s :
  sbook_wf s -> request_ok (ctx_req ctx) -> sbook_wf (oc_book (spec_process ctx s)).
Proof.
  intros H [(Hi & Hni & _ & _ & Hq) Hband]. unfold spec_process. set (req := ctx_req ctx) in *.
  destruct (rq_type req) eqn:Ht.
  - unfold spec_enter. fold req. case_decide as Hd; [done|]. apply eq_None_not_Some, sb_find_None in Hd.
    set (may_rest := bool_decide _ && bool_decide _). destruct (may_rest && _) eqn:Ef; [done|].
    destruct (spec_incoming _ _ _ _ _ _ _ _ _ _) as [[s' evs] itch] eqn:Hs; cbn [oc_book].
    refine (incoming_wf _ _ _ _ _ _ _ _ _ _ _ _ _ H Hd Hi _ _ _ _ Hs); [ulia|done|by rewrite Z.add_0_r|]. intros Hm. rewrite Hm in Ef. cbn [andb] in Ef.
    apply Nat.eqb_neq in Ef. pose proof (sw_count _ H). apply andb_true_iff in Hm as [Hm _].
    apply bool_decide_eq_true in Hm. split; [done|]. split; [auto|lia].
  - unfold spec_cancel. fold req. destruct (sb_find _ s) as [o|] eqn:Hf; [|done].
    destruct (negb _); [done|]. cbv zeta. destruct (find_in_side _ _ _ H Hf) as [Ho _].
    destruct (open_quantity_ o <=? _) eqn:E; [done|]. destruct (still_open _ _ =? 0) eqn:E2; cbn [oc_book].
    + by apply sbook_wf_remove.
    + apply sbook_wf_reduce; [done..|]. zbool. unfold still_open in *. lia.
  - unfold spec_replace. fold req. destruct (sb_find _ s) as [o|] eqn:Hf; [|done].
    destruct (negb _); [done|]. case_decide as Hd; [done|]. apply eq_None_not_Some in Hd. cbv zeta.
    pose proof (sbook_wf_remove o s H) as H1. destruct (find_in_side _ _ _ H Hf) as [Ho _].
    pose proof (sb_remove_count _ _ Ho) as Hc. pose proof (sw_count _ H).
    pose proof (find_order_wf _ _ _ H Hf) as (_ & _ & (Hq1 & Hq2 & Hq3) & _).
    apply (sb_remove_find o) in Hd. destruct (still_open _ _ =? 0) eqn:E; [done|]. zbool.
    assert (still_open (rq_quantity req) (executed_quantity_ o) = rq_quantity req - executed_quantity_ o
      /\ executed_quantity_ o < rq_quantity req) as [Hopen ?] by (unfold still_open in *; lia). rewrite Hopen in *.
    destruct (bool_decide _); cbn [andb]; [destruct (no_cross _ _ _) eqn:En|].
    2,3: destruct (spec_incoming _ _ _ _ _ _ _ _ _ _) as [[s' evs] itch] eqn:Hs; cbn [oc_book];
      (refine (incoming_wf _ _ _ _ _ _ _ _ _ _ _ _ _ H1 (proj1 (sb_find_None _ _) Hd) Hni _ _ _ _ Hs);
       [lia|done|by rewrite Z.sub_add|]).
    + apply sbook_wf_insert; [done|..|lia|].
      * split; [done|]. split; [done|]. split; [|done]. unfold qty_ok. cbn. ulia.
      * by apply sb_find_None.
      * by apply no_cross_apart.
    + intros _. split; [done|]. split; [done|lia].
    + done.
Qed.

(** ** An order in the middle of its side *)

Lemma update_id_middle id f (l1 l2 : list Order) o :
  NoDup (id_ <$> (l1 ++ o :: l2)) -> id_ o = id -> update_id id f (l1 ++ o :: l2) = l1 ++ f o :: l2.
Proof.
  intros Hd Hid. unfold update_id. rewrite fmap_app, fmap_cons, decide_True by done.
  rewrite fmap_app, fmap_cons in Hd. apply NoDup_app in Hd as (_ & Hd1 & [Hd2 _]%NoDup_cons).
  assert (forall l : list Order, id_ o ∉ (id_ <$> l) -> (fun x => if decide (id_ x = id) then f x else x) <$> l = l) as Hl.
  { intros l Hn. induction l as [|x l IH]; [done|]. cbn in *. rewrite decide_False by set_solver.
    f_equal. apply IH. set_solver. }
  rewrite !Hl; [done|done|]. intros Hin. apply (Hd1 _ Hin). by left.
Qed.

Lemma side_ids_nodup s side : sbook_wf s -> NoDup (id_ <$> sb_side side s).
Proof. intros H. pose proof (sw_ids _ H) as Hd. rewrite (sb_ids_side side) in Hd. by apply NoDup_app in Hd as [? _]. Qed.

Lemma remove_id_middle (l1 l2 : list Order) o :
  NoDup (id_ <$> (l1 ++ o :: l2)) -> remove_id (id_ o) (l1 ++ o :: l2) = l1 ++ l2.
Proof.
  intros Hd. rewrite fmap_app, fmap_cons in Hd. apply NoDup_app in Hd as (_ & Hd1 & [Hd2 _]%NoDup_cons).
  unfold remove_id. rewrite filter_app, filter_cons_False by tauto.
  f_equal; apply remove_id_none, Forall_forall; intros x Hx Heq.
  - apply (Hd1 (id_ x)); [by apply list_elem_of_fmap_2|]. rewrite Heq. by left.
  - apply Hd2. rewrite <- Heq. by apply list_elem_of_fmap_2.
Qed.
End Invariant.
