(* ===== verification/Engine.v ===== *)
(** * Engine: the matching thread
    ([src/exchange/engine/src/engine.cpp], [include/engine.hpp])

    The driver around the book: it pops requests off the inbound ring, one ahead
    of the one it executes, and stamps each with the time it took it off.  The
    gateway's pushes interleave with the thread's steps in [engine_step].
    [view] reads the book by following the pointers, so that the theorems speak of
    what is in memory and not of ghost state. *)

From S2P Require Import Prelude Types Clock ItchProto RingBuffer PriceLevelQueue Validation WireCodec.
From S2P Require Import Orderbook OrderbookSpec Ladder OrderbookRefine OrderbookCorrect BookInvariant.

(** ** Reading the book *)

(** The orders from [p] on along [next_]. *)
Fixpoint walk (a : Arena) (fuel : nat) (p : ptr) : option (list Order) :=
  match p, fuel with
  | None, _ => Some []
  | Some _, O => None
  | Some x, S fuel =>
      match a !! x with
      | None => None
      | Some o => (fun l => unlinked o :: l) <$> walk a fuel (next_ o)
      end
  end.

Fixpoint walk_levels (a : Arena) (qs : list PriceLevelQueue) : option (list Order) :=
  match qs with
  | [] => Some []
  | q :: qs =>
      match walk a (length a) (head_ q), walk_levels a qs with
      | Some l, Some ls => Some (l ++ ls)
      | _, _ => None
      end
  end.

Definition view_side (side : Side) (b : Orderbook) : option (list Order) :=
  walk_levels (arena_ (pool_ b)) (prio side (levels side b)).

Definition view (b : Orderbook) : option SBook :=
  match view_side BID b, view_side ASK b with
  | Some bids, Some asks => Some (mkSBook bids asks (next_match_number_ b))
  | _, _ => None
  end.

Section View.
Context `{cfg : BookConfig}.

Lemma walk_links a prev l fuel :
  links a prev l None -> (length l <= fuel)%nat -> walk a fuel (head l) = Some (slot_orders a l).
Proof.
  revert prev fuel. induction l as [|p l IH]; intros prev fuel Hl Hf; [by destruct fuel|].
  destruct Hl as [(o & Ho & _ & Hn) Hl]. destruct fuel as [|fuel]; [cbn in Hf; lia|].
  cbn [walk head]. rewrite Ho, (slot_orders_cons _ _ _ _ Ho).
  replace (next_ o) with (head l) by (rewrite Hn; by destruct l).
  cbn in Hf. rewrite (IH (Some p) fuel) by (done || lia). done.
Qed.

Lemma view_side_rep b qs s side : book_rep b qs s -> view_side side b = Some (sb_side side s).
Proof.
  intros H. rewrite (br_spec _ _ _ H). unfold view_side. set (a := arena_ (pool_ b)).
  destruct (br_sides _ _ _ H side) as (Hlad & _). fold a in Hlad.
  assert (Forall2 (plq_rep a) (prio side (levels side b)) (prio side (qs side))) as H2.
  { pose proof (lr_levels _ _ _ _ Hlad). destruct side; [by apply Forall2_reverse|done]. }
  assert (forall q l, plq_rep a q l -> walk a (length a) (head_ q) = Some (slot_orders a l)) as Hw.
  { intros q l Hr. rewrite (pr_head _ _ _ Hr). eapply walk_links; [apply Hr|].
    rewrite <- (length_seq (length a) 0). apply submseteq_length, NoDup_submseteq; [apply Hr|].
    intros p Hp. apply elem_of_seq. destruct (links_lookup _ _ _ _ p (pr_links _ _ _ Hr) Hp) as [o Ho].
    apply lookup_lt_Some in Ho. lia. }
  unfold side_slots. induction H2 as [|q l qs' ls Hr H2 IH]; [done|]. cbn [walk_levels concat].
  by rewrite (Hw q l Hr), IH, slot_orders_app.
Qed.

Lemma view_rep b qs s : book_rep b qs s -> view b = Some s.
Proof.
  intros H. unfold view. rewrite !(view_side_rep _ _ _ _ H), (br_match _ _ _ H). by destruct s.
Qed.
End View.

(** ** The thread *)

Section Engine.
Context `{cfg : BookConfig}.
Context (rdtsc : nat -> Z).

Definition executeRequest (req : EngineRequest) : M Orderbook unit :=
  n ← gets tsc_reads;
  _ ← modify (fun b => b <| tsc_reads := S n |>);
  let engine_pop_tsc := rdtsc n in
  _ ← process rdtsc req engine_pop_tsc;
  mret tt.

(** Where [handleMatching] stands between two accesses to the inbound ring. *)
Inductive engine_pc := Top | Fetch | Execute.

(** The matching thread's state, with the requests submitted and executed so far
    as history. *)
Record EngineState := mkEngine {
  en_book : Orderbook;
  en_in_ring : RingBuffer EngineRequest;
  en_cur : option EngineRequest;
  en_nxt : option EngineRequest;
  en_pc : engine_pc;
  en_submitted : list EngineRequest;
  en_executed : list EngineRequest;
}.
#[local] Instance EngineState_eta : Eta EngineState := fun e =>
  mkEngine (en_book e) (en_in_ring e) (en_cur e) (en_nxt e) (en_pc e) (en_submitted e) (en_executed e).

Definition on_ring {A} (m : M (RingBuffer EngineRequest) A) : M EngineState A := fun e =>
  match m (en_in_ring e) with
  | Some (x, r) => Some (x, e <| en_in_ring := r |>)
  | None => None
  end.

Definition on_book {A} (m : M Orderbook A) : M EngineState A := fun e =>
  match m (en_book e) with
  | Some (x, b) => Some (x, e <| en_book := b |>)
  | None => None
  end.

(** [if (!cur) { cur = in_ring_.pop(); if (!cur) continue; }] *)
Definition match_top : M EngineState unit :=
  cur ← gets en_cur;
  match (cur : option EngineRequest) with
  | Some _ => modify (fun e => e <| en_pc := Fetch |>)
  | None =>
      x ← on_ring pop;
      modify (fun e => e <| en_cur := x |>
                         <| en_pc := match (x : option EngineRequest) with Some _ => Fetch | None => Top end |>)
  end.

(** [nxt = in_ring_.pop(); if (nxt) book_.prefetch( *nxt);]: the prefetch reads. *)
Definition match_fetch : M EngineState unit :=
  x ← on_ring pop;
  modify (fun e => e <| en_nxt := x |> <| en_pc := Execute |>).

(** [executeRequest( *cur); cur = std::move(nxt);] *)
Definition match_execute : M EngineState unit :=
  cur ← gets en_cur;
  req ← lift cur;
  _ ← on_book (executeRequest req);
  modify (fun e => e <| en_cur := en_nxt e |> <| en_nxt := @None EngineRequest |> <| en_pc := Top |>
                     <| en_executed := en_executed e ++ [req] |>).

Definition handleMatching_step : M EngineState unit :=
  pc ← gets en_pc;
  match pc with Top => match_top | Fetch => match_fetch | Execute => match_execute end.

(** The gateway submits a request when the ring has room. *)
Definition submit (req : EngineRequest) : M EngineState bool :=
  ok ← on_ring (push req);
  _ ← when ok (modify (fun e => e <| en_submitted := en_submitted e ++ [req] |>));
  mret ok.

(** [Engine::step]: pops and executes until the ring is empty.  It runs alone, so
    one round per element the ring can hold, and one that finds it empty, is
    enough. *)
Fixpoint step_loop (fuel : nat) : M EngineState unit :=
  match fuel with
  | O => fun _ => None
  | S fuel =>
      msg ← on_ring pop;
      match (msg : option EngineRequest) with
      | None => mret tt
      | Some req =>
          _ ← on_book (executeRequest req);
          _ ← modify (fun e => e <| en_executed := en_executed e ++ [req] |>);
          step_loop fuel
      end
  end.

Definition step : M EngineState unit := fun e => step_loop (S (length (buffer (en_in_ring e)))) e.

Inductive engine_step : EngineState -> EngineState -> Prop :=
| es_submit e e' req ok : request_ok req -> submit req e = Some (ok, e') -> engine_step e e'
| es_match e e' : handleMatching_step e = Some (tt, e') -> engine_step e e'.

Definition Engine_new (md_ring : RingBuffer ITCH) (in_ring : RingBuffer EngineRequest) (clock : TscClock) : EngineState :=
  mkEngine (Orderbook_new md_ring clock) in_ring None None Top [] [].

(** ** What the engine computes

    The outcomes of a sequence of requests, from the specification alone: each
    request takes one reading of the counter for its pop and one per event. *)

Definition request_context (clock : TscClock) (n : nat) (req : EngineRequest) : Context :=
  mkContext req (rdtsc n) (ns_since_midnight clock (rdtsc n)).

Record Summary := mkSummary {
  sm_book : SBook;
  sm_events : list EngineEvent;
  sm_feed : list ITCH;
  sm_tsc : nat;
}.

Definition spec_execute (clock : TscClock) (st : Summary) (req : EngineRequest) : Summary :=
  let ctx := request_context clock (sm_tsc st) req in
  let oc := spec_process ctx (sm_book st) in
  mkSummary (oc_book oc)
    (sm_events st ++ stamp_events rdtsc ctx false (S (sm_tsc st)) (oc_events oc))
    (sm_feed st ++ oc_itch oc)
    (S (sm_tsc st) + length (oc_events oc)).

Definition spec_run (clock : TscClock) (reqs : list EngineRequest) : Summary :=
  fold_left (spec_execute clock) reqs (mkSummary sbook_new [] [] 0).

(** ** The book after a sequence of requests *)

Record engine_book (N : Z) (clock : TscClock) (b : Orderbook) (st : Summary) : Prop := {
  eb_rep : exists qs, book_rep b qs (sm_book st);
  eb_feed : ring_rep N (market_data_ring_ b) (feed N ([], 0) (sm_feed st)).1;
  eb_drops : market_data_drops_ b = (feed N ([], 0) (sm_feed st)).2;
  eb_out : out_ring_ b = sm_events st;
  eb_tsc : tsc_reads b = sm_tsc st;
  eb_clock : clock_ b = clock;
}.

Lemma book_new_rep md clock :
  book_rep (Orderbook_new md clock) (fun _ => replicate ladder_size []) sbook_new.
Proof.
  assert (concat (replicate ladder_size []) = ([] : list nat)) as Hc by (induction ladder_size; done).
  assert (nonempty_levels (replicate ladder_size []) = 0%nat) as Hn
    by (apply nonempty_levels_0; by intros i l [-> _]%lookup_replicate).
  split; cbn.
  - unfold book_slots. rewrite Hc. apply pool_new_wf.
  - apply length_replicate.
  - intros side. split; [destruct side; apply ladder_new|]. split; [left|]; destruct side; by rewrite ?Hn.
  - intros id slot. rewrite lookup_empty. unfold book_slots. rewrite Hc. split; [done|].
    intros [H _]. by apply elem_of_nil in H.
  - intros side. rewrite (proj1 (nonempty_levels_slots side _) Hn). by destruct side.
  - done.
Qed.

Lemma executeRequest_run N clock b st req :
  engine_book N clock b st -> sbook_wf (sm_book st) -> request_ok req ->
  exists b', executeRequest req b = Some (tt, b') /\
    engine_book N clock b' (spec_execute clock st req).
Proof.
  intros [[qs H] Hfeed Hdrops Hout Htsc Hclock] Hwf Hreq.
  set (b0 := b <| tsc_reads := S (tsc_reads b) |>).
  assert (book_rep b0 qs (sm_book st)) as H0 by (by apply (book_rep_same b)).
  pose proof (process_run rdtsc N req (rdtsc (tsc_reads b)) _ b0 qs _ H0 Hfeed (sbook_wf_ok _ Hwf) Hreq) as Hrun.
  cbv zeta in Hrun. replace (clock_ b0) with clock in Hrun by done. rewrite Htsc in Hrun.
  fold (request_context clock (sm_tsc st) req) in Hrun.
  destruct Hrun as (b1 & qs1 & Hr & H1 & Hpd). set (ctx := request_context clock (sm_tsc st) req) in *.
  exists b1. split.
  - unfold executeRequest. rewrite gets_bind, modify_bind. cbv zeta. fold b0. rewrite Htsc.
    erewrite bind_Some by (exact Hr). done.
  - destruct (pd_feed Hpd _ Hfeed) as [Hf' Hd'].
    unfold b0 in Hf', Hd'. cbn [market_data_drops_] in Hf', Hd'.
    rewrite Hdrops, <- surjective_pairing in Hf', Hd'.
    split; unfold spec_execute; cbn [sm_book sm_events sm_feed sm_tsc].
    + by exists qs1.
    + unfold feed. rewrite fold_left_app. exact Hf'.
    + unfold feed. rewrite fold_left_app. exact Hd'.
    + rewrite (pd_out Hpd). cbn. by rewrite Hout, Htsc.
    + rewrite (pd_tsc Hpd). cbn. by rewrite Htsc.
    + by rewrite (pd_clock Hpd).
Qed.

Lemma spec_run_snoc clock reqs req :
  spec_run clock (reqs ++ [req]) = spec_execute clock (spec_run clock reqs) req.
Proof. unfold spec_run. by rewrite fold_left_app. Qed.

Lemma spec_run_wf clock reqs : Forall request_ok reqs -> sbook_wf (sm_book (spec_run clock reqs)).
Proof.
  induction reqs as [|req reqs IH] using rev_ind; intros Hok; [apply sbook_new_wf|].
  apply Forall_app in Hok as [Hok [Hreq _]%Forall_cons]. rewrite spec_run_snoc.
  apply spec_process_wf; [by apply IH|done].
Qed.

(** ** The thread's invariant *)

Definition pending (e : EngineState) : list EngineRequest := option_list (en_cur e) ++ option_list (en_nxt e).

Definition pc_ok (e : EngineState) : Prop :=
  match en_pc e with
  | Top => en_nxt e = None
  | Fetch => is_Some (en_cur e) /\ en_nxt e = None
  | Execute => is_Some (en_cur e)
  end.

Record engine_inv (N K : Z) (clock : TscClock) (e : EngineState) : Prop := {
  ei_book : engine_book N clock (en_book e) (spec_run clock (en_executed e));
  ei_ring : exists l, ring_rep K (en_in_ring e) l /\ en_submitted e = en_executed e ++ pending e ++ l;
  ei_ok : Forall request_ok (en_submitted e);
  ei_pc : pc_ok e;
}.

Lemma on_ring_run {A} (m : M (RingBuffer EngineRequest) A) e x r :
  m (en_in_ring e) = Some (x, r) -> on_ring m e = Some (x, e <| en_in_ring := r |>).
Proof. intros H. unfold on_ring. by rewrite H. Qed.

Lemma on_book_run {A} (m : M Orderbook A) e x b :
  m (en_book e) = Some (x, b) -> on_book m e = Some (x, e <| en_book := b |>).
Proof. intros H. unfold on_book. by rewrite H. Qed.

Lemma Engine_new_inv N K md in_ring clock :
  ring_rep N md [] -> ring_rep K in_ring [] -> engine_inv N K clock (Engine_new md in_ring clock).
Proof.
  intros Hmd Hin. split; [|by exists []|constructor|done].
  split; try done. eexists. apply book_new_rep.
Qed.

Lemma match_top_run N K clock e :
  engine_inv N K clock e -> en_pc e = Top ->
  exists e', match_top e = Some (tt, e') /\ engine_inv N K clock e' /\
    en_executed e' = en_executed e /\ en_submitted e' = en_submitted e /\
    (en_submitted e <> en_executed e -> en_pc e' = Fetch).
Proof.
  intros [Hb (l & Hl & Hs) Hok Hpc] Ht. unfold pc_ok in Hpc. rewrite Ht in Hpc. unfold pending in Hs.
  unfold match_top. rewrite gets_bind. destruct (en_cur e) as [c|] eqn:Hc.
  - eexists. split; [reflexivity|]. split; [|done]. split; [done| |done|].
    + exists l. unfold pending. cbn. by rewrite Hc.
    + unfold pc_ok. cbn. by rewrite Hc.
  - destruct (pop_spec K _ l Hl) as (r & Hpop & Hr). rewrite (bind_Some _ _ _ _ _ (on_ring_run _ _ _ _ Hpop)).
    eexists. split; [reflexivity|]. split; [split; [done| |done|]|split; [done|split; [done|]]].
    + exists (tail l). split; [done|]. unfold pending. cbn. rewrite Hs, Hpc. by destruct l.
    + unfold pc_ok. cbn. by destruct l.
    + intros Hne. destruct l; [|done]. destruct Hne. by rewrite Hs, Hpc, app_nil_r.
Qed.

Lemma match_fetch_run N K clock e :
  engine_inv N K clock e -> en_pc e = Fetch ->
  exists e', match_fetch e = Some (tt, e') /\ engine_inv N K clock e' /\
    en_executed e' = en_executed e /\ en_submitted e' = en_submitted e /\ en_pc e' = Execute.
Proof.
  intros [Hb (l & Hl & Hs) Hok Hpc] Ht. unfold pc_ok in Hpc. rewrite Ht in Hpc. destruct Hpc as [Hc Hn].
  unfold match_fetch. destruct (pop_spec K _ l Hl) as (r & Hpop & Hr).
  rewrite (bind_Some _ _ _ _ _ (on_ring_run _ _ _ _ Hpop)). eexists. split; [reflexivity|]. split; [|done].
  split; [done| |done|done]. exists (tail l). split; [done|]. unfold pending in *. cbn. rewrite Hs, Hn.
  by destruct l; cbn; rewrite <- ?app_assoc.
Qed.

Lemma match_execute_run N K clock e :
  engine_inv N K clock e -> en_pc e = Execute ->
  exists e' req, match_execute e = Some (tt, e') /\ engine_inv N K clock e' /\
    en_executed e' = en_executed e ++ [req] /\ en_submitted e' = en_submitted e.
Proof.
  intros [Hb (l & Hl & Hs) Hok Hpc] Ht. unfold pc_ok in Hpc. rewrite Ht in Hpc. destruct Hpc as [req Hc].
  unfold pending in Hs. rewrite Hc in Hs. pose proof Hok as Hok'. rewrite Hs in Hok'. apply Forall_app in Hok' as [Hx Hp].
  cbn in Hp. apply Forall_cons in Hp as [Hreq _].
  destruct (executeRequest_run N clock _ _ req Hb (spec_run_wf _ _ Hx) Hreq) as (b' & Hr & Hb').
  unfold match_execute. rewrite gets_bind, (lift_bind _ _ _ _ Hc), (bind_Some _ _ _ _ _ (on_book_run _ _ _ _ Hr)).
  eexists _, req. split; [reflexivity|]. split; [|done]. split; [|..|done].
  - cbn [en_book en_executed]. by rewrite spec_run_snoc.
  - exists l. split; [done|]. unfold pending. cbn. rewrite Hs, <- !app_assoc. cbn. done.
  - done.
Qed.

Lemma handleMatching_step_run N K clock e :
  engine_inv N K clock e -> exists e', handleMatching_step e = Some (tt, e') /\ engine_inv N K clock e'.
Proof.
  intros H. unfold handleMatching_step. rewrite gets_bind. destruct (en_pc e) eqn:E.
  - destruct (match_top_run _ _ _ _ H E) as (e' & ? & ? & _). by exists e'.
  - destruct (match_fetch_run _ _ _ _ H E) as (e' & ? & ? & _). by exists e'.
  - destruct (match_execute_run _ _ _ _ H E) as (e' & _ & ? & ? & _). by exists e'.
Qed.

(** A move of the thread executes at most the oldest request submitted and not executed. *)
Lemma handleMatching_step_effect N K clock e e' :
  engine_inv N K clock e -> handleMatching_step e = Some (tt, e') ->
  en_submitted e' = en_submitted e /\
  (en_executed e' = en_executed e \/
   exists req, en_executed e' = en_executed e ++ [req] /\ en_submitted e !! length (en_executed e) = Some req).
Proof.
  intros H E. unfold handleMatching_step in E. rewrite gets_bind in E. destruct (en_pc e) eqn:Epc.
  - destruct (match_top_run _ _ _ _ H Epc) as (e1 & E1 & _ & ? & ? & _). rewrite E in E1. injection E1 as <-. auto.
  - destruct (match_fetch_run _ _ _ _ H Epc) as (e1 & E1 & _ & ? & ? & _). rewrite E in E1. injection E1 as <-. auto.
  - destruct (match_execute_run _ _ _ _ H Epc) as (e1 & req & E1 & H1 & Hx & Hs). rewrite E in E1. injection E1 as <-. split; [done|]. right. exists req. split; [done|].
    destruct (ei_ring _ _ _ _ H1) as (l & _ & Hs1). rewrite <- Hs, Hs1, Hx, <- app_assoc. by apply list_lookup_middle.
Qed.

Lemma submit_run N K clock e req :
  engine_inv N K clock e -> request_ok req ->
  exists ok e', submit req e = Some (ok, e') /\ engine_inv N K clock e'.
Proof.
  intros [Hb (l & Hl & Hs) Hok Hpc] Hreq. destruct (push_spec K _ l req Hl) as (r & Hpush & Hr).
  unfold submit. rewrite (bind_Some _ _ _ _ _ (on_ring_run _ _ _ _ Hpush)). unfold when.
  destruct (_ <? _); (eexists _, _; split; [reflexivity|]); (split; [done| | |done]).
  - exists (l ++ [req]). split; [done|]. cbn. rewrite Hs, <- !app_assoc. unfold pending. by rewrite <- !app_assoc.
  - cbn. apply Forall_app. split; [done|]. by apply Forall_singleton.
  - by exists l.
  - done.
Qed.

Lemma engine_step_inv N K clock e e' : engine_step e e' -> engine_inv N K clock e -> engine_inv N K clock e'.
Proof.
  intros [e1 e2 req ok Hreq Hs|e1 e2 Hm] H.
  - destruct (submit_run _ _ _ _ req H Hreq) as (ok' & e3 & Hs' & H'). by simplify_eq.
  - destruct (handleMatching_step_run _ _ _ _ H) as (e3 & Hm' & H'). by simplify_eq.
Qed.

Definition engine_reachable (md : RingBuffer ITCH) (in_ring : RingBuffer EngineRequest) (clock : TscClock) :
  EngineState -> Prop := rtc engine_step (Engine_new md in_ring clock).

Lemma engine_reachable_inv N K md in_ring clock e :
  ring_rep N md [] -> ring_rep K in_ring [] -> engine_reachable md in_ring clock e ->
  engine_inv N K clock e.
Proof.
  intros Hmd Hin. apply (rtc_ind_r (fun e => engine_inv N K clock e)).
  - by apply Engine_new_inv.
  - intros x y _ Hstep IH. by eapply engine_step_inv.
Qed.

(** ** [step] *)

Lemma step_loop_run N K clock l fuel e :
  engine_inv N K clock e -> en_cur e = None -> en_nxt e = None -> ring_rep K (en_in_ring e) l ->
  en_submitted e = en_executed e ++ l -> (length l < fuel)%nat ->
  exists e', step_loop fuel e = Some (tt, e') /\ engine_inv N K clock e' /\
    en_executed e' = en_submitted e /\ ring_rep K (en_in_ring e') [].
Proof.
  revert fuel e. induction l as [|req l IH]; intros fuel e Hinv Hc Hn Hl Hs Hf; (destruct fuel as [|fuel]; [cbn in Hf; lia|]);
    destruct (pop_spec K _ _ Hl) as (r & Hpop & Hr); cbn [step_loop];
    rewrite (bind_Some _ _ _ _ _ (on_ring_run _ _ _ _ Hpop)); cbn [head tail] in *.
  - eexists. split; [reflexivity|]. rewrite app_nil_r in Hs. split; [|done].
    destruct Hinv as [Hb _ Hok Hpc]. split; [done| |done|done]. exists []. split; [done|].
    unfold pending. cbn. by rewrite Hc, Hn, app_nil_r.
  - destruct Hinv as [Hb _ Hok Hpc]. pose proof Hok as Hok'. rewrite Hs in Hok'.
    apply Forall_app in Hok' as [Hx [Hreq _]%Forall_cons].
    destruct (executeRequest_run N clock _ _ req Hb (spec_run_wf _ _ Hx) Hreq) as (b' & Hrun & Hb').
    erewrite bind_Some by (by apply on_book_run). rewrite modify_bind.
    destruct (IH fuel (e <| en_in_ring := r |> <| en_book := b' |> <| en_executed := en_executed e ++ [req] |>))
      as (e' & Hr' & Hinv' & Hex & Hemp); cbn; try done; [|by rewrite <- app_assoc|cbn in Hf; lia|by exists e'].
    split; cbn [en_book en_executed en_submitted]; [by rewrite spec_run_snoc| |done|done].
    exists l. split; [done|]. unfold pending. cbn. by rewrite Hc, Hn, Hs, <- app_assoc.
Qed.

(** ** Progress

    A run in which the matching thread makes [n] moves, with whatever the gateway
    submits in between. *)

Inductive engine_runs : nat -> EngineState -> EngineState -> Prop :=
| er_stop e : engine_runs 0 e e
| er_submit n e e1 e' req ok :
    request_ok req -> submit req e = Some (ok, e1) -> engine_runs n e1 e' -> engine_runs n e e'
| er_match n e e1 e' : handleMatching_step e = Some (tt, e1) -> engine_runs n e1 e' -> engine_runs (S n) e e'.

(** Moves spent on the requests executed so far and on the one in hand: three each. *)
Definition moves_spent (e : EngineState) : nat :=
  3 * length (en_executed e) + match en_pc e with Top => 0 | Fetch => 1 | Execute => 2 end.

Lemma submit_grows e req ok e' :
  submit req e = Some (ok, e') ->
  en_submitted e `prefix_of` en_submitted e' /\ moves_spent e' = moves_spent e.
Proof.
  intros (b & e1 & E1 & E)%bind_inv. unfold on_ring in E1. destruct (push req (en_in_ring e)) as [[b0 r]|]; [|done].
  injection E1 as -> <-. destruct b; injection E as <- <-; cbn [en_submitted]; [split; [by eexists|done]|done].
Qed.

Lemma handleMatching_step_spends N K clock e e' :
  engine_inv N K clock e -> handleMatching_step e = Some (tt, e') ->
  engine_inv N K clock e' /\ en_submitted e' = en_submitted e /\
  (Nat.min (S (moves_spent e)) (3 * length (en_submitted e)) <= moves_spent e')%nat.
Proof.
  intros H E. unfold handleMatching_step in E. rewrite gets_bind in E. unfold moves_spent. destruct (en_pc e) eqn:Epc.
  - destruct (match_top_run _ _ _ _ H Epc) as (e1 & E1 & H1 & Hx & Hs & Hp). rewrite E in E1. injection E1 as <-.
    split; [done|]. split; [done|]. rewrite Hx. destruct (decide (en_submitted e = en_executed e)) as [->|Hne]; [lia|].
    rewrite (Hp Hne). lia.
  - destruct (match_fetch_run _ _ _ _ H Epc) as (e1 & E1 & H1 & Hx & Hs & Hp). rewrite E in E1. injection E1 as <-.
    split; [done|]. split; [done|]. rewrite Hx, Hp. lia.
  - destruct (match_execute_run _ _ _ _ H Epc) as (e1 & req & E1 & H1 & Hx & Hs). rewrite E in E1. injection E1 as <-.
    split; [done|]. split; [done|]. rewrite Hx, length_app. cbn [length]. lia.
Qed.

Lemma engine_runs_spends N K clock n e e' :
  engine_inv N K clock e -> engine_runs n e e' ->
  engine_inv N K clock e' /\ en_submitted e `prefix_of` en_submitted e' /\
  (Nat.min (moves_spent e + n) (3 * length (en_submitted e)) <= moves_spent e')%nat.
Proof.
  intros H Hr. induction Hr as [e|n e e1 e' req ok Hreq Es _ IH|n e e1 e' Em _ IH].
  - split; [done|]. split; [done|]. lia.
  - destruct (submit_run _ _ _ _ req H Hreq) as (ok' & e2 & Es' & H1). rewrite Es in Es'. injection Es' as <- <-.
    destruct (submit_grows _ _ _ _ Es) as [Hp Hm]. destruct (IH H1) as (H' & Hp' & Hm'). split; [done|].
    split; [by etransitivity|]. apply prefix_length in Hp. lia.
  - destruct (handleMatching_step_spends _ _ _ _ _ H Em) as (H1 & Hs & Hm). destruct (IH H1) as (H' & Hp' & Hm').
    rewrite Hs in Hp', Hm'. split; [done|]. split; [done|]. lia.
Qed.
End Engine.
