(* ===== verification/BookTheorems.v ===== *)
(** * BookTheorems: what the order book guarantees

    The correctness theorems of [src/exchange/engine/src/orderbook.cpp], stated of
    the handlers as they run: refinement of the specification, the invariant of
    the caches, price-time priority, conservation of shares, and what each kind
    of request may and may not change. *)

From stdpp Require Import sorting.
From S2P Require Import Prelude Types Clock ItchProto RingBuffer PriceLevelQueue Validation WireCodec.
From S2P Require Import Orderbook OrderbookSpec Ladder OrderbookRefine OrderbookCorrect BookInvariant Engine.

(** A book between two requests: [s] is what it holds. *)
Definition book_state `{cfg : BookConfig} (N : Z) (b : Orderbook) (s : SBook) : Prop :=
  sbook_wf s /\ (exists qs, book_rep b qs s) /\ (exists l, ring_rep N (market_data_ring_ b) l).

Section Theorems.
Context `{cfg : BookConfig}.
Context (rdtsc : nat -> Z).

Lemma book_state_new N md clock :
  ring_rep N md [] -> book_state N (Orderbook_new md clock) sbook_new.
Proof.
  intros H. split; [apply sbook_new_wf|]. split; [|by exists []]. eexists. apply book_new_rep.
Qed.

(** C1: [Orderbook::process] refines the abstract book: on a well-formed book it
    returns (no fault, no endless loop), acts exactly when the specification
    acts, leaves the specification's book in memory, pushes the specification's
    events, stamped, in order, and feeds its ITCH messages to the ring. *)
Theorem process_refines N b s req pop_tsc :
  book_state N b s -> request_ok req ->
  let ctx := mkContext req pop_tsc (ns_since_midnight (clock_ b) pop_tsc) in
  let oc := spec_process ctx s in
  exists b', process rdtsc req pop_tsc b = Some (oc_acted oc, b') /\
    book_state N b' (oc_book oc) /\ view b' = Some (oc_book oc) /\
    out_ring_ b' = out_ring_ b ++ stamp_events rdtsc ctx false (tsc_reads b) (oc_events oc) /\
    forall l, ring_rep N (market_data_ring_ b) l ->
      ring_rep N (market_data_ring_ b') (feed N (l, market_data_drops_ b) (oc_itch oc)).1 /\
      market_data_drops_ b' = (feed N (l, market_data_drops_ b) (oc_itch oc)).2.
Proof.
  intros (Hwf & [qs H] & [l Hl]) Hreq ctx oc.
  destruct (process_run rdtsc N req pop_tsc s b qs l H Hl (sbook_wf_ok _ Hwf) Hreq) as (b' & qs' & Hr & H' & Hpd).
  exists b'. split; [exact Hr|]. split.
  { split; [by apply spec_process_wf|]. split; [by exists qs'|]. eexists. by apply (pd_feed Hpd). }
  split; [by eapply view_rep|]. split; [exact (pd_out Hpd)|exact (pd_feed Hpd)].
Qed.

(** C21: The caches of a well-formed book agree with its orders: the best price of
    a side is the price of its first order (or parked at the end of the ladder),
    no level counter counts a side with no order, every id in the map points to
    the order of that id, and the pool's free slots are the ones left. *)
Theorem caches_agree N b s :
  book_state N b s ->
  view b = Some s /\
  best_bid_price_ b = match sb_bids s with [] => MIN_PRICE | o :: _ => price_ o end /\
  best_ask_price_ b = match sb_asks s with [] => MAX_PRICE | o :: _ => price_ o end /\
  (non_empty_bid_levels_ b = 0 <-> sb_bids s = []) /\ (non_empty_ask_levels_ b = 0 <-> sb_asks s = []) /\
  (forall id, unlinked <$> (orders_ b !! id ≫= (fun p => arena_ (pool_ b) !! p)) = sb_find id s) /\
  (length (sb_bids s) + length (sb_asks s) + pool_available (pool_ b) = PREALLOCATION_COUNT)%nat.
Proof.
  intros (Hwf & [qs H] & _). split; [by eapply view_rep|].
  assert (forall side, best_price side b = match sb_side side s with [] => worst side | o :: _ => price_ o end /\
    (level_count side b = 0 <-> sb_side side s = [])) as Hs.
  { intros side. destruct (sb_side side s) as [|r l] eqn:E.
    - pose proof (book_bottom _ _ _ _ H E) as Hc. split; [|done].
      destruct (br_sides _ _ _ H side) as (_ & [[_ ->]|(j & Hj & _)] & Hn); [done|].
      apply first_level_count in Hj. lia.
    - destruct (book_top _ _ _ _ _ _ H E) as (p & o & [] & _). split; [done|]. split; [done|done]. }
  destruct (Hs BID) as [? ?], (Hs ASK) as [? ?]. split; [done|]. split; [done|]. split; [done|]. split; [done|].
  split; [intros id; symmetry; by eapply sb_find_rep|]. by eapply available_rep.
Qed.

(** C7: Price-time priority: an incoming order trades with the first orders of the
    opposite side, in order, each at its own price; every one but the last is
    filled completely, and what is left of the side stays in place. *)
Theorem match_priority N b s ctx id client_id side type price quantity :
  book_state N b s -> is_u32 quantity ->
  exists fills hit others b' s',
    match_ rdtsc ctx id client_id side type price quantity b = Some (filled_shares fills, b') /\
    view b' = Some s' /\
    sb_side (opposite side) s = hit ++ others /\ fills.*1 = hit /\
    Forall (fun r => crosses_price side type price (price_ r) = true) hit /\
    (sb_side (opposite side) s' = others /\ fills.*2 = open_quantity_ <$> hit \/
     exists r fill, last hit = Some r /\ 0 < fill < open_quantity_ r /\
       sb_side (opposite side) s' = fill_order fill r :: others /\
       fills.*2 = (open_quantity_ <$> removelast hit) ++ [fill]) /\
    out_ring_ b' = out_ring_ b ++
      stamp_events rdtsc ctx (ctx_answered b) (tsc_reads b) (fill_events id client_id (sb_next_match s) fills).
Proof.
  intros (Hwf & [qs H] & [l Hl]) Hq. pose proof (sbook_wf_ok _ Hwf (opposite side)) as Hqty.
  destruct (take_liquidity side type price quantity (sb_side (opposite side) s)) as [fills kept] eqn:Ht.
  destruct (ran_match rdtsc N ctx id client_id side type price quantity s b qs l fills kept H Hl Hqty Hq Ht)
    as (b' & qs' & Hr & H' & Hpd).
  assert (0 <= quantity) as Hq0 by ulia.
  destruct (swept_front _ _ _ _ _ _ _ (take_liquidity_swept _ _ _ _ _ _ _ Hqty Hq0 Ht))
    as (hit & others & Hsplit & Hf & Hcross & Hkept).
  eexists fills, hit, others, b', _. split; [done|]. split; [by eapply view_rep|]. split; [done|]. split; [done|].
  split; [done|]. rewrite sb_side_match, sb_side_set. split; [done|]. exact (pd_out Hpd).
Qed.

(** C8: Shares are conserved by matching: what the incoming order gets is what the
    opposite side loses, never more than it asked for; its own side is not
    touched, and when it is not filled nothing it could trade with is left. *)
Theorem match_conserves N b s ctx id client_id side type price quantity :
  book_state N b s -> is_u32 quantity ->
  exists filled b' s',
    match_ rdtsc ctx id client_id side type price quantity b = Some (filled, b') /\ view b' = Some s' /\
    0 <= filled <= quantity /\
    open_shares (sb_side (opposite side) s') + filled = open_shares (sb_side (opposite side) s) /\
    sb_side side s' = sb_side side s /\
    (filled < quantity ->
     Forall (fun r => crosses_price side type price (price_ r) = false) (sb_side (opposite side) s')).
Proof.
  intros (Hwf & [qs H] & [l Hl]) Hq. pose proof (sbook_wf_ok _ Hwf (opposite side)) as Hqty.
  destruct (take_liquidity side type price quantity (sb_side (opposite side) s)) as [fills kept] eqn:Ht.
  destruct (ran_match rdtsc N ctx id client_id side type price quantity s b qs l fills kept H Hl Hqty Hq Ht)
    as (b' & qs' & Hr & H' & Hpd).
  assert (0 <= quantity) as Hq0 by ulia.
  pose proof (take_liquidity_swept _ _ _ _ _ _ _ Hqty Hq0 Ht) as Hsw.
  destruct (swept_shares _ _ _ _ _ _ _ Hsw Hq0) as [Hsh Hf].
  eexists _, b', _. split; [exact Hr|]. split; [by eapply view_rep|]. rewrite !sb_side_match, sb_side_set.
  split; [done|]. split; [done|]. split; [by destruct side|]. intros Hlt.
  eapply swept_exhausted; [done..|]. apply (sw_side _ Hwf).
Qed.

(** Handlers that reach their end return [true]. *)
Lemma then_true_returns {A} (m : M Orderbook A) b r b' :
  (m ≫= (fun _ => mret true)) b = Some (r, b') -> r = true.
Proof. unfold mbind, M_bind. destruct (m b) as [[x b1]|]; [|done]. by intros [= <- _]. Qed.

Lemma bind_returns_true {A} (m : M Orderbook A) (k : A -> M Orderbook bool) b r b' :
  (forall x b1 r1 b2, k x b1 = Some (r1, b2) -> r1 = true) -> (m ≫= k) b = Some (r, b') -> r = true.
Proof. unfold mbind, M_bind. destruct (m b) as [[x b1]|]; [|done]. eauto. Qed.

Lemma incoming_returns_true {A B} (m : M Orderbook A) (c : A -> bool) (k : A -> M Orderbook B) b r b' :
  (m ≫= (fun x => if c x then mret true else (k x ≫= (fun _ => mret true)))) b = Some (r, b') -> r = true.
Proof.
  apply bind_returns_true. intros x b1 r1 b2. destruct (c x); [by intros [= <- _]|]. apply then_true_returns.
Qed.

Lemma enter_false ctx b b' : enter rdtsc ctx b = Some (false, b') -> b' = b.
Proof.
  unfold enter. rewrite gets_bind. case_decide; [by intros [= <-]|]. rewrite gets_bind.
  destruct (_ && _); intros Hr; exfalso.
  - by apply then_true_returns in Hr.
  - eapply (bind_returns_true _ _ _ false) in Hr; [done|]. intros x b1 r1 b2 Hr1.
    by eapply (incoming_returns_true _ (fun filled => u32 (rq_quantity (ctx_req ctx) - filled) =? 0)) in Hr1.
Qed.

Lemma deref_bind_inv {A} p (k : Order -> M Orderbook A) b res :
  (on_arena (deref p) ≫= k) b = Some res -> exists o, arena_ (pool_ b) !! p = Some o /\ k o b = Some res.
Proof.
  destruct (arena_ (pool_ b) !! p) as [o|] eqn:Ho.
  - rewrite (bind_Some _ _ _ _ _ (deref_run p b o Ho)). eauto.
  - unfold mbind, M_bind, on_arena, deref. by rewrite Ho.
Qed.

Lemma cancel_false ctx b b' : cancel rdtsc ctx b = Some (false, b') -> b' = b.
Proof.
  unfold cancel. rewrite gets_bind. destruct (orders_ b !! _) as [p|]; [|by intros [= <-]].
  intros (o & Ho & Hr)%deref_bind_inv. destruct (negb _); [by injection Hr as <-|]. cbv zeta in Hr.
  destruct (_ <=? _); [by injection Hr as <-|]. exfalso.
  eapply (bind_returns_true _ _ _ false) in Hr; [done|]. intros x b1 r1 b2 Hr1.
  eapply (bind_returns_true _ _ _ r1) in Hr1; [done|]. intros y b3 r2 b4 Hr2. by eapply then_true_returns.
Qed.

Lemma replace_false ctx b b' : replace_ rdtsc ctx b = Some (false, b') -> b' = b.
Proof.
  unfold replace_. rewrite gets_bind. destruct (orders_ b !! _) as [p|]; [|by intros [= <-]].
  intros (o & Ho & Hr)%deref_bind_inv. destruct (negb _); [by injection Hr as <-|].
  case_decide; [by injection Hr as <-|]. cbv zeta in Hr. exfalso.
  destruct (_ =? 0) in Hr; eapply (bind_returns_true _ _ _ false) in Hr; try done; intros x1 b1 r1 b2 Hr1;
    eapply (bind_returns_true _ _ _ r1) in Hr1; try done; intros x2 b3 r2 b4 Hr2;
    eapply (bind_returns_true _ _ _ r2) in Hr2; try done; intros x3 b5 r3 b6 Hr3.
  - by eapply then_true_returns.
  - rewrite gets_bind in Hr3. destruct (_ && _) in Hr3; eapply (bind_returns_true _ _ _ r3) in Hr3; try done;
      intros x4 b7 r4 b8 Hr4; [by eapply then_true_returns|].
    by eapply (incoming_returns_true _ (fun filled => u32 (_ - filled) =? 0)) in Hr4.
Qed.

(** A request that is ignored leaves the whole book as it was: orders, caches,
    map, pool, counters, and both output rings. *)
Theorem ignored_changes_nothing req pop_tsc b b' :
  process rdtsc req pop_tsc b = Some (false, b') -> b' = b <| ctx_answered := false |>.
Proof.
  unfold process. destruct (rq_type req); [apply enter_false|apply cancel_false|apply replace_false].
Qed.

(** ** Requests, one kind at a time *)

Lemma spec_acted_events ctx s :
  if oc_acted (spec_process ctx s) then oc_events (spec_process ctx s) <> [] else spec_process ctx s = ignored s.
Proof.
  unfold spec_process. destruct (rq_type (ctx_req ctx)).
  - unfold spec_enter. case_decide; [done|]. destruct (_ && _); [done|].
    by destruct (spec_incoming _ _ _ _ _ _ _ _ _ _) as [[? ?] ?].
  - unfold spec_cancel. destruct (sb_find _ s); [|done]. destruct (negb _); [done|]. cbv zeta.
    destruct (_ <=? _); [done|]. by destruct (_ =? 0).
  - unfold spec_replace. destruct (sb_find _ s); [|done]. destruct (negb _); [done|]. case_decide; [done|].
    cbv zeta. destruct (_ =? 0); [done|]. destruct (_ && _); [done|].
    by destruct (spec_incoming _ _ _ _ _ _ _ _ _ _) as [[? ?] ?].
Qed.

Lemma stamp_events_answers ctx tsc evs :
  Forall (fun e => ev_answers_request e = false) (stamp_events rdtsc ctx true tsc evs).
Proof. revert tsc. induction evs as [|e evs IH]; intros tsc; constructor; [done|apply IH]. Qed.

(** C22: Every request that is acted on is answered exactly once: it produces at
    least one event, the first one (and no other) is marked as its answer, and a
    request that is not acted on produces none. *)
Theorem answered_once N b s req pop_tsc :
  book_state N b s -> request_ok req ->
  exists acted b' evs, process rdtsc req pop_tsc b = Some (acted, b') /\ out_ring_ b' = out_ring_ b ++ evs /\
    match evs with
    | [] => acted = false
    | e :: evs' => acted = true /\ ev_answers_request e = true /\
        Forall (fun e' => ev_answers_request e' = false) evs'
    end.
Proof.
  intros (Hwf & [qs H] & [l Hl]) Hreq.
  destruct (process_run rdtsc N req pop_tsc s b qs l H Hl (sbook_wf_ok _ Hwf) Hreq) as (b' & qs' & Hr & H' & Hpd).
  eexists _, b', _. split; [exact Hr|]. split; [exact (pd_out Hpd)|].
  set (ctx := mkContext _ _ _) in *. pose proof (spec_acted_events ctx s) as Ha.
  destruct (oc_acted (spec_process ctx s)).
  - destruct (oc_events (spec_process ctx s)) as [|e evs]; [done|]. cbn. split; [done|]. split; [done|].
    apply stamp_events_answers.
  - rewrite Ha. done.
Qed.

Lemma process_kind N b s req pop_tsc :
  book_state N b s -> request_ok req ->
  exists ctx b', ctx_req ctx = req /\
    process rdtsc req pop_tsc b = Some (oc_acted (spec_process ctx s), b') /\
    view b' = Some (oc_book (spec_process ctx s)) /\
    out_ring_ b' = out_ring_ b ++ stamp_events rdtsc ctx false (tsc_reads b) (oc_events (spec_process ctx s)).
Proof.
  intros (Hwf & [qs H] & [l Hl]) Hreq.
  destruct (process_run rdtsc N req pop_tsc s b qs l H Hl (sbook_wf_ok _ Hwf) Hreq) as (b' & qs' & Hr & H' & Hpd).
  eexists _, b'. split; [|split; [exact Hr|split; [by eapply view_rep|exact (pd_out Hpd)]]]. done.
Qed.

(** C23: A cancel reduces an order in place: the order it names, owned by its
    client, is cut to the intended size less what was executed, at the same
    position; when nothing is left it is taken out; every other order, and its
    place in the queue, stays. *)
Theorem cancel_keeps_priority N b s req pop_tsc o :
  book_state N b s -> request_ok req -> rq_type req = CANCEL ->
  sb_find (rq_order_id req) s = Some o -> client_id_ o = rq_client_id req ->
  still_open (rq_quantity req) (executed_quantity_ o) < open_quantity_ o ->
  let target := still_open (rq_quantity req) (executed_quantity_ o) in
  exists b' l1 l2, process rdtsc req pop_tsc b = Some (true, b') /\
    sb_side (side_ o) s = l1 ++ o :: l2 /\
    view b' = Some (sb_set_side (side_ o)
      (l1 ++ (if target =? 0 then [] else [o <| open_quantity_ := target |>]) ++ l2) s).
Proof.
  intros Hst Hreq Ht Hf Hc Hlt target. pose proof Hst as (Hwf & _).
  destruct (process_kind N b s req pop_tsc Hst Hreq) as (ctx & b' & Hctx & Hr & Hv & _).
  unfold spec_process in Hr, Hv. rewrite Hctx, Ht in Hr, Hv. unfold spec_cancel in Hr, Hv. rewrite Hctx, Hf in Hr, Hv.
  rewrite (proj2 (Z.eqb_eq _ _) Hc) in Hr, Hv. cbn [negb] in Hr, Hv. fold target in Hr, Hv, Hlt. cbv zeta in Hr, Hv.
  rewrite (proj2 (Z.leb_gt _ _) Hlt) in Hr, Hv.
  destruct (find_in_side _ _ _ Hwf Hf) as [Hin Hid]. pose proof (side_ids_nodup s (side_ o) Hwf) as Hd.
  apply list_elem_of_split in Hin as (l1 & l2 & Hs). rewrite Hs in Hd. exists b', l1, l2.
  destruct (target =? 0); cbn [oc_acted oc_book] in Hr, Hv; (split; [done|]); (split; [done|]); rewrite Hv; f_equal.
  - unfold sb_remove. rewrite Hs. f_equal. by apply remove_id_middle.
  - f_equal. rewrite Hs. by apply (update_id_middle _ (fun x => x <| open_quantity_ := target |>)).
Qed.

(** C24: Nobody can touch an order but its owner: a cancel or replace that names no
    resting order, or another client's, is ignored and changes nothing. *)
Theorem only_owner_acts N b s req pop_tsc :
  book_state N b s -> request_ok req -> rq_type req <> NEW ->
  match sb_find (rq_order_id req) s with None => True | Some o => client_id_ o <> rq_client_id req end ->
  process rdtsc req pop_tsc b = Some (false, b <| ctx_answered := false |>).
Proof.
  intros Hst Hreq Ht Hf. destruct (process_kind N b s req pop_tsc Hst Hreq) as (ctx & b' & Hctx & Hr & _).
  assert (oc_acted (spec_process ctx s) = false) as Hno.
  { unfold spec_process, spec_cancel, spec_replace. rewrite Hctx.
    destruct (sb_find (rq_order_id req) s) as [o|]; [rewrite (proj2 (Z.eqb_neq _ _) Hf)|]; by destruct (rq_type req). }
  rewrite Hno in Hr. rewrite Hr. do 2 f_equal.
  unfold process in Hr. destruct (rq_type req); [done|by eapply cancel_false|by eapply replace_false].
Qed.

Lemma insert_order_split side o l :
  StronglySorted (ahead side) l ->
  exists l1 l2, l = l1 ++ l2 /\ insert_order side o l = l1 ++ o :: l2 /\
    Forall (fun x => better side (price_ o) (price_ x) = false) l1 /\
    Forall (fun x => better side (price_ o) (price_ x) = true) l2.
Proof.
  induction 1 as [|x l Hs IH Hx]; cbn; [exists [], []; auto|].
  destruct (better side (price_ o) (price_ x)) eqn:E.
  - exists [], (x :: l). split; [done|]. split; [done|]. split; [done|]. apply Forall_cons. split; [done|].
    eapply Forall_impl; [done|]. intros y Hy. unfold ahead in Hy. destruct side; cbn in *; zbool; apply Z.ltb_lt; lia.
  - destruct IH as (l1 & l2 & -> & -> & H1 & H2). exists (x :: l1), l2. repeat split; try done. by apply Forall_cons.
Qed.


(** Only a DAY limit order ever rests: after a new market or IOC order its own
    side is as it was, nothing of it is on the book, and what it did not get is
    cancelled with reason I. *)
Theorem immediate_never_rests N b s req pop_tsc :
  book_state N b s -> request_ok req -> rq_type req = NEW ->
  rq_order_type req = MARKET \/ rq_time_in_force req = IOC ->
  sb_find (rq_order_id req) s = None ->
  exists b' s' fills, process rdtsc req pop_tsc b = Some (true, b') /\ view b' = Some s' /\
    sb_side (rq_side req) s' = sb_side (rq_side req) s /\ sb_find (rq_order_id req) s' = None /\
    let remaining := rq_quantity req - filled_shares fills in
    exists ctx, out_ring_ b' = out_ring_ b ++ stamp_events rdtsc ctx false (tsc_reads b)
      (event (rq_order_id req) 0 0 (rq_client_id req) (rq_price req) (rq_quantity req) ACCEPTED 0 ::
       fill_events (rq_order_id req) (rq_client_id req) (sb_next_match s) fills ++
       (if remaining =? 0 then [] else
         [event (rq_order_id req) 0 0 (rq_client_id req) (rq_price req) remaining CANCELED kImmediateOrCancel])).
Proof.
  intros Hst Hreq Ht Himm Hnone.
  destruct (process_kind N b s req pop_tsc Hst Hreq) as (ctx & b' & Hctx & Hr & Hv & Ho).
  unfold spec_process in Hr, Hv, Ho. rewrite Hctx, Ht in Hr, Hv, Ho. unfold spec_enter in Hr, Hv, Ho. rewrite Hctx in Hr, Hv, Ho.
  rewrite (decide_False (P := is_Some (sb_find (rq_order_id req) s))) in Hr, Hv, Ho by (rewrite Hnone; by intros []).
  assert (bool_decide (rq_order_type req = LIMIT) && bool_decide (rq_time_in_force req = DAY) = false) as Hmr
    by (by destruct Himm as [->| ->]; [|rewrite andb_false_r]).
  cbv zeta in Hr, Hv, Ho. rewrite Hmr in Hr, Hv, Ho. cbn [andb] in Hr, Hv, Ho. unfold spec_incoming in Hr, Hv, Ho.
  destruct (take_liquidity _ _ _ _ _) as [fills kept] eqn:Htk. cbv zeta in Hr, Hv, Ho.
  exists b', ((sb_set_side (opposite (rq_side req)) kept s) <| sb_next_match := after_fills (sb_next_match s) fills |>), fills.
  destruct (rq_quantity req - filled_shares fills =? 0) eqn:E; cbn [oc_acted oc_book oc_events] in Hr, Hv, Ho;
    (split; [done|]); (split; [done|]); (split; [by destruct (rq_side req)|]); (split; [by eapply kept_find|]);
    exists ctx; cbv zeta; rewrite E, ?app_nil_r; done.
Qed.

(** C25: A full book rejects a new order that could rest, with reason F, and
    changes nothing else. *)
Theorem full_book_rejects N b s req pop_tsc :
  book_state N b s -> request_ok req -> rq_type req = NEW ->
  rq_order_type req = LIMIT -> rq_time_in_force req = DAY ->
  sb_find (rq_order_id req) s = None -> resting_count s = PREALLOCATION_COUNT ->
  exists b' ctx, process rdtsc req pop_tsc b = Some (true, b') /\ view b' = Some s /\
    out_ring_ b' = out_ring_ b ++
      [stamp ctx true (rdtsc (tsc_reads b)) (event (rq_order_id req) 0 0 (rq_client_id req) 0 0 REJECTED kBookFull)].
Proof.
  intros Hst Hreq Ht Hlim Hday Hnone Hfull.
  destruct (process_kind N b s req pop_tsc Hst Hreq) as (ctx & b' & Hctx & Hr & Hv & Ho).
  unfold spec_process in Hr, Hv, Ho. rewrite Hctx, Ht in Hr, Hv, Ho. unfold spec_enter in Hr, Hv, Ho. rewrite Hctx in Hr, Hv, Ho.
  rewrite (decide_False (P := is_Some (sb_find (rq_order_id req) s))) in Hr, Hv, Ho by (rewrite Hnone; by intros []).
  rewrite Hlim, Hday, !bool_decide_eq_true_2, Hfull, Nat.eqb_refl in Hr, Hv, Ho by done.
  cbn in Hr, Hv, Ho. by exists b', ctx.
Qed.

Lemma process_keeps_state N b s req pop_tsc acted b' :
  book_state N b s -> request_ok req -> process rdtsc req pop_tsc b = Some (acted, b') ->
  let ctx := mkContext req pop_tsc (ns_since_midnight (clock_ b) pop_tsc) in
  book_state N b' (oc_book (spec_process ctx s)).
Proof.
  intros (Hwf & [qs H] & [l Hl]) Hreq Hp ctx.
  destruct (process_run rdtsc N req pop_tsc s b qs l H Hl (sbook_wf_ok _ Hwf) Hreq) as (b1 & qs' & Hr & H' & Hpd).
  assert (process rdtsc req pop_tsc b = Some (oc_acted (spec_process ctx s), b1)) as Hr' by exact Hr.
  rewrite Hp in Hr'. injection Hr' as _ <-.
  split; [by apply spec_process_wf|]. split; [by exists qs'|]. eexists. by apply (pd_feed Hpd).
Qed.
End Theorems.

(** ** Examples

    A book with prices 1 to 8 and room for three orders: client 1 bids 10 at 5,
    client 2 bids 6 at 5, client 3 offers 7 at 8. *)

Module Examples.
#[local] Existing Instance small_config.
Definition ex_tsc (n : nat) : Z := Z.of_nat n.
Definition ex_req (type : EngineRequestType) (id new_id client : Z) (side : Side) (otype : OrderType)
    (tif : TimeInForce) (price quantity : Z) : EngineRequest :=
  mkRequest 0 0 0 id new_id client price quantity type side otype tif.
Definition ex_run (req : EngineRequest) (b : Orderbook) : Orderbook :=
  match process ex_tsc req 0 b with Some (_, b') => b' | None => b end.

Definition ex_b0 : Orderbook := Orderbook_new (ring_new ITCH_NONE 8) (mkClock 0 0 0).
Definition ex_r1 := ex_req NEW 1 0 1 BID LIMIT DAY 5 10.
Definition ex_r2 := ex_req NEW 2 0 2 BID LIMIT DAY 5 6.
Definition ex_r3 := ex_req NEW 3 0 3 ASK LIMIT DAY 8 7.
Definition ex_b1 := ex_run ex_r1 ex_b0.
Definition ex_b2 := ex_run ex_r2 ex_b1.
Definition ex_b3 := ex_run ex_r3 ex_b2.

Definition ex_o1 := new_order 1 1 BID 5 10 0.
Definition ex_o2 := new_order 2 2 BID 5 6 0.
Definition ex_o3 := new_order 3 3 ASK 8 7 0.
Definition ex_s2 := mkSBook [ex_o1; ex_o2] [] 1.
Definition ex_s3 := mkSBook [ex_o1; ex_o2] [ex_o3] 1.

Ltac ok_request := split; [by vm_compute; repeat split; congruence|by vm_compute; repeat split; congruence].

Lemma ex_state0 : book_state 8 ex_b0 sbook_new.
Proof. apply book_state_new. do 4 eexists. apply ring_new_rep. by exists 3. Qed.

Lemma ex_state1 : book_state 8 ex_b1 (mkSBook [ex_o1] [] 1).
Proof. apply (process_keeps_state ex_tsc 8 ex_b0 sbook_new ex_r1 0 true ex_b1 ex_state0); [ok_request|by vm_compute]. Qed.

Lemma ex_state2 : book_state 8 ex_b2 ex_s2.
Proof. apply (process_keeps_state ex_tsc 8 ex_b1 _ ex_r2 0 true ex_b2 ex_state1); [ok_request|by vm_compute]. Qed.

Lemma ex_state3 : book_state 8 ex_b3 ex_s3.
Proof. apply (process_keeps_state ex_tsc 8 ex_b2 _ ex_r3 0 true ex_b3 ex_state2); [ok_request|by vm_compute]. Qed.

(** An aggressive sell of 12 trades with both bids. *)
Definition ex_sell := ex_req NEW 4 0 4 ASK LIMIT IOC 5 12.

Lemma process_refines_witness :
  exists b', process ex_tsc ex_sell 0 ex_b3 = Some (true, b') /\
    view b' = Some (mkSBook [fill_order 2 ex_o2] [ex_o3] 3).
Proof.
  destruct (process_refines ex_tsc 8 ex_b3 ex_s3 ex_sell 0 ex_state3 ltac:(ok_request)) as (b' & Hr & _ & Hv & _).
  exists b'. split; [exact Hr|]. rewrite Hv. vm_compute. reflexivity.
Defined.

Lemma caches_agree_witness : best_bid_price_ ex_b3 = 5 /\ best_ask_price_ ex_b3 = 8.
Proof. destruct (caches_agree 8 ex_b3 ex_s3 ex_state3) as (_ & Hb & Ha & _). split; [exact Hb|exact Ha]. Defined.

Lemma match_priority_witness :
  exists fills hit others b' s',
    match_ ex_tsc (mkContext ex_sell 0 0) 4 4 ASK LIMIT 5 12 ex_b3 = Some (filled_shares fills, b') /\
    view b' = Some s' /\ [ex_o1; ex_o2] = hit ++ others /\ fills.*1 = hit.
Proof.
  destruct (match_priority ex_tsc 8 ex_b3 ex_s3 (mkContext ex_sell 0 0) 4 4 ASK LIMIT 5 12 ex_state3 ltac:(by vm_compute))
    as (fills & hit & others & b' & s' & Hr & Hv & Hs & Hf & _).
  exists fills, hit, others, b', s'. split; [exact Hr|]. split; [exact Hv|]. split; [exact Hs|exact Hf].
Defined.

Lemma match_conserves_witness :
  exists filled b' s', match_ ex_tsc (mkContext ex_sell 0 0) 4 4 ASK LIMIT 5 12 ex_b3 = Some (filled, b') /\
    view b' = Some s' /\ open_shares (sb_bids s') + filled = 16.
Proof.
  destruct (match_conserves ex_tsc 8 ex_b3 ex_s3 (mkContext ex_sell 0 0) 4 4 ASK LIMIT 5 12 ex_state3 ltac:(by vm_compute))
    as (filled & b' & s' & Hr & Hv & _ & Hs & _).
  exists filled, b', s'. split; [exact Hr|]. split; [exact Hv|exact Hs].
Defined.

(** A cancel of an order that is not there. *)
Definition ex_stray := ex_req CANCEL 9 0 1 BID LIMIT DAY 0 0.

Lemma ignored_changes_nothing_witness :
  match process ex_tsc ex_stray 0 ex_b3 with
  | Some (false, b') => b' = ex_b3 <| ctx_answered := false |>
  | _ => False
  end.
Proof.
  destruct (process ex_tsc ex_stray 0 ex_b3) as [[[|] b']|] eqn:E; [by vm_compute in E| |by vm_compute in E].
  exact (ignored_changes_nothing ex_tsc ex_stray 0 ex_b3 b' E).
Defined.

Lemma answered_once_witness :
  exists acted b' evs, process ex_tsc ex_sell 0 ex_b3 = Some (acted, b') /\ out_ring_ b' = out_ring_ ex_b3 ++ evs.
Proof.
  destruct (answered_once ex_tsc 8 ex_b3 ex_s3 ex_sell 0 ex_state3 ltac:(ok_request)) as (acted & b' & evs & Hr & Ho & _).
  exists acted, b', evs. split; [exact Hr|exact Ho].
Defined.

(** Client 1 cuts its bid to 4. *)
Definition ex_cut := ex_req CANCEL 1 0 1 BID LIMIT DAY 0 4.

Lemma cancel_keeps_priority_witness :
  exists b' l1 l2, process ex_tsc ex_cut 0 ex_b3 = Some (true, b') /\ [ex_o1; ex_o2] = l1 ++ ex_o1 :: l2 /\
    view b' = Some (mkSBook (l1 ++ [ex_o1 <| open_quantity_ := 4 |>] ++ l2) [ex_o3] 1).
Proof.
  exact (cancel_keeps_priority ex_tsc 8 ex_b3 ex_s3 ex_cut 0 ex_o1 ex_state3 ltac:(ok_request) eq_refl eq_refl eq_refl
    ltac:(by vm_compute)).
Defined.

(** Client 2 tries to cancel client 1's bid. *)
Definition ex_foreign := ex_req CANCEL 1 0 2 BID LIMIT DAY 0 0.

Lemma only_owner_acts_witness :
  process ex_tsc ex_foreign 0 ex_b3 = Some (false, ex_b3 <| ctx_answered := false |>).
Proof.
  apply (only_owner_acts ex_tsc 8 ex_b3 ex_s3 ex_foreign 0 ex_state3); [ok_request|by vm_compute|by vm_compute].
Defined.

(** Client 1 replaces its bid at the same price and goes behind client 2. *)
Definition ex_replace := ex_req REPLACE 1 5 1 BID LIMIT DAY 5 10.


Definition ex_market := ex_req NEW 6 0 4 ASK MARKET DAY 0 20.

Lemma immediate_never_rests_witness :
  exists b' s', process ex_tsc ex_market 0 ex_b3 = Some (true, b') /\ view b' = Some s' /\
    sb_asks s' = [ex_o3] /\ sb_find 6 s' = None.
Proof.
  destruct (immediate_never_rests ex_tsc 8 ex_b3 ex_s3 ex_market 0 ex_state3 ltac:(ok_request) eq_refl
    (or_introl eq_refl) eq_refl) as (b' & s' & fills & Hr & Hv & Hs & Hf & _).
  exists b', s'. split; [exact Hr|]. split; [exact Hv|]. split; [exact Hs|exact Hf].
Defined.

Definition ex_fourth := ex_req NEW 7 0 4 BID LIMIT DAY 2 1.

Lemma full_book_rejects_witness :
  exists b', process ex_tsc ex_fourth 0 ex_b3 = Some (true, b') /\ view b' = Some ex_s3.
Proof.
  destruct (full_book_rejects ex_tsc 8 ex_b3 ex_s3 ex_fourth 0 ex_state3 ltac:(ok_request) eq_refl eq_refl eq_refl
    eq_refl eq_refl) as (b' & ctx & Hr & Hv & _).
  exists b'. split; [exact Hr|exact Hv].
Defined.
End Examples.
