(* ===== verification/BookQueries.v ===== *)
(** * BookQueries: what the book's accessors report
    ([Orderbook]'s accessors in [src/exchange/engine/include/orderbook.hpp])

    The read-only members the tests look at the book through.  They read the caches and
    the map; on a book the engine can reach they report the orders of the abstract book. *)

From S2P Require Import Prelude Types Clock ItchProto RingBuffer PriceLevelQueue Validation WireCodec.
From S2P Require Import Orderbook OrderbookSpec Ladder OrderbookRefine OrderbookCorrect BookInvariant Engine BookTheorems.

(** ** Accessors *)

Section Accessors.
Context `{cfg : BookConfig}.

Definition order_count (b : Orderbook) : nat := base.size (orders_ b).
Definition bid_level_count (b : Orderbook) : Z := non_empty_bid_levels_ b.
Definition ask_level_count (b : Orderbook) : Z := non_empty_ask_levels_ b.

(** [None]: no such level. *)
Definition bids_at (p : Z) (b : Orderbook) : option Z := size_ <$> bids_ b !! level_index p.
Definition asks_at (p : Z) (b : Orderbook) : option Z := size_ <$> asks_ b !! level_index p.

Definition has_order (id : Z) (b : Orderbook) : bool := bool_decide (is_Some (orders_ b !! id)).

(** [orders_.at(id)] throws, or the pointer is followed. *)
Definition order_at (id : Z) (b : Orderbook) : option Order := orders_ b !! id ≫= (fun p => arena_ (pool_ b) !! p).
Definition open_quantity (id : Z) (b : Orderbook) : option Z := open_quantity_ <$> order_at id b.
Definition executed_quantity (id : Z) (b : Orderbook) : option Z := executed_quantity_ <$> order_at id b.
Definition market_data_drops (b : Orderbook) : Z := market_data_drops_ b.

(** ** Orders of one price *)

Definition at_price (p : Z) (l : list Order) : list Order := filter (fun o => price_ o = p) l.

Lemma at_price_none a l p :
  Forall (fun s => exists o, a !! s = Some o /\ price_ o <> p) l -> at_price p (slot_orders a l) = [].
Proof.
  induction 1 as [|s l (o & Ho & Hp) _ IH]; [done|]. rewrite (slot_orders_cons _ _ _ _ Ho). unfold at_price. rewrite filter_cons_False; [exact IH|].
  by destruct o.
Qed.

Lemma at_price_all a l p :
  Forall (fun s => exists o, a !! s = Some o /\ price_ o = p) l -> length (at_price p (slot_orders a l)) = length l.
Proof.
  induction 1 as [|s l (o & Ho & Hp) _ IH]; [done|]. rewrite (slot_orders_cons _ _ _ _ Ho). unfold at_price. rewrite filter_cons_True; [|by destruct o].
  cbn [length]. by rewrite <- IH.
Qed.

(** The orders of a ladder at a price are those of its level. *)
Lemma at_price_level a side ls qs (i : nat) l :
  ladder_rep a side ls qs -> qs !! i = Some l -> length (at_price (level_price i) (slot_orders a (concat qs))) = length l.
Proof.
  intros H E. rewrite <- (take_drop_middle qs i l E) at 1. rewrite concat_app, concat_cons, !slot_orders_app. unfold at_price. rewrite !filter_app.
  assert (forall js, (forall (j : nat) l', js !! j = Some l' -> exists j' : nat, j' <> i /\ qs !! j' = Some l') -> at_price (level_price i) (slot_orders a (concat js)) = []) as Hnone.
  { intros js Hjs. apply at_price_none, Forall_forall. intros s Hs. rewrite list_elem_of_In, in_concat in Hs. destruct Hs as (l' & [j Ej]%list_elem_of_In%list_elem_of_lookup & Hs). rewrite <- list_elem_of_In in Hs. destruct (Hjs j l' Ej) as (j' & Hne & Ej').
    destruct (proj1 (Forall_forall _ _) (lr_slots _ _ _ _ H j' l' Ej') s Hs) as (o & Ho & _ & Hp). exists o. split; [done|]. rewrite Hp. unfold level_price. lia. }
  unfold at_price in Hnone. rewrite !Hnone; [rewrite app_nil_r; cbn [app]; apply at_price_all| |].
  - eapply Forall_impl; [by eapply lr_slots|]. intros s (o & ? & _ & ?). by exists o.
  - intros j l' Ej. rewrite lookup_drop in Ej. exists (S i + j)%nat. split; [lia|done].
  - intros j l' Ej. apply lookup_take_Some in Ej as [Ej ?]. exists j. split; [lia|done].
Qed.

Lemma concat_prio {A} side (qs : list (list A)) : concat (prio side qs) ≡ₚ concat qs.
Proof. destruct side; [|done]. cbn [prio]. by rewrite reverse_Permutation. Qed.

Lemma side_at_price b qs s side (i : nat) l :
  book_rep b qs s -> qs side !! i = Some l -> length (at_price (level_price i) (sb_side side s)) = length l.
Proof.
  intros H E. rewrite (br_spec _ _ _ H). destruct (br_sides _ _ _ H side) as (Hl & _). rewrite <- (at_price_level _ _ _ _ _ _ Hl E).
  unfold at_price, slot_orders, side_slots. by rewrite (concat_prio side (qs side)).
Qed.

(** The ticks of the ladder at which [l] has an order. *)
Definition prices_in (l : list Order) : list Z := level_price <$> filter (fun i => at_price (level_price i) l <> []) (seq 0 ladder_size).

Lemma filter_seq_lookup (qs : list (list nat)) P `{!forall i, Decision (P i)} start :
  (forall (i : nat) l, qs !! i = Some l -> P (start + i)%nat <-> l <> []) ->
  nonempty_levels qs = length (filter P (seq start (length qs))).
Proof.
  revert start. induction qs as [|l qs IH]; intros start Hq; [done|]. rewrite nonempty_levels_cons. cbn [length seq].
  pose proof (Hq 0%nat l eq_refl) as H0. rewrite Nat.add_0_r in H0. rewrite (IH (S start)).
  - rewrite filter_cons. unfold occupied. destruct (decide (P start)) as [Hs|Hs]; (destruct l; [|]); cbn [length]; try done; exfalso; naive_solver.
  - intros i l' E. rewrite <- (Hq (S i) l' E). by rewrite Nat.add_succ_r.
Qed.

Lemma side_level_count b qs s side : book_rep b qs s -> level_count side b = Z.of_nat (length (prices_in (sb_side side s))).
Proof.
  intros H. destruct (br_sides _ _ _ H side) as (Hl & _ & ->). f_equal. unfold prices_in. rewrite length_fmap.
  rewrite <- (lr_len _ _ _ _ Hl), (Forall2_length _ _ _ (lr_levels _ _ _ _ Hl)). apply filter_seq_lookup. intros i l E. cbn [Nat.add].
  change (at_price (level_price i) (sb_side side s) <> [] <-> l <> []). rewrite <- !length_zero_iff_nil, (side_at_price _ _ _ _ _ _ H E). done.
Qed.

Lemma side_level_size b qs s side p :
  book_rep b qs s -> in_band p -> size_ <$> levels side b !! level_index p = Some (u64 (Z.of_nat (length (at_price p (sb_side side s))))).
Proof.
  intros H Hp. destruct (br_sides _ _ _ H side) as (Hl & _). destruct (level_price_index p Hp) as [Hi Hlt].
  destruct (lookup_lt_is_Some_2 (levels side b) (level_index p)) as [q Eq]; [by rewrite (lr_len _ _ _ _ Hl)|].
  destruct (Forall2_lookup_l _ _ _ _ _ (lr_levels _ _ _ _ Hl) Eq) as (l & El & Hr). rewrite Eq. cbn. rewrite (pr_size _ _ _ Hr), <- (side_at_price _ _ _ _ _ _ H El), Hi. done.
Qed.

(** ** Theorem *)

(** The accessors of a well-formed book report its orders: how many there are, at how
    many prices and how many at each price, whether an id is resting and with how many
    shares open and executed. *)
Theorem accessors_report_book N b s :
  book_state N b s ->
  order_count b = resting_count s /\
  (forall id, has_order id b = bool_decide (is_Some (sb_find id s))) /\
  (forall id, open_quantity id b = open_quantity_ <$> sb_find id s /\ executed_quantity id b = executed_quantity_ <$> sb_find id s) /\
  bid_level_count b = Z.of_nat (length (prices_in (sb_bids s))) /\ ask_level_count b = Z.of_nat (length (prices_in (sb_asks s))) /\
  (forall p, in_band p -> bids_at p b = Some (u64 (Z.of_nat (length (at_price p (sb_bids s))))) /\
    asks_at p b = Some (u64 (Z.of_nat (length (at_price p (sb_asks s)))))).
Proof.
  intros (Hwf & [qs H] & _).
  assert (forall id, is_Some (orders_ b !! id) <-> is_Some (sb_find id s)) as Hfind.
  { intros id. rewrite (sb_find_rep b qs s id H). destruct (orders_ b !! id) as [p|] eqn:E; [|by split; intros [? ?]].
    apply (br_orders _ _ _ H) in E as [_ (o & Ho & _)%fmap_Some]. cbn. rewrite Ho. by split; intros _; eexists. }
  split; [|split; [|split; [|split; [|split]]]].
  - unfold order_count. rewrite <- size_dom. assert (dom (orders_ b) ≡ list_to_set (sb_ids s)) as ->.
    { intros id. rewrite elem_of_dom, elem_of_list_to_set, Hfind. rewrite <- not_eq_None_Some, sb_find_None. destruct (decide (id ∈ sb_ids s)); naive_solver. }
    rewrite size_list_to_set by apply (sw_ids _ Hwf). unfold sb_ids, resting_count. by rewrite length_app, !length_fmap.
  - intros id. unfold has_order. apply bool_decide_ext, Hfind.
  - intros id. unfold open_quantity, executed_quantity, order_at. rewrite (sb_find_rep b qs s id H). by destruct (_ ≫= _) as [[]|].
  - exact (side_level_count b qs s BID H).
  - exact (side_level_count b qs s ASK H).
  - intros p Hp. split; [exact (side_level_size b qs s BID p H Hp)|exact (side_level_size b qs s ASK p H Hp)].
Qed.
End Accessors.
