(* ===== verification/MarketData.v ===== *)
(** * MarketData: the ITCH feed describes the book

    A subscriber that starts from an empty book and applies every message in order
    ends with the visible part of the engine's book: the same orders, sides,
    prices and open shares.  The subscriber ([itch_apply]) follows the meaning of
    the messages given in [src/infra/itch_proto.hpp]; the messages are those
    [orderbook.cpp] publishes. *)

From stdpp Require Import sorting.
From S2P Require Import Prelude Types Clock ItchProto RingBuffer PriceLevelQueue Validation WireCodec.
From S2P Require Import Orderbook OrderbookSpec Ladder OrderbookRefine OrderbookCorrect BookInvariant Engine.

(** ** A subscriber *)

Record PublicOrder := mkPublic { pub_side : Z; pub_shares : Z; pub_price : Z }.

Abbreviation PublicBook := (gmap Z PublicOrder).

(** Take shares off an order; an order with none left is gone. *)
Definition take_shares (id shares : Z) (m : PublicBook) : PublicBook :=
  match m !! id with
  | None => m
  | Some o =>
      if pub_shares o =? shares then delete id m
      else <[id := mkPublic (pub_side o) (pub_shares o - shares) (pub_price o)]> m
  end.

Definition itch_apply (m : PublicBook) (msg : ITCH) : PublicBook :=
  match msg with
  | itch_add_order a =>
      <[ao_order_reference_number a := mkPublic (ao_buy_sell_indicator a) (ao_shares a) (ao_price a)]> m
  | itch_order_executed e => take_shares (oe_order_reference_number e) (oe_executed_shares e) m
  | itch_order_executed_with_price e => take_shares (op_order_reference_number e) (op_executed_shares e) m
  | itch_order_cancel c => take_shares (oc_order_reference_number c) (oc_canceled_shares c) m
  | itch_order_delete d => delete (od_order_reference_number d) m
  | itch_order_replace r =>
      match m !! orp_original_order_reference_number r with
      | None => m
      | Some o =>
          <[orp_new_order_reference_number r := mkPublic (pub_side o) (orp_shares r) (orp_price r)]>
            (delete (orp_original_order_reference_number r) m)
      end
  | ITCH_NONE | itch_trade _ => m
  end.

Definition itch_replay (m : PublicBook) (msgs : list ITCH) : PublicBook := fold_left itch_apply msgs m.

(** ** The visible book *)

Definition pub (o : Order) : PublicOrder :=
  mkPublic (to_ouch_side (side_ o)) (open_quantity_ o) (to_itch_price (price_ o)).

Fixpoint public (l : list Order) : PublicBook :=
  match l with [] => ∅ | o :: l => <[id_ o := pub o]> (public l) end.

Definition public_book (s : SBook) : PublicBook := public (sb_bids s ++ sb_asks s).

Lemma public_lookup l id : public l !! id = None <-> id ∉ (id_ <$> l).
Proof.
  induction l as [|o l IH]; cbn [public]; [rewrite lookup_empty; set_solver|].
  rewrite lookup_insert_None, IH, fmap_cons. set_solver.
Qed.

Lemma public_perm l l' : NoDup (id_ <$> l) -> l ≡ₚ l' -> public l = public l'.
Proof.
  intros Hd Hp. induction Hp as [|o l l' Hp IH|x y l|l l' l'' Hp1 IH1 _ IH2]; cbn [public]; rewrite ?fmap_cons in Hd.
  - done.
  - apply NoDup_cons in Hd as [_ Hd]. by rewrite IH.
  - apply insert_insert_ne. apply NoDup_cons in Hd as [Hd _]. set_solver.
  - rewrite IH1 by done. apply IH2. by rewrite <- Hp1.
Qed.

Lemma public_delete o l : id_ o ∉ (id_ <$> l) -> delete (id_ o) (public (o :: l)) = public l.
Proof. intros Hn. cbn [public]. apply delete_insert_id. by apply public_lookup. Qed.

Lemma public_take o l shares :
  id_ o ∉ (id_ <$> l) ->
  take_shares (id_ o) shares (public (o :: l)) =
  if open_quantity_ o =? shares then public l
  else public (o <| open_quantity_ := open_quantity_ o - shares |> :: l).
Proof.
  intros Hn. unfold take_shares. cbn [public]. rewrite lookup_insert_eq. cbn [pub pub_shares].
  destruct (_ =? _); [by apply (public_delete o)|]. by rewrite insert_insert_eq.
Qed.

(** ** One request *)

Section Feed.
Context `{cfg : BookConfig}.

Lemma public_side side s : sbook_wf s -> public_book s = public (sb_side side s ++ sb_side (opposite side) s).
Proof.
  intros H. apply public_perm; [rewrite fmap_app; apply H|].
  destruct side; cbn; [done|apply Permutation_app_comm].
Qed.

Lemma public_side_set side l s :
  NoDup (sb_ids (sb_set_side side l s)) ->
  public_book (sb_set_side side l s) = public (l ++ sb_side (opposite side) s).
Proof.
  intros H. apply public_perm; [by rewrite fmap_app|]. destruct side; cbn; [done|apply Permutation_app_comm].
Qed.

(** The executions of an incoming order take its fills off the resting orders. *)
Lemma replay_fills ctx side type price wanted l fills kept others mn :
  swept side type price wanted l fills kept -> NoDup (id_ <$> (l ++ others)) ->
  itch_replay (public (l ++ others)) (fill_itch ctx mn fills) = public (kept ++ others).
Proof.
  intros Hsw. revert mn. induction Hsw as [l|wanted|wanted r l Hc|wanted r l fills kept Hc Hr _ IH|wanted r l Hc Hw];
    intros mn Hd; try done; cbn [app] in *; rewrite fmap_cons in Hd; apply NoDup_cons in Hd as [Hn Hd].
  - cbn [fill_itch itch_replay fold_left itch_apply oe_order_reference_number oe_executed_shares].
    rewrite (public_take _ _ _ Hn), Z.eqb_refl. by apply IH.
  - cbn [fill_itch itch_replay fold_left itch_apply oe_order_reference_number oe_executed_shares].
    rewrite (public_take _ _ _ Hn), (proj2 (Z.eqb_neq _ _)) by lia. done.
Qed.

Lemma replay_app m l1 l2 : itch_replay m (l1 ++ l2) = itch_replay (itch_replay m l1) l2.
Proof. apply fold_left_app. Qed.

Lemma public_insert side o s :
  sbook_wf s -> side_ o = side -> id_ o ∉ sb_ids s ->
  public_book (sb_set_side side (insert_order side o (sb_side side s)) s) = <[id_ o := pub o]> (public_book s).
Proof.
  intros H Hs Hid. rewrite (public_side side s H). rewrite public_side_set.
  - etransitivity; [|symmetry; exact (eq_refl (public (o :: sb_side side s ++ sb_side (opposite side) s)))].
    apply public_perm; [|by rewrite insert_order_perm].
    rewrite insert_order_perm. cbn. rewrite fmap_app. apply NoDup_cons. rewrite <- (sb_ids_side side).
    split; [done|apply H].
  - rewrite sb_ids_set, insert_order_perm. cbn. apply NoDup_cons. rewrite <- (sb_ids_side side).
    split; [done|apply H].
Qed.

Lemma public_match s n : public_book (s <| sb_next_match := n |>) = public_book s.
Proof. done. Qed.

Lemma replay_incoming ctx s id client_id side type price quantity executed may_rest s' evs itch :
  sbook_wf s -> id ∉ sb_ids s -> 0 <= quantity ->
  spec_incoming ctx s id client_id side type price quantity executed may_rest = (s', evs, itch) ->
  itch_replay (public_book s) itch = public_book s'.
Proof.
  intros H Hid Hq Hs. unfold spec_incoming in Hs.
  destruct (take_liquidity _ _ _ _ _) as [fills kept] eqn:Ht in Hs. cbv zeta in Hs.
  pose proof (take_liquidity_swept _ _ _ _ _ _ _ (side_wf_qty _ _ (sw_side _ H (opposite side))) Hq Ht) as Hsw.
  pose proof (sbook_wf_kept _ _ _ _ _ _ _ H Hq Ht) as H1.
  assert (itch_replay (public_book s) (fill_itch ctx (sb_next_match s) fills)
    = public_book ((sb_set_side (opposite side) kept s) <| sb_next_match := after_fills (sb_next_match s) fills |>)) as Hf.
  { rewrite public_match, (public_side (opposite side) s H), public_side_set by apply H1.
    eapply replay_fills; [done|]. rewrite fmap_app, <- sb_ids_side. apply H. }
  destruct (quantity - filled_shares fills =? 0); [by injection Hs as <- _ <-|].
  destruct may_rest; [|by injection Hs as <- _ <-]. injection Hs as <- _ <-.
  rewrite replay_app, Hf. rewrite public_insert; [done|done|done|].
  apply sb_find_None. eapply kept_find; [done|]. by apply sb_find_None.
Qed.

Lemma public_remove o s :
  sbook_wf s -> o ∈ sb_side (side_ o) s -> public_book (sb_remove o s) = delete (id_ o) (public_book s).
Proof.
  intros H Ho. pose proof (sbook_wf_remove o s H) as H1. unfold sb_remove in *. rewrite public_side_set by apply H1.
  rewrite (public_side (side_ o) s H). set (others := sb_side (opposite (side_ o)) s).
  pose proof (sw_ids _ H) as Hd. rewrite (sb_ids_side (side_ o)), <- fmap_app in Hd. fold others in Hd.
  apply list_elem_of_split in Ho as (l1 & l2 & Hl). rewrite Hl in *.
  rewrite (remove_id_middle l1 l2 o) by (rewrite fmap_app in Hd; by apply NoDup_app in Hd as [? _]).
  assert ((l1 ++ o :: l2) ++ others ≡ₚ o :: ((l1 ++ l2) ++ others)) as Hp by (by rewrite <- Permutation_middle).
  rewrite (public_perm _ _ Hd Hp). rewrite Hp, fmap_cons in Hd. apply NoDup_cons in Hd as [Hn _].
  by rewrite (public_delete _ _ Hn).
Qed.

Lemma public_reduce o target s :
  sbook_wf s -> o ∈ sb_side (side_ o) s -> target <> 0 ->
  public_book (sb_set_side (side_ o) (reduce_id (id_ o) target (sb_side (side_ o) s)) s)
  = take_shares (id_ o) (open_quantity_ o - target) (public_book s).
Proof.
  intros H Ho Ht. pose proof (sw_ids _ H) as Hd0. rewrite (sb_ids_side (side_ o)) in Hd0.
  rewrite public_side_set; [|by rewrite sb_ids_set, reduce_id_ids].
  rewrite (public_side (side_ o) s H). set (others := sb_side (opposite (side_ o)) s).
  rewrite <- fmap_app in Hd0. fold others in Hd0.
  apply list_elem_of_split in Ho as (l1 & l2 & Hl). rewrite Hl in *.
  change (reduce_id (id_ o) target) with (update_id (id_ o) (fun x => x <| open_quantity_ := target |>)).
  rewrite update_id_middle by (done || (rewrite fmap_app in Hd0; by apply NoDup_app in Hd0 as [? _])).
  assert (forall x, (l1 ++ x :: l2) ++ others ≡ₚ x :: ((l1 ++ l2) ++ others)) as Hp
    by (intros x; by rewrite <- Permutation_middle).
  rewrite (public_perm _ _ Hd0 (Hp o)).
  rewrite (Hp o), fmap_cons in Hd0. apply NoDup_cons in Hd0 as [Hn Hd].
  rewrite (public_take _ _ _ Hn), (proj2 (Z.eqb_neq (open_quantity_ o) (open_quantity_ o - target))) by lia.
  replace (open_quantity_ o - (open_quantity_ o - target)) with target by lia.
  apply public_perm; [|apply Hp]. rewrite Hp, fmap_cons. by apply NoDup_cons.
Qed.

Lemma public_elem o l : NoDup (id_ <$> l) -> o ∈ l -> public l !! id_ o = Some (pub o).
Proof.
  intros Hd Ho. induction l as [|x l IH]; [by apply elem_of_nil in Ho|]. rewrite fmap_cons in Hd.
  apply NoDup_cons in Hd as [Hx Hd]. cbn [public]. apply elem_of_cons in Ho as [->|Ho]; [by rewrite lookup_insert_eq|].
  rewrite lookup_insert_ne; [by apply IH|]. intros Heq. apply Hx. rewrite Heq. by apply list_elem_of_fmap_2.
Qed.

Lemma public_find o s : sbook_wf s -> o ∈ sb_side (side_ o) s -> public_book s !! id_ o = Some (pub o).
Proof.
  intros H Ho. rewrite (public_side (side_ o) s H). apply public_elem; [|set_solver].
  rewrite fmap_app, <- sb_ids_side. apply H.
Qed.

(** The messages of a request turn the visible book before it into the one after. *)
Lemma replay_process ctx s :
  sbook_wf s -> request_ok (ctx_req ctx) ->
  itch_replay (public_book s) (oc_itch (spec_process ctx s)) = public_book (oc_book (spec_process ctx s)).
Proof.
  intros H [(_ & _ & _ & _ & Hq) _]. unfold spec_process. set (req := ctx_req ctx) in *.
  destruct (rq_type req) eqn:Ht.
  - unfold spec_enter. fold req. case_decide as Hd; [done|]. apply eq_None_not_Some, sb_find_None in Hd.
    destruct (_ && _); [done|].
    destruct (spec_incoming _ _ _ _ _ _ _ _ _ _) as [[s' evs] itch] eqn:Hs; cbn [oc_book oc_itch].
    refine (replay_incoming _ _ _ _ _ _ _ _ _ _ _ _ _ H Hd _ Hs). ulia.
  - unfold spec_cancel. fold req. destruct (sb_find _ s) as [o|] eqn:Hf; [|done].
    destruct (negb _); [done|]. cbv zeta. destruct (find_in_side _ _ _ H Hf) as [Ho _].
    destruct (open_quantity_ o <=? _) eqn:E; [done|]. destruct (still_open _ _ =? 0) eqn:E2; cbn [oc_book oc_itch].
    + by rewrite public_remove.
    + zbool. by rewrite public_reduce.
  - unfold spec_replace. fold req. destruct (sb_find _ s) as [o|] eqn:Hf; [|done].
    destruct (negb _); [done|]. case_decide as Hd; [done|]. apply eq_None_not_Some in Hd. cbv zeta.
    pose proof (sbook_wf_remove o s H) as H1. destruct (find_in_side _ _ _ H Hf) as [Ho Hid].
    apply (sb_remove_find o) in Hd. apply sb_find_None in Hd.
    destruct (still_open _ _ =? 0) eqn:E; [cbn [oc_itch oc_book]; by rewrite public_remove|]. zbool.
    destruct (_ && _).
    + cbn [oc_itch oc_book]. rewrite public_insert by done. rewrite public_remove by done.
      cbn [itch_replay fold_left itch_apply orp_original_order_reference_number orp_new_order_reference_number
           orp_shares orp_price].
      by rewrite (public_find _ _ H Ho).
    + destruct (spec_incoming _ _ _ _ _ _ _ _ _ _) as [[s' evs] itch] eqn:Hs; cbn [oc_book oc_itch].
      change (itch_replay (itch_apply (public_book s) (itch_order_delete
        (mkItchOrderDelete (itch_header ctx ITCH_ORDER_DELETE) (id_ o)))) itch = public_book s').
      cbn [itch_apply od_order_reference_number]. rewrite <- public_remove by done.
      refine (replay_incoming _ _ _ _ _ _ _ _ _ _ _ _ _ H1 Hd _ Hs). unfold still_open. lia.
Qed.

(** ** Every published message fits the wire *)

Definition ctx_ok (ctx : Context) : Prop := 0 <= ctx_itch_timestamp ctx < 2 ^ 48.

Ltac itch_fields :=
  split; [done|]; repeat (apply Forall_cons; split; [cbn; (ulia || done)|]); by apply Forall_nil.

Lemma itch_price_u32 price : is_u32 (to_itch_price price).
Proof. apply u32_range. Qed.

Lemma add_itch_wf ctx side o : ctx_ok ctx -> order_wf side o -> itch_wf (add_itch ctx o).
Proof.
  intros Hc (_ & _ & (? & ? & ?) & _ & ?). unfold ctx_ok in Hc. pose proof STOCK_LOCATE_u16.
  pose proof (itch_price_u32 (price_ o)). assert (is_u8 (to_ouch_side (side_ o))) by (by destruct (side_ o)).
  itch_fields.
Qed.

Lemma executed_itch_wf ctx id shares mn :
  ctx_ok ctx -> is_u64 id -> is_u32 shares -> is_u64 mn ->
  itch_wf (itch_order_executed (mkItchOrderExecuted (itch_header ctx ITCH_ORDER_EXECUTED) id shares mn)).
Proof. intros Hc ? ? ?. unfold ctx_ok in Hc. pose proof STOCK_LOCATE_u16. itch_fields. Qed.

Lemma delete_itch_wf ctx id :
  ctx_ok ctx -> is_u64 id -> itch_wf (itch_order_delete (mkItchOrderDelete (itch_header ctx ITCH_ORDER_DELETE) id)).
Proof. intros Hc ?. unfold ctx_ok in Hc. pose proof STOCK_LOCATE_u16. itch_fields. Qed.

Lemma cancel_itch_wf ctx id shares :
  ctx_ok ctx -> is_u64 id -> is_u32 shares ->
  itch_wf (itch_order_cancel (mkItchOrderCancel (itch_header ctx ITCH_ORDER_CANCEL) id shares)).
Proof. intros Hc ? ?. unfold ctx_ok in Hc. pose proof STOCK_LOCATE_u16. itch_fields. Qed.

Lemma replace_itch_wf ctx id new_id shares price :
  ctx_ok ctx -> is_u64 id -> is_u64 new_id -> is_u32 shares ->
  itch_wf (itch_order_replace (mkItchOrderReplace (itch_header ctx ITCH_ORDER_REPLACE) id new_id shares
    (to_itch_price price))).
Proof.
  intros Hc ? ? ?. unfold ctx_ok in Hc. pose proof STOCK_LOCATE_u16. pose proof (itch_price_u32 price). itch_fields.
Qed.

#[local] Hint Resolve executed_itch_wf delete_itch_wf cancel_itch_wf replace_itch_wf u64_range : exch.

Lemma fill_itch_wf ctx side type price wanted l fills kept s mn :
  ctx_ok ctx -> swept side type price wanted l fills kept -> Forall (order_wf s) l -> is_u64 mn ->
  Forall itch_wf (fill_itch ctx mn fills).
Proof.
  intros Hc Hsw. revert mn. induction Hsw as [l|wanted|wanted r l Hx|wanted r l fills kept Hx Hr _ IH|wanted r l Hx Hw];
    intros mn Hl Hm; try constructor; apply Forall_cons in Hl as [(_ & _ & (? & ? & ?) & _ & ?) Hl]; auto with exch.
  - apply executed_itch_wf; auto; ulia.
  - apply executed_itch_wf; auto; ulia.
Qed.

Lemma incoming_itch_wf ctx s id client_id side type price quantity executed may_rest s' evs itch :
  ctx_ok ctx -> sbook_wf s -> is_u64 id -> 0 <= quantity -> 0 <= executed -> is_u32 (quantity + executed) ->
  (may_rest = true -> in_band price) ->
  spec_incoming ctx s id client_id side type price quantity executed may_rest = (s', evs, itch) ->
  Forall itch_wf itch.
Proof.
  intros Hc H Hi Hq Hex Hu Hrest Hs. unfold spec_incoming in Hs.
  destruct (take_liquidity _ _ _ _ _) as [fills kept] eqn:Ht in Hs. cbv zeta in Hs.
  pose proof (take_liquidity_swept _ _ _ _ _ _ _ (side_wf_qty _ _ (sw_side _ H (opposite side))) Hq Ht) as Hsw.
  pose proof (fill_itch_wf ctx _ _ _ _ _ _ _ _ _ Hc Hsw (proj2 (sw_side _ H (opposite side))) (sw_match _ H)) as Hf.
  destruct (swept_shares _ _ _ _ _ _ _ Hsw Hq) as [_ Hsh].
  destruct (quantity - filled_shares fills =? 0) eqn:E; [by injection Hs as _ _ <-|]. zbool.
  destruct may_rest; [|by injection Hs as _ _ <-]. injection Hs as _ _ <-.
  apply Forall_app. split; [done|]. apply Forall_singleton, (add_itch_wf _ side); [done|].
  split; [done|]. split; [auto|]. split; [|done]. unfold qty_ok. cbn. ulia.
Qed.

Lemma process_itch_wf ctx s :
  ctx_ok ctx -> sbook_wf s -> request_ok (ctx_req ctx) -> Forall itch_wf (oc_itch (spec_process ctx s)).
Proof.
  intros Hc H [(Hi & Hni & _ & _ & Hq) Hband]. unfold spec_process. set (req := ctx_req ctx) in *.
  destruct (rq_type req) eqn:Ht.
  - unfold spec_enter. fold req. case_decide; [constructor|]. set (may_rest := bool_decide _ && bool_decide _).
    destruct (may_rest && _); [constructor|].
    destruct (spec_incoming _ _ _ _ _ _ _ _ _ _) as [[s' evs] itch] eqn:Hs; cbn [oc_itch].
    refine (incoming_itch_wf _ _ _ _ _ _ _ _ _ _ _ _ _ Hc H Hi _ _ _ _ Hs); [ulia|done|by rewrite Z.add_0_r|].
    intros [Hm _]%andb_true_iff. apply bool_decide_eq_true in Hm. auto.
  - unfold spec_cancel. fold req. destruct (sb_find _ s) as [o|] eqn:Hf; [|constructor].
    destruct (find_order_wf _ _ _ H Hf) as (_ & _ & (? & ? & ?) & _ & ?).
    destruct (negb _); [constructor|]. cbv zeta.
    destruct (open_quantity_ o <=? _) eqn:E; [constructor|]. destruct (still_open _ _ =? 0) eqn:E2; cbn [oc_itch];
      apply Forall_singleton; auto with exch.
    apply cancel_itch_wf; [done..|]. zbool. unfold still_open in *. ulia.
  - unfold spec_replace. fold req. destruct (sb_find _ s) as [o|] eqn:Hf; [|constructor].
    destruct (find_order_wf _ _ _ H Hf) as (_ & _ & (? & ? & ?) & _ & ?). pose proof (sbook_wf_remove o s H) as Hwf1.
    destruct (negb _); [constructor|]. case_decide; [constructor|]. cbv zeta.
    destruct (still_open _ _ =? 0) eqn:E; [apply Forall_singleton; auto with exch|]. zbool.
    assert (still_open (rq_quantity req) (executed_quantity_ o) = rq_quantity req - executed_quantity_ o
      /\ executed_quantity_ o < rq_quantity req) as [Hopen ?] by (unfold still_open in *; lia). rewrite Hopen in *.
    destruct (_ && _).
    + apply Forall_singleton, replace_itch_wf; auto. ulia.
    + destruct (spec_incoming _ _ _ _ _ _ _ _ _ _) as [[s' evs] itch] eqn:Hs; cbn [oc_itch].
      apply Forall_cons. split; [auto with exch|].
      refine (incoming_itch_wf _ _ _ _ _ _ _ _ _ _ _ _ _ Hc Hwf1 Hni _ _ _ _ Hs); [lia|done|by rewrite Z.sub_add|done].
Qed.
End Feed.
