(* ===== verification/EngineTheorems.v ===== *)
(** * EngineTheorems: what the matching thread guarantees

    Theorems on every state the engine can reach while the gateway submits
    requests concurrently: requests are executed once each, in order, with the
    book, the events and the market data of the specification. *)

From stdpp Require Import sorting.
From S2P Require Import Prelude Types Clock ItchProto RingBuffer PriceLevelQueue Validation WireCodec.
From S2P Require Import Orderbook OrderbookSpec Ladder OrderbookRefine OrderbookCorrect BookInvariant Engine MarketData.

Section EngineTheorems.
Context `{cfg : BookConfig}.
Context (rdtsc : nat -> Z).

(** C2: In every reachable state the requests submitted are those executed, the
    one in hand, the one fetched ahead and those in the ring, in this order; and
    the book in memory, its match counter and the events pushed are what the
    specification computes from the executed requests. *)
Theorem engine_refines N K md in_ring clock e :
  ring_rep N md [] -> ring_rep K in_ring [] -> engine_reachable rdtsc md in_ring clock e ->
  let st := spec_run rdtsc clock (en_executed e) in
  view (en_book e) = Some (sm_book st) /\ out_ring_ (en_book e) = sm_events st /\
  exists waiting, ring_rep K (en_in_ring e) waiting /\
    en_submitted e = en_executed e ++ option_list (en_cur e) ++ option_list (en_nxt e) ++ waiting.
Proof.
  intros Hmd Hin He. destruct (engine_reachable_inv rdtsc N K md in_ring clock e Hmd Hin He)
    as [[[qs Hb] _ _ Hout _ _] (l & Hl & Hs) _ _].
  split; [by eapply view_rep|]. split; [done|]. exists l. split; [done|]. rewrite Hs. unfold pending.
  by rewrite <- !app_assoc.
Qed.

(** C9: Every reachable book is well formed: each side sorted by price, quantities
    open and in 32 bits, ids unique, every bid below every ask, no more orders
    than the pool has slots. *)
Theorem reachable_book_wf N K md in_ring clock e s :
  ring_rep N md [] -> ring_rep K in_ring [] -> engine_reachable rdtsc md in_ring clock e ->
  view (en_book e) = Some s ->
  sbook_wf s.
Proof.
  intros Hmd Hin He Hv. destruct (engine_reachable_inv rdtsc N K md in_ring clock e Hmd Hin He)
    as [[[qs Hb] _ _ _ _ _] (l & Hl & Hs) Hok _].
  rewrite (view_rep _ _ _ Hb) in Hv. injection Hv as <-. apply spec_run_wf. rewrite Hs in Hok.
  by apply Forall_app in Hok as [? _].
Qed.

(** C27: The matching thread never faults, and no request waits for ever: a request with
    [k] others before it has been executed, in its turn, once the thread has made
    [3 (k + 1)] moves, whatever state the thread was in and whatever the gateway
    submits meanwhile. *)
Theorem engine_executes_waiting N K md in_ring clock e :
  ring_rep N md [] -> ring_rep K in_ring [] -> engine_reachable rdtsc md in_ring clock e ->
  (exists e', handleMatching_step rdtsc e = Some (tt, e')) /\
  (forall before req after n e', en_submitted e = en_executed e ++ before ++ req :: after ->
   engine_runs rdtsc n e e' -> (3 * S (length before) <= n)%nat ->
   en_executed e ++ before ++ [req] `prefix_of` en_executed e').
Proof.
  intros Hmd Hin He. pose proof (engine_reachable_inv rdtsc N K md in_ring clock e Hmd Hin He) as Hinv. split.
  - destruct (handleMatching_step_run rdtsc _ _ _ _ Hinv) as (e' & Hr & _). by exists e'.
  - intros before req after n e' Hs Hr Hn. destruct (engine_runs_spends rdtsc _ _ _ _ _ _ Hinv Hr) as (Hinv' & Hp & Hm).
    destruct (ei_ring _ _ _ _ _ Hinv') as (l & _ & Hs'). set (turn := en_executed e ++ before ++ [req]).
    assert (turn `prefix_of` en_submitted e') as Ht.
    { etransitivity; [|exact Hp]. exists after. rewrite Hs. unfold turn. by rewrite <- !app_assoc. }
    assert (length turn <= length (en_executed e'))%nat as Hlen.
    { rewrite Hs, !length_app in Hm. unfold turn. rewrite !length_app. cbn [length] in *. unfold moves_spent in Hm.
      destruct (en_pc e), (en_pc e'); lia. }
    destruct (prefix_weak_total turn (en_executed e') (en_submitted e') Ht) as [?|Hpre]; [by rewrite Hs'; eexists|done|].
    by rewrite (prefix_length_eq _ _ Hpre Hlen).
Qed.

(** C16: [Engine::step] returns and leaves nothing.  From every reachable state between two
    requests its loop comes to an end, within the fuel of one round per slot of the ring
    and one more: the ring is empty, every request ever submitted has been executed, in
    the order of submission, and the book in memory is the one the specification gives
    for exactly these requests. *)
Theorem step_drains N K md in_ring clock e :
  ring_rep N md [] -> ring_rep K in_ring [] -> engine_reachable rdtsc md in_ring clock e ->
  en_cur e = None -> en_nxt e = None ->
  exists e', step rdtsc e = Some (tt, e') /\ en_executed e' = en_submitted e /\ size (en_in_ring e') = 0 /\
    view (en_book e') = Some (sm_book (spec_run rdtsc clock (en_submitted e))).
Proof.
  intros Hmd Hin He Hc Hn. pose proof (engine_reachable_inv rdtsc N K md in_ring clock e Hmd Hin He) as Hinv.
  destruct (ei_ring _ _ _ _ _ Hinv) as (l & Hl & Hs). unfold pending in Hs. rewrite Hc, Hn in Hs. cbn in Hs.
  destruct (step_loop_run rdtsc N K clock l (S (length (buffer (en_in_ring e)))) e) as (e' & Hr & Hinv' & Hx & Hemp);
    [done..| |].
  { destruct Hl as (W & R & CR & CW & []). rewrite ra_len. lia. }
  exists e'. split; [done|]. split; [done|]. split; [by rewrite (size_spec _ _ _ Hemp)|].
  destruct (eb_rep _ _ _ _ (ei_book _ _ _ _ _ Hinv')) as [qs Hb]. rewrite (view_rep _ _ _ Hb). by rewrite Hx.
Qed.

Lemma feed_fits N l d msgs :
  Z.of_nat (length l + length msgs) <= N - 1 -> feed N (l, d) msgs = (l ++ msgs, d).
Proof.
  revert l. induction msgs as [|m msgs IH]; intros l Hlen; [by rewrite app_nil_r|].
  unfold feed in *. cbn [fold_left length] in *. unfold feed_step at 2. cbn [fst snd].
  rewrite (proj2 (Z.ltb_lt _ _)) by lia. rewrite IH; [by rewrite <- app_assoc|]. rewrite length_app. cbn. lia.
Qed.

Lemma replay_run clock reqs :
  Forall request_ok reqs ->
  itch_replay ∅ (sm_feed (spec_run rdtsc clock reqs)) = public_book (sm_book (spec_run rdtsc clock reqs)).
Proof.
  induction reqs as [|req reqs IH] using rev_ind; intros Hok; [done|].
  apply Forall_app in Hok as [Hok [Hreq _]%Forall_cons]. rewrite spec_run_snoc. unfold spec_execute.
  cbn [sm_feed sm_book]. rewrite replay_app, IH by done. apply replay_process; [by apply spec_run_wf|done].
Qed.

(** C10: The market data describes the book: as long as no more messages were
    published than the ring holds, none was dropped, and a subscriber that applies
    the ring's messages to an empty book ends with the visible orders of the
    book in memory. *)
Theorem feed_describes_book N K md in_ring clock e :
  ring_rep N md [] -> ring_rep K in_ring [] -> engine_reachable rdtsc md in_ring clock e ->
  Z.of_nat (length (sm_feed (spec_run rdtsc clock (en_executed e)))) <= N - 1 ->
  exists s msgs, view (en_book e) = Some s /\ market_data_drops_ (en_book e) = 0 /\
    ring_rep N (market_data_ring_ (en_book e)) msgs /\ itch_replay ∅ msgs = public_book s.
Proof.
  intros Hmd Hin He Hlen. destruct (engine_reachable_inv rdtsc N K md in_ring clock e Hmd Hin He)
    as [[[qs Hb] Hf Hd _ _ _] (l & Hl & Hs) Hok _].
  rewrite feed_fits in Hf, Hd by done. cbn in Hf, Hd. eexists _, _. split; [by eapply view_rep|]. split; [done|].
  split; [exact Hf|]. apply replay_run. rewrite Hs in Hok. by apply Forall_app in Hok as [? _].
Qed.

Lemma request_context_ok clock n req : ctx_ok (request_context rdtsc clock n req).
Proof.
  unfold ctx_ok, request_context. cbn. pose proof (ns_since_midnight_range clock (rdtsc n)) as Hr.
  unfold kNsPerDay, kNsPerSec in Hr. lia.
Qed.

Lemma feed_wf clock reqs :
  Forall request_ok reqs -> Forall itch_wf (sm_feed (spec_run rdtsc clock reqs)).
Proof.
  induction reqs as [|req reqs IH] using rev_ind; intros Hok; [constructor|].
  apply Forall_app in Hok as [Hok [Hreq _]%Forall_cons]. rewrite spec_run_snoc. unfold spec_execute.
  cbn [sm_feed]. apply Forall_app. split; [by apply IH|].
  apply process_itch_wf; [apply request_context_ok|by apply spec_run_wf|done].
Qed.

(** Every message the engine publishes goes over the wire unchanged: encoding
    it into any buffer of its size and decoding those bytes gives it back. *)
Theorem feed_messages_encode clock reqs out :
  Forall request_ok reqs ->
  Forall (fun msg => (itch_encoded_size msg <= length out)%nat ->
      let '(n, bytes) := encode_itch msg out in
      n = itch_encoded_size msg /\ decode_itch (take n bytes) = msg)
    (sm_feed (spec_run rdtsc clock reqs)).
Proof.
  intros Hok. eapply Forall_impl; [by apply feed_wf|]. intros msg Hwf Hlen.
  rewrite (itch_encoded_size_bytes _ Hwf) in *. rewrite (visit_encoding _ _ Hwf Hlen).
  split; [done|]. rewrite take_app_length. by apply decode_itch_bytes.
Qed.
End EngineTheorems.

(** ** Examples

    Two requests are submitted and the thread makes three moves: the first is
    executed, the second is in hand. *)

Module EngineExamples.
#[local] Existing Instance small_config.
Definition en_tsc (n : nat) : Z := Z.of_nat n.
Definition en_md : RingBuffer ITCH := ring_new ITCH_NONE 8.
Definition en_r1 : EngineRequest := mkRequest 0 0 0 1 0 1 5 10 NEW BID LIMIT DAY.
Definition en_r2 : EngineRequest := mkRequest 0 0 0 2 0 2 4 6 NEW ASK LIMIT DAY.
Definition en_in : RingBuffer EngineRequest := ring_new en_r1 8.
Definition en_clock : TscClock := mkClock 0 0 0.
Definition en_after {A} (m : M EngineState A) (e : EngineState) : EngineState :=
  match m e with Some (_, e') => e' | None => e end.
Definition en_e0 := Engine_new en_md en_in en_clock.
Definition en_e1 := en_after (submit en_r1) en_e0.
Definition en_e2 := en_after (submit en_r2) en_e1.
Definition en_e3 := en_after (handleMatching_step en_tsc) en_e2.
Definition en_e4 := en_after (handleMatching_step en_tsc) en_e3.
Definition en_e5 := en_after (handleMatching_step en_tsc) en_e4.

Lemma en_md_rep : ring_rep 8 en_md [].
Proof. do 4 eexists. apply ring_new_rep, ring_size_ok_8. Qed.

Lemma en_in_rep : ring_rep 8 en_in [].
Proof. do 4 eexists. apply ring_new_rep, ring_size_ok_8. Qed.

Lemma en_requests_ok : Forall request_ok [en_r1; en_r2].
Proof. repeat constructor; vm_compute; congruence. Qed.

Lemma en_e2_reachable : engine_reachable en_tsc en_md en_in en_clock en_e2.
Proof.
  pose proof en_requests_ok as [H1 [H2 _]%Forall_cons]%Forall_cons.
  eapply rtc_l; [eapply (es_submit _ _ en_e1 en_r1 true); [done|by vm_compute]|].
  eapply rtc_once. eapply (es_submit _ _ en_e2 en_r2 true); [done|by vm_compute].
Qed.

Lemma en_e5_reachable : engine_reachable en_tsc en_md en_in en_clock en_e5.
Proof.
  unfold engine_reachable. transitivity en_e2; [apply en_e2_reachable|].
  eapply rtc_l; [eapply (es_match _ _ en_e3); by vm_compute|].
  eapply rtc_l; [eapply (es_match _ _ en_e4); by vm_compute|].
  eapply rtc_once. eapply (es_match _ _ en_e5); by vm_compute.
Qed.

Lemma engine_refines_witness :
  en_executed en_e5 = [en_r1] /\ view (en_book en_e5) = Some (mkSBook [new_order 1 1 BID 5 10 0] [] 1).
Proof.
  destruct (engine_refines en_tsc 8 8 en_md en_in en_clock en_e5 en_md_rep en_in_rep en_e5_reachable) as (Hv & _ & _).
  split; [reflexivity|]. rewrite Hv. vm_compute. reflexivity.
Defined.

Lemma reachable_book_wf_witness : sbook_wf (mkSBook [new_order 1 1 BID 5 10 0] [] 1).
Proof.
  apply (reachable_book_wf en_tsc 8 8 en_md en_in en_clock en_e5 _ en_md_rep en_in_rep en_e5_reachable).
  vm_compute. reflexivity.
Defined.

(** While the second request waits, a third is submitted and the thread makes three
    moves; the second is then executed. *)
Definition en_r3 : EngineRequest := mkRequest 0 0 0 3 0 3 5 2 NEW BID LIMIT DAY.
Definition en_e6 := en_after (submit en_r3) en_e5.
Definition en_e7 := en_after (handleMatching_step en_tsc) en_e6.
Definition en_e8 := en_after (handleMatching_step en_tsc) en_e7.
Definition en_e9 := en_after (handleMatching_step en_tsc) en_e8.

Lemma en_e9_run : engine_runs en_tsc 3 en_e5 en_e9.
Proof.
  apply (er_submit _ 3 en_e5 en_e6 en_e9 en_r3 true); [repeat split; vm_compute; congruence|by vm_compute|].
  apply (er_match _ 2 en_e6 en_e7); [by vm_compute|]. apply (er_match _ 1 en_e7 en_e8); [by vm_compute|].
  apply (er_match _ 0 en_e8 en_e9); [by vm_compute|constructor].
Qed.

Lemma engine_executes_waiting_witness : [en_r1; en_r2] `prefix_of` en_executed en_e9.
Proof.
  destruct (engine_executes_waiting en_tsc 8 8 en_md en_in en_clock en_e5 en_md_rep en_in_rep en_e5_reachable) as [_ H].
  apply (H [] en_r2 [] 3%nat en_e9); [vm_compute; reflexivity|exact en_e9_run|cbn; lia].
Defined.

Lemma step_drains_witness :
  exists e', step en_tsc en_e2 = Some (tt, e') /\ en_executed e' = [en_r1; en_r2] /\ size (en_in_ring e') = 0.
Proof.
  destruct (step_drains en_tsc 8 8 en_md en_in en_clock en_e2 en_md_rep en_in_rep en_e2_reachable eq_refl eq_refl)
    as (e' & Hr & Hx & Hs & _).
  exists e'. split; [exact Hr|]. split; [exact Hx|exact Hs].
Defined.

Lemma feed_describes_book_witness :
  exists s msgs, view (en_book en_e5) = Some s /\ ring_rep 8 (market_data_ring_ (en_book en_e5)) msgs /\
    itch_replay ∅ msgs = public_book s.
Proof.
  destruct (feed_describes_book en_tsc 8 8 en_md en_in en_clock en_e5 en_md_rep en_in_rep en_e5_reachable) as (s & msgs & Hv & _ & Hr & Hp).
  - vm_compute. discriminate.
  - exists s, msgs. split; [exact Hv|]. split; [exact Hr|exact Hp].
Defined.

Lemma feed_messages_encode_witness :
  Forall (fun msg => decode_itch (take (encode_itch msg (replicate 64 0)).1 (encode_itch msg (replicate 64 0)).2) = msg)
    (sm_feed (spec_run en_tsc en_clock [en_r1; en_r2])).
Proof.
  pose proof (feed_messages_encode en_tsc en_clock [en_r1; en_r2] (replicate 64 0) en_requests_ok) as H.
  eapply Forall_impl; [exact H|]. intros msg Hm.
  assert (itch_encoded_size msg <= length (replicate 64 0))%nat as Hl by (destruct msg; vm_compute; lia).
  specialize (Hm Hl). cbv beta in Hm. destruct (encode_itch msg (replicate 64 0)) as [n bytes]. exact (proj2 Hm).
Defined.
End EngineExamples.
