(* ===== verification/Gateway.v ===== *)
(** * Gateway: order entry, matching and responses together

    The path of a message through the server and the engine: the inbound thread
    translates it and pushes a note and then a request, the engine executes
    requests, the outbound thread drains notes and answers events
    ([src/exchange/server/src/server.cpp]: [handle_ouch_], [outbound_]).  The
    engine's part is the specification that [OrderbookRefine] and [Engine] prove
    the code implements.  The first half shows that a responder which knows every
    resting order can answer all events of a request; the second lets the three
    threads interleave. *)

From stdpp Require Import sorting.
From S2P Require Import Prelude Types WireCodec OuchProto Validation PriceLevelQueue Orderbook OrderbookSpec.
From S2P Require Import OrderbookRefine OrderbookCorrect BookInvariant OrderEntry OuchResponder.

Section Track.
Context `{cfg : BookConfig}.

(** ** The responder knows the book *)

Definition tracked (R : OuchResponder) (o : Order) : Prop :=
  exists rec, R !! id_ o = Some (mkRespOrder rec (open_quantity_ o)) /\ rec_client_id rec = client_id_ o.

Definition tracks (s : SBook) (R : OuchResponder) : Prop := forall side, Forall (tracked R) (sb_side side s).

Lemma tracked_frame (R R' : OuchResponder) l :
  (forall o, o ∈ l -> R' !! id_ o = R !! id_ o) -> Forall (tracked R) l -> Forall (tracked R') l.
Proof.
  intros Hf Hl. apply Forall_forall. intros o Ho. destruct (proj1 (Forall_forall _ _) Hl o Ho) as (rec & HR & Hc).
  exists rec. by rewrite Hf.
Qed.

Lemma not_in_fmap_ne (x : Z) (o : Order) (l : list Order) : x ∉ (id_ <$> l) -> o ∈ l -> id_ o <> x.
Proof. intros Hx Ho <-. apply Hx. by apply list_elem_of_fmap_2. Qed.

(** A responder changed at one order only. *)
Lemma tracked_insert R id x (l : list Order) : id ∉ (id_ <$> l) -> Forall (tracked R) l -> Forall (tracked (<[id := x]> R)) l.
Proof. intros Hn. apply tracked_frame. intros o Ho. apply lookup_insert_ne. by apply not_eq_sym, (not_in_fmap_ne _ _ l). Qed.

Lemma tracked_delete R id (l : list Order) : id ∉ (id_ <$> l) -> Forall (tracked R) l -> Forall (tracked (delete id R)) l.
Proof. intros Hn. apply tracked_frame. intros o Ho. apply lookup_delete_ne. by apply not_eq_sym, (not_in_fmap_ne _ _ l). Qed.

Lemma swept_zero side type price l fills kept : swept side type price 0 l fills kept -> fills = [] /\ kept = l.
Proof. intros H. inversion H; subst; auto; lia. Qed.

(** The shares an order has left after an event: gone when none are. *)
Definition with_open (id : Z) (rec : OrderRecord) (open : Z) (R : OuchResponder) : OuchResponder :=
  if open =? 0 then delete id R else <[id := mkRespOrder rec open]> R.

Lemma with_open_ne id rec open R x : x <> id -> with_open id rec open R !! x = R !! x.
Proof. intros. unfold with_open. destruct (_ =? 0); [by rewrite lookup_delete_ne|by rewrite lookup_insert_ne]. Qed.

Lemma with_open_eq id rec open R :
  with_open id rec open R !! id = if open =? 0 then None else Some (mkRespOrder rec open).
Proof. unfold with_open. destruct (_ =? 0); [by rewrite lookup_delete_eq|by rewrite lookup_insert_eq]. Qed.

(** Both sides of one fill. *)
Lemma answered_fill id client_id rec wanted r fill mn R :
  R !! id = Some (mkRespOrder rec wanted) -> rec_client_id rec = client_id -> tracked R r -> id_ r <> id ->
  0 < fill <= wanted -> fill <= open_quantity_ r ->
  exists rrec, rec_client_id rrec = client_id_ r /\
    answered [event id 0 mn client_id (price_ r) fill EXECUTED kRemovedLiquidity;
              event (id_ r) 0 mn (client_id_ r) (price_ r) fill EXECUTED kAddedLiquidity] R
      (with_open (id_ r) rrec (open_quantity_ r - fill) (with_open id rec (wanted - fill) R)).
Proof.
  intros Hid Hc (rrec & Hr & Hrc) Hne Hf Hfr. exists rrec. split; [done|].
  apply (answered_app [_] [_] R (with_open id rec (wanted - fill) R)).
  - exact (answered_reduce (event id 0 mn client_id (price_ r) fill EXECUTED kRemovedLiquidity) R rec wanted
      Hid Hc (or_introl eq_refl) Hf).
  - refine (answered_reduce (event (id_ r) 0 mn (client_id_ r) (price_ r) fill EXECUTED kAddedLiquidity) _ rrec
      (open_quantity_ r) _ Hrc (or_introl eq_refl) (conj (proj1 Hf) Hfr)).
    rewrite <- Hr. by apply with_open_ne.
Qed.

Lemma run_fills side type price id client_id rec wanted l fills kept mn R :
  swept side type price wanted l fills kept -> 0 < wanted -> NoDup (id_ <$> l) -> id ∉ (id_ <$> l) ->
  Forall (tracked R) l -> R !! id = Some (mkRespOrder rec wanted) -> rec_client_id rec = client_id ->
  exists R', answered (fill_events id client_id mn fills) R R' /\ Forall (tracked R') kept /\
    (R' !! id = if wanted - filled_shares fills =? 0 then None else Some (mkRespOrder rec (wanted - filled_shares fills))) /\
    (forall x, x <> id -> x ∉ (id_ <$> l) -> R' !! x = R !! x).
Proof.
  intros Hsw. revert mn R. induction Hsw as [l|wanted|wanted r l Hx|wanted r l fills kept Hx Hr Hrest IH|wanted r l Hx Hw];
    intros mn R Hw0 Hd Hid HR HRid Hc.
  - lia.
  - exists R. cbn. rewrite Z.sub_0_r. split; [constructor|]. split; [done|]. by rewrite (proj2 (Z.eqb_neq _ _)) by lia.
  - exists R. cbn. rewrite Z.sub_0_r. split; [constructor|]. split; [done|]. by rewrite (proj2 (Z.eqb_neq _ _)) by lia.
  - rewrite fmap_cons in Hd, Hid. apply NoDup_cons in Hd as [Hnr Hd]. apply not_elem_of_cons in Hid as [Hne Hid].
    apply Forall_cons in HR as [HRr HR].
    destruct (answered_fill id client_id rec wanted r (open_quantity_ r) mn R) as (rrec & Hrc & Ha); [done..|lia|lia|].
    set (R1 := with_open (id_ r) _ _ _) in Ha.
    assert (forall x, x <> id -> x <> id_ r -> R1 !! x = R !! x) as Hfr
      by (intros; unfold R1; by rewrite !with_open_ne).
    assert (Forall (tracked R1) l) as HR1.
    { eapply tracked_frame; [|exact HR]. intros o Ho. apply Hfr; by eapply not_in_fmap_ne. }
    assert (R1 !! id = if wanted - open_quantity_ r =? 0 then None else Some (mkRespOrder rec (wanted - open_quantity_ r))) as H1
      by (unfold R1; rewrite with_open_ne by done; apply with_open_eq).
    cbn [fill_events filled_shares foldr snd]. destruct (Z.eqb_spec (wanted - open_quantity_ r) 0) as [Hz|Hz].
    + rewrite Hz in Hrest. destruct (swept_zero _ _ _ _ _ _ Hrest) as [-> ->]. exists R1. cbn [fill_events foldr].
      split; [exact Ha|]. split; [done|]. rewrite Z.add_0_r, Hz. split; [done|].
      intros x Hxi Hxl. rewrite fmap_cons in Hxl. apply not_elem_of_cons in Hxl as [? ?]. by apply Hfr.
    + destruct (IH (u64 (mn + 1)) R1) as (R2 & Ha2 & HR2 & Hi2 & Hf2); [lia|done..|].
      exists R2. split; [by eapply (answered_app [_; _])|]. split; [done|]. unfold filled_shares in Hi2.
      rewrite Z.sub_add_distr. split; [done|]. intros x Hxi Hxl. rewrite fmap_cons in Hxl.
      apply not_elem_of_cons in Hxl as [? ?]. rewrite Hf2 by done. by apply Hfr.
  - rewrite fmap_cons in Hd, Hid. apply NoDup_cons in Hd as [Hnr Hd]. apply not_elem_of_cons in Hid as [Hne Hid].
    apply Forall_cons in HR as [HRr HR].
    destruct (answered_fill id client_id rec wanted r wanted mn R) as (rrec & Hrc & Ha); [done..|lia|lia|].
    eexists. split; [exact Ha|]. split; [|split].
    + apply Forall_cons. split.
      * exists rrec. split; [|done]. unfold fill_order. cbn. rewrite with_open_eq.
        by rewrite (proj2 (Z.eqb_neq _ _)) by lia.
      * eapply tracked_frame; [|exact HR]. intros o Ho. rewrite !with_open_ne; [done| |]; by eapply not_in_fmap_ne.
    + rewrite with_open_ne by done. cbn. rewrite Z.add_0_r. apply with_open_eq.
    + intros x Hxi Hxl. rewrite fmap_cons in Hxl. apply not_elem_of_cons in Hxl as [? ?]. by rewrite !with_open_ne.
Qed.

(** ** All the events of a request *)

(** What processing a request does to the responder: [own] is the id the request
    brings, the other orders not on the book are left alone. *)
Definition follows (own : list Z) (s : SBook) (R : OuchResponder) (evs : list EngineEvent) (s' : SBook) : Prop :=
  exists R', answered evs R R' /\ tracks s' R' /\ (forall x, x ∈ sb_ids s' -> x ∈ sb_ids s \/ x ∈ own) /\
    (forall x, x ∉ own -> x ∉ sb_ids s -> R' !! x = R !! x).

Lemma side_ids (s : SBook) side o : o ∈ sb_side side s -> id_ o ∈ sb_ids s.
Proof.
  intros Ho. unfold sb_ids. apply elem_of_app. destruct side; [left|right]; by apply list_elem_of_fmap_2.
Qed.

Lemma not_in_side (s : SBook) side x : x ∉ sb_ids s -> x ∉ (id_ <$> sb_side side s).
Proof. intros Hx (o & -> & Ho)%list_elem_of_fmap. by apply Hx, (side_ids s side). Qed.

Lemma sides_disjoint s side o :
  sbook_wf s -> o ∈ sb_side side s -> id_ o ∉ (id_ <$> sb_side (opposite side) s).
Proof.
  intros H Ho Hin. pose proof (sw_ids _ H) as Hd. rewrite (sb_ids_side side) in Hd.
  apply NoDup_app in Hd as (_ & Hd & _). apply (Hd (id_ o)); [by apply list_elem_of_fmap_2|done].
Qed.

Lemma tracks_sides s R side :
  Forall (tracked R) (sb_side side s) -> Forall (tracked R) (sb_side (opposite side) s) -> tracks s R.
Proof. intros H1 H2 side'. by destruct side, side'. Qed.

Lemma opposite_involutive side : opposite (opposite side) = side.
Proof. by destruct side. Qed.

Lemma sb_set_side_eq side l s : sb_side side (sb_set_side side l s) = l.
Proof. by destruct side. Qed.

Lemma sb_set_side_ne side l s : sb_side (opposite side) (sb_set_side side l s) = sb_side (opposite side) s.
Proof. by destruct side. Qed.

Lemma follow_incoming ctx s id client_id rec side type price quantity executed may_rest s' evs itch R :
  sbook_wf s -> id ∉ sb_ids s -> 0 < quantity -> tracks s R ->
  R !! id = Some (mkRespOrder rec quantity) -> rec_client_id rec = client_id ->
  spec_incoming ctx s id client_id side type price quantity executed may_rest = (s', evs, itch) ->
  follows [id] s R evs s'.
Proof.
  intros H Hid Hq HR HRid Hc Hs. unfold spec_incoming in Hs.
  destruct (take_liquidity _ _ _ _ _) as [fills kept] eqn:Ht in Hs. cbv zeta in Hs.
  set (s1 := (sb_set_side (opposite side) kept s) <| sb_next_match := after_fills (sb_next_match s) fills |>) in Hs.
  assert (Hq' : 0 <= quantity) by lia.
  pose proof (take_liquidity_swept _ _ _ _ _ _ _ (side_wf_qty _ _ (sw_side _ H (opposite side))) Hq' Ht) as Hsw.
  destruct (run_fills _ _ _ id client_id rec _ _ _ _ (sb_next_match s) R Hsw Hq (side_ids_nodup _ _ H)
    (not_in_side _ _ _ Hid) (HR _) HRid Hc) as (R1 & Ha & Hk & HR1 & Hf).
  assert (sb_side (opposite side) s1 = kept /\ sb_side side s1 = sb_side side s) as [Hs1 Hs2] by (by destruct side).
  assert (Forall (tracked R1) (sb_side side s)) as Hown.
  { eapply tracked_frame; [|apply HR]. intros o Ho. apply Hf; [|by apply sides_disjoint].
    intros <-. apply Hid. by eapply side_ids. }
  assert (tracks s1 R1) as Ht1 by (apply (tracks_sides _ _ side); [by rewrite Hs2|by rewrite Hs1]).
  assert (forall x, x ∈ sb_ids s1 -> x ∈ sb_ids s) as Hids.
  { intros x. destruct (take_liquidity_ids _ _ _ _ _ _ _ Ht) as [gone Hg]. rewrite !(sb_ids_side side), Hs1, Hs2, Hg. set_solver. }
  assert (forall x, x ∉ [id] -> x ∉ sb_ids s -> R1 !! x = R !! x) as Hfr.
  { intros x Hx Hxs. apply Hf; [set_solver|by apply not_in_side]. }
  destruct (quantity - filled_shares fills =? 0) eqn:Erem.
  { injection Hs as <- <- _. exists R1. split; [exact Ha|]. split; [done|]. split; [auto|done]. }
  destruct may_rest; injection Hs as <- <- _.
  - exists R1. split; [exact Ha|]. split; [|split; [|done]].
    + apply (tracks_sides _ _ side); [rewrite sb_set_side_eq|rewrite sb_set_side_ne; apply Ht1].
      rewrite insert_order_perm. apply Forall_cons. split; [|apply Ht1]. exists rec. split; [exact HR1|done].
    + intros x. rewrite sb_ids_set, insert_order_perm, fmap_cons. cbn [app]. rewrite <- (sb_ids_side side).
      intros [->|Hx]%elem_of_cons; [right; cbn; set_solver|left; auto].
  - zbool. exists (delete id R1). split; [|split; [|split; [auto|]]].
    + eapply answered_app; [exact Ha|].
      pose proof (answered_reduce (event id 0 0 client_id price (quantity - filled_shares fills) CANCELED kImmediateOrCancel)
        R1 rec (quantity - filled_shares fills)) as Hr. cbn [event ev_order_id ev_client_id ev_type ev_quantity] in Hr.
      rewrite Z.sub_diag in Hr. apply Hr; [exact HR1|done|by right|].
      destruct (swept_shares _ _ _ _ _ _ _ Hsw Hq') as [_ ?]. lia.
    + intros sd. apply tracked_delete; [|apply Ht1]. intros (o & Ho & Hin)%list_elem_of_fmap. apply Hid, Hids.
      rewrite Ho. by eapply side_ids.
    + intros x Hx Hxs. rewrite lookup_delete_ne by set_solver. by apply Hfr.
Qed.

(** The id of the order a request brings into the system. *)
Definition own_id (rq : EngineRequest) : list Z :=
  match rq_type rq with NEW => [rq_order_id rq] | REPLACE => [rq_new_order_id rq] | CANCEL => [] end.

(** The responder has the record of that order, with nothing open yet. *)
Definition announced (R : OuchResponder) (rq : EngineRequest) : Prop :=
  Forall (fun id => exists rec, R !! id = Some (mkRespOrder rec 0) /\ rec_client_id rec = rq_client_id rq) (own_id rq) /\
  (rq_type rq = NEW -> 0 < rq_quantity rq).

Lemma follows_ignored own s R : tracks s R -> follows own s R [] s.
Proof. intros H. exists R. split; [constructor|]. auto. Qed.

Lemma tracks_remove s o R :
  sbook_wf s -> o ∈ sb_side (side_ o) s -> tracks s R -> tracks (sb_remove o s) (delete (id_ o) R).
Proof.
  intros H Ho HR. unfold sb_remove. apply (tracks_sides _ _ (side_ o)).
  - rewrite sb_set_side_eq. apply tracked_delete.
    + intros (x & Hx & [Hne _]%list_elem_of_filter)%list_elem_of_fmap. congruence.
    + apply Forall_forall. intros x [_ Hx]%list_elem_of_filter. by apply (proj1 (Forall_forall _ _) (HR (side_ o))).
  - rewrite sb_set_side_ne. apply tracked_delete; [by apply sides_disjoint|apply HR].
Qed.

Lemma sb_remove_ids s o x : x ∈ sb_ids (sb_remove o s) -> x ∈ sb_ids s /\ (o ∈ sb_side (side_ o) s -> sbook_wf s -> x <> id_ o).
Proof.
  unfold sb_remove. rewrite sb_ids_set, (sb_ids_side (side_ o) s). intros [Hx|Hx]%elem_of_app.
  - apply list_elem_of_fmap in Hx as (y & -> & [Hne Hy]%list_elem_of_filter). split; [|done].
    apply elem_of_app. left. by apply list_elem_of_fmap_2.
  - split; [set_solver|]. intros Ho H ->. by apply (sides_disjoint s (side_ o) o H Ho).
Qed.

(** A cancellation of an order on the book, in part or of all of it. *)
Lemma follow_cancel s o R reason shares :
  sbook_wf s -> o ∈ sb_side (side_ o) s -> tracks s R -> 0 < shares <= open_quantity_ o ->
  follows [] s R [event (id_ o) 0 0 (client_id_ o) (price_ o) shares CANCELED reason]
    (if open_quantity_ o - shares =? 0 then sb_remove o s
     else sb_set_side (side_ o) (reduce_id (id_ o) (open_quantity_ o - shares) (sb_side (side_ o) s)) s).
Proof.
  intros H Ho HR Hsh. destruct (proj1 (Forall_forall _ _) (HR (side_ o)) o Ho) as (rec & HRo & Hc).
  pose proof (answered_reduce (event (id_ o) 0 0 (client_id_ o) (price_ o) shares CANCELED reason) R rec _
    HRo Hc (or_intror eq_refl) Hsh) as Ha. cbn [event ev_order_id ev_quantity] in Ha.
  destruct (open_quantity_ o - shares =? 0) eqn:E; zbool.
  - exists (delete (id_ o) R). split; [exact Ha|]. split; [by apply tracks_remove|]. split.
    + intros x Hx. left. by apply (sb_remove_ids s o).
    + intros x _ Hx. apply lookup_delete_ne. intros <-. by apply Hx, (side_ids s (side_ o)).
  - eexists. split; [exact Ha|]. split; [|split].
    + apply (tracks_sides _ _ (side_ o)); [rewrite sb_set_side_eq|rewrite sb_set_side_ne].
      * apply Forall_fmap, Forall_forall. intros x Hx. cbn. case_decide as Hid.
        -- exists rec. cbn. rewrite Hid, lookup_insert_eq. split; [done|].
           assert (x = o) as -> by (by eapply (nodup_fmap_inj id_ _ x o (side_ids_nodup _ _ H))). done.
        -- destruct (proj1 (Forall_forall _ _) (HR (side_ o)) x Hx) as (rx & HRx & Hcx). exists rx.
           by rewrite lookup_insert_ne.
      * apply tracked_insert; [by apply sides_disjoint|apply HR].
    + intros x. rewrite sb_ids_set, reduce_id_ids, <- (sb_ids_side (side_ o)). by left.
    + intros x _ Hx. apply lookup_insert_ne. intros <-. by apply Hx, (side_ids s (side_ o)).
Qed.

Lemma tracks_insert s R id x : id ∉ sb_ids s -> tracks s R -> tracks s (<[id := x]> R).
Proof. intros Hid HR side. apply tracked_insert; [by apply not_in_side|apply HR]. Qed.

(** An answer to the new order itself, then what follows from the state it leaves. *)
Lemma follows_cons own s R ev R1 evs s1 s' :
  (forall ts, exists f, on_event ev ts R = (Some (mkResponse (ev_client_id ev) f), R1)) ->
  follows own s1 R1 evs s' -> (forall x, x ∈ sb_ids s1 -> x ∈ sb_ids s) ->
  (forall x, x ∉ own -> x ∉ sb_ids s -> R1 !! x = R !! x) -> follows own s R (ev :: evs) s'.
Proof.
  intros He (R' & Ha & Ht & Hids & Hf) Hs1 Hf1. exists R'. split; [by eapply answered_cons|]. split; [done|]. split.
  - intros x [?|?]%Hids; auto.
  - intros x Hx Hxs. rewrite Hf by auto. by apply Hf1.
Qed.

Lemma follow_enter ctx s R :
  sbook_wf s -> rq_type (ctx_req ctx) = NEW -> rq_order_id (ctx_req ctx) ∉ sb_ids s -> announced R (ctx_req ctx) ->
  tracks s R -> follows (own_id (ctx_req ctx)) s R (oc_events (spec_enter ctx s)) (oc_book (spec_enter ctx s)).
Proof.
  intros H Hty Hid [Hown Hqty] HR. set (req := ctx_req ctx) in *. unfold own_id in *. rewrite Hty in *.
  apply Forall_singleton in Hown as (rec & HRid & Hc). specialize (Hqty eq_refl).
  unfold spec_enter. fold req. rewrite decide_False by (by apply eq_None_not_Some, sb_find_None).
  destruct (_ && _).
  - cbn [oc_events oc_book]. exists (delete (rq_order_id req) R). split; [|split; [|split]].
    + eapply answered_cons; [|constructor]. intros ts. unfold on_event. cbn [event ev_order_id ev_type ev_client_id].
      rewrite HRid. cbn [lr_record]. rewrite Hc. by eexists.
    + intros side. apply tracked_delete; [by apply not_in_side|apply HR].
    + auto.
    + intros x Hx _. apply lookup_delete_ne. set_solver.
  - destruct (spec_incoming _ _ _ _ _ _ _ _ _ _) as [[s' evs] itch] eqn:Hs. cbn [oc_events oc_book].
    apply (follows_cons _ _ _ _ (<[rq_order_id req := mkRespOrder rec (rq_quantity req)]> R) _ s).
    + intros ts. unfold on_event. cbn [event ev_order_id ev_type ev_client_id ev_quantity].
      rewrite HRid. cbn [lr_record]. rewrite Hc. by eexists.
    + refine (follow_incoming _ _ _ _ rec _ _ _ _ _ _ _ _ _ _ H Hid Hqty _ _ Hc Hs).
      * by apply tracks_insert.
      * by rewrite lookup_insert_eq.
    + auto.
    + intros x Hx _. apply lookup_insert_ne. set_solver.
Qed.

(** The replacement takes the original's place in the responder. *)
Lemma follow_replaced own s o R R1 new_id client_id price open evs s' rec :
  sbook_wf s -> o ∈ sb_side (side_ o) s -> tracks s R -> new_id ∉ sb_ids s -> own = [new_id] ->
  R !! new_id = Some (mkRespOrder rec 0) -> rec_client_id rec = client_id ->
  R1 = <[new_id := mkRespOrder rec open]> (delete (id_ o) R) ->
  (tracks (sb_remove o s) R1 -> follows own (sb_remove o s) R1 evs s') ->
  follows own s R (event new_id (id_ o) 0 client_id price open REPLACED 0 :: evs) s'.
Proof.
  intros H Ho HR Hnew -> HRn Hc -> Hk. assert (id_ o <> new_id) as Hne by (intros <-; by apply Hnew, (side_ids s (side_ o))).
  destruct (proj1 (Forall_forall _ _) (HR (side_ o)) o Ho) as (ro & HRo & _).
  apply (follows_cons _ _ _ _ (<[new_id := mkRespOrder rec open]> (delete (id_ o) R)) _ (sb_remove o s)).
  - intros ts. unfold on_event. cbn [event ev_order_id ev_orig_order_id ev_type ev_client_id ev_quantity].
    rewrite HRn, HRo. cbn [lr_record]. rewrite Hc. by eexists.
  - apply Hk. apply tracks_insert; [|by apply tracks_remove]. intros [Hx _]%sb_remove_ids. done.
  - intros x [Hx _]%sb_remove_ids. done.
  - intros x Hx Hxs. rewrite lookup_insert_ne by set_solver. apply lookup_delete_ne.
    intros <-. by apply Hxs, (side_ids s (side_ o)).
Qed.

Lemma follow_replace ctx s R :
  sbook_wf s -> rq_type (ctx_req ctx) = REPLACE -> rq_new_order_id (ctx_req ctx) ∉ sb_ids s ->
  announced R (ctx_req ctx) -> tracks s R ->
  follows (own_id (ctx_req ctx)) s R (oc_events (spec_replace ctx s)) (oc_book (spec_replace ctx s)).
Proof.
  intros H Hty Hnew [Hown _] HR. set (req := ctx_req ctx) in *. unfold own_id in *. rewrite Hty in *.
  apply Forall_singleton in Hown as (rec & HRn & Hc). unfold spec_replace. fold req.
  destruct (sb_find _ s) as [o|] eqn:Hf; [|by apply follows_ignored]. destruct (find_in_side _ _ _ H Hf) as [Ho _].
  destruct (negb _); [by apply follows_ignored|]. case_decide; [by apply follows_ignored|]. cbv zeta.
  destruct (find_order_wf _ _ _ H Hf) as (_ & _ & (Hopen & _) & _).
  set (open := still_open _ _) in *. destruct (open =? 0) eqn:Eo; zbool.
  { cbn [oc_events oc_book]. pose proof (follow_cancel s o R kUserRequested (open_quantity_ o) H Ho HR) as Hfc.
    rewrite Z.sub_diag in Hfc. destruct Hfc as (R' & Ha & Ht & Hids & Hfr); [lia|]. exists R'.
    split; [done|]. split; [done|]. split; [intros x [?|Hx]%Hids; [auto|set_solver]|]. intros. apply Hfr; [set_solver|done]. }
  assert (0 < open) by (unfold open, still_open in *; lia).
  assert (rq_new_order_id req ∉ sb_ids (sb_remove o s)) as Hnew1 by (intros [Hx _]%sb_remove_ids; done).
  pose proof (sbook_wf_remove o s H) as Hwf1. destruct (_ && _).
  - cbn [oc_events oc_book]. eapply (follow_replaced _ s o R _ _ _ _ _ _ _ rec); [done..|]. intros Ht1.
    eexists. split; [constructor|]. split; [|split; [|done]].
    + apply (tracks_sides _ _ (side_ o)); [rewrite sb_set_side_eq|rewrite sb_set_side_ne; apply Ht1].
      rewrite insert_order_perm. apply Forall_cons. split; [|apply Ht1]. exists rec. cbn. by rewrite lookup_insert_eq.
    + intros x. rewrite sb_ids_set, insert_order_perm, fmap_cons. cbn [app]. rewrite <- (sb_ids_side (side_ o)).
      intros [->|Hx]%elem_of_cons; [right; cbn; set_solver|by left].
  - destruct (spec_incoming _ _ _ _ _ _ _ _ _ _) as [[s' evs] itch] eqn:Hs. cbn [oc_events oc_book].
    eapply (follow_replaced _ s o R _ _ _ _ _ _ _ rec); [done..|]. intros Ht1.
    refine (follow_incoming _ _ _ _ rec _ _ _ _ _ _ _ _ _ _ Hwf1 Hnew1 _ Ht1 _ Hc Hs); [done|by rewrite lookup_insert_eq].
Qed.

Lemma follow_process ctx s R :
  sbook_wf s -> Forall (fun id => id ∉ sb_ids s) (own_id (ctx_req ctx)) -> announced R (ctx_req ctx) -> tracks s R ->
  follows (own_id (ctx_req ctx)) s R (oc_events (spec_process ctx s)) (oc_book (spec_process ctx s)).
Proof.
  intros H Hown Han HR. unfold spec_process. destruct (rq_type (ctx_req ctx)) eqn:Hty.
  - apply follow_enter; auto. unfold own_id in Hown. rewrite Hty in Hown. exact (Forall_inv Hown).
  - unfold own_id. rewrite Hty. unfold spec_cancel. set (req := ctx_req ctx) in *.
    destruct (sb_find _ s) as [o|] eqn:Hf; [|by apply follows_ignored]. destruct (find_in_side _ _ _ H Hf) as [Ho _].
    destruct (find_order_wf _ _ _ H Hf) as (_ & _ & (Hopen & _) & _).
    destruct (negb _); [by apply follows_ignored|]. cbv zeta. set (target := still_open _ _).
    destruct (open_quantity_ o <=? target) eqn:E; [by apply follows_ignored|]. zbool.
    pose proof (follow_cancel s o R kUserRequested (open_quantity_ o - target) H Ho HR) as Hfc.
    replace (open_quantity_ o - (open_quantity_ o - target)) with target in Hfc by lia.
    assert (0 <= target) by (unfold target, still_open; lia).
    destruct (target =? 0); apply Hfc; lia.
  - apply follow_replace; auto. unfold own_id in Hown. rewrite Hty in Hown. exact (Forall_inv Hown).
Qed.

(** ** The events themselves *)

(** Where the ids on the book come from. *)
Lemma spec_incoming_ids ctx s id client_id side type price quantity executed may_rest s' evs itch x :
  spec_incoming ctx s id client_id side type price quantity executed may_rest = (s', evs, itch) ->
  x ∈ sb_ids s' -> x ∈ sb_ids s \/ x = id.
Proof.
  unfold spec_incoming. destruct (take_liquidity _ _ _ _ _) as [fills kept] eqn:Ht. cbv zeta.
  set (s1 := (sb_set_side (opposite side) kept s) <| sb_next_match := after_fills (sb_next_match s) fills |>).
  assert (sb_side (opposite side) s1 = kept /\ sb_side side s1 = sb_side side s) as [Hs1 Hs2] by (by destruct side).
  assert (forall y, y ∈ sb_ids s1 -> y ∈ sb_ids s) as Hids.
  { intros y. destruct (take_liquidity_ids _ _ _ _ _ _ _ Ht) as [gone Hg]. rewrite !(sb_ids_side side), Hs1, Hs2, Hg. set_solver. }
  destruct (_ =? 0); [intros [= <- _ _]; auto|]. destruct may_rest; intros [= <- _ _]; [|auto].
  rewrite sb_ids_set, insert_order_perm, fmap_cons. cbn [app]. rewrite <- (sb_ids_side side). intros [->|Hx]%elem_of_cons; auto.
Qed.

Lemma spec_process_ids ctx s x :
  x ∈ sb_ids (oc_book (spec_process ctx s)) -> x ∈ sb_ids s \/ x ∈ own_id (ctx_req ctx).
Proof.
  unfold spec_process, own_id. destruct (rq_type (ctx_req ctx)).
  - unfold spec_enter. case_decide; [by left|]. destruct (_ && _); [by left|].
    destruct (spec_incoming _ _ _ _ _ _ _ _ _ _) as [[s' evs] itch] eqn:Hs. cbn [oc_book].
    intros [?| ->]%(spec_incoming_ids _ _ _ _ _ _ _ _ _ _ _ _ _ _ Hs); [by left|right; by apply list_elem_of_singleton].
  - unfold spec_cancel. destruct (sb_find _ s) as [o|]; [|by left]. destruct (negb _); [by left|]. cbv zeta. destruct (_ <=? _); [by left|].
    destruct (_ =? 0); cbn [oc_book]; [intros [? _]%sb_remove_ids; by left|].
    rewrite sb_ids_set, reduce_id_ids, <- (sb_ids_side (side_ o)). by left.
  - unfold spec_replace. destruct (sb_find _ s) as [o|]; [|by left]. destruct (negb _); [by left|]. case_decide; [by left|]. cbv zeta.
    destruct (_ =? 0); [cbn [oc_book]; intros [? _]%sb_remove_ids; by left|]. destruct (_ && _).
    + cbn [oc_book]. rewrite sb_ids_set, insert_order_perm, fmap_cons. cbn [app]. rewrite <- (sb_ids_side (side_ o)).
      intros [->|[? _]%sb_remove_ids]%elem_of_cons; [right; by apply list_elem_of_singleton|by left].
    + destruct (spec_incoming _ _ _ _ _ _ _ _ _ _) as [[s' evs] itch] eqn:Hs. cbn [oc_book].
      intros [[? _]%sb_remove_ids| ->]%(spec_incoming_ids _ _ _ _ _ _ _ _ _ _ _ _ _ _ Hs); [by left|right; by apply list_elem_of_singleton].
Qed.

(** An event names an order of the request or of the book, and fits its C++ types. *)
Definition event_ok (own : list Z) (s : SBook) (ev : EngineEvent) : Prop :=
  event_typed ev /\ (ev_order_id ev ∈ own \/ ev_order_id ev ∈ sb_ids s) /\
  (ev_orig_order_id ev = 0 \/ ev_orig_order_id ev ∈ sb_ids s).

Lemma plain_event_ok own s id mn client_id price quantity type reason :
  id ∈ own \/ id ∈ sb_ids s -> is_u64 id -> is_u32 quantity -> is_u64 mn -> is_u8 reason ->
  event_ok own s (event id 0 mn client_id price quantity type reason).
Proof. intros. split; [done|]. split; [done|by left]. Qed.

Lemma fill_events_ok own s side type price id client_id wanted l fills kept mn sd :
  swept side type price wanted l fills kept -> Forall (order_wf sd) l -> (forall o, o ∈ l -> id_ o ∈ sb_ids s) ->
  id ∈ own -> is_u64 id -> is_u32 wanted -> is_u64 mn -> Forall (event_ok own s) (fill_events id client_id mn fills).
Proof.
  intros Hsw Hl Hs Hid Hu. revert mn. induction Hsw as [l|wanted|wanted r l Hx|wanted r l fills kept Hx Hr _ IH|wanted r l Hx Hw];
    intros mn Hwu Hm; try apply Forall_nil_2; apply Forall_cons in Hl as [(_ & _ & (? & ? & ?) & _ & ?) Hl];
    cbn [fill_events]; (apply Forall_cons; split; [apply plain_event_ok; auto; (done || ulia)|]);
    (apply Forall_cons; split; [apply plain_event_ok; auto; first [done|by right; apply Hs; left|ulia]|]); [|apply Forall_nil_2].
  apply IH; [done|intros; apply Hs; by right|ulia|apply u64_range].
Qed.

Lemma incoming_events_ok ctx s s0 id client_id side type price quantity executed may_rest s' evs itch :
  sbook_wf s -> (forall x, x ∈ sb_ids s -> x ∈ sb_ids s0) -> is_u64 id -> 0 <= quantity -> is_u32 quantity ->
  spec_incoming ctx s id client_id side type price quantity executed may_rest = (s', evs, itch) ->
  Forall (event_ok [id] s0) evs.
Proof.
  intros H Hs0 Hi Hq Hqu Hs. unfold spec_incoming in Hs.
  destruct (take_liquidity _ _ _ _ _) as [fills kept] eqn:Ht in Hs. cbv zeta in Hs.
  pose proof (take_liquidity_swept _ _ _ _ _ _ _ (side_wf_qty _ _ (sw_side _ H (opposite side))) Hq Ht) as Hsw.
  assert (Forall (event_ok [id] s0) (fill_events id client_id (sb_next_match s) fills)) as Hf.
  { eapply fill_events_ok; [exact Hsw|apply (sw_side _ H (opposite side))|..|apply H]; auto; [|set_solver].
    intros o Ho. apply Hs0. by eapply side_ids. }
  destruct (swept_shares _ _ _ _ _ _ _ Hsw Hq) as [_ ?].
  destruct (_ =? 0) eqn:E in Hs; zbool; [by injection Hs as _ <- _|]. destruct may_rest; injection Hs as _ <- _; [done|].
  apply Forall_app. split; [done|]. apply Forall_singleton, plain_event_ok; first [done|left; set_solver|ulia].
Qed.

Lemma process_events_ok ctx s :
  sbook_wf s -> request_ok (ctx_req ctx) ->
  Forall (event_ok (own_id (ctx_req ctx)) s) (oc_events (spec_process ctx s)).
Proof.
  intros H [(Hi & Hni & _ & _ & Hq) _]. unfold spec_process, own_id. set (req := ctx_req ctx) in *.
  destruct (rq_type req) eqn:Ht.
  - unfold spec_enter. fold req. case_decide; [constructor|]. destruct (_ && _).
    { apply Forall_singleton, plain_event_ok; first [done|left; set_solver]. }
    destruct (spec_incoming _ _ _ _ _ _ _ _ _ _) as [[s' evs] itch] eqn:Hs. cbn [oc_events]. apply Forall_cons. split.
    + apply plain_event_ok; first [done|left; set_solver].
    + refine (incoming_events_ok _ _ _ _ _ _ _ _ _ _ _ _ _ _ H _ Hi _ Hq Hs); [auto|ulia].
  - unfold spec_cancel. fold req. destruct (sb_find _ s) as [o|] eqn:Hf; [|constructor].
    destruct (find_in_side _ _ _ H Hf) as [Ho _]. destruct (find_order_wf _ _ _ H Hf) as (_ & _ & (? & ? & ?) & _ & ?).
    destruct (negb _); [constructor|]. cbv zeta. set (target := still_open _ _).
    assert (0 <= target) by (unfold target, still_open; lia).
    destruct (open_quantity_ o <=? target) eqn:E; [constructor|]. zbool. pose proof (side_ids _ _ _ Ho).
    destruct (target =? 0); apply Forall_singleton, plain_event_ok; first [done|by right|ulia].
  - unfold spec_replace. fold req. destruct (sb_find _ s) as [o|] eqn:Hf; [|constructor].
    destruct (find_in_side _ _ _ H Hf) as [Ho _]. destruct (find_order_wf _ _ _ H Hf) as (_ & _ & (? & ? & ?) & _ & ?).
    pose proof (side_ids _ _ _ Ho). pose proof (sbook_wf_remove o s H) as Hwf1.
    destruct (negb _); [constructor|]. case_decide; [constructor|]. cbv zeta. set (open := still_open _ _).
    assert (0 <= open /\ is_u32 open) as [? ?] by (unfold open, still_open; ulia).
    destruct (open =? 0). { apply Forall_singleton, plain_event_ok; first [done|by right|ulia]. }
    assert (event_ok [rq_new_order_id req] s
      (event (rq_new_order_id req) (id_ o) 0 (rq_client_id req) (rq_price req) open REPLACED 0)) as Hrep
      by (split; [done|]; split; [left; set_solver|by right]).
    destruct (_ && _); [by apply Forall_singleton|].
    destruct (spec_incoming _ _ _ _ _ _ _ _ _ _) as [[s' evs] itch] eqn:Hs. cbn [oc_events]. apply Forall_cons. split; [done|].
    refine (incoming_events_ok _ _ _ _ _ _ _ _ _ _ _ _ _ _ Hwf1 _ Hni _ _ Hs); [|done..].
    intros x [Hx _]%sb_remove_ids. done.
Qed.
End Track.
