(* ===== verification/Pipeline.v ===== *)
(** * Pipeline: the server's two threads around the engine

    The order path of [src/exchange/server/src/server.cpp] as a state machine: the
    inbound thread runs [handle_ouch_] (translate, push the note, then push the
    request), the engine executes requests in order, the outbound thread drains
    notes and answers events ([outbound_]).  Each push, pop and hand-over is one
    step and the three threads interleave freely.  A ring is the list of what is
    in it: the code spins until a push succeeds.  The invariant says that, whatever
    is in flight, the responder can answer it. *)

From stdpp Require Import sorting.
From S2P Require Import Prelude Types WireCodec OuchProto OuchCorrect Validation PriceLevelQueue Orderbook OrderbookSpec.
From S2P Require Import OrderbookRefine OrderbookCorrect BookInvariant OrderEntry OuchResponder Gateway.

(** ** State *)

Record InboundStamps := mkStamps { st_read_begin_tsc : Z; st_recv_tsc : Z }.

Record Pipeline := mkPipeline {
  pl_entry : OrderEntry;                 (** [order_entry_] *)
  pl_request : option EngineRequest;     (** translated, note pushed, not yet on the ring *)
  pl_notes : list GatewayNote;           (** [notes_] *)
  pl_inbound : list EngineRequest;       (** [inbound_ring_] *)
  pl_book : SBook;                       (** the engine's book *)
  pl_outbound : list EngineEvent;        (** [outbound_ring_] *)
  pl_event : option EngineEvent;         (** popped by the outbound thread, not yet answered *)
  pl_ready : bool;                       (** the notes were drained after that pop *)
  pl_resp : OuchResponder;               (** [responder_] *)
  pl_sent : list OuchResponse;           (** handed to [send_ouch_] *)
  pl_unanswered : list EngineEvent;      (** events [on_event] had no answer for *)
}.
#[export] Instance Pipeline_eta : Eta Pipeline := fun p =>
  mkPipeline (pl_entry p) (pl_request p) (pl_notes p) (pl_inbound p) (pl_book p) (pl_outbound p) (pl_event p)
    (pl_ready p) (pl_resp p) (pl_sent p) (pl_unanswered p).

Definition Pipeline_new (band : PriceBand) : Pipeline :=
  mkPipeline (OrderEntry_new band) None [] [] sbook_new [] None false ∅ [] [].

(** ** The inbound thread *)

(** [handle_ouch_] up to the push of the note. *)
Definition handle_ouch_translate (client_id : Z) (msg : OuchInboundFrame) : M Pipeline unit := fun p =>
  match msg with
  | INBOUND_NONE => Some (tt, p)
  | _ =>
    match translate client_id msg (pl_entry p) with
    | None => None
    | Some (t, e) =>
        Some (tt, p <| pl_entry := e |> <| pl_notes := pl_notes p ++ option_list (tr_note t) |>
                    <| pl_request := tr_request t |>)
    end
  end.

Definition stamp_request (stamps : InboundStamps) (push_tsc : Z) (rq : EngineRequest) : EngineRequest :=
  mkRequest (st_read_begin_tsc stamps) (st_recv_tsc stamps) push_tsc (rq_order_id rq) (rq_new_order_id rq)
    (rq_client_id rq) (rq_price rq) (rq_quantity rq) (rq_type rq) (rq_side rq) (rq_order_type rq) (rq_time_in_force rq).

(** The rest of [handle_ouch_]: stamp the request and push it. *)
Definition handle_ouch_push (stamps : InboundStamps) (push_tsc : Z) (p : Pipeline) : Pipeline :=
  match pl_request p with
  | None => p
  | Some rq => p <| pl_inbound := pl_inbound p ++ [stamp_request stamps push_tsc rq] |> <| pl_request := @None EngineRequest |>
  end.

(** ** The outbound thread *)

(** [drain_notes]: one note, and the answer to a reject. *)
Definition drain_note (ts : Z) (p : Pipeline) : Pipeline :=
  match pl_ready p, pl_notes p with
  | false, note :: notes =>
      let '(response, R) := on_note note ts (pl_resp p) in
      p <| pl_notes := notes |> <| pl_resp := R |> <| pl_sent := pl_sent p ++ option_list response |>
  | _, _ => p
  end.

Definition pop_event (p : Pipeline) : Pipeline :=
  match pl_event p, pl_outbound p with
  | None, ev :: evs => p <| pl_event := Some ev |> <| pl_outbound := evs |>
  | _, _ => p
  end.

(** The second drain finds no more notes. *)
Definition end_drain (p : Pipeline) : Pipeline :=
  match pl_event p, pl_notes p with
  | Some _, [] => p <| pl_ready := true |>
  | _, _ => p
  end.

(** The event is answered, or dropped when there is no record. *)
Definition answer_event (ts : Z) (p : Pipeline) : Pipeline :=
  match pl_event p, pl_ready p with
  | Some ev, true =>
      let '(response, R) := on_event ev ts (pl_resp p) in
      let p := p <| pl_event := @None EngineEvent |> <| pl_ready := false |> <| pl_resp := R |> in
      match response with
      | Some r => p <| pl_sent := pl_sent p ++ [r] |>
      | None => p <| pl_unanswered := pl_unanswered p ++ [ev] |>
      end
  | _, _ => p
  end.

(** ** Steps *)

Section Steps.
Context `{cfg : BookConfig} (rdtsc : nat -> Z).

(** The engine executes the oldest request. *)
Definition engine_execute (ctx : Context) (tsc : nat) (p : Pipeline) : Pipeline :=
  match pl_inbound p with
  | [] => p
  | _ :: rqs =>
      let oc := spec_process ctx (pl_book p) in
      p <| pl_inbound := rqs |> <| pl_book := oc_book oc |>
        <| pl_outbound := pl_outbound p ++ stamp_events rdtsc ctx false tsc (oc_events oc) |>
  end.

Inductive pl_step : Pipeline -> Pipeline -> Prop :=
| step_translate client_id msg p p' :
    pl_request p = None -> is_u32 client_id -> frame_typed msg ->
    next_order_id_ (pl_entry p) + 1 < 18446744073709551616 ->
    handle_ouch_translate client_id msg p = Some (tt, p') -> pl_step p p'
| step_push stamps push_tsc p : pl_step p (handle_ouch_push stamps push_tsc p)
| step_execute ctx tsc p rqs :
    pl_inbound p = ctx_req ctx :: rqs -> pl_step p (engine_execute ctx tsc p)
| step_note ts p : is_u64 ts -> pl_step p (drain_note ts p)
| step_pop p : pl_step p (pop_event p)
| step_drained p : pl_step p (end_drain p)
| step_answer ts p : is_u64 ts -> pl_step p (answer_event ts p).

Inductive pl_reachable : Pipeline -> Prop :=
| reach_new : pl_reachable (Pipeline_new (mkPriceBand MIN_PRICE MAX_PRICE))
| reach_step p p' : pl_reachable p -> pl_step p p' -> pl_reachable p'.

(** ** Invariant *)

Definition drained (notes : list GatewayNote) (R : OuchResponder) : OuchResponder :=
  fold_left (fun R note => (on_note note 0 R).2) notes R.

(** Requests the engine has not executed, and events not answered, oldest first. *)
Definition waiting_requests (p : Pipeline) : list EngineRequest := pl_inbound p ++ option_list (pl_request p).
Definition waiting_events (p : Pipeline) : list EngineEvent := option_list (pl_event p) ++ pl_outbound p.

Definition new_ids (rqs : list EngineRequest) : list Z := mjoin (own_id <$> rqs).

(** Everything in flight can be answered, leaving the responder as [R]. *)
Definition in_flight (p : Pipeline) (R : OuchResponder) : Prop :=
  if pl_ready p then
    exists ev R1, pl_event p = Some ev /\ owed ev (pl_resp p) R1 /\
      answered (pl_outbound p) (drained (pl_notes p) R1) R
  else answered (waiting_events p) (drained (pl_notes p) (pl_resp p)) R.

Definition note_ok (note : GatewayNote) : Prop :=
  record_typed (note_record note) /\ is_u16 (note_reject_reason note).

Record pl_inv (p : Pipeline) : Prop := {
  pi_entry : entry_wf (pl_entry p);
  pi_book : sbook_wf (pl_book p);
  pi_requests : Forall request_ok (waiting_requests p);
  pi_fresh : NoDup (new_ids (waiting_requests p) ++ sb_ids (pl_book p));
  pi_ids x : x ∈ new_ids (waiting_requests p) \/ x ∈ sb_ids (pl_book p) -> x < next_order_id_ (pl_entry p);
  pi_events : Forall (fun ev => event_typed ev /\ ev_order_id ev < next_order_id_ (pl_entry p) /\
    ev_orig_order_id ev < next_order_id_ (pl_entry p)) (waiting_events p);
  pi_follow : exists R, in_flight p R /\ tracks (pl_book p) R /\ Forall (announced R) (waiting_requests p);
  pi_typed : resp_typed (pl_resp p) /\ Forall note_ok (pl_notes p);
  pi_sent : Forall (fun r => outbound_wf (resp_ouch r)) (pl_sent p);
  pi_answered : pl_unanswered p = [];
}.

Lemma Pipeline_new_inv : pl_inv (Pipeline_new (mkPriceBand MIN_PRICE MAX_PRICE)).
Proof.
  split.
  - apply OrderEntry_new_wf.
  - apply sbook_new_wf.
  - constructor.
  - constructor.
  - intros x [Hx|Hx]; by apply elem_of_nil in Hx.
  - constructor.
  - exists ∅. split; [constructor|]. split; [|constructor]. intros []; constructor.
  - split; [apply map_Forall_empty|constructor].
  - constructor.
  - reflexivity.
Qed.

Lemma on_note_state note ts R : (on_note note ts R).2 = (on_note note 0 R).2.
Proof. unfold on_note. by destruct (note_kind note). Qed.

Lemma step_note_inv ts p : is_u64 ts -> pl_inv p -> pl_inv (drain_note ts p).
Proof.
  intros Hts H. unfold drain_note. destruct (pl_ready p) eqn:Er; [done|].
  destruct (pl_notes p) as [|note notes] eqn:En; [done|].
  destruct (on_note note ts (pl_resp p)) as [r R] eqn:Eo. destruct H as [? ? ? ? ? ? Hf [Ht Hn] ? ?].
  unfold in_flight in Hf. rewrite Er, En in Hf. rewrite En in Hn. apply Forall_cons in Hn as [[Hn1 Hn2] Hn].
  pose proof (on_note_typed note ts (pl_resp p) Ht Hn1 Hn2 Hts) as Hty. pose proof (on_note_state note ts (pl_resp p)) as Hst.
  rewrite Eo in Hty, Hst. cbn [fst snd] in Hty, Hst. split; try done; cbn [pl_sent pl_resp pl_notes].
  - destruct Hf as (R' & Hf & Htr). exists R'. split; [|done]. cbn [drained fold_left] in Hf. rewrite <- Hst in Hf.
    exact Hf.
  - split; [apply Hty|done].
  - apply Forall_app. split; [done|]. destruct r; [apply Forall_singleton, Hty|constructor].
Qed.

Lemma step_pop_inv p : pl_inv p -> pl_inv (pop_event p).
Proof.
  intros H. unfold pop_event. destruct (pl_event p) eqn:Ee; [done|]. destruct (pl_outbound p) as [|ev evs] eqn:Eo; [done|].
  destruct H as [? ? ? ? ? He Hf ? ? ?]. unfold waiting_events in He. rewrite Ee, Eo in He.
  split; try done. destruct Hf as (R & Hf & Htr). exists R. split; [|done]. unfold in_flight in *. cbn [pl_ready] in *.
  destruct (pl_ready p); [destruct Hf as (? & ? & Hf & _); congruence|]. unfold waiting_events in Hf. by rewrite Ee, Eo in Hf.
Qed.

Lemma step_drained_inv p : pl_inv p -> pl_inv (end_drain p).
Proof.
  intros H. unfold end_drain. destruct (pl_event p) as [ev|] eqn:Ee; [|done]. destruct (pl_notes p) eqn:En; [|done].
  destruct H as [? ? ? ? ? He Hf [? ?] ? ?]. unfold in_flight, waiting_events in He, Hf. rewrite Ee in He, Hf.
  rewrite En in Hf. split; try done. destruct Hf as (R & Hf & Htr). exists R. split; [|done]. cbv beta in Hf.
  unfold in_flight. cbn [pl_ready pl_event pl_resp pl_outbound pl_notes].
  destruct (pl_ready p); [done|]. inversion Hf; subst. by eexists ev, _.
Qed.

(** A drain that ends while notes are still on their way is as good, as long as none of
    them announces an order the event names. *)
Definition unnamed (ev : EngineEvent) (note : GatewayNote) : Prop :=
  note_kind note <> NOTE_REJECTED -> ev_order_id ev <> note_order_id note /\ ev_orig_order_id ev <> note_order_id note.

Lemma on_event_drained ev ts notes R :
  Forall (unnamed ev) notes -> on_event ev ts (drained notes R) = ((on_event ev ts R).1, drained notes (on_event ev ts R).2).
Proof.
  intros H. revert R. induction H as [|note notes Hn _ IH]; intros R; [exact (surjective_pairing _)|].
  cbn [drained fold_left]. fold (drained notes (on_note note 0 R).2) (drained notes (on_note note 0 (on_event ev ts R).2).2).
  rewrite IH. unfold unnamed in Hn. unfold on_note. destruct (note_kind note); [| |done];
    (destruct (Hn ltac:(discriminate)); cbn [snd]; by rewrite on_event_insert).
Qed.

Lemma drain_ends_inv p ev :
  pl_inv p -> pl_event p = Some ev -> Forall (unnamed ev) (pl_notes p) -> pl_inv (p <| pl_ready := true |>).
Proof.
  intros H Ee Hn. destruct H as [? ? ? ? ? He Hf [? ?] ? ?]. split; try done. destruct Hf as (R & Hf & Htr). exists R. split; [|done].
  unfold in_flight, waiting_events in *. cbn [pl_ready pl_event pl_resp pl_outbound pl_notes].
  destruct (pl_ready p); [done|]. rewrite Ee in Hf. inversion Hf as [|? ? ? R1 ? Hone Ha]; subst.
  assert (owed ev (pl_resp p) (on_event ev 0 (pl_resp p)).2 /\ R1 = drained (pl_notes p) (on_event ev 0 (pl_resp p)).2) as [Ho ->]; [|by eexists ev, _].
  assert (forall ts, (on_event ev ts (pl_resp p)).2 = (on_event ev 0 (pl_resp p)).2) as Hts.
  { intros ts. unfold on_event. destruct (pl_resp p !! _); [|done]. by destruct (ev_type ev), (pl_resp p !! ev_orig_order_id ev). }
  split.
  - intros ts. destruct (Hone ts) as [f Hone']. exists f. rewrite on_event_drained in Hone' by done. injection Hone' as Hr _.
    rewrite <- Hr, <- (Hts ts). by destruct (on_event ev ts (pl_resp p)).
  - destruct (Hone 0) as [f Hone']. rewrite on_event_drained in Hone' by done. by injection Hone'.
Qed.

Lemma step_answer_inv ts p : is_u64 ts -> pl_inv p -> pl_inv (answer_event ts p).
Proof.
  intros Hts H. unfold answer_event. destruct (pl_event p) as [ev|] eqn:Ee; [|done]. destruct (pl_ready p) eqn:Er; [|done].
  destruct H as [? ? ? ? ? He Hf [Ht ?] Hs ?]. unfold waiting_events in He. unfold in_flight in Hf. rewrite Er, Ee in Hf.
  rewrite Ee in He. cbn [option_list app] in He. apply Forall_cons in He as [(Hev & _) He].
  destruct Hf as (R & (? & R1 & [= <-] & Hone & Ha) & Htr & Hann).
  pose proof (on_event_typed ev ts (pl_resp p) Ht Hev Hts) as [Ht1 Hw].
  destruct (Hone ts) as [f Hf]. rewrite Hf in Ht1, Hw |- *. cbn [fst snd] in Ht1, Hw.
  split; try done; cbn [pl_sent pl_resp pl_notes].
  - by exists R.
  - apply Forall_app. split; [done|by apply Forall_singleton].
Qed.

(** The pipeline after an answer, member by member. *)
Lemma answered_inv ts p ev r R :
  is_u64 ts -> pl_inv p -> pl_event p = Some ev -> pl_ready p = true -> on_event ev ts (pl_resp p) = (Some r, R) ->
  pl_inv (mkPipeline (pl_entry p) (pl_request p) (pl_notes p) (pl_inbound p) (pl_book p) (pl_outbound p) None false R
    (pl_sent p ++ [r]) (pl_unanswered p)).
Proof. intros Hts H Ee Er Eo. apply (step_answer_inv ts) in H; [|done]. unfold answer_event in H. by rewrite Ee, Er, Eo in H. Qed.

(** *** The inbound thread *)

Lemma stamp_request_same stamps tsc rq :
  own_id (stamp_request stamps tsc rq) = own_id rq /\ (request_ok rq -> request_ok (stamp_request stamps tsc rq)) /\
  (forall R, announced R rq -> announced R (stamp_request stamps tsc rq)).
Proof. by destruct rq. Qed.

Lemma step_push_inv stamps tsc p : pl_inv p -> pl_inv (handle_ouch_push stamps tsc p).
Proof.
  intros H. unfold handle_ouch_push. destruct (pl_request p) as [rq|] eqn:Eq; [|done].
  destruct (stamp_request_same stamps tsc rq) as (Hid & Hok & Han). destruct H as [? ? Hr Hfr Hids ? Hf ? ? ?].
  set (p' := p <| pl_inbound := pl_inbound p ++ [stamp_request stamps tsc rq] |> <| pl_request := @None EngineRequest |>).
  change (pl_inv p'). assert (waiting_requests p = pl_inbound p ++ [rq]) as E by (unfold waiting_requests; by rewrite Eq).
  assert (waiting_requests p' = pl_inbound p ++ [stamp_request stamps tsc rq]) as E' by apply app_nil_r.
  assert (new_ids (waiting_requests p') = new_ids (waiting_requests p)) as Hn.
  { rewrite E, E'. unfold new_ids. rewrite !fmap_app, !join_app. cbn. by rewrite Hid. }
  destruct Hf as (R & Hfl & Htr & Hann). split; try done.
  - rewrite E'. rewrite E in Hr. apply Forall_app in Hr as [? Hr]. apply Forall_app. split; [done|].
    apply Forall_singleton, Hok. exact (Forall_inv Hr).
  - rewrite Hn. done.
  - rewrite Hn. done.
  - exists R. split; [done|]. split; [done|]. rewrite E'. rewrite E in Hann. apply Forall_app in Hann as [? Hann].
    apply Forall_app. split; [done|]. apply Forall_singleton, Han. exact (Forall_inv Hann).
Qed.

Lemma drained_snoc notes note R : drained (notes ++ [note]) R = (on_note note 0 (drained notes R)).2.
Proof. unfold drained. by rewrite fold_left_app. Qed.

Lemma in_flight_note p note n x R :
  (forall R, (on_note note 0 R).2 = <[n := x]> R) ->
  Forall (fun ev => ev_order_id ev <> n /\ ev_orig_order_id ev <> n) (waiting_events p) ->
  in_flight p R -> in_flight (p <| pl_notes := pl_notes p ++ [note] |>) (<[n := x]> R).
Proof.
  intros Hn He. unfold in_flight. cbn [pl_ready]. destruct (pl_ready p).
  - intros (ev & R1 & Hev & Ho & Ha). exists ev, R1. split; [done|]. split; [done|]. cbn [pl_notes pl_outbound].
    rewrite drained_snoc, Hn. apply answered_insert; [|done]. unfold waiting_events in He. apply Forall_app in He. apply He.
  - cbn [pl_notes pl_resp]. intros Ha. rewrite drained_snoc, Hn. by apply answered_insert.
Qed.

(** What [handle_ouch_] leaves behind a translation. *)
Definition after_translation (e : OrderEntry) (t : Translation) (p : Pipeline) : Pipeline :=
  p <| pl_entry := e |> <| pl_notes := pl_notes p ++ option_list (tr_note t) |> <| pl_request := tr_request t |>.

Lemma waiting_after e t p :
  pl_request p = None -> waiting_requests (after_translation e t p) = waiting_requests p ++ option_list (tr_request t).
Proof. intros Hr. unfold waiting_requests. rewrite Hr. cbn [option_list]. by rewrite app_nil_r. Qed.

Lemma new_ids_snoc rqs rq : new_ids (rqs ++ [rq]) = new_ids rqs ++ own_id rq.
Proof. unfold new_ids. rewrite fmap_app, join_app. cbn. by rewrite app_nil_r. Qed.

(** Events in flight stay in range of a counter that grows. *)
Lemma events_grow n n' evs :
  n <= n' -> Forall (fun ev => event_typed ev /\ ev_order_id ev < n /\ ev_orig_order_id ev < n) evs ->
  Forall (fun ev => event_typed ev /\ ev_order_id ev < n' /\ ev_orig_order_id ev < n') evs.
Proof. intros Hn H. eapply Forall_impl; [exact H|]. intros ev (? & ? & ?). split_and!; [done|lia|lia]. Qed.

(** A translation that brings no order: no note, or a reject; no request, or a cancel. *)
Lemma translate_plain_inv p e t :
  pl_inv p -> pl_request p = None -> entry_wf e -> next_order_id_ e = next_order_id_ (pl_entry p) ->
  match tr_note t with None => True | Some note => note_ok note /\ note_kind note = NOTE_REJECTED end ->
  match tr_request t with None => True | Some rq => request_ok rq /\ rq_type rq = CANCEL end ->
  pl_inv (after_translation e t p).
Proof.
  intros H Hr He Hn Hnote Hreq. destruct H as [? ? Hrq Hfr Hids Hev (R & Hf & Htr & Han) [? Hno] ? ?].
  assert (new_ids (waiting_requests (after_translation e t p)) = new_ids (waiting_requests p)) as Hnew.
  { rewrite waiting_after by done. destruct (tr_request t) as [rq|]; cbn [option_list]; [|by rewrite app_nil_r].
    change (option_list (Some rq)) with [rq]. rewrite new_ids_snoc. unfold own_id. rewrite (proj2 Hreq). by rewrite app_nil_r. }
  split; try done.
  - rewrite waiting_after by done. apply Forall_app. split; [done|].
    destruct (tr_request t); [apply Forall_singleton, Hreq|constructor].
  - rewrite Hnew. done.
  - rewrite Hnew. cbn [pl_entry after_translation]. rewrite Hn. done.
  - cbn [pl_entry after_translation]. rewrite Hn. exact Hev.
  - exists R. split; [|split; [done|]].
    + assert (forall R, drained (pl_notes p ++ option_list (tr_note t)) R = drained (pl_notes p) R) as Hd.
      { intros R0. destruct (tr_note t) as [note|]; cbn [option_list]; [|by rewrite app_nil_r].
        change (option_list (Some note)) with [note]. rewrite drained_snoc. unfold on_note. by rewrite (proj2 Hnote). }
      unfold in_flight in *. cbn [pl_ready after_translation pl_notes pl_event pl_outbound pl_resp] in *.
      destruct (pl_ready p); [|by rewrite Hd]. destruct Hf as (ev & R1 & ? & ? & ?). exists ev, R1. by rewrite Hd.
    + rewrite waiting_after by done. apply Forall_app. split; [done|]. destruct (tr_request t) as [rq|]; [|constructor].
      destruct Hreq as [_ Hc]. apply Forall_singleton. unfold announced, own_id. rewrite Hc. split; [constructor|done].
  - split; [done|]. apply Forall_app. split; [done|]. destruct (tr_note t); [apply Forall_singleton, Hnote|constructor].
Qed.

(** A translation that brings an order: its note is in the responder before its request runs. *)
Lemma translate_order_inv p e kind rec rq :
  pl_inv p -> pl_request p = None -> entry_wf e -> next_order_id_ e = next_order_id_ (pl_entry p) + 1 ->
  kind <> NOTE_REJECTED -> record_typed rec -> rec_client_id rec = rq_client_id rq -> request_ok rq ->
  own_id rq = [next_order_id_ (pl_entry p)] -> 0 < rq_quantity rq ->
  pl_inv (after_translation e (mkTranslation (Some (mkNote kind 0 (next_order_id_ (pl_entry p)) rec)) (Some rq)) p).
Proof.
  intros H Hr He Hn Hk Hrec Hc Hok Hown Hq. destruct H as [? ? Hrq Hfr Hids Hev (R & Hf & Htr & Han) [? Hno] ? ?].
  set (n := next_order_id_ (pl_entry p)) in *. set (note := mkNote kind 0 n rec).
  set (t := mkTranslation (Some note) (Some rq)).
  assert (forall x, x ∈ new_ids (waiting_requests p) \/ x ∈ sb_ids (pl_book p) -> x <> n) as Hlt by (intros x ?%Hids; lia).
  assert (new_ids (waiting_requests (after_translation e t p)) = new_ids (waiting_requests p) ++ [n]) as Hnew.
  { rewrite waiting_after by done. change (option_list _) with [rq]. by rewrite new_ids_snoc, Hown. }
  assert (n ∉ sb_ids (pl_book p)) as Hnb by (intros Hx; by apply (Hlt n); [right|]).
  assert (forall R, (on_note note 0 R).2 = <[n := mkRespOrder rec 0]> R) as Hins by (intros R0; by destruct kind).
  split; try done.
  - rewrite waiting_after by done. apply Forall_app. split; [done|by apply Forall_singleton].
  - rewrite Hnew, <- app_assoc, Permutation_app_comm, <- app_assoc. cbn [app]. apply NoDup_cons. split; [|].
    + rewrite not_elem_of_app. split; [done|]. intros Hx. by apply (Hlt n); [left|].
    + by rewrite Permutation_app_comm.
  - rewrite Hnew. cbn [pl_entry after_translation]. rewrite Hn. intros x Hx.
    assert (x = n \/ x < n) as [->|?]; [|lia|lia]. rewrite elem_of_app, list_elem_of_singleton in Hx.
    destruct Hx as [[Hx|Hx]|Hx]; auto.
  - cbn [pl_entry after_translation]. rewrite Hn. eapply events_grow; [|exact Hev]. lia.
  - exists (<[n := mkRespOrder rec 0]> R). split; [|split].
    + assert (in_flight (p <| pl_notes := pl_notes p ++ [note] |>) (<[n := mkRespOrder rec 0]> R)) as Hfl; [|exact Hfl].
      apply in_flight_note; [done| |done]. eapply Forall_impl; [exact Hev|]. intros ev (_ & ? & ?). lia.
    + by apply tracks_insert.
    + rewrite waiting_after by done. apply Forall_app. split.
      * apply Forall_forall. intros rq' Hin. destruct (proj1 (Forall_forall _ _) Han rq' Hin) as [Ho ?]. split; [|done].
        apply Forall_forall. intros id Hid. destruct (proj1 (Forall_forall _ _) Ho id Hid) as (r & ? & ?). exists r.
        rewrite lookup_insert_ne; [done|]. apply not_eq_sym, Hlt. left. unfold new_ids. apply list_elem_of_join.
        exists (own_id rq'). split; [done|]. by apply list_elem_of_fmap_2.
      * apply Forall_singleton. split; [|done]. rewrite Hown. apply Forall_singleton. exists rec. by rewrite lookup_insert_eq.
  - split; [done|]. apply Forall_app. split; [done|]. by apply Forall_singleton.
Qed.

(** Whatever a message is translated to. *)
Lemma translated_inv p client_id t e :
  pl_inv p -> pl_request p = None -> entry_wf e -> translated (pl_entry p) client_id t ->
  next_order_id_ e = next_order_id_ (pl_entry p) + ids_taken t -> pl_inv (after_translation e t p).
Proof.
  intros H Hr He Htr Hnext.
  destruct Htr as [|reason rec Hre _ Hrec _|rec rq Hrec Hrc Hok Hty Hid Hcl Hq|k lo rq _ _ Hok Hty _ _|k lo rec rq _ _ Hrec Hrc Hok Hty _ Hid Hcl Hq];
    cbn in Hnext.
  - apply translate_plain_inv; try done; lia.
  - apply translate_plain_inv; try done; lia.
  - apply translate_order_inv; auto; [congruence|]. unfold own_id. by rewrite Hty, Hid.
  - apply translate_plain_inv; try done; lia.
  - apply translate_order_inv; auto; [congruence|]. unfold own_id. by rewrite Hty, Hid.
Qed.

Lemma step_translate_inv client_id msg p p' :
  pl_inv p -> pl_request p = None -> is_u32 client_id -> frame_typed msg ->
  next_order_id_ (pl_entry p) + 1 < 18446744073709551616 ->
  handle_ouch_translate client_id msg p = Some (tt, p') -> pl_inv p'.
Proof.
  intros H Hr Hc Hm Hn Hh. destruct (translate_handled (pl_entry p) client_id msg (pi_entry p H) Hc Hm Hn)
    as (t & e & Ht & He & Htr & Hnext & _).
  assert (p' = p \/ p' = after_translation e t p) as [->| ->]; [|done|by eapply translated_inv].
  unfold handle_ouch_translate in Hh. rewrite Ht in Hh. destruct msg; injection Hh as <-; auto.
Qed.

(** *** The engine *)

Lemma stamp_events_unstamped ctx first tsc evs :
  unstamped <$> stamp_events rdtsc ctx first tsc evs = unstamped <$> evs.
Proof.
  revert first tsc. induction evs as [|ev evs IH]; intros first tsc; [done|]. cbn [stamp_events].
  rewrite !fmap_cons, IH. by destruct ev.
Qed.

Lemma stamp_events_ok ctx first tsc own s evs :
  Forall (event_ok own s) evs -> Forall (event_ok own s) (stamp_events rdtsc ctx first tsc evs).
Proof.
  intros H. revert first tsc. induction H as [|ev evs He _ IH]; intros first tsc; cbn [stamp_events]; constructor; auto.
Qed.

Lemma in_flight_events p evs rqs b R R' :
  in_flight p R -> answered evs R R' ->
  in_flight (p <| pl_inbound := rqs |> <| pl_book := b |> <| pl_outbound := pl_outbound p ++ evs |>) R'.
Proof.
  unfold in_flight, waiting_events. cbn [pl_ready pl_event pl_outbound pl_notes pl_resp]. destruct (pl_ready p).
  - intros (ev & R1 & ? & ? & Ha) Ha'. exists ev, R1. split; [done|]. split; [done|]. by eapply answered_app.
  - intros Ha Ha'. rewrite app_assoc. by eapply answered_app.
Qed.

Lemma step_execute_inv ctx tsc p rqs :
  pl_inv p -> pl_inbound p = ctx_req ctx :: rqs -> pl_inv (engine_execute ctx tsc p).
Proof.
  intros H Hin. unfold engine_execute. rewrite Hin. cbv zeta. set (oc := spec_process ctx (pl_book p)).
  set (p' := p <| pl_inbound := rqs |> <| pl_book := oc_book oc |>
    <| pl_outbound := pl_outbound p ++ stamp_events rdtsc ctx false tsc (oc_events oc) |>). change (pl_inv p').
  destruct H as [? Hwf Hrq Hfr Hids Hev (R & Hf & Htr & Han) ? ? ?]. set (rq := ctx_req ctx) in *.
  assert (waiting_requests p = rq :: waiting_requests p') as Hw by (unfold waiting_requests; by rewrite Hin).
  rewrite Hw in Hrq, Hfr, Hids, Han. apply Forall_cons in Hrq as [Hok Hrq]. apply Forall_cons in Han as [Ha Han].
  change (new_ids (rq :: waiting_requests p')) with (own_id rq ++ new_ids (waiting_requests p')) in Hfr, Hids.
  rewrite <- app_assoc in Hfr. apply NoDup_app in Hfr as (_ & Hown & Hfr).
  assert (Forall (fun id => id ∉ sb_ids (pl_book p)) (own_id rq)) as Hn
    by (apply Forall_forall; intros id Hid Hx; apply (Hown id Hid), elem_of_app; by right).
  destruct (follow_process ctx (pl_book p) R Hwf Hn Ha Htr) as (R' & Hans & Htr' & Hsub & Hframe).
  pose proof (process_events_ok ctx (pl_book p) Hwf Hok) as Hevs. fold oc rq in Hans, Htr', Hsub, Hframe, Hevs.
  apply (stamp_events_ok ctx false tsc) in Hevs.
  split; try done.
  - by apply spec_process_wf.
  - apply NoDup_app. apply NoDup_app in Hfr as (Hd1 & Hd2 & Hd3). split; [done|].
    split; [|apply (sw_ids _ (spec_process_wf _ _ Hwf Hok))].
    intros x Hx [Hb|Ho]%Hsub; [by apply (Hd2 x)|]. apply (Hown x Ho), elem_of_app. by left.
  - cbn [pl_book pl_entry p']. intros x [Hx|[Hx|Hx]%Hsub]; apply Hids; rewrite elem_of_app; auto.
  - unfold waiting_events. cbn [pl_event pl_outbound pl_entry p']. rewrite app_assoc. apply Forall_app. split; [done|].
    eapply Forall_impl; [exact Hevs|]. intros ev (Hty & Hid & Horig). split; [done|].
    assert (forall x, x ∈ own_id rq \/ x ∈ sb_ids (pl_book p) -> x < next_order_id_ (pl_entry p)) as Hlt
      by (intros x [?|?]; apply Hids; rewrite elem_of_app; auto).
    split; [by apply Hlt|]. destruct Horig as [->|?]; [|by apply Hlt; right]. pose proof (ew_next _ pi_entry0). lia.
  - exists R'. split; [|split; [done|]].
    + apply (in_flight_events _ _ _ _ R); [done|]. eapply answered_unstamped; [|exact Hans].
      symmetry. apply stamp_events_unstamped.
    + apply Forall_forall. intros rq' Hin'. destruct (proj1 (Forall_forall _ _) Han rq' Hin') as [Ho ?]. split; [|done].
      apply Forall_forall. intros id Hid. destruct (proj1 (Forall_forall _ _) Ho id Hid) as (r & ? & ?). exists r.
      assert (id ∈ new_ids (waiting_requests p')) as Hmem.
      { unfold new_ids. apply list_elem_of_join. exists (own_id rq'). split; [done|]. by apply list_elem_of_fmap_2. }
      rewrite Hframe; [done| |].
      * intros Hx. apply (Hown id Hx), elem_of_app. by left.
      * intros Hx. apply NoDup_app in Hfr as (_ & Hd & _). by apply (Hd id).
Qed.

Lemma pl_step_inv p p' : pl_inv p -> pl_step p p' -> pl_inv p'.
Proof.
  intros H Hs. destruct Hs.
  - by eapply step_translate_inv.
  - by apply step_push_inv.
  - by eapply step_execute_inv.
  - by apply step_note_inv.
  - by apply step_pop_inv.
  - by apply step_drained_inv.
  - by apply step_answer_inv.
Qed.

Lemma pl_reachable_inv p : pl_reachable p -> pl_inv p.
Proof. induction 1 as [|p p' _ IH Hs]; [apply Pipeline_new_inv|by eapply pl_step_inv]. Qed.
End Steps.

(** ** Theorems *)

Section Theorems.
Context `{cfg : BookConfig} (rdtsc : nat -> Z).

(** No event is ever dropped for want of a record: in every state the threads can
    reach, the event the outbound thread is about to answer gets a response, it is
    addressed to the client the engine named, it fits the wire, and no earlier event
    went unanswered, and whatever was sent before fits the wire too.  This is what pushing the note before the request is for. *)
Theorem every_event_answered p ev ts :
  pl_reachable rdtsc p -> pl_event p = Some ev -> pl_ready p = true -> is_u64 ts ->
  pl_unanswered p = [] /\ Forall (fun r => outbound_wf (resp_ouch r)) (pl_sent p) /\
  exists f, (on_event ev ts (pl_resp p)).1 = Some (mkResponse (ev_client_id ev) f) /\ outbound_wf f.
Proof.
  intros Hp Hev Hr Hts. destruct (pl_reachable_inv _ p Hp) as [? ? ? ? ? He (R & Hf & _) [Ht _] ? ?].
  split; [done|]. split; [done|]. unfold in_flight in Hf. rewrite Hr, Hev in Hf. destruct Hf as (? & R1 & [= <-] & Ho & _).
  unfold waiting_events in He. rewrite Hev in He. cbn [option_list app] in He. apply Forall_cons in He as [(Hty & _) _].
  destruct (Ho ts) as [f Hf]. exists f. pose proof (on_event_typed ev ts _ Ht Hty Hts) as [_ Hw].
  by rewrite Hf in Hw |- *.
Qed.

(** Once nothing is in flight the responder agrees with the book: every resting
    order has its record, under its owner, with exactly the shares it has open. *)
Theorem quiescent_responder_tracks_book p :
  pl_reachable rdtsc p -> waiting_requests p = [] -> waiting_events p = [] -> pl_notes p = [] ->
  tracks (pl_book p) (pl_resp p).
Proof.
  intros Hp _ He Hn. destruct (pl_reachable_inv _ p Hp) as [? ? ? ? ? ? (R & Hf & Htr & _) ? ? ?].
  unfold in_flight in Hf. destruct (pl_ready p).
  - destruct Hf as (ev & _ & Hev & _). unfold waiting_events in He. by rewrite Hev in He.
  - rewrite He, Hn in Hf. inversion Hf; subst. done.
Qed.
End Theorems.

(** Client 3's order goes all the way through. *)
Definition example_tsc : nat -> Z := fun n => Z.of_nat n.

Definition example_entered : Pipeline :=
  match handle_ouch_translate 3 (enter_order valid_enter) (Pipeline_new (mkPriceBand 1 100000)) with
  | Some (_, p) => handle_ouch_push (mkStamps 10 11) 12 p
  | None => Pipeline_new (mkPriceBand 1 100000)
  end.

Definition example_context : option Context :=
  (fun rq => mkContext rq 13 14) <$> head (pl_inbound example_entered).

Definition example_executed : option Pipeline :=
  (fun ctx => engine_execute (cfg:=exchange_config) example_tsc ctx 0 example_entered) <$> example_context.

Definition example_ready : option Pipeline := (fun p => end_drain (pop_event (drain_note 15 p))) <$> example_executed.

Definition example_quiescent : option Pipeline := answer_event 16 <$> example_ready.

Lemma example_entered_reachable : pl_reachable (cfg:=exchange_config) example_tsc example_entered.
Proof.
  unfold example_entered. destruct (handle_ouch_translate _ _ _) as [[[] p]|] eqn:E; [|vm_compute in E; discriminate].
  apply (reach_step _ p); [|constructor].
  apply (reach_step _ (Pipeline_new (mkPriceBand 1 100000))); [exact (reach_new (cfg:=exchange_config) example_tsc)|].
  refine (step_translate _ 3 (enter_order valid_enter) (Pipeline_new (mkPriceBand 1 100000)) _ eq_refl _
    valid_enter_typed eq_refl E). ulia.
Qed.

Lemma example_ready_reachable : exists p ev,
  example_ready = Some p /\ pl_event p = Some ev /\ pl_ready p = true /\ ev_client_id ev = 3 /\ ev_type ev = ACCEPTED /\
  pl_reachable (cfg:=exchange_config) example_tsc p.
Proof.
  unfold example_ready, example_executed, example_context.
  destruct (pl_inbound example_entered) as [|rq rqs] eqn:E; [vm_compute in E; discriminate|].
  set (p1 := engine_execute (cfg:=exchange_config) example_tsc (mkContext rq 13 14) 0 example_entered).
  set (p4 := end_drain (pop_event (drain_note 15 p1))).
  assert (pl_reachable (cfg:=exchange_config) example_tsc p4) as Hr.
  { do 3 (eapply reach_step; [|constructor; ulia]).
    apply (reach_step _ example_entered); [exact example_entered_reachable|]. by eapply step_execute. }
  vm_compute in E. injection E as <- <-. eexists p4, _. split; [reflexivity|].
  split; [vm_compute; reflexivity|]. split_and!; first [exact Hr|vm_compute; reflexivity].
Qed.

Lemma every_event_answered_witness : exists p ev f,
  example_ready = Some p /\ pl_event p = Some ev /\
  (on_event ev 16 (pl_resp p)).1 = Some (mkResponse 3 f) /\ outbound_wf f.
Proof.
  destruct example_ready_reachable as (p & ev & Hp & Hev & Hr & Hc & _ & Hre).
  destruct (every_event_answered (cfg:=exchange_config) example_tsc p ev 16 Hre Hev Hr) as (_ & _ & f & Hf & Hw); [ulia|].
  rewrite Hc in Hf. exact (ex_intro _ p (ex_intro _ ev (ex_intro _ f (conj Hp (conj Hev (conj Hf Hw)))))).
Defined.

Lemma quiescent_responder_tracks_book_witness : exists p,
  example_quiescent = Some p /\ length (sb_bids (pl_book p)) = 1%nat /\ tracks (pl_book p) (pl_resp p).
Proof.
  destruct example_ready_reachable as (p & ev & Hp & _ & _ & _ & _ & Hre).
  exists (answer_event 16 p). unfold example_quiescent. rewrite Hp. split; [reflexivity|].
  assert (pl_reachable (cfg:=exchange_config) example_tsc (answer_event 16 p)) as Hre'
    by (eapply reach_step; [exact Hre|constructor; ulia]).
  pose proof (quiescent_responder_tracks_book (cfg:=exchange_config) example_tsc _ Hre') as Ht.
  clear Hre Hre'. vm_compute in Hp. injection Hp as <-.
  split; [vm_compute; reflexivity|]. apply Ht; vm_compute; reflexivity.
Defined.
