(* ===== verification/Inbound.v ===== *)
(** * Inbound: connections, logins and sessions of the inbound thread
    ([src/exchange/server/src/server.cpp], first half)

    The handlers work on one connection and the rest of the server ([Link]); an event
    takes the connection out of its slot, runs the handler and puts it back.  TCP
    itself is the [dpdk] library's: its events are the inputs, and all that is asked of
    it is that a slot is given to a new connection only when the old one is over.
    What the inbound thread pushes on its two rings is kept as two lists.  The
    invariant says that a session has at most one connection and is marked connected
    exactly while it has one; every event, with any bytes, preserves it and returns. *)

From S2P Require Import Prelude Types WireCodec Clock OuchProto OuchCorrect Validation OrderEntry OuchResponder.
From S2P Require Import SoupProto Reassembly Pipeline.

(** ** Data *)

(** [dpdk::conn_id]: a slot, and which of the connections it has held. *)
Record ConnId := mkConnId { conn_slot : Z; conn_generation : Z }.
#[export] Instance ConnId_eq_dec : EqDecision ConnId.
Proof. solve_decision. Defined.

Record InboundConnection := mkInConn {
  ic_conn : ConnId;
  ic_open : bool;
  ic_logged_in : bool;
  ic_closing : bool;
  ic_client_id : Z;
  ic_opened_tsc : Z;
  ic_last_recv_tsc : Z;
  ic_partial : list Z;        (** the first [partial_len] bytes of [partial] *)
}.
#[export] Instance InboundConnection_eta : Eta InboundConnection := fun c =>
  mkInConn (ic_conn c) (ic_open c) (ic_logged_in c) (ic_closing c) (ic_client_id c) (ic_opened_tsc c)
    (ic_last_recv_tsc c) (ic_partial c).

Definition InboundConnection_new : InboundConnection := mkInConn (mkConnId 0 0) false false false 0 0 0 [].

(** [Server::ServerNote]: each kind with the members it carries. *)
Inductive ServerNote :=
| GATEWAY (client_id : Z) (gateway : GatewayNote)
| LOGIN_ACCEPTED (client_id : Z) (conn : ConnId) (sequence : Z)
| LOGIN_REJECTED (reject_reason : Z) (conn : ConnId)
| DISCONNECTED (client_id : Z) (conn : ConnId).

Definition MAX_CLIENTS : Z := 64.
Definition kMaxConnections : nat := 2 * 64.
Definition SOUP_SESSION : list Z := str "SIM".
Definition kIdleTimeoutNs : Z := 15000 * 1000000.
Definition kLoginTimeoutNs : Z := 30000 * 1000000.

Record Inbound := mkInbound {
  inbound_connections_ : list InboundConnection;
  inbound_sessions_ : list bool;              (** [connected], by client id *)
  usernames_ : gmap Z Z;
  next_client_id_ : Z;
  retained_from_ : list Z;                    (** written by the outbound thread *)
  order_entry_ : OrderEntry;
  notes_pushed : list ServerNote;             (** on [notes_] *)
  requests_pushed : list EngineRequest;       (** on [inbound_ring_] *)
  request_marks : list nat;                   (** notes pushed before each request, history *)
  in_tsc_reads : nat;
}.
#[export] Instance Inbound_eta : Eta Inbound := fun s =>
  mkInbound (inbound_connections_ s) (inbound_sessions_ s) (usernames_ s) (next_client_id_ s) (retained_from_ s)
    (order_entry_ s) (notes_pushed s) (requests_pushed s) (request_marks s) (in_tsc_reads s).

Definition Inbound_new (band : PriceBand) : Inbound :=
  mkInbound (replicate kMaxConnections InboundConnection_new) (replicate 65 false) ∅ 1 (replicate 65 0)
    (OrderEntry_new band) [] [] [] 0.

(** A connection and the server it belongs to. *)
Record Link := mkLink { lk_conn : InboundConnection; lk_server : Inbound }.
#[export] Instance Link_eta : Eta Link := fun l => mkLink (lk_conn l) (lk_server l).

Definition on_conn (f : InboundConnection -> InboundConnection) : M Link unit :=
  modify (fun l => l <| lk_conn := f (lk_conn l) |>).
Definition on_server (f : Inbound -> Inbound) : M Link unit :=
  modify (fun l => l <| lk_server := f (lk_server l) |>).

(** ** Operations on one connection *)

Definition push_note_ (note : ServerNote) : M Link unit :=
  on_server (fun s => s <| notes_pushed := notes_pushed s ++ [note] |>).

Definition reject_login_ (reason : Z) : M Link unit :=
  _ ← on_conn (fun c => c <| ic_closing := true |>);
  conn ← gets (fun l => ic_conn (lk_conn l));
  push_note_ (LOGIN_REJECTED reason conn).

(** [inbound_sessions_[client_id].connected = b] *)
Definition set_connected (client_id : Z) (b : bool) : M Link unit := fun l =>
  match inbound_sessions_ (lk_server l) !! Z.to_nat client_id with
  | None => None
  | Some _ =>
      on_server (fun s => s <| inbound_sessions_ := <[Z.to_nat client_id := b]> (inbound_sessions_ s) |>) l
  end.

Definition disconnect_ : M Link unit :=
  c ← gets lk_conn;
  if negb (ic_open c) then mret tt else
  _ ← when (ic_logged_in c) (set_connected (ic_client_id c) false);
  _ ← push_note_ (DISCONNECTED (if ic_logged_in c then ic_client_id c else 0) (ic_conn c));
  (* open = logged_in = false, closing = true, partial_len = 0 *)
  on_conn (fun c => mkInConn (ic_conn c) false false true (ic_client_id c) (ic_opened_tsc c) (ic_last_recv_tsc c) []).

(** [std::toupper] in the C locale. *)
Definition toupper (c : Z) : Z := if (97 <=? c) && (c <=? 122) then c - 32 else c.

(** The loop over the username: the packed key, and whether all of it is blank. *)
Definition normalize_username (name : list Z) : Z * bool :=
  fold_left (fun '(username, blank) c =>
    let c := if c =? 0 then ch " " else toupper c in
    (Z.lor (u64 (Z.shiftl username 8)) c, blank && (c =? ch " "))) name (0, true).

(** The client id of a username: the one it has, or the next one. *)
Definition client_of (username : Z) : M Link (option Z) :=
  it ← gets (fun l => usernames_ (lk_server l) !! username);
  match it with
  | Some client_id => mret (Some client_id)
  | None =>
      next ← gets (fun l => next_client_id_ (lk_server l));
      if next <=? MAX_CLIENTS then
        _ ← on_server (fun s => s <| next_client_id_ := u32 (next + 1) |> <| usernames_ := <[username := next]> (usernames_ s) |>);
        mret (Some next)
      else mret None
  end.

Definition login_ (payload : list Z) : M Link unit :=
  match decode_soup_login_request payload with
  | None => reject_login_ kNotAuthorized
  | Some login =>
  let requested := lr_requested_session login in
  if bool_decide (requested <> alpha 10 []) && bool_decide (requested <> soup_session_id SOUP_SESSION) &&
     bool_decide (requested <> alpha 10 SOUP_SESSION) then reject_login_ kSessionNotAvailable else
  let '(username, blank) := normalize_username (lr_username login) in
  if blank then reject_login_ kNotAuthorized else
  client_id ← client_of username;
  match client_id with
  | None => reject_login_ kNotAuthorized
  | Some client_id =>
  connected ← (l ← gets (fun l => inbound_sessions_ (lk_server l)); lift (l !! Z.to_nat client_id));
  if (connected : bool) then reject_login_ kNotAuthorized else
  let sequence := lr_requested_sequence_number login in
  retained ← (l ← gets (fun l => retained_from_ (lk_server l)); lift (l !! Z.to_nat client_id));
  if negb (sequence =? 0) && (sequence <? retained) then reject_login_ kSessionNotAvailable else
  _ ← set_connected client_id true;
  (* logged_in = true, client_id = client_id *)
  _ ← on_conn (fun c => mkInConn (ic_conn c) (ic_open c) true (ic_closing c) client_id (ic_opened_tsc c)
                          (ic_last_recv_tsc c) (ic_partial c));
  conn ← gets (fun l => ic_conn (lk_conn l));
  push_note_ (LOGIN_ACCEPTED client_id conn sequence)
  end
  end.

Section Handlers.
Context (rdtsc : nat -> Z).

Definition read_tsc : M Link Z := fun l =>
  Some (rdtsc (in_tsc_reads (lk_server l)), l <| lk_server := (lk_server l) <| in_tsc_reads := S (in_tsc_reads (lk_server l)) |> |>).

(** [order_entry_.translate] *)
Definition run_translate (client_id : Z) (msg : OuchInboundFrame) : M Link Translation := fun l =>
  match translate client_id msg (order_entry_ (lk_server l)) with
  | None => None
  | Some (t, e) => Some (t, l <| lk_server := (lk_server l) <| order_entry_ := e |> |>)
  end.

(** [inbound_ring_->push(request)], after the notes pushed so far. *)
Definition push_request (request : EngineRequest) (s : Inbound) : Inbound :=
  s <| requests_pushed := requests_pushed s ++ [request] |> <| request_marks := request_marks s ++ [length (notes_pushed s)] |>.

Definition handle_ouch_ (client_id : Z) (msg : OuchInboundFrame) (stamps : InboundStamps) : M Link unit :=
  match msg with
  | INBOUND_NONE => mret tt
  | _ =>
      translation ← run_translate client_id msg;
      _ ← match tr_note translation with
          | Some note => push_note_ (GATEWAY client_id note)
          | None => mret tt
          end;
      match tr_request translation with
      | Some request =>
          push_tsc ← read_tsc;
          on_server (push_request (stamp_request stamps push_tsc request))
      | None => mret tt
      end
  end.

Definition handle_soup_packet_ (stamps : InboundStamps) (packet : SoupPacket) : M Link bool :=
  c ← gets lk_conn;
  _ ← (if soup_type packet =? SOUP_LOGIN_REQUEST then when (negb (ic_logged_in c)) (login_ (soup_payload packet))
       else if soup_type packet =? SOUP_UNSEQUENCED_DATA then
         when (ic_logged_in c)
           (msg ← lift (decode_inbound_ouch (soup_payload packet)); handle_ouch_ (ic_client_id c) msg stamps)
       else if soup_type packet =? SOUP_LOGOUT_REQUEST then disconnect_
       else mret tt);
  gets (fun l => ic_open (lk_conn l) && negb (ic_closing (lk_conn l))).

(** The server is what the reassembler hands its packets to. *)
#[export] Instance link_sink (stamps : InboundStamps) : PacketSink Link := {|
  partial l := ic_partial (lk_conn l);
  set_partial p l := l <| lk_conn := (lk_conn l) <| ic_partial := p |> |>;
  taking_input l := ic_open (lk_conn l) && negb (ic_closing (lk_conn l));
  handle_packet := handle_soup_packet_ stamps;
  disconnect := disconnect_;
|}.

(** ** Events *)

Inductive tcp_event :=
| tcp_accepted (conn : ConnId)
| tcp_data (conn : ConnId) (bytes : list Z)
| tcp_peer_closed (conn : ConnId)
| tcp_closed (conn : ConnId)
| tcp_reset (conn : ConnId).

Definition event_conn (ev : tcp_event) : ConnId :=
  match ev with
  | tcp_accepted c | tcp_data c _ | tcp_peer_closed c | tcp_closed c | tcp_reset c => c
  end.

(** A handler of the connection in [slot], which it holds by reference. *)
Definition with_connection (slot : nat) (m : M Link unit) : M Inbound unit := fun s =>
  match inbound_connections_ s !! slot with
  | None => None
  | Some c =>
      match m (mkLink c s) with
      | None => None
      | Some (_, l) =>
          Some (tt, (lk_server l) <| inbound_connections_ := <[slot := lk_conn l]> (inbound_connections_ (lk_server l)) |>)
      end
  end.

Definition on_tcp_event_ (ev : tcp_event) (stamps : InboundStamps) : M Inbound unit :=
  let conn := event_conn ev in
  with_connection (Z.to_nat (conn_slot conn))
    (match ev with
     | tcp_accepted _ =>
         on_conn (fun _ => mkInConn conn true false false 0 (st_recv_tsc stamps) (st_recv_tsc stamps) [])
     | _ =>
         c ← gets lk_conn;
         if bool_decide (ic_conn c <> conn) then mret tt else
         match ev with
         | tcp_data _ bytes =>
             if negb (ic_open c) || ic_closing c then mret tt else
             _ ← on_conn (fun c => c <| ic_last_recv_tsc := st_recv_tsc stamps |>);
             on_data_ (H := link_sink stamps) bytes
         | tcp_peer_closed _ | tcp_closed _ | tcp_reset _ => disconnect_
         | tcp_accepted _ => mret tt
         end
     end).

(** One connection of [check_timeouts_]. *)
Definition check_timeout (clock : TscClock) (now : Z) : M Link unit :=
  c ← gets lk_conn;
  if negb (ic_open c) then mret tt else
  let expired :=
    if ic_logged_in c
    then ticks_to_ns clock (u64 (now - Z.min now (ic_last_recv_tsc c))) >? kIdleTimeoutNs
    else ticks_to_ns clock (u64 (now - Z.min now (ic_opened_tsc c))) >? kLoginTimeoutNs in
  when expired disconnect_.

Definition check_timeouts_ (clock : TscClock) (now : Z) : M Inbound unit := fun s =>
  foldl (fun r slot => match r with None => None | Some (_, s) => with_connection slot (check_timeout clock now) s end)
    (Some (tt, s)) (seq 0 (length (inbound_connections_ s))).
End Handlers.

(** ** The invariant *)

(** Sessions and connections agree: a session is marked connected exactly while one
    open connection, and only one, is logged into it. *)
Record sessions_ok (conns : list InboundConnection) (sessions : list bool) : Prop := {
  so_conn i c : conns !! i = Some c -> ic_logged_in c = true ->
    ic_open c = true /\ sessions !! Z.to_nat (ic_client_id c) = Some true;
  so_exclusive i j ci cj : conns !! i = Some ci -> conns !! j = Some cj ->
    ic_logged_in ci = true -> ic_logged_in cj = true -> Z.to_nat (ic_client_id ci) = Z.to_nat (ic_client_id cj) -> i = j;
  so_connected n : sessions !! n = Some true ->
    exists i c, conns !! i = Some c /\ ic_logged_in c = true /\ Z.to_nat (ic_client_id c) = n;
}.

(** Client ids are handed out once each, and all the tables have room for them. *)
Record users_ok (s : Inbound) : Prop := {
  uo_sessions : length (inbound_sessions_ s) = 65%nat;
  uo_retained : length (retained_from_ s) = 65%nat;
  uo_next : 1 <= next_client_id_ s <= MAX_CLIENTS + 1;
  uo_range u c : usernames_ s !! u = Some c -> 1 <= c < next_client_id_ s;
  uo_inj u u' c : usernames_ s !! u = Some c -> usernames_ s !! u' = Some c -> u = u';
}.

(** Every recorded order has a side, so that a cancel can be translated. *)
Definition entry_sides (e : OrderEntry) : Prop :=
  map_Forall (fun _ lo => is_Some (to_engine_side (rec_side (lo_record lo)))) (entry_orders_ e).

Definition conn_pending (c : InboundConnection) : Prop :=
  ic_open c && negb (ic_closing c) = true -> pending_ok (ic_partial c) /\ Forall is_u8 (ic_partial c).

Record in_inv (s : Inbound) : Prop := {
  ii_users : users_ok s;
  ii_sides : entry_sides (order_entry_ s);
  ii_sessions : sessions_ok (inbound_connections_ s) (inbound_sessions_ s);
  ii_pending : Forall conn_pending (inbound_connections_ s);
}.

(** *** Sessions *)

Lemma sessions_ok_same conns sessions slot c c' :
  sessions_ok conns sessions -> conns !! slot = Some c -> ic_logged_in c' = ic_logged_in c ->
  ic_client_id c' = ic_client_id c -> ic_open c' = ic_open c -> sessions_ok (<[slot := c']> conns) sessions.
Proof.
  intros [Hc He Hs] Hslot Hl Hid Ho.
  assert (forall i d, <[slot := c']> conns !! i = Some d -> exists d', conns !! i = Some d' /\
    ic_logged_in d = ic_logged_in d' /\ ic_client_id d = ic_client_id d' /\ ic_open d = ic_open d') as Hback.
  { intros i d [(<- & <- & _)|(Hne & E)]%list_lookup_insert_Some; [by exists c|by exists d]. }
  split.
  - intros i d (d' & E & Hd1 & Hd2 & Hd3)%Hback Hlog. rewrite Hd2, Hd3. apply (Hc i); congruence.
  - intros i j d1 d2 (d1' & E1 & Ha1 & Hb1 & _)%Hback (d2' & E2 & Ha2 & Hb2 & _)%Hback H1 H2 Heq.
    apply (He i j d1' d2'); congruence.
  - intros n (i & d & Hi & Hd & Hn)%Hs. destruct (decide (i = slot)) as [->|Hne].
    + exists slot, c'. rewrite list_lookup_insert_eq by (by eapply lookup_lt_Some). split; [done|]. split; congruence.
    + exists i, d. by rewrite list_lookup_insert_ne.
Qed.

Lemma sessions_ok_login conns sessions slot c c' :
  sessions_ok conns sessions -> conns !! slot = Some c -> ic_logged_in c = false -> ic_open c' = true ->
  sessions !! Z.to_nat (ic_client_id c') = Some false -> ic_logged_in c' = true ->
  sessions_ok (<[slot := c']> conns) (<[Z.to_nat (ic_client_id c') := true]> sessions).
Proof.
  intros [Hc He Hs] Hslot Hl Ho Hfree Hl'. set (n := Z.to_nat (ic_client_id c')) in *.
  pose proof (lookup_lt_Some _ _ _ Hfree) as Hlt. split.
  - intros i d [(<- & <- & _)|(Hne & E)]%list_lookup_insert_Some Hd.
    + split; [done|]. by apply list_lookup_insert_eq.
    + destruct (Hc i d E Hd) as [? Ht]. split; [done|]. destruct (decide (n = Z.to_nat (ic_client_id d))) as [En|?];
        [rewrite <- En in Ht; congruence|by rewrite list_lookup_insert_ne].
  - intros i j d1 d2 [(<- & <- & _)|(Hne1 & E1)]%list_lookup_insert_Some [(<- & <- & _)|(Hne2 & E2)]%list_lookup_insert_Some
      H1 H2 Heq; [done|..|by eapply He].
    + destruct (Hc _ _ E2 H2) as [_ Ht]. fold n in Heq. rewrite <- Heq in Ht. congruence.
    + destruct (Hc _ _ E1 H1) as [_ Ht]. fold n in Heq. rewrite Heq in Ht. congruence.
  - intros m [(<- & _ & _)|(Hne & E)]%list_lookup_insert_Some.
    + exists slot, c'. split; [apply list_lookup_insert_eq; by eapply lookup_lt_Some|done].
    + destruct (Hs m E) as (i & d & Hi & Hd & Hm). exists i, d. split; [|done].
      rewrite list_lookup_insert_ne; [done|]. intros ->. congruence.
Qed.

Lemma sessions_ok_logout conns sessions slot c c' :
  sessions_ok conns sessions -> conns !! slot = Some c -> ic_logged_in c = true -> ic_logged_in c' = false ->
  sessions_ok (<[slot := c']> conns) (<[Z.to_nat (ic_client_id c) := false]> sessions).
Proof.
  intros [Hc He Hs] Hslot Hl Hl'. set (n := Z.to_nat (ic_client_id c)) in *.
  destruct (Hc slot c Hslot Hl) as [_ Ht]. pose proof (lookup_lt_Some _ _ _ Ht) as Hlt. split.
  - intros i d [(<- & <- & _)|(Hne & E)]%list_lookup_insert_Some Hd; [congruence|].
    destruct (Hc i d E Hd) as [? Hi]. split; [done|]. rewrite list_lookup_insert_ne; [done|].
    intros Hn. apply Hne. exact (He slot i c d Hslot E Hl Hd Hn).
  - intros i j d1 d2 [(<- & <- & _)|(Hne1 & E1)]%list_lookup_insert_Some [(<- & <- & _)|(Hne2 & E2)]%list_lookup_insert_Some
      H1 H2 Heq; [congruence..|by eapply He].
  - intros m [(_ & E & _)|(Hne & E)]%list_lookup_insert_Some; [done|].
    destruct (Hs m E) as (i & d & Hi & Hd & Hm). exists i, d. split; [|done].
    rewrite list_lookup_insert_ne; [done|]. intros ->. apply Hne. unfold n. congruence.
Qed.

(** A new connection in a slot whose last one is over. *)
Lemma sessions_ok_accept conns sessions slot c c' :
  sessions_ok conns sessions -> conns !! slot = Some c -> ic_open c = false -> ic_logged_in c' = false ->
  sessions_ok (<[slot := c']> conns) sessions.
Proof.
  intros [Hc He Hs] Hslot Ho Hl'. split.
  - intros i d [(<- & <- & _)|(Hne & E)]%list_lookup_insert_Some Hd; [congruence|by eapply Hc].
  - intros i j d1 d2 [(<- & <- & _)|(Hne1 & E1)]%list_lookup_insert_Some [(<- & <- & _)|(Hne2 & E2)]%list_lookup_insert_Some
      H1 H2 Heq; [congruence..|by eapply He].
  - intros m (i & d & Hi & Hd & Hm)%Hs. exists i, d. split; [|done]. rewrite list_lookup_insert_ne; [done|].
    intros ->. destruct (Hc i d Hi Hd). congruence.
Qed.

(** *** Nothing but [disconnect_] and the reassembler touches the partial packet *)

Definition keeps {A} (m : M Link A) : Prop :=
  forall l a l', m l = Some (a, l') -> ic_partial (lk_conn l') = ic_partial (lk_conn l).

Create HintDb keeps.

Lemma keeps_bind {A B} (m : M Link A) (k : A -> M Link B) : keeps m -> (forall a, keeps (k a)) -> keeps (m ≫= k).
Proof.
  intros Hm Hk l b l' E. unfold mbind, M_bind in E. destruct (m l) as [[a l1]|] eqn:E1; [|done].
  rewrite (Hk a l1 b l' E). by apply (Hm l a).
Qed.

Lemma keeps_ret {A} (a : A) : keeps (mret a).
Proof. intros l b l' [= _ <-]. done. Qed.

Lemma keeps_gets {A} (f : Link -> A) : keeps (gets f).
Proof. intros l b l' [= _ <-]. done. Qed.

Lemma keeps_lift {A} (o : option A) : keeps (lift o).
Proof. intros l b l'. unfold lift. destruct o; [|done]. intros [= _ <-]. done. Qed.

Lemma keeps_on_server f : keeps (on_server f).
Proof. intros l b l' [= _ <-]. done. Qed.

Lemma keeps_on_conn f : (forall c, ic_partial (f c) = ic_partial c) -> keeps (on_conn f).
Proof. intros Hf l b l' [= _ <-]. apply Hf. Qed.

Lemma keeps_when b m : keeps m -> keeps (when b m).
Proof. intros H. destruct b; [done|apply keeps_ret]. Qed.

Lemma keeps_set_connected client_id b : keeps (set_connected client_id b).
Proof. intros l a l'. unfold set_connected. destruct (_ !! _); [|done]. apply keeps_on_server. Qed.

#[export] Hint Resolve keeps_bind keeps_ret keeps_gets keeps_lift keeps_on_server keeps_when keeps_set_connected : keeps.
#[export] Hint Extern 1 (keeps (on_conn _)) => (apply keeps_on_conn; reflexivity) : keeps.

Lemma keeps_push_note note : keeps (push_note_ note).
Proof. apply keeps_on_server. Qed.
#[export] Hint Resolve keeps_push_note : keeps.

Lemma keeps_reject reason : keeps (reject_login_ reason).
Proof. unfold reject_login_. auto 10 with keeps. Qed.
#[export] Hint Resolve keeps_reject : keeps.

Lemma keeps_login payload : keeps (login_ payload).
Proof.
  unfold login_. destruct (decode_soup_login_request payload); [|auto with keeps].
  cbv zeta. destruct (bool_decide _ && bool_decide _ && bool_decide _); [auto with keeps|].
  destruct (normalize_username _) as [username blank]. destruct blank; [auto with keeps|]. apply keeps_bind.
  { unfold client_of. apply keeps_bind; [auto with keeps|]. intros [|]; [auto with keeps|].
    apply keeps_bind; [auto with keeps|]. intros next. destruct (_ <=? _); auto with keeps. }
  intros [client_id|]; [|auto with keeps]. apply keeps_bind; [auto with keeps|]. intros []; [auto with keeps|].
  apply keeps_bind; [auto with keeps|]. intros retained. destruct (negb _ && _); [auto with keeps|].
  apply keeps_bind; [auto with keeps|]. intros _. apply keeps_bind; [apply keeps_on_conn; done|]. auto with keeps.
Qed.

Section Laws.
Context (rdtsc : nat -> Z).

Lemma keeps_handle_ouch client_id msg stamps : keeps (handle_ouch_ rdtsc client_id msg stamps).
Proof.
  assert (forall m, keeps (run_translate client_id m)) as Ht.
  { intros m l a l'. unfold run_translate. destruct (translate _ _ _) as [[t e]|]; [|done]. intros [= _ <-]. done. }
  assert (keeps (read_tsc rdtsc)) as Hr by (intros l a l' [= _ <-]; done).
  unfold handle_ouch_. destruct msg; [auto with keeps|..]; (apply keeps_bind; [apply Ht|]); intros t;
    (apply keeps_bind; [destruct (tr_note t); auto with keeps|]); intros _;
    (destruct (tr_request t); [|auto with keeps]); (apply keeps_bind; [exact Hr|]); auto with keeps.
Qed.

Lemma disconnect_partial l l' :
  disconnect_ l = Some (tt, l') -> ic_partial (lk_conn l) = [] -> ic_partial (lk_conn l') = [].
Proof.
  unfold disconnect_. rewrite gets_bind. destruct (negb (ic_open (lk_conn l))); [by intros [= <-]|].
  unfold mbind, M_bind. destruct (when _ _ l) as [[[] l1]|]; [|done]. intros [= <-] _. done.
Qed.

Lemma disconnect_over l l' :
  disconnect_ l = Some (tt, l') -> ic_open (lk_conn l') && negb (ic_closing (lk_conn l')) = false.
Proof.
  unfold disconnect_. rewrite gets_bind. destruct (ic_open (lk_conn l)) eqn:E; cbn [negb].
  - unfold mbind, M_bind. destruct (when _ _ l) as [[[] l1]|]; [|done]. intros [= <-]. done.
  - intros [= <-]. by rewrite E.
Qed.

#[export] Instance link_sink_laws stamps : PacketSinkLaws (H := link_sink rdtsc stamps) Link.
Proof.
  split; cbn [partial set_partial taking_input handle_packet disconnect link_sink].
  - done.
  - done.
  - by intros [[] s].
  - done.
  - intros packet l b l' E Hp. unfold handle_soup_packet_ in E. rewrite gets_bind in E. apply bind_inv in E as ([] & l1 & E1 & E).
    injection E as <- <-. split; [done|]. destruct (_ =? SOUP_LOGIN_REQUEST); [|destruct (_ =? SOUP_UNSEQUENCED_DATA); [|destruct (_ =? SOUP_LOGOUT_REQUEST)]].
    + rewrite (keeps_when _ _ (keeps_login _) _ _ _ E1). done.
    + rewrite (keeps_when _ _ (keeps_bind _ _ (keeps_lift _) (fun msg => keeps_handle_ouch _ msg stamps)) _ _ _ E1).
      done.
    + by apply (disconnect_partial l l1 E1).
    + by injection E1 as <-.
  - intros l l'. apply disconnect_over.
Qed.
End Laws.

(** *** Each handler keeps the invariant and returns *)

Section LinkInvariant.
Context (slot : nat) (conns : list InboundConnection) (Hslot : (slot < length conns)%nat).

(** The server while a handler holds the connection of [slot]. *)
Record link_ok (l : Link) : Prop := {
  lo_conns : inbound_connections_ (lk_server l) = conns;
  lo_users : users_ok (lk_server l);
  lo_sides : entry_sides (order_entry_ (lk_server l));
  lo_sessions : sessions_ok (<[slot := lk_conn l]> conns) (inbound_sessions_ (lk_server l));
}.

(** [m] returns, and in a state of the server that is fine. *)
Definition returns_ok {A} (m : M Link A) (l : Link) : Prop := exists a l', m l = Some (a, l') /\ link_ok l'.

Lemma held_conn c : <[slot := c]> conns !! slot = Some c.
Proof. by apply list_lookup_insert_eq. Qed.

Lemma link_ok_conn l c :
  link_ok l -> ic_logged_in c = ic_logged_in (lk_conn l) -> ic_client_id c = ic_client_id (lk_conn l) ->
  ic_open c = ic_open (lk_conn l) -> link_ok (l <| lk_conn := c |>).
Proof.
  intros [? ? ? Hs] H1 H2 H3. split; try done. cbn [lk_conn lk_server]. rewrite <- (list_insert_insert_eq conns slot c (lk_conn l)).
  eapply sessions_ok_same; [exact Hs|apply held_conn|done..].
Qed.

Lemma link_ok_note note l :
  link_ok l -> link_ok (l <| lk_server := (lk_server l) <| notes_pushed := notes_pushed (lk_server l) ++ [note] |> |>).
Proof. intros [? [? ? ? ? ?] ? ?]. by split. Qed.

Lemma reject_login_ok reason l : link_ok l -> returns_ok (reject_login_ reason) l.
Proof. intros H. eexists _, _. split; [done|]. by apply link_ok_note, link_ok_conn. Qed.

Lemma disconnect_ok l : link_ok l -> returns_ok disconnect_ l.
Proof.
  intros H. unfold returns_ok, disconnect_. rewrite gets_bind. destruct (ic_open (lk_conn l)) eqn:Eo; cbn [negb].
  2: { by eexists _, _. }
  destruct H as [Hc Hu Hsd Hs]. destruct (ic_logged_in (lk_conn l)) eqn:El; cbn [when].
  - destruct (so_conn _ _ Hs slot _ (held_conn _) El) as [_ Ht]. unfold mbind, M_bind, set_connected. rewrite Ht.
    eexists _, _. split; [done|]. destruct Hu as [Hu1 ? ? ? ?]. split; try done.
    + split; try done. cbn. by rewrite length_insert.
    + cbn [lk_conn lk_server inbound_sessions_]. rewrite <- (list_insert_insert_eq conns slot _ (lk_conn l)).
      eapply sessions_ok_logout; [exact Hs|apply held_conn|done|done].
  - eexists _, _. split; [done|]. split; try done; [by destruct Hu|].
    cbn [lk_conn lk_server inbound_sessions_]. rewrite <- (list_insert_insert_eq conns slot _ (lk_conn l)).
    destruct Hs as [Hs1 Hs2 Hs3]. split.
    + intros i d [(<- & <- & _)|(Hne & E)]%list_lookup_insert_Some Hd; [done|by eapply Hs1].
    + intros i j d1 d2 [(<- & <- & _)|(Hne1 & E1)]%list_lookup_insert_Some [(<- & <- & _)|(Hne2 & E2)]%list_lookup_insert_Some
        H1 H2 Heq; [done..|by eapply Hs2].
    + intros m (i & d & Hi & Hd & Hm)%Hs3. exists i, d. split; [|done]. rewrite list_lookup_insert_ne; [done|].
      intros <-. rewrite held_conn in Hi. congruence.
Qed.

(** The client id of a username is one of the table's, and users stay apart. *)
Lemma client_of_ok username l :
  link_ok l -> exists id l', client_of username l = Some (id, l') /\ link_ok l' /\ lk_conn l' = lk_conn l /\
    inbound_sessions_ (lk_server l') = inbound_sessions_ (lk_server l) /\
    match id with None => True | Some id => 1 <= id <= MAX_CLIENTS end.
Proof.
  intros H. pose proof H as [Hc [Hu1 Hu2 Hu3 Hu4 Hu5] Hsd Hs]. unfold client_of. rewrite gets_bind.
  destruct (usernames_ (lk_server l) !! username) as [id|] eqn:E.
  { exists (Some id), l. split; [done|]. split; [exact H|]. split; [done|]. split; [done|]. pose proof (Hu4 _ _ E). lia. }
  rewrite gets_bind. destruct (_ <=? _) eqn:En; zbool.
  - eexists _, _. split; [done|]. assert (u32 (next_client_id_ (lk_server l) + 1) = next_client_id_ (lk_server l) + 1) as Hn
      by (apply u32_id; unfold MAX_CLIENTS in *; ulia).
    split; [|split; [done|split; [done|lia]]]. split; try done. split; cbn [inbound_sessions_ retained_from_ next_client_id_ usernames_ lk_server]; try done.
    + rewrite Hn. lia.
    + intros u c. rewrite Hn. intros [(<- & <-)|(_ & Hc')]%lookup_insert_Some; [lia|]. pose proof (Hu4 _ _ Hc'). lia.
    + intros u u' c [(<- & <-)|(_ & H1)]%lookup_insert_Some [(<- & ?)|(_ & H2)]%lookup_insert_Some; [done|..|by eapply Hu5].
      * pose proof (Hu4 _ _ H2). lia.
      * subst. pose proof (Hu4 _ _ H1). lia.
  - by exists None, l.
Qed.

(** The last step of a login: the session is free. *)
Lemma accept_login_ok id sequence l :
  link_ok l -> ic_logged_in (lk_conn l) = false -> ic_open (lk_conn l) = true ->
  inbound_sessions_ (lk_server l) !! Z.to_nat id = Some false ->
  returns_ok (_ ← set_connected id true;
    _ ← on_conn (fun c => mkInConn (ic_conn c) (ic_open c) true (ic_closing c) id (ic_opened_tsc c)
                          (ic_last_recv_tsc c) (ic_partial c));
    conn ← gets (fun l => ic_conn (lk_conn l));
    push_note_ (LOGIN_ACCEPTED id conn sequence)) l.
Proof.
  intros [Hc Hu Hsd Hs] Hl Ho Hf. unfold returns_ok, mbind, M_bind, set_connected. rewrite Hf. eexists _, _. split; [done|].
  apply link_ok_note. destruct Hu. split; cbn [lk_conn lk_server inbound_connections_ inbound_sessions_ order_entry_]; [done| |done|].
  - split; try done. cbn [inbound_sessions_]. by rewrite length_insert.
  - rewrite <- (list_insert_insert_eq conns slot _ (lk_conn l)).
    eapply sessions_ok_login; [exact Hs|apply held_conn|done..].
Qed.

Lemma login_ok payload l :
  link_ok l -> ic_logged_in (lk_conn l) = false -> ic_open (lk_conn l) = true -> returns_ok (login_ payload) l.
Proof.
  intros H Hl Ho. unfold login_. destruct (decode_soup_login_request payload); [|by apply reject_login_ok]. cbv zeta.
  destruct (bool_decide _ && bool_decide _ && bool_decide _); [by apply reject_login_ok|].
  destruct (normalize_username _) as [username []]; [by apply reject_login_ok|].
  destruct (client_of_ok username l H) as (id & l1 & E & H1 & Hconn & _ & Hid). unfold returns_ok.
  rewrite (bind_Some _ _ _ _ _ E). destruct id as [id|]; [|by apply reject_login_ok].
  assert (forall (t : list bool), length t = 65%nat -> is_Some (t !! Z.to_nat id)) as Hb
    by (intros t Ht; apply lookup_lt_is_Some; unfold MAX_CLIENTS in Hid; lia).
  assert (forall (t : list Z), length t = 65%nat -> is_Some (t !! Z.to_nat id)) as Hz
    by (intros t Ht; apply lookup_lt_is_Some; unfold MAX_CLIENTS in Hid; lia).
  destruct (Hb _ (uo_sessions _ (lo_users _ H1))) as [connected Ec]. destruct (Hz _ (uo_retained _ (lo_users _ H1))) as [retained Er].
  rewrite bind_bind, gets_bind, (lift_bind _ _ _ _ Ec). destruct connected; [by apply reject_login_ok|].
  rewrite bind_bind, gets_bind, (lift_bind _ _ _ _ Er). destruct (negb _ && _); [by apply reject_login_ok|].
  apply accept_login_ok; [done|by rewrite Hconn..|done].
Qed.

Lemma check_enter_side m band : ec_reject_reason (check_enter m band) = 0 -> is_Some (to_engine_side (eo_side m)).
Proof. unfold check_enter. by destruct (to_engine_side (eo_side m)). Qed.

(** Translating never finds an order without a side, whatever the message. *)
Lemma translate_sides client_id msg e :
  entry_sides e -> exists t e', translate client_id msg e = Some (t, e') /\ entry_sides e'.
Proof.
  intros H. assert (forall k o e', entry_orders_ e' = entry_orders_ e -> is_Some (to_engine_side (rec_side (lo_record o))) ->
    exists u e2, emplace_order k o e' = Some (u, e2) /\ entry_sides e2) as Hemp.
  { intros k o e' He Ho. unfold emplace_order, modify. eexists _, _. split; [done|]. unfold entry_sides. rewrite He.
    destruct (entry_orders_ e !! k); cbn [entry_orders_]; [by rewrite He|by apply map_Forall_insert_2]. }
  destruct msg as [|m|m|m]; cbn [translate].
  - by exists no_translation, e.
  - unfold entry_enter, mbind, M_bind, client_at. case_if; [by eexists _, _|]. unfold set_last, modify, gets.
    case_if; [by eexists _, _|]. unfold take_order_id.
    match goal with |- context [emplace_order ?k ?o ?e0] => destruct (Hemp k o e0) as (u & e2 & E2 & H2) end; [done| |].
    { zbool. by eapply check_enter_side. }
    rewrite E2. by eexists _, _.
  - unfold entry_replace, mbind, M_bind, gets. destruct (entry_orders_ e !! _) as [lo|] eqn:E; [|by eexists _, _].
    unfold client_at. case_if; [by eexists _, _|]. destruct (H _ _ E) as [side Hside]. unfold lift. rewrite Hside.
    cbn [fmap option_fmap option_map]. case_if; [by eexists _, _|]. unfold set_last, modify, take_order_id.
    match goal with |- context [emplace_order ?k ?o ?e0] => destruct (Hemp k o e0) as (u & e2 & E2 & H2) end; [done|by exists side|].
    rewrite E2. by eexists _, _.
  - unfold entry_cancel, mbind, M_bind, gets. destruct (entry_orders_ e !! _) as [lo|] eqn:E; [|by eexists _, _].
    destruct (H _ _ E) as [side Hside]. unfold lift. rewrite Hside. by eexists _, _.
Qed.

Context (rdtsc : nat -> Z).

Lemma handle_ouch_ok client_id msg stamps l : link_ok l -> returns_ok (handle_ouch_ rdtsc client_id msg stamps) l.
Proof.
  intros H. assert (forall m, exists t l1, run_translate client_id m l = Some (t, l1) /\ link_ok l1) as Ht.
  { intros m. unfold run_translate. destruct (translate_sides client_id m _ (lo_sides _ H)) as (t & e & -> & He).
    eexists t, _. split; [done|]. destruct H as [? [? ? ? ? ?] ? ?]. by split. }
  assert (forall t l1, link_ok l1 -> returns_ok (
    _ ← match tr_note t with Some note => push_note_ (GATEWAY client_id note) | None => mret tt end;
    match tr_request t with
    | Some request =>
        push_tsc ← read_tsc rdtsc;
        on_server (push_request (stamp_request stamps push_tsc request))
    | None => mret tt
    end) l1) as Hrest.
  { intros t l1 H1. destruct (tr_note t) as [note|]; (destruct (tr_request t) as [rq|]; [|]);
      eexists _, _; (split; [done|]); try exact H1; try (by apply link_ok_note);
      destruct H1 as [? [? ? ? ? ?] ? ?]; by split. }
  unfold handle_ouch_, returns_ok. destruct msg; [by exists tt, l|..];
    match goal with |- context [run_translate _ ?m] => destruct (Ht m) as (t & l1 & E & H1) end;
    rewrite (bind_Some _ _ _ _ _ E); by apply Hrest.
Qed.

Lemma handle_packet_ok stamps packet l :
  link_ok l -> ic_open (lk_conn l) && negb (ic_closing (lk_conn l)) = true -> Forall is_u8 (soup_payload packet) ->
  returns_ok (handle_soup_packet_ rdtsc stamps packet) l.
Proof.
  intros H Ht Hu. apply andb_true_iff in Ht as [Ho _]. unfold handle_soup_packet_, returns_ok. rewrite gets_bind.
  match goal with |- context [?m ≫= (fun _ => gets ?f)] => enough (returns_ok m l) as (? & l' & E & H');
    [rewrite (bind_Some _ _ _ _ _ E); by eexists _, _|] end.
  destruct (_ =? SOUP_LOGIN_REQUEST); [|destruct (_ =? SOUP_UNSEQUENCED_DATA); [|destruct (_ =? SOUP_LOGOUT_REQUEST)]].
  - destruct (ic_logged_in (lk_conn l)) eqn:El; cbn [negb when]; [by exists tt, l|]. by apply login_ok.
  - destruct (ic_logged_in (lk_conn l)); cbn [when]; [|by exists tt, l].
    destruct (decode_inbound_shape _ Hu) as (msg & E & _). unfold returns_ok. rewrite (lift_bind _ _ _ _ E).
    by apply handle_ouch_ok.
  - by apply disconnect_ok.
  - by exists tt, l.
Qed.
End LinkInvariant.

(** *** Events *)

Section Events.
Context (rdtsc : nat -> Z).

Lemma link_ok_of s slot c :
  in_inv s -> inbound_connections_ s !! slot = Some c -> link_ok slot (inbound_connections_ s) (mkLink c s).
Proof. intros [? ? ? ?] E. split; try done. cbn [lk_conn lk_server]. by rewrite list_insert_id. Qed.

(** Running a handler on the connection of a slot. *)
Lemma with_connection_ok s slot c (m : M Link unit) l' :
  in_inv s -> inbound_connections_ s !! slot = Some c -> m (mkLink c s) = Some (tt, l') ->
  link_ok slot (inbound_connections_ s) l' -> conn_pending (lk_conn l') ->
  exists s', with_connection slot m s = Some (tt, s') /\ in_inv s' /\ length (inbound_connections_ s') = length (inbound_connections_ s).
Proof.
  intros [? ? ? Hp] E Em [Hc [? ? ? ? ?] ? ?] Hp'. unfold with_connection. rewrite E, Em. eexists. split; [done|].
  split; [|cbn [inbound_connections_]; by rewrite Hc, length_insert].
  split; cbn [inbound_connections_ inbound_sessions_ order_entry_]; [by split|done|by rewrite Hc|].
  rewrite Hc. by apply Forall_insert.
Qed.

Lemma disconnect_event_ok s slot c :
  in_inv s -> inbound_connections_ s !! slot = Some c ->
  exists s', with_connection slot disconnect_ s = Some (tt, s') /\ in_inv s' /\ length (inbound_connections_ s') = length (inbound_connections_ s).
Proof.
  intros H E. pose proof (lookup_lt_Some _ _ _ E) as Hlt. destruct (disconnect_ok slot _ Hlt _ (link_ok_of _ _ _ H E)) as ([] & l' & El & Hl).
  eapply with_connection_ok; try done. intros Ht. by rewrite (disconnect_over _ _ El) in Ht.
Qed.

(** Handlers that read the connection first. *)
Lemma with_connection_gets slot (k : InboundConnection -> M Link unit) s c :
  inbound_connections_ s !! slot = Some c ->
  with_connection slot (c ← gets lk_conn; k c) s = with_connection slot (k c) s.
Proof. intros E. unfold with_connection. by rewrite E. Qed.

Lemma with_connection_ret slot s c :
  inbound_connections_ s !! slot = Some c -> with_connection slot (mret tt) s = Some (tt, s).
Proof. intros E. unfold with_connection. rewrite E. cbn. rewrite list_insert_id by done. by destruct s. Qed.

(** What TCP may deliver: events of its slots, bytes, and a new connection only in a
    slot whose last one is over. *)
Definition tcp_delivers (s : Inbound) (ev : tcp_event) : Prop :=
  exists c, inbound_connections_ s !! Z.to_nat (conn_slot (event_conn ev)) = Some c /\
  match ev with
  | tcp_accepted _ => ic_open c = false
  | tcp_data _ bytes => Forall is_u8 bytes
  | _ => True
  end.

Lemma data_event_ok s slot c stamps bytes :
  in_inv s -> inbound_connections_ s !! slot = Some c -> Forall is_u8 bytes ->
  ic_open c && negb (ic_closing c) = true ->
  exists s', with_connection slot
    (_ ← on_conn (fun c => c <| ic_last_recv_tsc := st_recv_tsc stamps |>); on_data_ (H := link_sink rdtsc stamps) bytes) s
    = Some (tt, s') /\ in_inv s' /\ length (inbound_connections_ s') = length (inbound_connections_ s).
Proof.
  intros H E Hb Ht. pose proof (lookup_lt_Some _ _ _ E) as Hlt. set (conns := inbound_connections_ s) in *.
  set (c1 := c <| ic_last_recv_tsc := st_recv_tsc stamps |>). set (l1 := mkLink c1 s).
  assert (link_ok slot conns l1) as H1 by (exact (link_ok_conn slot conns Hlt (mkLink c s) c1 (link_ok_of _ _ _ H E) eq_refl eq_refl eq_refl)).
  destruct (proj1 (Forall_lookup _ _) (ii_pending _ H) slot c E Ht) as [Hp Hu].
  destruct (on_data_inv (H := link_sink rdtsc stamps) (link_ok slot conns)) with (b := bytes) (s := l1) as (l' & El & Hl' & Hpend).
  - intros p l Hl. by apply link_ok_conn.
  - intros packet l Hl Htk Hpay. by apply handle_packet_ok.
  - intros l Hl. destruct (disconnect_ok slot conns Hlt l Hl) as ([] & l' & ? & ?). by exists l'.
  - done.
  - done.
  - done.
  - done.
  - done.
  - eapply with_connection_ok; [done|exact E|exact El|done|exact Hpend].
Qed.

Lemma on_tcp_event_ok s ev stamps :
  in_inv s -> tcp_delivers s ev ->
  exists s', on_tcp_event_ rdtsc ev stamps s = Some (tt, s') /\ in_inv s' /\
    length (inbound_connections_ s') = length (inbound_connections_ s).
Proof.
  intros H (c & E & Hev). unfold on_tcp_event_. set (slot := Z.to_nat _) in *.
  assert (forall (m : M Link unit), (exists s', with_connection slot m s = Some (tt, s') /\ in_inv s' /\
      length (inbound_connections_ s') = length (inbound_connections_ s)) ->
    exists s', with_connection slot (c ← gets lk_conn; if bool_decide (ic_conn c <> event_conn ev) then mret tt else m) s = Some (tt, s') /\
      in_inv s' /\ length (inbound_connections_ s') = length (inbound_connections_ s)) as Hread.
  { intros m Hm. rewrite (with_connection_gets _ _ _ _ E). case_bool_decide; [|done].
    exists s. by rewrite (with_connection_ret _ _ _ E). }
  destruct ev as [conn|conn bytes|conn|conn|conn]; cbn [event_conn] in *; cbv zeta.
  - eapply (with_connection_ok s slot c _ (mkLink _ s)); [done|done|reflexivity| |].
    + pose proof (lookup_lt_Some _ _ _ E) as Hlt. destruct H. split; [done..|]. cbn [lk_conn lk_server].
      by eapply sessions_ok_accept.
    + intros _. split; [by left|constructor].
  - rewrite (with_connection_gets _ _ _ _ E). case_bool_decide.
    { exists s. by rewrite (with_connection_ret _ _ _ E). }
    destruct (negb (ic_open c) || ic_closing c) eqn:Et.
    { exists s. by rewrite (with_connection_ret _ _ _ E). }
    apply (data_event_ok s slot c); try done. by destruct (ic_open c), (ic_closing c).
  - apply Hread. by eapply disconnect_event_ok.
  - apply Hread. by eapply disconnect_event_ok.
  - apply Hread. by eapply disconnect_event_ok.
Qed.

Lemma check_timeout_ok clock now s slot :
  in_inv s -> (slot < length (inbound_connections_ s))%nat ->
  exists s', with_connection slot (check_timeout clock now) s = Some (tt, s') /\ in_inv s' /\
    length (inbound_connections_ s') = length (inbound_connections_ s).
Proof.
  intros H Hlt. destruct (lookup_lt_is_Some_2 _ _ Hlt) as [c E]. unfold check_timeout. rewrite (with_connection_gets _ _ _ _ E).
  destruct (negb (ic_open c)). { exists s. by rewrite (with_connection_ret _ _ _ E). }
  cbv zeta. match goal with |- context [when ?b _] => destruct b end; cbn [when].
  - by eapply disconnect_event_ok.
  - exists s. by rewrite (with_connection_ret _ _ _ E).
Qed.

Lemma check_timeouts_ok clock now s :
  in_inv s -> exists s', check_timeouts_ clock now s = Some (tt, s') /\ in_inv s' /\
    length (inbound_connections_ s') = length (inbound_connections_ s).
Proof.
  intros H. unfold check_timeouts_. set (n := length (inbound_connections_ s)).
  assert (forall slots s1, in_inv s1 -> length (inbound_connections_ s1) = n -> Forall (fun slot => slot < n)%nat slots ->
    exists s', foldl (fun r slot => match r with None => None | Some (_, s) => with_connection slot (check_timeout clock now) s end)
      (Some (tt, s1)) slots = Some (tt, s') /\ in_inv s' /\ length (inbound_connections_ s') = n) as Hloop.
  { induction slots as [|slot slots IH]; intros s1 H1 Hn Hs; [by exists s1|]. apply Forall_cons in Hs as [Hlt Hs].
    destruct (check_timeout_ok clock now s1 slot H1) as (s2 & E & H2 & Hn2); [lia|]. cbn [foldl]. rewrite E.
    apply IH; [done|lia|done]. }
  apply Hloop; [done|done|]. apply Forall_forall. intros i Hi%elem_of_seq. lia.
Qed.

(** ** Reachable states of the inbound thread

    Events, timeout scans, and the outbound thread moving a session's oldest held
    sequence number. *)

Inductive in_step : Inbound -> Inbound -> Prop :=
| in_event ev stamps s s' : tcp_delivers s ev -> on_tcp_event_ rdtsc ev stamps s = Some (tt, s') -> in_step s s'
| in_timeouts clock now s s' : check_timeouts_ clock now s = Some (tt, s') -> in_step s s'
| in_retained id sequence s : in_step s (s <| retained_from_ := <[id := sequence]> (retained_from_ s) |>).

Inductive in_reachable : Inbound -> Prop :=
| in_new band : in_reachable (Inbound_new band)
| in_next s s' : in_reachable s -> in_step s s' -> in_reachable s'.

Lemma Inbound_new_inv band : in_inv (Inbound_new band).
Proof.
  split.
  - split; cbn; try done; try lia; intros u; by rewrite ?lookup_empty.
  - apply map_Forall_empty.
  - split; cbn -[replicate].
    + intros i c [-> _]%lookup_replicate. done.
    + intros i j ci cj [-> _]%lookup_replicate. done.
    + intros n [? _]%lookup_replicate. done.
  - apply Forall_replicate. done.
Qed.

Lemma in_reachable_inv s : in_reachable s -> in_inv s.
Proof.
  induction 1 as [band|s s' _ IH Hs]; [apply Inbound_new_inv|]. destruct Hs as [ev stamps s s' Hev E|clock now s s' E|id sequence s].
  - destruct (on_tcp_event_ok s ev stamps IH Hev) as (s1 & E1 & H1 & _). congruence.
  - destruct (check_timeouts_ok clock now s IH) as (s1 & E1 & H1 & _). congruence.
  - destruct IH as [[? ? ? ? ?] ? ? ?]. split; try done. split; try done. cbn. by rewrite length_insert.
Qed.

(** ** Theorems *)

(** C36: A session has at most one connection: in every reachable state of the inbound
    thread, two open connections are never logged into the same session, each logged-in
    connection is open and its session is marked connected, a session marked connected
    has such a connection, and no two usernames share a client id. *)
Theorem one_connection_per_session s :
  in_reachable s -> sessions_ok (inbound_connections_ s) (inbound_sessions_ s) /\
  (forall u u' c, usernames_ s !! u = Some c -> usernames_ s !! u' = Some c -> u = u').
Proof. intros H. destruct (in_reachable_inv s H) as [Hu _ Hs _]. split; [done|]. apply Hu. Qed.

(** Input cannot break the inbound thread: from any reachable state, whatever bytes
    a segment holds, the event is handled to the end: no copy past the 512-byte buffer,
    no index outside a table, no order without a side.  So is every timeout scan. *)
Theorem inbound_never_faults s ev stamps clock now :
  in_reachable s -> tcp_delivers s ev ->
  (exists s', on_tcp_event_ rdtsc ev stamps s = Some (tt, s')) /\ (exists s', check_timeouts_ clock now s = Some (tt, s')).
Proof.
  intros H Hev. pose proof (in_reachable_inv s H) as HI. split.
  - destruct (on_tcp_event_ok s ev stamps HI Hev) as (s' & E & _). by exists s'.
  - destruct (check_timeouts_ok clock now s HI) as (s' & E & _). by exists s'.
Qed.

(** C37: Segmentation is invisible: a byte stream whose packets respect the limit is
    handled the same however TCP cuts it into segments; the connection, the sessions,
    the notes and the requests end up exactly as if it had come in one piece.  All
    segments carry the same time stamps here: where a packet ends decides whose stamps
    its request takes. *)
Theorem segmentation_invisible stamps segments segments' l :
  Forall is_u8 (concat segments) -> short_stream (concat segments) -> concat segments = concat segments' ->
  ic_partial (lk_conn l) = [] ->
  deliver_all (H := link_sink rdtsc stamps) segments l = deliver_all (H := link_sink rdtsc stamps) segments' l.
Proof.
  intros Hu Hs Heq Hp. destruct (taking_input (PacketSink := link_sink rdtsc stamps) l) eqn:Et.
  2: { by rewrite !deliver_all_over. }
  rewrite !deliver_all_reads; cbn [partial link_sink]; rewrite ?Hp; cbn [app]; rewrite <- ?Heq; try done; by left.
Qed.
End Events.

(** ** A client connects and logs in *)

Definition login_bytes : list Z := take 49 (encode_soup_login_request login_example (replicate 49 0)).2.
Definition example_conn : ConnId := mkConnId 0 1.
Definition example_stamps : InboundStamps := mkStamps 10 11.
Definition example_clock_reads : nat -> Z := Z.of_nat.
Definition example_band : PriceBand := mkPriceBand 1 100000.

Definition example_accepted_in : option (unit * Inbound) :=
  on_tcp_event_ example_clock_reads (tcp_accepted example_conn) example_stamps (Inbound_new example_band).

Definition example_logged_in : option (unit * Inbound) :=
  match example_accepted_in with
  | Some (_, s) => on_tcp_event_ example_clock_reads (tcp_data example_conn login_bytes) example_stamps s
  | None => None
  end.

Lemma login_bytes_u8 : Forall is_u8 login_bytes.
Proof.
  set (l := login_bytes). vm_compute in l. subst l.
  repeat (apply Forall_cons; split; [split; [discriminate|reflexivity]|]). apply Forall_nil_2.
Qed.

Lemma example_accepted_reachable :
  exists s, example_accepted_in = Some (tt, s) /\ in_reachable example_clock_reads s /\
    tcp_delivers s (tcp_data example_conn login_bytes).
Proof.
  destruct example_accepted_in as [[[] s]|] eqn:E; [|vm_compute in E; discriminate]. exists s. split; [reflexivity|]. split.
  - apply (in_next _ (Inbound_new example_band)); [apply in_new|].
    refine (in_event _ (tcp_accepted example_conn) example_stamps _ _ _ E).
    exists InboundConnection_new. split; reflexivity.
  - assert (inbound_connections_ s !! 0%nat = Some (mkInConn example_conn true false false 0 11 11 [])) as Hc
      by (vm_compute in E; injection E as <-; reflexivity).
    eexists. split; [exact Hc|exact login_bytes_u8].
Qed.

Lemma one_connection_per_session_witness :
  exists s, example_logged_in = Some (tt, s) /\ inbound_sessions_ s !! 1%nat = Some true /\
    sessions_ok (inbound_connections_ s) (inbound_sessions_ s).
Proof.
  destruct example_accepted_reachable as (s0 & E0 & H0 & Hev). unfold example_logged_in. rewrite E0.
  destruct (on_tcp_event_ example_clock_reads (tcp_data example_conn login_bytes) example_stamps s0) as [[[] s]|] eqn:E.
  - exists s. split; [reflexivity|]. split.
    + vm_compute in E0. injection E0 as <-. vm_compute in E. injection E as <-. reflexivity.
    + exact (proj1 (one_connection_per_session example_clock_reads s (in_next _ _ _ H0 (in_event _ _ _ _ _ Hev E)))).
  - exfalso. vm_compute in E0. injection E0 as <-. vm_compute in E. discriminate.
Defined.

Lemma inbound_never_faults_witness :
  exists s s', example_accepted_in = Some (tt, s) /\
    on_tcp_event_ example_clock_reads (tcp_data example_conn login_bytes) example_stamps s = Some (tt, s').
Proof.
  destruct example_accepted_reachable as (s & E & H & Hev).
  destruct (inbound_never_faults example_clock_reads s _ example_stamps (mkClock 0 0 0) 0 H Hev) as [[s' Hs'] _].
  exact (ex_intro _ s (ex_intro _ s' (conj E Hs'))).
Defined.

Lemma login_stream_short : short_stream login_bytes.
Proof. apply short_packet; [vm_compute; reflexivity|vm_compute; reflexivity|]. vm_compute. apply short_nil. Qed.

(** The login in one segment, or cut in the middle of its length field. *)
Lemma segmentation_invisible_witness :
  let l := mkLink (mkInConn example_conn true false false 0 11 11 []) (Inbound_new example_band) in
  deliver_all (H := link_sink example_clock_reads example_stamps) [take 1 login_bytes; drop 1 login_bytes] l =
  deliver_all (H := link_sink example_clock_reads example_stamps) [login_bytes] l.
Proof.
  assert (concat [take 1 login_bytes; drop 1 login_bytes] = login_bytes) as E
    by (cbn [concat]; rewrite app_nil_r; apply take_drop).
  apply (segmentation_invisible example_clock_reads example_stamps).
  - rewrite E. exact login_bytes_u8.
  - rewrite E. exact login_stream_short.
  - rewrite E. cbn [concat]. by rewrite app_nil_r.
  - reflexivity.
Defined.
