(* ===== verification/NoteProtocol.v ===== *)
(** * NoteProtocol: what the inbound thread promises the outbound thread
    ([Server::ServerNote], [src/exchange/server/include/server.hpp])

    The two threads share no connection table: the outbound thread learns of logins and
    disconnects from the notes alone.  A [Desk] is what a reader of the notes knows; the
    protocol says when a note may come.  A connection is announced once, in a slot that
    has none, and a session is logged into while nobody else is.  The inbound thread
    keeps to it whatever TCP delivers, as long as TCP never hands out the same
    connection twice. *)

From S2P Require Import Prelude Types WireCodec Clock OuchProto OuchCorrect Validation OrderEntry OuchTyped OuchResponder.
From S2P Require Import SoupProto Reassembly Pipeline Inbound.

(** ** The desk *)

Record Desk := mkDesk {
  dk_slots : gmap nat ConnId;      (** announced in a slot, and not over *)
  dk_sessions : gmap nat ConnId;   (** logged into a session *)
  dk_named : list ConnId;          (** every connection a note has named *)
}.

Definition Desk_new : Desk := mkDesk ∅ ∅ [].

Definition slot_of (conn : ConnId) : nat := Z.to_nat (conn_slot conn).

Definition desk_note (note : ServerNote) (d : Desk) : Desk :=
  match note with
  | GATEWAY _ _ => d
  | LOGIN_ACCEPTED id conn _ =>
      mkDesk (<[slot_of conn := conn]> (dk_slots d)) (<[Z.to_nat id := conn]> (dk_sessions d)) (conn :: dk_named d)
  | LOGIN_REJECTED _ conn => mkDesk (<[slot_of conn := conn]> (dk_slots d)) (dk_sessions d) (conn :: dk_named d)
  | DISCONNECTED id conn =>
      mkDesk (delete (slot_of conn) (dk_slots d))
        (if id =? 0 then dk_sessions d else delete (Z.to_nat id) (dk_sessions d)) (conn :: dk_named d)
  end.

(** A connection TCP can have handed out. *)
Definition conn_ok (conn : ConnId) : Prop :=
  0 <= conn_slot conn /\ (slot_of conn < kMaxConnections)%nat /\ conn_generation conn <> 0.

(** One nobody has heard of, in a free slot. *)
Definition conn_fresh (d : Desk) (conn : ConnId) : Prop :=
  conn_ok conn /\ dk_slots d !! slot_of conn = None /\ conn ∉ dk_named d.

Definition client_ok (id : Z) : Prop := 1 <= id <= MAX_CLIENTS.

Definition note_allowed (d : Desk) (note : ServerNote) : Prop :=
  match note with
  | GATEWAY id _ => client_ok id /\ is_Some (dk_sessions d !! Z.to_nat id)
  | LOGIN_ACCEPTED id conn sequence =>
      conn_fresh d conn /\ client_ok id /\ dk_sessions d !! Z.to_nat id = None /\ is_u64 sequence
  | LOGIN_REJECTED _ conn => conn_fresh d conn
  | DISCONNECTED id conn =>
      conn_ok conn /\ (forall x, dk_slots d !! slot_of conn = Some x -> x = conn) /\
      (id <> 0 -> dk_sessions d !! Z.to_nat id = Some conn) /\
      (forall n x, dk_sessions d !! n = Some x -> slot_of x = slot_of conn -> id <> 0 /\ n = Z.to_nat id)
  end.

(** What a note of the gateway carries: an order of the client, its members in range. *)
Definition gateway_ok (note : ServerNote) : Prop := match note with GATEWAY id g => note_typed id g | _ => True end.

(** Notes one after another, from an empty desk. *)
Inductive notes_obey : list ServerNote -> Desk -> Prop :=
| obey_none : notes_obey [] Desk_new
| obey_note notes note d : notes_obey notes d -> note_allowed d note -> notes_obey (notes ++ [note]) (desk_note note d).

Record desk_wf (d : Desk) : Prop := {
  dw_slots i x : dk_slots d !! i = Some x -> x ∈ dk_named d /\ conn_slot x = Z.of_nat i;
  dw_sessions n x : dk_sessions d !! n = Some x -> dk_slots d !! slot_of x = Some x;
}.

Lemma Desk_new_wf : desk_wf Desk_new.
Proof. split; intros i x; cbn; by rewrite lookup_empty. Qed.

Lemma desk_note_wf d note : desk_wf d -> note_allowed d note -> desk_wf (desk_note note d).
Proof.
  intros [Hs Hn] Hok. destruct note as [id g|id conn sequence|reason conn|id conn]; cbn [desk_note note_allowed] in *; [done|..].
  - destruct Hok as (([Hp [Hlt _]] & Hfree & Hnew) & _ & Hses & _). split; cbn [dk_slots dk_sessions dk_named].
    + intros i x [(<- & <-)|(Hne & E)]%lookup_insert_Some; [split; [left|unfold slot_of; lia]|]. destruct (Hs _ _ E). split; [by right|done].
    + intros n x [(<- & <-)|(Hne & E)]%lookup_insert_Some; [by rewrite lookup_insert_eq|]. pose proof (Hn _ _ E) as Hx.
      rewrite lookup_insert_ne; [done|]. congruence.
  - destruct Hok as ([Hp [Hlt _]] & Hfree & Hnew). split; cbn [dk_slots dk_sessions dk_named].
    + intros i x [(<- & <-)|(Hne & E)]%lookup_insert_Some; [split; [left|unfold slot_of; lia]|]. destruct (Hs _ _ E). split; [by right|done].
    + intros n x E. pose proof (Hn _ _ E) as Hx. rewrite lookup_insert_ne; [done|]. congruence.
  - destruct Hok as (_ & Hown & _ & Hses). split; cbn [dk_slots dk_sessions dk_named].
    + intros i x (Hne & E)%lookup_delete_Some. destruct (Hs _ _ E). split; [by right|done].
    + intros n x E. assert (dk_sessions d !! n = Some x /\ (id <> 0 -> n <> Z.to_nat id)) as [E' Hne].
      { destruct (Z.eqb_spec id 0); [by split|]. apply lookup_delete_Some in E as [? ?]. by split. }
      rewrite lookup_delete_ne; [by apply (Hn n)|]. intros Heq. destruct (Hses n x E' (eq_sym Heq)) as [Hid Hn']. by apply Hne.
Qed.

(** ** The inbound thread keeps to it

    [desk_ok]: the notes pushed so far obey the protocol and tell what the connection
    table says: who is open and who is logged in where.  A connection that is open and
    neither logged in nor turned away has not been announced. *)

Record desk_ok (conns : list InboundConnection) (notes : list ServerNote) (d : Desk) : Prop := {
  do_obey : notes_obey notes d;
  do_slots i x : dk_slots d !! i = Some x -> exists c, conns !! i = Some c /\ ic_open c = true /\ ic_conn c = x;
  do_sessions n x : dk_sessions d !! n = Some x -> exists i c, conns !! i = Some c /\ ic_logged_in c = true /\ ic_open c = true /\
    Z.to_nat (ic_client_id c) = n /\ ic_conn c = x;
  do_logged i c : conns !! i = Some c -> ic_logged_in c = true ->
    dk_sessions d !! Z.to_nat (ic_client_id c) = Some (ic_conn c) /\ client_ok (ic_client_id c) /\ ic_open c = true;
  do_conn i c : conns !! i = Some c -> ic_open c = true -> conn_ok (ic_conn c) /\ slot_of (ic_conn c) = i /\
    (ic_logged_in c = false -> ic_closing c = false -> dk_slots d !! i = None /\ ic_conn c ∉ dk_named d);
}.

Lemma desk_ok_same conns notes d slot c c' :
  desk_ok conns notes d -> conns !! slot = Some c -> ic_conn c' = ic_conn c -> ic_open c' = ic_open c ->
  ic_logged_in c' = ic_logged_in c -> ic_closing c' = ic_closing c -> ic_client_id c' = ic_client_id c ->
  desk_ok (<[slot := c']> conns) notes d.
Proof.
  intros [Ho Hs Hn Hl Hc] E H1 H2 H3 H4 H5. pose proof (lookup_lt_Some _ _ _ E) as Hlt. split; [done|..].
  - intros i x Ei. destruct (Hs i x Ei) as (e & Ee & ? & ?). destruct (decide (slot = i)) as [<-|Hne].
    + exists c'. rewrite list_lookup_insert_eq by done. rewrite E in Ee. injection Ee as <-. split; [done|]. split; congruence.
    + exists e. by rewrite list_lookup_insert_ne.
  - intros n x En. destruct (Hn n x En) as (i & e & Ee & ? & ? & ? & ?). destruct (decide (slot = i)) as [<-|Hne].
    + exists slot, c'. rewrite list_lookup_insert_eq by done. rewrite E in Ee. injection Ee as <-. split_and!; congruence.
    + exists i, e. by rewrite list_lookup_insert_ne.
  - intros i e [(<- & <- & _)|(Hne & Ee)]%list_lookup_insert_Some Hlog; [|by apply (Hl i)].
    rewrite H1, H2, H5. apply (Hl slot); [done|congruence].
  - intros i e [(<- & <- & _)|(Hne & Ee)]%list_lookup_insert_Some Hop; [|by apply Hc].
    rewrite H1, H3, H4. apply Hc; [done|congruence].
Qed.

(** A connection that nobody has heard of, in a slot whose last one is over. *)
Lemma desk_ok_accept conns sessions notes d slot c c' :
  desk_ok conns notes d -> sessions_ok conns sessions -> conns !! slot = Some c -> ic_open c = false ->
  conn_ok (ic_conn c') -> slot_of (ic_conn c') = slot -> ic_conn c' ∉ dk_named d -> ic_logged_in c' = false ->
  desk_ok (<[slot := c']> conns) notes d.
Proof.
  intros [Ho Hs Hn Hl Hc] Hso E Hop Hok Hslot Hnew Hlog. split; [done|..].
  - intros i x Ei. destruct (Hs i x Ei) as (e & Ee & ? & ?). exists e. rewrite list_lookup_insert_ne; [done|]. intros <-. congruence.
  - intros n x En. destruct (Hn n x En) as (i & e & Ee & Hle & ? & ? & ?). exists i, e. rewrite list_lookup_insert_ne; [done|].
    intros <-. congruence.
  - intros i e [(<- & <- & _)|(Hne & Ee)]%list_lookup_insert_Some Hle; [congruence|by apply (Hl i)].
  - intros i e [(<- & <- & _)|(Hne & Ee)]%list_lookup_insert_Some Hoe; [|by apply Hc]. split; [done|]. split; [done|]. intros _ _.
    split; [|done]. destruct (dk_slots d !! slot) as [x|] eqn:Ex; [|done]. destruct (Hs _ _ Ex) as (e & Ee & ? & _). congruence.
Qed.

(** A connection is announced as turned away. *)
Lemma desk_ok_reject conns notes d slot c c' reason :
  desk_ok conns notes d -> conns !! slot = Some c -> ic_open c = true -> ic_logged_in c = false -> ic_closing c = false ->
  ic_conn c' = ic_conn c -> ic_open c' = true -> ic_logged_in c' = false -> ic_closing c' = true ->
  desk_ok (<[slot := c']> conns) (notes ++ [LOGIN_REJECTED reason (ic_conn c)]) (desk_note (LOGIN_REJECTED reason (ic_conn c)) d).
Proof.
  intros H E Ho Hl Hcl Hc' Ho' Hl' Hcl'. pose proof (lookup_lt_Some _ _ _ E) as Hlt.
  destruct (do_conn _ _ _ H _ _ E Ho) as (Hok & Hslot & Hfresh). destruct (Hfresh Hl Hcl) as [Hfree Hnew].
  pose proof H as [Hob Hs Hn Hlg Hc]. split; [|cbn [desk_note dk_slots dk_sessions dk_named]..].
  - apply obey_note; [done|]. split; [done|]. by rewrite Hslot.
  - rewrite Hslot. intros i x [(<- & <-)|(Hne & Ei)]%lookup_insert_Some.
    + exists c'. by rewrite list_lookup_insert_eq.
    + destruct (Hs i x Ei) as (e & ? & ?). exists e. by rewrite list_lookup_insert_ne.
  - intros n x En. destruct (Hn n x En) as (i & e & Ee & Hle & ?). exists i, e. rewrite list_lookup_insert_ne; [done|]. intros <-. congruence.
  - intros i e [(<- & <- & _)|(Hne & Ee)]%list_lookup_insert_Some Hle; [congruence|by apply (Hlg i)].
  - intros i e [(<- & <- & _)|(Hne & Ee)]%list_lookup_insert_Some Hoe.
    + rewrite Hc'. split; [done|]. split; [done|]. intros _. congruence.
    + destruct (Hc i e Ee Hoe) as (Hk & Hsl & Hf). split; [done|]. split; [done|]. intros ? ?. destruct (Hf ltac:(done) ltac:(done)) as [? ?].
      rewrite Hslot, lookup_insert_ne by done. split; [done|]. intros [Heq|?]%elem_of_cons; [|done].
      apply Hne. rewrite <- Hslot, <- Hsl. by rewrite Heq.
Qed.

(** A connection is announced as logged into a session nobody is logged into. *)
Lemma desk_ok_login conns notes d slot c c' sequence :
  desk_ok conns notes d -> conns !! slot = Some c -> ic_open c = true -> ic_logged_in c = false -> ic_closing c = false ->
  ic_conn c' = ic_conn c -> ic_open c' = true -> ic_logged_in c' = true -> client_ok (ic_client_id c') -> is_u64 sequence ->
  (forall i e, conns !! i = Some e -> ic_logged_in e = true -> Z.to_nat (ic_client_id e) <> Z.to_nat (ic_client_id c')) ->
  let note := LOGIN_ACCEPTED (ic_client_id c') (ic_conn c) sequence in
  desk_ok (<[slot := c']> conns) (notes ++ [note]) (desk_note note d).
Proof.
  intros H E Ho Hl Hcl Hc' Ho' Hl' Hid Hseq Hnobody. pose proof (lookup_lt_Some _ _ _ E) as Hlt.
  destruct (do_conn _ _ _ H _ _ E Ho) as (Hok & Hslot & Hfresh). destruct (Hfresh Hl Hcl) as [Hfree Hnew].
  pose proof H as [Hob Hs Hn Hlg Hc]. assert (dk_sessions d !! Z.to_nat (ic_client_id c') = None) as Hsn.
  { destruct (dk_sessions d !! _) as [x|] eqn:Ex; [|done]. destruct (Hn _ _ Ex) as (i & e & Ee & Hle & _ & Hid' & _). by destruct (Hnobody i e Ee Hle). }
  split; [|cbn [desk_note dk_slots dk_sessions dk_named]..].
  - apply obey_note; [done|]. split; [|done]. split; [done|]. by rewrite Hslot.
  - rewrite Hslot. intros i x [(<- & <-)|(Hne & Ei)]%lookup_insert_Some.
    + exists c'. by rewrite list_lookup_insert_eq.
    + destruct (Hs i x Ei) as (e & ? & ?). exists e. by rewrite list_lookup_insert_ne.
  - intros n x [(<- & <-)|(Hne & En)]%lookup_insert_Some.
    + exists slot, c'. by rewrite list_lookup_insert_eq.
    + destruct (Hn n x En) as (i & e & Ee & Hle & ?). exists i, e. rewrite list_lookup_insert_ne; [done|]. intros <-. congruence.
  - intros i e [(<- & <- & _)|(Hne & Ee)]%list_lookup_insert_Some Hle.
    + rewrite lookup_insert_eq, Hc'. by split.
    + rewrite lookup_insert_ne; [by apply (Hlg i)|]. intros Heq. by apply (Hnobody i e Ee Hle).
  - intros i e [(<- & <- & _)|(Hne & Ee)]%list_lookup_insert_Some Hoe.
    + rewrite Hc'. split; [done|]. split; [done|]. congruence.
    + destruct (Hc i e Ee Hoe) as (Hk & Hsl & Hf). split; [done|]. split; [done|]. intros ? ?. destruct (Hf ltac:(done) ltac:(done)) as [? ?].
      rewrite Hslot, lookup_insert_ne by done. split; [done|]. intros [Heq|?]%elem_of_cons; [|done].
      apply Hne. rewrite <- Hslot, <- Hsl. by rewrite Heq.
Qed.

(** A connection is over; if it was logged in, so is its login. *)
Lemma desk_ok_disconnect conns notes d slot c c' :
  desk_ok conns notes d -> conns !! slot = Some c -> ic_open c = true -> ic_open c' = false -> ic_logged_in c' = false ->
  let note := DISCONNECTED (if ic_logged_in c then ic_client_id c else 0) (ic_conn c) in
  desk_ok (<[slot := c']> conns) (notes ++ [note]) (desk_note note d).
Proof.
  intros H E Ho Ho' Hl'. pose proof (lookup_lt_Some _ _ _ E) as Hlt. destruct (do_conn _ _ _ H _ _ E Ho) as (Hok & Hslot & _).
  pose proof H as [Hob Hs Hn Hlg Hc]. set (id := if ic_logged_in c then ic_client_id c else 0).
  assert (forall n x, dk_sessions d !! n = Some x -> slot_of x = slot -> ic_logged_in c = true /\ n = Z.to_nat (ic_client_id c)) as Hmine.
  { intros n x En Hx. destruct (Hn n x En) as (i & e & Ee & Hle & Hoe & Hid & Hconn). destruct (Hc i e Ee Hoe) as (_ & Hsl & _).
    rewrite Hconn, Hx in Hsl. rewrite <- Hsl, E in Ee. injection Ee as <-. done. }
  split; [|cbn [desk_note dk_slots dk_sessions dk_named]..].
  - apply obey_note; [done|]. split; [done|]. split; [|split].
    + rewrite Hslot. intros x Ex. destruct (Hs _ _ Ex) as (e & Ee & _ & <-). congruence.
    + unfold id. destruct (ic_logged_in c) eqn:El; [|done]. intros _. by apply (Hlg slot).
    + rewrite Hslot. intros n x En Hx. destruct (Hmine n x En Hx) as [El ->]. unfold id. rewrite El.
      destruct (Hlg slot c E El) as (_ & Hid & _). unfold client_ok in Hid. split; [lia|done].
  - rewrite Hslot. intros i x (Hne & Ei)%lookup_delete_Some. destruct (Hs i x Ei) as (e & ? & ?). exists e. by rewrite list_lookup_insert_ne.
  - intros n x En. assert (dk_sessions d !! n = Some x /\ (id <> 0 -> n <> Z.to_nat id)) as [En' Hid].
    { destruct (Z.eqb_spec id 0); [by split|]. apply lookup_delete_Some in En as [? ?]. by split. }
    destruct (Hn n x En') as (i & e & Ee & Hle & Hoe & Hcl & Hx). exists i, e. rewrite list_lookup_insert_ne; [done|]. intros <-.
    rewrite E in Ee. injection Ee as <-. unfold id in Hid. rewrite Hle in Hid. destruct (Hlg slot c E Hle) as (_ & Hok' & _). unfold client_ok in Hok'.
    apply Hid; [lia|done].
  - intros i e [(<- & <- & _)|(Hne & Ee)]%list_lookup_insert_Some Hle; [congruence|]. destruct (Hlg i e Ee Hle) as (Hses & Hcl & Hoe). split; [|done].
    destruct (Z.eqb_spec id 0) as [|Hz]; [done|]. rewrite lookup_delete_ne; [done|]. intros Heq.
    unfold id in *. destruct (ic_logged_in c) eqn:El; [|done]. destruct (Hlg slot c E El) as [Hses' _]. rewrite Heq, Hses in Hses'.
    injection Hses' as Hconn. destruct (Hc i e Ee Hoe) as (_ & Hsl & _). apply Hne. by rewrite <- Hslot, <- Hsl, Hconn.
  - intros i e [(<- & <- & _)|(Hne & Ee)]%list_lookup_insert_Some Hoe; [congruence|].
    destruct (Hc i e Ee Hoe) as (Hk & Hsl & Hf). split; [done|]. split; [done|]. intros ? ?. destruct (Hf ltac:(done) ltac:(done)) as [? ?].
    split; [by rewrite lookup_delete_None; right|]. intros [Heq|?]%elem_of_cons; [|done]. apply Hne. rewrite <- Hslot, <- Hsl. by rewrite Heq.
Qed.

(** *** The handlers of one connection *)

Lemma login_sequence_u64 payload login : decode_soup_login_request payload = Some login -> is_u64 (lr_requested_sequence_number login).
Proof.
  unfold decode_soup_login_request. destruct (negb _); [done|]. destruct (read_numeric _) as [v|] eqn:E; [|done]. intros [= <-]. by eapply read_numeric_u64.
Qed.

Section LinkDesk.
Context (slot : nat) (conns : list InboundConnection) (Hslot : (slot < length conns)%nat).
Context (before : list ServerNote).

(** The notes, and that none of those pushed before has changed. *)
Definition link_desk (l : Link) : Prop :=
  before `prefix_of` notes_pushed (lk_server l) /\
  exists d, desk_ok (<[slot := lk_conn l]> conns) (notes_pushed (lk_server l)) d.

(** Neither logged in nor turned away yet. *)
Definition unannounced (c : InboundConnection) : Prop := ic_open c = true /\ ic_logged_in c = false /\ ic_closing c = false.

Lemma link_desk_conn l l' :
  link_desk l -> notes_pushed (lk_server l') = notes_pushed (lk_server l) -> ic_conn (lk_conn l') = ic_conn (lk_conn l) ->
  ic_open (lk_conn l') = ic_open (lk_conn l) -> ic_logged_in (lk_conn l') = ic_logged_in (lk_conn l) ->
  ic_closing (lk_conn l') = ic_closing (lk_conn l) -> ic_client_id (lk_conn l') = ic_client_id (lk_conn l) -> link_desk l'.
Proof.
  intros (Hb & d & H) Hn H1 H2 H3 H4 H5. split; [by rewrite Hn|]. exists d. rewrite Hn, <- (list_insert_insert_eq conns slot _ (lk_conn l)).
  eapply desk_ok_same; [exact H|by apply held_conn|done..].
Qed.

Lemma reject_login_desk reason l l' :
  reject_login_ reason l = Some (tt, l') -> link_desk l -> unannounced (lk_conn l) -> link_desk l'.
Proof.
  intros [= <-] (Hb & d & H) (Ho & Hl & Hc). split; [by apply prefix_app_r|]. eexists. cbn [lk_conn lk_server notes_pushed ic_conn].
  rewrite <- (list_insert_insert_eq conns slot _ (lk_conn l)). eapply desk_ok_reject; [exact H|by apply held_conn|done..].
Qed.

Lemma disconnect_desk l l' : disconnect_ l = Some (tt, l') -> link_desk l -> link_desk l'.
Proof.
  intros E (Hb & d & H). unfold disconnect_ in E. rewrite gets_bind in E. destruct (ic_open (lk_conn l)) eqn:Ho; cbn [negb] in E.
  2: { injection E as <-. split; [done|]. by exists d. }
  apply bind_inv in E as ([] & l1 & E1 & E). injection E as <-.
  assert (lk_conn l1 = lk_conn l /\ notes_pushed (lk_server l1) = notes_pushed (lk_server l)) as [Hc Hn].
  { destruct (ic_logged_in (lk_conn l)); cbn [when] in E1; [|by injection E1 as <-]. unfold set_connected in E1.
    destruct (_ !! _); [|done]. by injection E1 as <-. }
  split; [cbn; rewrite Hn; by apply prefix_app_r|]. eexists. cbn [lk_conn lk_server notes_pushed]. rewrite Hn, <- (list_insert_insert_eq conns slot _ (lk_conn l)).
  eapply desk_ok_disconnect; [exact H|by apply held_conn|done..].
Qed.

Lemma client_of_notes username l id l' :
  client_of username l = Some (id, l') -> notes_pushed (lk_server l') = notes_pushed (lk_server l).
Proof.
  unfold client_of. rewrite gets_bind. destruct (_ !! username); [by intros [= _ <-]|]. rewrite gets_bind.
  destruct (_ <=? _); by intros [= _ <-].
Qed.

Lemma login_desk payload l l' :
  login_ payload l = Some (tt, l') -> link_ok slot conns l -> link_desk l -> unannounced (lk_conn l) -> link_desk l'.
Proof.
  intros E Hok H Hun. unfold login_ in E. destruct (decode_soup_login_request payload) as [login|] eqn:Ed; [|by eapply reject_login_desk].
  cbv zeta in E. destruct (bool_decide _ && bool_decide _ && bool_decide _); [by eapply reject_login_desk|].
  destruct (normalize_username _) as [username []]; [by eapply reject_login_desk|].
  destruct (client_of_ok slot conns Hslot username l Hok) as (id & l1 & E1 & H1 & Hconn & _ & Hid).
  rewrite (bind_Some _ _ _ _ _ E1) in E. pose proof (client_of_notes _ _ _ _ E1) as Hnotes.
  assert (link_desk l1) as Hd1 by (eapply link_desk_conn; [exact H|done|by rewrite Hconn..]). rewrite <- Hconn in Hun.
  destruct id as [id|]; [|by eapply reject_login_desk]. rewrite bind_bind, gets_bind in E.
  apply bind_inv in E as (connected & l2 & E2 & E). destruct (inbound_sessions_ (lk_server l1) !! Z.to_nat id) as [b|] eqn:Eb; [|done].
  injection E2 as <- <-. destruct b; [by eapply reject_login_desk|]. rewrite bind_bind, gets_bind in E.
  apply bind_inv in E as (retained & l3 & E3 & E). destruct (retained_from_ _ !! _); [|done]. injection E3 as <- <-.
  destruct (negb _ && _); [by eapply reject_login_desk|]. apply bind_inv in E as ([] & l4 & E4 & E).
  unfold set_connected in E4. rewrite Eb in E4. injection E4 as <-. injection E as <-.
  destruct Hd1 as (Hb & d & Hd1). destruct Hun as (Ho & Hl & Hc). split; [by apply prefix_app_r|]. eexists. cbn [lk_conn lk_server notes_pushed ic_conn].
  rewrite <- (list_insert_insert_eq conns slot _ (lk_conn l1)).
  eapply desk_ok_login; [exact Hd1|by apply held_conn|done..| |].
  - by eapply login_sequence_u64.
  - cbn [ic_client_id]. intros i e Ee Hle Heq. destruct (so_conn _ _ (lo_sessions _ _ _ H1) i e Ee Hle) as [_ Ht]. rewrite Heq in Ht. congruence.
Qed.

Lemma handle_ouch_desk rdtsc client_id msg stamps l l' :
  handle_ouch_ rdtsc client_id msg stamps l = Some (tt, l') -> link_desk l -> ic_logged_in (lk_conn l) = true ->
  client_id = ic_client_id (lk_conn l) -> link_desk l'.
Proof.
  intros E H Hl ->. set (id := ic_client_id (lk_conn l)) in *.
  assert (forall m, (translation ← run_translate id m;
      _ ← match tr_note translation with Some note => push_note_ (GATEWAY id note) | None => mret tt end;
      match tr_request translation with
      | Some request =>
          push_tsc ← read_tsc rdtsc;
          on_server (push_request (stamp_request stamps push_tsc request))
      | None => mret tt
      end) l = Some (tt, l') -> link_desk l') as Hrun.
  { intros m Em. apply bind_inv in Em as (t & l1 & E1 & Em). unfold run_translate in E1. destruct (translate _ _ _) as [[t0 e0]|]; [|done].
    injection E1 as -> <-. apply bind_inv in Em as ([] & l2 & E2 & Em).
    assert (link_desk l2) as H2.
    { destruct (tr_note t) as [note|]; injection E2 as <-; [|by eapply link_desk_conn]. destruct H as (Hb & d & H). split; [by apply prefix_app_r|]. exists d. cbn [lk_conn lk_server notes_pushed].
      destruct (do_logged _ _ _ H slot (lk_conn l)) as (Hses & Hid & _); [by apply held_conn|done|]. pose proof H as [Hob ? ? ? ?]. split; try done.
      change d with (desk_note (GATEWAY id note) d). apply obey_note; [done|]. by split; [|eexists]. }
    destruct (tr_request t) as [rq|]; injection Em as <-; by eapply link_desk_conn. }
  unfold handle_ouch_ in E. destruct msg; [by injection E as <-|by eapply Hrun..].
Qed.

Lemma handle_packet_desk rdtsc stamps packet l b l' :
  handle_soup_packet_ rdtsc stamps packet l = Some (b, l') -> link_ok slot conns l -> link_desk l ->
  ic_open (lk_conn l) && negb (ic_closing (lk_conn l)) = true -> link_desk l'.
Proof.
  intros E Hok H Ht. apply andb_true_iff in Ht as [Ho Hc%negb_true_iff]. unfold handle_soup_packet_ in E. rewrite gets_bind in E.
  apply bind_inv in E as ([] & l1 & E1 & E). injection E as _ <-.
  destruct (_ =? SOUP_LOGIN_REQUEST); [|destruct (_ =? SOUP_UNSEQUENCED_DATA); [|destruct (_ =? SOUP_LOGOUT_REQUEST)]].
  - destruct (ic_logged_in (lk_conn l)) eqn:El; cbn [negb when] in E1; [by injection E1 as <-|]. by eapply login_desk.
  - destruct (ic_logged_in (lk_conn l)) eqn:El; cbn [when] in E1; [|by injection E1 as <-].
    apply bind_inv in E1 as (msg & l2 & E2 & E1). unfold lift in E2. destruct (decode_inbound_ouch _); [|done]. injection E2 as -> <-.
    by eapply handle_ouch_desk.
  - by eapply disconnect_desk.
  - by injection E1 as <-.
Qed.
End LinkDesk.

(** *** Events *)

Section EventDesk.
Context (rdtsc : nat -> Z).

Definition server_desk (s : Inbound) : Prop := exists d, desk_ok (inbound_connections_ s) (notes_pushed s) d.

(** A step of the thread: the table and the notes still agree, and notes were only added. *)
Definition server_more (s s' : Inbound) : Prop := server_desk s' /\ notes_pushed s `prefix_of` notes_pushed s'.

Lemma server_more_refl s : server_desk s -> server_more s s.
Proof. by split. Qed.

Lemma with_connection_desk s s' slot c (m : M Link unit) :
  with_connection slot m s = Some (tt, s') -> inbound_connections_ s !! slot = Some c ->
  (forall l', m (mkLink c s) = Some (tt, l') -> inbound_connections_ (lk_server l') = inbound_connections_ s /\
    link_desk slot (inbound_connections_ s) (notes_pushed s) l') -> server_more s s'.
Proof.
  intros Ew E H. unfold with_connection in Ew. rewrite E in Ew. destruct (m (mkLink c s)) as [[[] l']|] eqn:Em; [|done].
  injection Ew as <-. destruct (H l' eq_refl) as [Hc (Hb & d & Hd)]. split; [|done]. exists d.
  cbn [inbound_connections_ notes_pushed]. by rewrite Hc.
Qed.

Lemma held_desk s slot c : server_desk s -> inbound_connections_ s !! slot = Some c -> link_desk slot (inbound_connections_ s) (notes_pushed s) (mkLink c s).
Proof. intros [d H] E. split; [done|]. exists d. cbn [lk_conn lk_server]. by rewrite list_insert_id. Qed.

Lemma disconnect_event_desk s s' slot c :
  in_inv s -> server_desk s -> inbound_connections_ s !! slot = Some c -> with_connection slot disconnect_ s = Some (tt, s') -> server_more s s'.
Proof.
  intros HI H E Ew. pose proof (lookup_lt_Some _ _ _ E) as Hlt. eapply with_connection_desk; [done..|]. intros l' El.
  destruct (disconnect_ok slot _ Hlt _ (link_ok_of _ _ _ HI E)) as ([] & l2 & El2 & Hl2). rewrite El in El2. injection El2 as <-.
  split; [apply Hl2|]. eapply disconnect_desk; [done|done|]. by apply held_desk.
Qed.

Lemma data_event_desk s s' slot c stamps bytes :
  in_inv s -> server_desk s -> inbound_connections_ s !! slot = Some c -> Forall is_u8 bytes -> ic_open c && negb (ic_closing c) = true ->
  with_connection slot
    (_ ← on_conn (fun c => c <| ic_last_recv_tsc := st_recv_tsc stamps |>); on_data_ (H := link_sink rdtsc stamps) bytes) s = Some (tt, s') ->
  server_more s s'.
Proof.
  intros HI H E Hb Ht Ew. pose proof (lookup_lt_Some _ _ _ E) as Hlt. set (conns := inbound_connections_ s) in *.
  eapply with_connection_desk; [done..|]. intros l' El.
  set (c1 := c <| ic_last_recv_tsc := st_recv_tsc stamps |>). set (l1 := mkLink c1 s). change (on_data_ (H := link_sink rdtsc stamps) bytes l1 = Some (tt, l')) in El.
  assert (link_ok slot conns l1) as H1 by (exact (link_ok_conn slot conns Hlt (mkLink c s) c1 (link_ok_of _ _ _ HI E) eq_refl eq_refl eq_refl)).
  assert (link_desk slot conns (notes_pushed s) l1) as Hd1 by (eapply link_desk_conn; [exact Hlt|by apply (held_desk s)|done..]).
  destruct (proj1 (Forall_lookup _ _) (ii_pending _ HI) slot c E Ht) as [Hp Hu].
  destruct (on_data_inv (H := link_sink rdtsc stamps) (fun l => link_ok slot conns l /\ link_desk slot conns (notes_pushed s) l)) with (b := bytes) (s := l1)
    as (l2 & El2 & [Hl2 Hd2] & _); [..|rewrite El in El2; injection El2 as <-; split; [apply Hl2|done]].
  - intros p l [Hl Hd]. split; [by apply link_ok_conn|]. by eapply link_desk_conn.
  - intros packet l [Hl Hd] Htk Hpay. destruct (handle_packet_ok slot conns Hlt rdtsc stamps packet l Hl Htk Hpay) as (b & l2 & E2 & H2).
    exists b, l2. split; [done|]. split; [done|]. by eapply handle_packet_desk.
  - intros l [Hl Hd]. destruct (disconnect_ok slot conns Hlt l Hl) as ([] & l2 & E2 & H2). exists l2. split; [done|]. split; [done|].
    by eapply disconnect_desk.
  - done.
  - done.
  - done.
  - done.
  - done.
Qed.

(** The connection a note names. *)
Definition note_conn (note : ServerNote) : option ConnId :=
  match note with
  | GATEWAY _ _ => None
  | LOGIN_ACCEPTED _ conn _ | LOGIN_REJECTED _ conn | DISCONNECTED _ conn => Some conn
  end.

Lemma obey_named notes d conn : notes_obey notes d -> conn ∈ dk_named d -> Some conn ∈ note_conn <$> notes.
Proof.
  induction 1 as [|notes note d _ IH _]; [by intros ?%elem_of_nil|]. rewrite fmap_app, elem_of_app.
  destruct note as [id g|id x seq|reason x|id x]; cbn [desk_note dk_named note_conn]; intros Hc; [left; by apply IH|..];
    (apply elem_of_cons in Hc as [->|Hc]; [right; by left|left; by apply IH]).
Qed.

(** TCP hands out each connection once: one that is accepted has been in no note. *)
Definition tcp_fresh (s : Inbound) (ev : tcp_event) : Prop :=
  match ev with tcp_accepted conn => conn_ok conn /\ Some conn ∉ note_conn <$> notes_pushed s | _ => True end.

Lemma on_tcp_event_desk s s' ev stamps :
  in_inv s -> server_desk s -> tcp_delivers s ev -> tcp_fresh s ev -> on_tcp_event_ rdtsc ev stamps s = Some (tt, s') -> server_more s s'.
Proof.
  intros HI H (c & E & Hev) Hf Ew. unfold on_tcp_event_ in Ew. set (slot := Z.to_nat _) in *.
  assert (forall m, with_connection slot (c ← gets lk_conn; if bool_decide (ic_conn c <> event_conn ev) then mret tt else m) s = Some (tt, s') ->
    (with_connection slot m s = Some (tt, s') -> server_more s s') -> server_more s s') as Hread.
  { intros m Em Hm. rewrite (with_connection_gets _ _ _ _ E) in Em. case_bool_decide; [|by apply Hm].
    rewrite (with_connection_ret _ _ _ E) in Em. injection Em as <-. by apply server_more_refl. }
  destruct ev as [conn|conn bytes|conn|conn|conn]; cbn [event_conn] in *; cbv zeta in Ew.
  - eapply with_connection_desk; [done..|]. intros l' [= <-]. split; [done|]. destruct H as [d H]. split; [done|]. exists d. cbn [lk_conn lk_server].
    destruct Hf as [Hok Hnew]. eapply desk_ok_accept; [done|by apply HI|done|done|done|done| |done].
    intros Hin. apply Hnew. by eapply obey_named; [apply H|].
  - rewrite (with_connection_gets _ _ _ _ E) in Ew. case_bool_decide.
    { rewrite (with_connection_ret _ _ _ E) in Ew. injection Ew as <-. by apply server_more_refl. }
    destruct (negb (ic_open c) || ic_closing c) eqn:Et.
    { rewrite (with_connection_ret _ _ _ E) in Ew. injection Ew as <-. by apply server_more_refl. }
    eapply (data_event_desk s s' slot c); try done. by destruct (ic_open c), (ic_closing c).
  - eapply Hread; [exact Ew|]. by eapply disconnect_event_desk.
  - eapply Hread; [exact Ew|]. by eapply disconnect_event_desk.
  - eapply Hread; [exact Ew|]. by eapply disconnect_event_desk.
Qed.

Lemma check_timeout_desk clock now s s' slot :
  in_inv s -> server_desk s -> (slot < length (inbound_connections_ s))%nat ->
  with_connection slot (check_timeout clock now) s = Some (tt, s') -> server_more s s'.
Proof.
  intros HI H Hlt Ew. destruct (lookup_lt_is_Some_2 _ _ Hlt) as [c E]. unfold check_timeout in Ew.
  rewrite (with_connection_gets _ _ _ _ E) in Ew. destruct (negb (ic_open c)).
  { rewrite (with_connection_ret _ _ _ E) in Ew. injection Ew as <-. by apply server_more_refl. }
  cbv zeta in Ew. match type of Ew with context [when ?b _] => destruct b end; cbn [when] in Ew.
  - by eapply disconnect_event_desk.
  - rewrite (with_connection_ret _ _ _ E) in Ew. injection Ew as <-. by apply server_more_refl.
Qed.

Lemma check_timeouts_desk clock now s s' :
  in_inv s -> server_desk s -> check_timeouts_ clock now s = Some (tt, s') -> server_more s s'.
Proof.
  intros HI H Ew. unfold check_timeouts_ in Ew. set (n := length (inbound_connections_ s)) in Ew.
  assert (forall slots s1 s2, in_inv s1 -> server_desk s1 -> length (inbound_connections_ s1) = n -> Forall (fun slot => slot < n)%nat slots ->
    foldl (fun r slot => match r with None => None | Some (_, s) => with_connection slot (check_timeout clock now) s end)
      (Some (tt, s1)) slots = Some (tt, s2) -> server_more s1 s2) as Hloop.
  { induction slots as [|slot slots IH]; intros s1 s2 H1 Hd1 Hn Hs Ef; [injection Ef as <-; by apply server_more_refl|]. apply Forall_cons in Hs as [Hlt Hs].
    destruct (check_timeout_ok clock now s1 slot H1) as (s3 & E3 & H3 & Hn3); [lia|]. cbn [foldl] in Ef. rewrite E3 in Ef.
    destruct (check_timeout_desk clock now s1 s3 slot H1 Hd1 ltac:(lia) E3) as [Hd3 Hp3].
    destruct (IH s3 s2 H3 Hd3 ltac:(lia) Hs Ef) as [Hd Hp]. split; [done|]. by etransitivity. }
  eapply Hloop; [exact HI|exact H|done| |exact Ew]. apply Forall_forall. intros i Hi%elem_of_seq. lia.
Qed.
End EventDesk.
