(* ===== verification/InboundSteps.v ===== *)
(** * InboundSteps: one induction over everything the inbound thread does

    What an event or a timeout scan does to the server is a sequence of three kinds of
    moves: connections and sessions change while nothing is pushed; a note that is not
    the gateway's is pushed; a message of a logged-in client is handled.  A preorder that
    contains the three therefore relates the states before and after any event, whatever
    the bytes ([on_tcp_event_moves], [check_timeouts_moves]). *)

From S2P Require Import Prelude Types WireCodec Clock OuchProto OuchCorrect Validation OrderEntry OuchTyped OuchResponder.
From S2P Require Import SoupProto Reassembly Pipeline Inbound NoteProtocol.

Definition gateway_note (note : ServerNote) : option GatewayNote :=
  match note with GATEWAY _ g => Some g | _ => None end.

(** Nothing is pushed, and the gateway is left alone. *)
Definition same_pushes (s s' : Inbound) : Prop :=
  order_entry_ s' = order_entry_ s /\ notes_pushed s' = notes_pushed s /\ requests_pushed s' = requests_pushed s /\ request_marks s' = request_marks s.

(** The pushes of a later state extend those of an earlier one. *)
Record extends (s s' : Inbound) : Prop := {
  ex_notes : notes_pushed s `prefix_of` notes_pushed s';
  ex_requests : requests_pushed s `prefix_of` requests_pushed s';
  ex_marks : request_marks s `prefix_of` request_marks s';
}.

#[export] Instance extends_preorder : PreOrder extends.
Proof. split; [done|]. intros s1 s2 s3 [? ? ?] [? ? ?]. split; etransitivity; done. Qed.

(** What [handle_ouch_] pushes of a translation. *)
Definition push_translation (client_id : Z) (stamps : InboundStamps) (tsc : Z) (t : Translation) (e : OrderEntry) (s : Inbound) : Inbound :=
  let s := s <| order_entry_ := e |> in
  let s := match tr_note t with Some note => s <| notes_pushed := notes_pushed s ++ [GATEWAY client_id note] |> | None => s end in
  match tr_request t with Some request => push_request (stamp_request stamps tsc request) s | None => s end.

Lemma push_translation_extends client_id stamps tsc t e s : extends s (push_translation client_id stamps tsc t e s).
Proof.
  unfold push_translation. destruct (tr_note t), (tr_request t); cbv zeta; split;
    cbn [push_request notes_pushed requests_pushed request_marks]; first [done|by eexists].
Qed.

(** [handle_ouch_] with the translation it makes. *)
Lemma handle_ouch_pushes rdtsc client_id msg stamps l a l' :
  handle_ouch_ rdtsc client_id msg stamps l = Some (a, l') -> lk_conn l' = lk_conn l /\
  ((msg = INBOUND_NONE /\ lk_server l' = lk_server l) \/
   (msg <> INBOUND_NONE /\ exists t e tsc, translate client_id msg (order_entry_ (lk_server l)) = Some (t, e) /\
     same_pushes (push_translation client_id stamps tsc t e (lk_server l)) (lk_server l'))).
Proof.
  intros E. unfold handle_ouch_ in E. destruct msg; [injection E as _ <-; split; [done|by left]|..].
  all: apply bind_inv in E as (t & l1 & E1 & E); unfold run_translate in E1; destruct (translate _ _ _) as [[t0 e]|]; [|done]; injection E1 as -> <-.
  all: assert (lk_conn l' = lk_conn l) as Hc by (destruct (tr_note t), (tr_request t); by injection E as _ <-).
  all: split; [done|]; right; split; [done|]; exists t, e, (rdtsc (in_tsc_reads (lk_server l))); split; [done|]; unfold push_translation.
  all: destruct (tr_note t), (tr_request t); injection E as _ <-; done.
Qed.

(** A preorder that contains the moves without a message, and one that contains all. *)
Class QuietMoves (Rel : Inbound -> Inbound -> Prop) : Prop := {
  im_preorder :: PreOrder Rel;
  im_same s s' : same_pushes s s' -> Rel s s';
  im_note note s : gateway_note note = None -> Rel s (s <| notes_pushed := notes_pushed s ++ [note] |>);
}.
Class InboundMoves (rdtsc : nat -> Z) (Rel : Inbound -> Inbound -> Prop) : Prop := {
  im_quiet :: QuietMoves Rel;
  im_message client_id msg stamps l a l' :
    client_ok client_id -> frame_typed msg -> handle_ouch_ rdtsc client_id msg stamps l = Some (a, l') -> Rel (lk_server l) (lk_server l');
}.

Section Quiet.
Context (Rel : Inbound -> Inbound -> Prop) `{!QuietMoves Rel}.

(** ** The handlers of one connection *)

Definition stepwise {A} (m : M Link A) : Prop := forall l a l', m l = Some (a, l') -> Rel (lk_server l) (lk_server l').

Create HintDb stepwise.

Lemma stepwise_bind {A B} (m : M Link A) (k : A -> M Link B) : stepwise m -> (forall a, stepwise (k a)) -> stepwise (m ≫= k).
Proof. intros Hm Hk l b l2 (a & l1 & E1 & E2)%bind_inv. etransitivity; [by eapply Hm|by eapply Hk]. Qed.

Lemma stepwise_same {A} (m : M Link A) : (forall l a l', m l = Some (a, l') -> same_pushes (lk_server l) (lk_server l')) -> stepwise m.
Proof. intros H l a l' E. by eapply im_same, H. Qed.

Lemma stepwise_ret {A} (a : A) : stepwise (mret a).
Proof. apply stepwise_same. by intros l b l' [= _ <-]. Qed.

Lemma stepwise_gets {A} (f : Link -> A) : stepwise (gets f).
Proof. apply stepwise_same. by intros l b l' [= _ <-]. Qed.

Lemma stepwise_lift {A} (o : option A) : stepwise (lift o).
Proof. apply stepwise_same. intros l b l'. unfold lift. destruct o; [|done]. by intros [= _ <-]. Qed.

Lemma stepwise_on_conn f : stepwise (on_conn f).
Proof. apply stepwise_same. by intros l b l' [= _ <-]. Qed.

Lemma stepwise_on_server f : (forall s, same_pushes s (f s)) -> stepwise (on_server f).
Proof. intros Hf. apply stepwise_same. intros l b l' [= _ <-]. apply Hf. Qed.

Lemma stepwise_push_note note : gateway_note note = None -> stepwise (push_note_ note).
Proof. intros Hn l a l' [= _ <-]. by apply im_note. Qed.

Lemma stepwise_when b m : stepwise m -> stepwise (when b m).
Proof. intros H. destruct b; [done|apply stepwise_ret]. Qed.

Lemma stepwise_set_connected client_id b : stepwise (set_connected client_id b).
Proof. intros l a l'. unfold set_connected. destruct (_ !! _); [|done]. by apply stepwise_on_server. Qed.

#[local] Hint Resolve stepwise_bind stepwise_ret stepwise_gets stepwise_lift stepwise_on_conn stepwise_when stepwise_set_connected : stepwise.
#[local] Hint Extern 1 (stepwise (on_server _)) => (apply stepwise_on_server; done) : stepwise.
#[local] Hint Extern 1 (stepwise (push_note_ _)) => (apply stepwise_push_note; reflexivity) : stepwise.

Lemma stepwise_reject reason : stepwise (reject_login_ reason).
Proof. unfold reject_login_. auto 10 with stepwise. Qed.

Lemma stepwise_disconnect : stepwise disconnect_.
Proof.
  unfold disconnect_. apply stepwise_bind; [auto with stepwise|]. intros c. destruct (negb _); [auto with stepwise|].
  apply stepwise_bind; [auto with stepwise|]. intros _. auto 10 with stepwise.
Qed.
#[local] Hint Resolve stepwise_reject stepwise_disconnect : stepwise.

Lemma stepwise_login payload : stepwise (login_ payload).
Proof.
  unfold login_. destruct (decode_soup_login_request payload); [|auto with stepwise].
  cbv zeta. destruct (bool_decide _ && bool_decide _ && bool_decide _); [auto with stepwise|].
  destruct (normalize_username _) as [username []]; [auto with stepwise|]. apply stepwise_bind.
  { unfold client_of. apply stepwise_bind; [auto with stepwise|]. intros [|]; [auto with stepwise|].
    apply stepwise_bind; [auto with stepwise|]. intros next. destruct (_ <=? _); auto with stepwise. }
  intros [client_id|]; [|auto with stepwise]. apply stepwise_bind; [auto with stepwise|]. intros []; [auto with stepwise|].
  apply stepwise_bind; [auto with stepwise|]. intros retained. destruct (negb _ && _); [auto with stepwise|]. auto 10 with stepwise.
Qed.

Lemma with_connection_moves s s' slot c (m : M Link unit) :
  with_connection slot m s = Some (tt, s') -> inbound_connections_ s !! slot = Some c ->
  (forall l', m (mkLink c s) = Some (tt, l') -> Rel s (lk_server l')) -> Rel s s'.
Proof.
  intros Ew E H. unfold with_connection in Ew. rewrite E in Ew. destruct (m (mkLink c s)) as [[[] l']|]; [|done].
  injection Ew as <-. etransitivity; [by apply H|]. by apply im_same.
Qed.

Lemma check_timeouts_moves clock now s s' : check_timeouts_ clock now s = Some (tt, s') -> Rel s s'.
Proof.
  assert (stepwise (check_timeout clock now)) as Hm.
  { unfold check_timeout. apply stepwise_bind; [auto with stepwise|]. intros c. destruct (negb _); auto with stepwise. }
  unfold check_timeouts_. generalize (seq 0 (length (inbound_connections_ s))). intros slots. revert s. induction slots as [|slot slots IH]; intros s E; [by injection E as <-|].
  cbn [foldl] in E. destruct (with_connection slot (check_timeout clock now) s) as [[[] s1]|] eqn:E1.
  - etransitivity; [|by apply IH]. unfold with_connection in E1. destruct (inbound_connections_ s !! slot) as [c|] eqn:Ec; [|done].
    eapply with_connection_moves; [unfold with_connection; rewrite Ec; exact E1|exact Ec|]. intros l' El. by eapply Hm in El.
  - exfalso. clear -E. induction slots; [done|]. by apply IHslots.
Qed.
End Quiet.

Section Moves.
Context (rdtsc : nat -> Z) (Rel : Inbound -> Inbound -> Prop) `{!InboundMoves rdtsc Rel}.

Lemma handle_packet_moves slot conns before stamps packet l b l' :
  (slot < length conns)%nat -> handle_soup_packet_ rdtsc stamps packet l = Some (b, l') -> link_desk slot conns before l -> Forall is_u8 (soup_payload packet) ->
  Rel (lk_server l) (lk_server l').
Proof.
  intros Hlt E (_ & d & Hd) Hu. unfold handle_soup_packet_ in E. rewrite gets_bind in E. apply bind_inv in E as ([] & l1 & E1 & E). injection E as _ <-.
  destruct (_ =? SOUP_LOGIN_REQUEST); [by eapply (stepwise_when Rel); [apply (stepwise_login Rel)|exact E1]|].
  destruct (_ =? SOUP_UNSEQUENCED_DATA); [|destruct (_ =? SOUP_LOGOUT_REQUEST); [by eapply (stepwise_disconnect Rel)|by injection E1 as <-]].
  destruct (ic_logged_in (lk_conn l)) eqn:El; cbn [when] in E1; [|by injection E1 as <-].
  apply bind_inv in E1 as (msg & l2 & E2 & E1). unfold lift in E2. destruct (decode_inbound_ouch _) eqn:Edec; [|done]. injection E2 as -> <-.
  eapply im_message; [|by eapply decode_inbound_typed|exact E1].
  by destruct (do_logged _ _ _ Hd slot (lk_conn l)) as (_ & Hid & _); [apply list_lookup_insert_eq|done|].
Qed.

(** ** Events *)

Lemma data_event_moves s s' slot c stamps bytes :
  in_inv s -> server_desk s -> inbound_connections_ s !! slot = Some c -> Forall is_u8 bytes -> ic_open c && negb (ic_closing c) = true ->
  with_connection slot
    (_ ← on_conn (fun c => c <| ic_last_recv_tsc := st_recv_tsc stamps |>); on_data_ (H := link_sink rdtsc stamps) bytes) s = Some (tt, s') ->
  Rel s s'.
Proof.
  intros HI H E Hb Ht Ew. pose proof (lookup_lt_Some _ _ _ E) as Hlt. set (conns := inbound_connections_ s) in *.
  eapply (with_connection_moves Rel); [done..|]. intros l' El.
  set (c1 := c <| ic_last_recv_tsc := st_recv_tsc stamps |>). set (l1 := mkLink c1 s). change (on_data_ (H := link_sink rdtsc stamps) bytes l1 = Some (tt, l')) in El.
  assert (link_ok slot conns l1) as H1 by (exact (link_ok_conn slot conns Hlt (mkLink c s) c1 (link_ok_of _ _ _ HI E) eq_refl eq_refl eq_refl)).
  assert (link_desk slot conns (notes_pushed s) l1) as Hd1 by (eapply link_desk_conn; [exact Hlt|by apply (held_desk s)|done..]).
  destruct (proj1 (Forall_lookup _ _) (ii_pending _ HI) slot c E Ht) as [Hp Hu].
  destruct (on_data_inv (H := link_sink rdtsc stamps)
    (fun l => (link_ok slot conns l /\ link_desk slot conns (notes_pushed s) l) /\ Rel s (lk_server l))) with (b := bytes) (s := l1)
    as (l2 & El2 & [_ Hn2] & _); [..|by rewrite El in El2; injection El2 as <-].
  - intros p l [[Hl Hd] Hn]. split; [|done]. split; [by apply link_ok_conn|]. by eapply link_desk_conn.
  - intros packet l [[Hl Hd] Hn] Htk Hpay. destruct (handle_packet_ok slot conns Hlt rdtsc stamps packet l Hl Htk Hpay) as (b & l2 & E2 & H2).
    exists b, l2. split; [done|]. split; [split; [done|]; by eapply handle_packet_desk|]. etransitivity; [done|]. by eapply handle_packet_moves.
  - intros l [[Hl Hd] Hn]. destruct (disconnect_ok slot conns Hlt l Hl) as ([] & l2 & E2 & H2). exists l2. split; [done|].
    split; [split; [done|]; by eapply disconnect_desk|]. etransitivity; [done|]. by eapply (stepwise_disconnect Rel).
  - done.
  - done.
  - done.
  - done.
  - done.
Qed.

Lemma on_tcp_event_moves s s' ev stamps :
  in_inv s -> server_desk s -> tcp_delivers s ev -> on_tcp_event_ rdtsc ev stamps s = Some (tt, s') -> Rel s s'.
Proof.
  intros HI H (c & E & Hev) Ew. unfold on_tcp_event_ in Ew. set (slot := Z.to_nat _) in *. cbv zeta in Ew.
  destruct ev as [conn|conn bytes|conn|conn|conn]; cbn [event_conn] in *.
  2: { rewrite (with_connection_gets _ _ _ _ E) in Ew. case_bool_decide.
    { rewrite (with_connection_ret _ _ _ E) in Ew. by injection Ew as <-. }
    destruct (negb (ic_open c) || ic_closing c) eqn:Et.
    { rewrite (with_connection_ret _ _ _ E) in Ew. by injection Ew as <-. }
    eapply (data_event_moves s s' slot c); try done. by destruct (ic_open c), (ic_closing c). }
  all: eapply (with_connection_moves Rel); [done..|]; intros l' El; revert El.
  1: apply (stepwise_on_conn Rel _).
  all: match goal with |- ?m ?l = Some _ -> _ => assert (stepwise Rel m) as Hk by (apply (stepwise_bind Rel); [apply (stepwise_gets Rel)|]; intros x; destruct (bool_decide _); [apply (stepwise_ret Rel)|apply (stepwise_disconnect Rel)]) end; apply Hk.
Qed.
End Moves.
