(* ===== verification/NoteTyping.v ===== *)
(** * NoteTyping: the notes of the gateway are typed

    Every note the inbound thread has pushed carries an order of the client it names, its
    members within their types, whatever bytes the clients send: the decoder delivers
    typed messages, and the gateway keeps and hands on typed records ([OuchTyped]). *)

From S2P Require Import Prelude Types WireCodec Clock OuchProto OuchCorrect Validation OrderEntry OuchTyped OuchResponder.
From S2P Require Import SoupProto Reassembly Pipeline Inbound NoteProtocol InboundSteps.

Definition notes_typed (s : Inbound) : Prop := Forall gateway_ok (notes_pushed s) /\ entry_typed (order_entry_ s).

Lemma Inbound_new_typed band : notes_typed (Inbound_new band).
Proof. split; [constructor|apply OrderEntry_new_typed]. Qed.

Definition stays_typed (s s' : Inbound) : Prop := notes_typed s -> notes_typed s'.

Lemma handle_ouch_typed rdtsc client_id msg stamps l a l' :
  client_ok client_id -> frame_typed msg -> handle_ouch_ rdtsc client_id msg stamps l = Some (a, l') -> stays_typed (lk_server l) (lk_server l').
Proof.
  intros Hc Hm E [Hn He]. assert (is_u32 client_id) as Hu by (unfold client_ok, MAX_CLIENTS in Hc; ulia).
  destruct (handle_ouch_pushes _ _ _ _ _ _ _ E) as [_ [[_ ->]|(_ & t & e & tsc & Et & E1 & E2 & _)]]; [done|].
  destruct (translate_typed _ _ _ _ _ Et He Hu Hm) as [He0 Ht]. unfold notes_typed. rewrite E1, E2. unfold translation_typed, push_translation in *.
  destruct (tr_note t), (tr_request t); (split; [|exact He0]); cbn [push_request notes_pushed]; try done; apply Forall_app; (split; [done|by apply Forall_singleton]).
Qed.

#[export] Instance stays_typed_moves rdtsc : InboundMoves rdtsc stays_typed.
Proof.
  split; [split|].
  - split; [by intros s H|]. intros s1 s2 s3 H12 H23 H. by apply H23, H12.
  - intros s s' (E1 & E2 & _). unfold stays_typed, notes_typed. by rewrite E1, E2.
  - intros note s Hn [Ha Hb]. split; [|done]. apply Forall_app. split; [done|]. apply Forall_singleton. by destruct note.
  - intros. by eapply handle_ouch_typed.
Qed.
