(* ===== verification/InboundFlow.v ===== *)
(** * InboundFlow: what the inbound thread hands to the engine and the responder

    Order ids are handed out in the order of the notes, and a request is pushed after
    every note that announces an order it names ([numbered]); and whatever bytes the
    clients send, the notes and requests the thread pushes are those of [Pipeline]
    ([flows]), so that the responder can answer all that the engine will say of them. *)

From S2P Require Import Prelude Types WireCodec Clock OuchProto OuchCorrect Validation PriceLevelQueue Orderbook OrderbookSpec.
From S2P Require Import OrderbookRefine OrderbookCorrect BookInvariant OrderEntry OuchTyped OuchResponder Gateway.
From S2P Require Import SoupProto Reassembly Pipeline Inbound NoteProtocol InboundSteps.

(** ** The numbers of the orders *)

Definition gateway_notes (notes : list ServerNote) : list GatewayNote := omap gateway_note notes.

(** A note that brings an order. *)
Definition brings_order (g : GatewayNote) : bool :=
  match note_kind g with NOTE_REJECTED => false | _ => true end.

Definition orders_in (notes : list ServerNote) : nat := length (filter brings_order (gateway_notes notes)).

Lemma gateway_notes_app notes notes' : gateway_notes (notes ++ notes') = gateway_notes notes ++ gateway_notes notes'.
Proof. apply omap_app. Qed.

Lemma orders_in_app notes notes' : orders_in (notes ++ notes') = (orders_in notes + orders_in notes')%nat.
Proof. unfold orders_in. by rewrite gateway_notes_app, filter_app, length_app. Qed.

Lemma orders_in_le notes : (orders_in notes <= length notes)%nat.
Proof.
  induction notes as [|note notes IH]; [done|]. change (note :: notes) with ([note] ++ notes). rewrite orders_in_app, length_app.
  assert (orders_in [note] <= 1)%nat; [|cbn [length]; lia]. destruct note as [id g| | |]; cbn; [|lia..]. case_decide; cbn; lia.
Qed.

Lemma orders_in_take notes (m n : nat) : (m <= n)%nat -> (orders_in (take m notes) <= orders_in (take n notes))%nat.
Proof. intros H. rewrite <- (take_drop m (take n notes)), take_take, Nat.min_l, orders_in_app by lia. lia. Qed.

Record numbered (s : Inbound) : Prop := {
  nb_next : next_order_id_ (order_entry_ s) = 1 + Z.of_nat (orders_in (notes_pushed s));
  nb_notes (j : nat) id g : notes_pushed s !! j = Some (GATEWAY id g) -> note_kind g <> NOTE_REJECTED ->
    note_order_id g = 1 + Z.of_nat (orders_in (take j (notes_pushed s)));
  nb_marks : Forall2 (fun rq m => (m <= length (notes_pushed s))%nat /\
      Forall (fun id => id <= Z.of_nat (orders_in (take m (notes_pushed s)))) (own_id rq))
    (requests_pushed s) (request_marks s);
}.

(** 64-bit order ids do not run out. *)
Definition few_notes (s : Inbound) : Prop := Z.of_nat (length (notes_pushed s)) + 2 < 18446744073709551616.

Lemma few_notes_before s s' : extends s s' -> few_notes s' -> few_notes s.
Proof. intros [H%prefix_length _ _]. unfold few_notes. lia. Qed.

(** Another note: an order it brings has the next number. *)
Lemma numbered_note s note e :
  (forall id g, note = GATEWAY id g -> note_kind g <> NOTE_REJECTED -> note_order_id g = next_order_id_ (order_entry_ s)) ->
  next_order_id_ e = next_order_id_ (order_entry_ s) + Z.of_nat (orders_in [note]) ->
  numbered s -> numbered (s <| order_entry_ := e |> <| notes_pushed := notes_pushed s ++ [note] |>).
Proof.
  intros Hnew He [Hn Hj Hm]. split; cbn [order_entry_ notes_pushed requests_pushed request_marks].
  - rewrite He, Hn, orders_in_app. lia.
  - intros j id g E Hk. apply lookup_snoc_Some in E as [[Hlt E]|[-> E]].
    + rewrite take_app_le by lia. by eapply Hj.
    + rewrite take_app_length, <- Hn. by eapply Hnew.
  - eapply Forall2_impl; [exact Hm|]. intros rq m [Hle Hids]. rewrite length_app. split; [lia|]. by rewrite take_app_le.
Qed.

Lemma numbered_entry s e :
  next_order_id_ e = next_order_id_ (order_entry_ s) -> numbered s -> numbered (s <| order_entry_ := e |>).
Proof. intros He [Hn Hj Hm]. split; [|done..]. cbn [order_entry_ notes_pushed]. by rewrite He. Qed.

Lemma numbered_request s rq :
  Forall (fun id => id <= Z.of_nat (orders_in (notes_pushed s))) (own_id rq) -> numbered s -> numbered (push_request rq s).
Proof.
  intros Hids [? ? Hm]. split; [done..|]. cbn [push_request notes_pushed requests_pushed request_marks].
  apply Forall2_app; [done|]. apply Forall2_cons. split; [|constructor]. split; [lia|]. by rewrite firstn_all.
Qed.

(** ** The inbound thread in the pipeline *)

Section Flow.
Context `{cfg : BookConfig}.
(** The rest of the pipeline, and how much of the notes and requests it has taken. *)
Context (p : Pipeline) (notes_read executed : nat).

Definition with_pushes (e : OrderEntry) (notes : list GatewayNote) (requests : list EngineRequest) : Pipeline :=
  mkPipeline e None notes requests (pl_book p) (pl_outbound p) (pl_event p) (pl_ready p) (pl_resp p) (pl_sent p) (pl_unanswered p).

Definition with_inbound (s : Inbound) : Pipeline :=
  with_pushes (order_entry_ s) (gateway_notes (drop notes_read (notes_pushed s))) (drop executed (requests_pushed s)).

Record flows (s : Inbound) : Prop := {
  fl_numbered : numbered s;
  fl_read : (notes_read <= length (notes_pushed s))%nat;
  fl_executed : (executed <= length (requests_pushed s))%nat;
  fl_pipeline : pl_inv (with_inbound s);
}.

(** What the moves of the inbound thread keep. *)
Definition keeps_flow (s s' : Inbound) : Prop := extends s s' /\ (few_notes s' -> flows s -> flows s').

Lemma keeps_flow_trans s1 s2 s3 : keeps_flow s1 s2 -> keeps_flow s2 s3 -> keeps_flow s1 s3.
Proof.
  intros [H1 F1] [H2 F2]. split; [by etransitivity|]. intros Hf H. apply F2; [done|]. apply F1; [by eapply few_notes_before|done].
Qed.

Lemma same_pushes_flow s s' : same_pushes s s' -> keeps_flow s s'.
Proof.
  intros (E1 & E2 & E3 & E4). split; [split; by rewrite ?E2, ?E3, ?E4|]. intros _ [[Hn Hj Hm] Hr Hx Hp].
  split; [split; rewrite ?E1, ?E2, ?E3, ?E4; done|by rewrite E2|by rewrite E3|].
  unfold with_inbound. by rewrite E1, E2, E3.
Qed.

(** A note that is not the gateway's. *)
Lemma push_note_flow note s : gateway_note note = None -> keeps_flow s (s <| notes_pushed := notes_pushed s ++ [note] |>).
Proof.
  intros Hn. split; [split; [by exists [note]|done..]|]. intros _ [Hnum Hr Hx Hp].
  assert (orders_in [note] = 0%nat) as H0 by (unfold orders_in, gateway_notes; cbn; by rewrite Hn).
  split; cbn [notes_pushed requests_pushed]; [|rewrite length_app; lia|done|].
  - refine (numbered_note s note (order_entry_ s) _ _ Hnum); [|by rewrite H0, Z.add_0_r]. intros id g ->. done.
  - unfold with_inbound. cbn [order_entry_ notes_pushed requests_pushed]. rewrite drop_app_le, gateway_notes_app by done.
    assert (gateway_notes [note] = []) as -> by (unfold gateway_notes; cbn; by rewrite Hn). by rewrite app_nil_r.
Qed.

(** *** A message of a client *)

Lemma push_translation_pipeline client_id stamps tsc t e s :
  (notes_read <= length (notes_pushed s))%nat -> (executed <= length (requests_pushed s))%nat ->
  with_inbound (push_translation client_id stamps tsc t e s) = handle_ouch_push stamps tsc (after_translation e t (with_inbound s)).
Proof.
  intros Hr Hx. unfold push_translation, with_inbound, handle_ouch_push. destruct t as [note rq]. cbn [tr_note tr_request].
  destruct note, rq; cbv zeta; cbn [push_request order_entry_ notes_pushed requests_pushed after_translation pl_request];
    rewrite ?drop_app_le, ?gateway_notes_app by done; unfold after_translation, with_pushes; cbn; rewrite ?app_nil_r; done.
Qed.

Lemma numbered_translation client_id stamps tsc t e s :
  translated (order_entry_ s) client_id t -> next_order_id_ e = next_order_id_ (order_entry_ s) + ids_taken t ->
  numbered s -> numbered (push_translation client_id stamps tsc t e s).
Proof.
  intros Ht He Hn.
  assert (forall note rq, t = mkTranslation (Some note) (Some rq) -> note_kind note <> NOTE_REJECTED -> note_order_id note = next_order_id_ (order_entry_ s) ->
    own_id rq = [next_order_id_ (order_entry_ s)] -> ids_taken t = 1 -> numbered (push_translation client_id stamps tsc t e s)) as Horder.
  { intros note rq -> Hk Hid Hown H1. apply numbered_request.
    - rewrite (proj1 (stamp_request_same stamps tsc rq)), Hown. apply Forall_singleton. cbn [tr_note notes_pushed].
      rewrite orders_in_app, (nb_next _ Hn). assert (orders_in [GATEWAY client_id note] = 1%nat) as ->; [|lia].
      unfold orders_in, gateway_notes, brings_order. cbn. by destruct (note_kind note).
    - refine (numbered_note s (GATEWAY client_id note) e _ _ Hn); [by intros ? ? [= _ <-] _|]. rewrite He, H1. f_equal.
      unfold orders_in, gateway_notes, brings_order. cbn. by destruct (note_kind note). }
  destruct Ht as [|reason rec|rec rq _ _ _ Hty Hid|k lo rq _ _ _ Hty|k lo rec rq _ _ _ _ _ Hty _ Hid]; cbn in He.
  - apply numbered_entry; [lia|done].
  - refine (numbered_note s (GATEWAY client_id _) e _ _ Hn); [by intros ? ? [= _ <-]|]. change (orders_in _) with 0%nat. lia.
  - eapply Horder; [done..| |done]. unfold own_id. by rewrite Hty, Hid.
  - apply numbered_request; [|apply numbered_entry; [lia|done]]. rewrite (proj1 (stamp_request_same stamps tsc rq)). unfold own_id. rewrite Hty. constructor.
  - eapply Horder; [done..| |done]. unfold own_id. by rewrite Hty, Hid.
Qed.

Lemma push_translation_flows client_id stamps tsc t e s :
  translated (order_entry_ s) client_id t -> entry_wf e -> next_order_id_ e = next_order_id_ (order_entry_ s) + ids_taken t ->
  flows s -> flows (push_translation client_id stamps tsc t e s).
Proof.
  intros Ht He Hnext [Hn Hr Hx Hp]. destruct (push_translation_extends client_id stamps tsc t e s) as [H1%prefix_length H2%prefix_length _].
  split; [by apply numbered_translation|lia|lia|]. rewrite push_translation_pipeline by done. apply step_push_inv. by eapply translated_inv.
Qed.

Lemma handle_ouch_flow rdtsc client_id msg stamps l a l' :
  client_ok client_id -> frame_typed msg -> handle_ouch_ rdtsc client_id msg stamps l = Some (a, l') -> keeps_flow (lk_server l) (lk_server l').
Proof.
  intros Hc Hm E. assert (is_u32 client_id) as Hu by (unfold client_ok, MAX_CLIENTS in Hc; ulia).
  destruct (handle_ouch_pushes _ _ _ _ _ _ _ E) as [_ [[_ ->]|(_ & t & e & tsc & Et & Hs)]]; [done|].
  destruct (same_pushes_flow _ _ Hs) as [Hx Hf]. pose proof (push_translation_extends client_id stamps tsc t e (lk_server l)) as Hx0.
  split; [by etransitivity|]. intros Hfew H. apply Hf; [done|]. pose proof (few_notes_before _ _ (transitivity Hx0 Hx) Hfew) as Hfew0.
  pose proof (orders_in_le (notes_pushed (lk_server l))). pose proof (nb_next _ (fl_numbered _ H)) as Hnext.
  destruct (translate_handled (order_entry_ (lk_server l)) client_id msg (pi_entry _ (fl_pipeline _ H)) Hu Hm) as (t' & e' & Et' & He & Htr & Hn & _);
    [unfold few_notes in Hfew0; lia|]. rewrite Et in Et'. injection Et' as <- <-. by apply push_translation_flows.
Qed.

#[export] Instance keeps_flow_moves rdtsc : InboundMoves rdtsc keeps_flow.
Proof.
  split.
  - split; [split; [by intros s; split|]; intros s1 s2 s3; apply keeps_flow_trans|apply same_pushes_flow|apply push_note_flow].
  - intros. by eapply handle_ouch_flow.
Qed.
End Flow.

(** ** What the clients said

    The gateway's part of the inbound thread is its translation, one message after
    another in the order they were handled. *)

Fixpoint translate_all (messages : list (Z * OuchInboundFrame)) (e : OrderEntry) : option (list (Z * Translation) * OrderEntry) :=
  match messages with
  | [] => Some ([], e)
  | (client_id, msg) :: messages =>
      match translate client_id msg e with
      | None => None
      | Some (t, e) =>
          match translate_all messages e with
          | None => None
          | Some (ts, e) => Some ((client_id, t) :: ts, e)
          end
      end
  end.

Lemma translate_all_app messages messages' e ts e1 ts' e2 :
  translate_all messages e = Some (ts, e1) -> translate_all messages' e1 = Some (ts', e2) ->
  translate_all (messages ++ messages') e = Some (ts ++ ts', e2).
Proof.
  revert e ts. induction messages as [|[client_id msg] messages IH]; intros e ts E E'; cbn [translate_all app] in *; [by injection E as <- ->|].
  destruct (translate client_id msg e) as [[t e0]|]; [|done]. destruct (translate_all messages e0) as [[ts0 e0']|] eqn:E0; [|done]. injection E as <- ->.
  by rewrite (IH _ _ E0 E').
Qed.

(** The gateway's notes with their clients, and requests without their time stamps. *)
Definition notes_of (notes : list ServerNote) : list (Z * GatewayNote) :=
  omap (fun note => match note with GATEWAY client_id g => Some (client_id, g) | _ => None end) notes.
Definition unstamp (rq : EngineRequest) : EngineRequest := stamp_request (mkStamps 0 0) 0 rq.

Definition translated_notes (ts : list (Z * Translation)) : list (Z * GatewayNote) := omap (fun '(client_id, t) => pair client_id <$> tr_note t) ts.
Definition translated_requests (ts : list (Z * Translation)) : list EngineRequest := unstamp <$> omap (fun '(_, t) => tr_request t) ts.

(** [s'] follows [s] by handling these messages: the gateway's state, notes and requests
    are those of their translations. *)
Definition handled (messages : list (Z * OuchInboundFrame)) (s s' : Inbound) : Prop :=
  exists ts, translate_all messages (order_entry_ s) = Some (ts, order_entry_ s') /\
    notes_of (notes_pushed s') = notes_of (notes_pushed s) ++ translated_notes ts /\
    unstamp <$> requests_pushed s' = (unstamp <$> requests_pushed s) ++ translated_requests ts.

Lemma handled_trans messages messages' s1 s2 s3 : handled messages s1 s2 -> handled messages' s2 s3 -> handled (messages ++ messages') s1 s3.
Proof.
  intros (ts & E & En & Er) (ts' & E' & En' & Er'). exists (ts ++ ts').
  split; [by eapply translate_all_app|]. unfold translated_notes, translated_requests in *.
  rewrite !omap_app, fmap_app. rewrite En', En, Er', Er, <- !app_assoc. done.
Qed.

Lemma handled_same s s' : same_pushes s s' -> handled [] s s'.
Proof. intros (E1 & E2 & E3 & _). exists []. rewrite E1, E2, E3. cbn. by rewrite !app_nil_r. Qed.

#[export] Instance handled_quiet : QuietMoves (handled []).
Proof.
  split.
  - split; [intros s; by apply handled_same|]. intros s1 s2 s3. apply (handled_trans [] []).
  - apply handled_same.
  - intros note s Hn. exists []. split; [done|]. cbn [notes_pushed requests_pushed order_entry_]. unfold notes_of, translated_notes, translated_requests.
    rewrite omap_app. cbn. rewrite !app_nil_r. destruct note; [done|..]; by rewrite ?app_nil_r.
Qed.

(** A message of a client. *)
Lemma handled_ouch rdtsc client_id msg stamps l a l' :
  handle_ouch_ rdtsc client_id msg stamps l = Some (a, l') ->
  handled (match msg with INBOUND_NONE => [] | _ => [(client_id, msg)] end) (lk_server l) (lk_server l') /\ lk_conn l' = lk_conn l.
Proof.
  intros E. destruct (handle_ouch_pushes _ _ _ _ _ _ _ E) as [Hc [[-> ->]|(Hm & t & e & tsc & Et & Hs)]]; (split; [|done]); [by apply handled_same|].
  assert (handled [(client_id, msg)] (lk_server l) (lk_server l')) as H; [|by destruct msg].
  apply (handled_trans [(client_id, msg)] [] _ (push_translation client_id stamps tsc t e (lk_server l))); [|by apply handled_same].
  exists [(client_id, t)]. cbn [translate_all]. rewrite Et.
  unfold push_translation, notes_of, translated_notes, translated_requests. destruct t as [[note|] [rq|]]; cbv zeta; cbn [tr_note tr_request push_request order_entry_ notes_pushed requests_pushed];
    rewrite ?omap_app, ?fmap_app; cbn; rewrite ?app_nil_r; done.
Qed.
