(* ===== verification/Hearing.v ===== *)
(** * Hearing: what the clients said, as one who watches the wire hears it

    A [Line] is what an observer of a connection knows: the bytes that are no whole packet
    yet, who speaks, and whether the connection is over.  He sees the segments TCP
    delivers and the notes the server publishes, which tell him whether the login of a
    connection was accepted, and as whom; he does not see the server's tables.  What he
    hears are the OUCH messages of logged-in clients.  [hear_event_ok] shows that the
    inbound thread handles exactly these, in this order, whatever the bytes and however
    TCP cuts them. *)

From S2P Require Import Prelude Types WireCodec Clock OuchProto OuchCorrect Validation OrderEntry OuchTyped OuchResponder Gateway.
From S2P Require Import SoupProto Reassembly Pipeline Inbound NoteProtocol InboundSteps InboundFlow.

(** ** The observer *)

Record Line := mkLine { li_conn : ConnId; li_over : bool; li_speaker : option Z; li_rest : list Z }.
Definition Line_new : Line := mkLine (mkConnId 0 0) true None [].

(** Who the login of a connection was accepted as. *)
Definition admitted (notes : list ServerNote) (conn : ConnId) : option Z :=
  head (omap (fun note => match note with LOGIN_ACCEPTED id x _ => if decide (x = conn) then Some id else None | _ => None end) notes).

(** The server has said that a connection is over. *)
Definition gone (notes : list ServerNote) (conn : ConnId) : bool :=
  existsb (fun note => match note with DISCONNECTED _ x => bool_decide (x = conn) | _ => false end) notes.

(** One packet: who speaks after it and what was said, or the end of the conversation.
    [admitted] is what the server makes of the connection's first login. *)
Definition hear_soup (admitted : option Z) (speaker : option Z) (p : SoupPacket) : option (option Z * list (Z * OuchInboundFrame)) :=
  if soup_type p =? SOUP_LOGIN_REQUEST then
    match speaker, admitted with
    | Some _, _ => Some (speaker, [])
    | None, Some id => Some (Some id, [])
    | None, None => None
    end
  else if soup_type p =? SOUP_UNSEQUENCED_DATA then
    Some (speaker, match speaker, decode_inbound_ouch (soup_payload p) with
                   | Some id, Some INBOUND_NONE => []
                   | Some id, Some msg => [(id, msg)]
                   | _, _ => []
                   end)
  else if soup_type p =? SOUP_LOGOUT_REQUEST then None
  else Some (speaker, []).

Record Heard := mkHeard { hd_said : list (Z * OuchInboundFrame); hd_over : bool; hd_speaker : option Z; hd_rest : list Z }.

(** The packets of a stream of bytes, up to its end or the end of the conversation. *)
Fixpoint hear_stream (admitted : option Z) (fuel : nat) (speaker : option Z) (bytes : list Z) : Heard :=
  match bytes, fuel with
  | [], _ | _, O => mkHeard [] false speaker bytes
  | _, S fuel =>
      let parsed := parse_soup_packet bytes in
      match soup_status parsed with
      | PACKET =>
          match hear_soup admitted speaker (soup_packet parsed) with
          | None => mkHeard [] true speaker []
          | Some (speaker, said) =>
              let h := hear_stream admitted fuel speaker (drop (soup_consumed parsed) bytes) in
              mkHeard (said ++ hd_said h) (hd_over h) (hd_speaker h) (hd_rest h)
          end
      | MALFORMED => mkHeard [] true speaker []
      | INCOMPLETE => mkHeard [] ((2 <=? length bytes)%nat && too_long bytes) speaker bytes
      end
  end.

(** An event of TCP, and the notes published by the time it has been handled.  A packet
    over the limit whose header was cut ends the conversation. *)
Definition hear_event (notes : list ServerNote) (ev : tcp_event) (lines : list Line) : list Line * list (Z * OuchInboundFrame) :=
  let conn := event_conn ev in
  match lines !! slot_of conn with
  | None => (lines, [])
  | Some li =>
      match ev with
      | tcp_accepted _ => (<[slot_of conn := mkLine conn false None []]> lines, [])
      | tcp_data _ bytes =>
          if bool_decide (li_conn li = conn) && negb (li_over li) then
            if cut_long (li_rest li) bytes then (<[slot_of conn := mkLine conn true (li_speaker li) []]> lines, []) else
            let h := hear_stream (admitted notes conn) (length (li_rest li ++ bytes)) (li_speaker li) (li_rest li ++ bytes) in
            (<[slot_of conn := mkLine conn (hd_over h) (hd_speaker h) (hd_rest h)]> lines, hd_said h)
          else (lines, [])
      | tcp_peer_closed _ | tcp_closed _ | tcp_reset _ =>
          if bool_decide (li_conn li = conn) then (<[slot_of conn := mkLine conn true (li_speaker li) []]> lines, []) else (lines, [])
      end
  end.

(** A timeout scan: who was cut off is in the notes. *)
Definition hang_up (notes : list ServerNote) (li : Line) : Line :=
  if gone notes (li_conn li) then mkLine (li_conn li) true (li_speaker li) (li_rest li) else li.

(** ** The server's tables and the observer's *)

Definition taking (c : InboundConnection) : bool := ic_open c && negb (ic_closing c).
Definition speaker_of (c : InboundConnection) : option Z := if ic_logged_in c then Some (ic_client_id c) else None.

Definition line_of (c : InboundConnection) (li : Line) : Prop :=
  li_conn li = ic_conn c /\ li_over li = negb (taking c) /\ (taking c = true -> li_speaker li = speaker_of c /\ li_rest li = ic_partial c).

Definition lines_ok (s : Inbound) (lines : list Line) : Prop := Forall2 line_of (inbound_connections_ s) lines.

(** *** Notes *)

Lemma admitted_app notes more conn id : admitted notes conn = Some id -> admitted (notes ++ more) conn = Some id.
Proof. unfold admitted. rewrite omap_app. by destruct (omap _ notes). Qed.

Lemma admitted_prefix notes notes' conn id : notes `prefix_of` notes' -> admitted notes conn = Some id -> admitted notes' conn = Some id.
Proof. intros [more ->]. apply admitted_app. Qed.

Lemma admitted_snoc notes note conn :
  admitted notes conn = None -> admitted (notes ++ [note]) conn = match note with LOGIN_ACCEPTED id x _ => if decide (x = conn) then Some id else None | _ => None end.
Proof.
  unfold admitted. rewrite omap_app. destruct (omap _ notes); [|done]. intros _. destruct note as [|id x seq| |]; try done. cbn. by case_decide.
Qed.

(** A connection that is not named in the notes. *)
Lemma named_by_note notes d note conn : notes_obey notes d -> note ∈ notes -> note_conn note = Some conn -> conn ∈ dk_named d.
Proof.
  induction 1 as [|notes note0 d _ IH _]; [by intros ?%elem_of_nil|]. intros [Hin| ->%list_elem_of_singleton]%elem_of_app Hc.
  - specialize (IH Hin Hc). destruct note0; cbn [desk_note dk_named]; [done|by right..].
  - destruct note0; [done|..]; injection Hc as <-; by left.
Qed.

Lemma unnamed_not_admitted notes d conn : notes_obey notes d -> conn ∉ dk_named d -> admitted notes conn = None.
Proof.
  intros Ho Hn. unfold admitted. destruct (omap _ notes) as [|id ids] eqn:E; [done|]. exfalso.
  assert (id ∈ id :: ids) as Hin by left. rewrite <- E in Hin. apply list_elem_of_omap in Hin as (note & Hin & Heq).
  destruct note as [|id' x seq| |]; try done. case_decide; [|done]. subst x. apply Hn. by eapply named_by_note.
Qed.

Lemma gone_spec notes conn : gone notes conn = true <-> exists id, DISCONNECTED id conn ∈ notes.
Proof.
  unfold gone. rewrite existsb_exists. split.
  - intros (note & Hin & Heq). destruct note as [| | |id x]; try done. apply bool_decide_eq_true in Heq as ->. exists id. by apply list_elem_of_In.
  - intros (id & Hin). exists (DISCONNECTED id conn). split; [by apply list_elem_of_In|]. by apply bool_decide_eq_true.
Qed.

Lemma gone_prefix notes notes' conn : notes `prefix_of` notes' -> gone notes conn = true -> gone notes' conn = true.
Proof. intros [more ->]. rewrite !gone_spec. intros [id Hin]. exists id. apply elem_of_app. by left. Qed.

(** A connection that was announced and is over is in no slot. *)
Lemma gone_no_slot notes d conn : notes_obey notes d -> gone notes conn = true -> dk_slots d !! slot_of conn <> Some conn.
Proof.
  rewrite gone_spec. intros Ho [id Hin]. induction Ho as [|notes note d Ho IH Hok]; [by apply elem_of_nil in Hin|].
  apply elem_of_app in Hin as [Hin|Hin%list_elem_of_singleton].
  - specialize (IH Hin). pose proof (named_by_note _ _ _ conn Ho Hin eq_refl) as Hnamed.
    destruct note as [|id' x seq|reason x|id' x]; cbn [desk_note dk_slots note_allowed] in *; [done|..].
    + destruct Hok as [(_ & _ & Hnew) _]. intros [(_ & ->)|(_ & ?)]%lookup_insert_Some; done.
    + destruct Hok as (_ & _ & Hnew). intros [(_ & ->)|(_ & ?)]%lookup_insert_Some; done.
    + intros (_ & ?)%lookup_delete_Some. done.
  - subst note. cbn [desk_note dk_slots]. by rewrite lookup_delete_eq.
Qed.

Lemma obey_wf notes d : notes_obey notes d -> desk_wf d.
Proof. induction 1; [apply Desk_new_wf|by apply desk_note_wf]. Qed.

Lemma live_not_gone conns notes d i c :
  desk_ok conns notes d -> conns !! i = Some c -> taking c = true -> gone notes (ic_conn c) = false.
Proof.
  intros Hd Ei [Ho Hc%negb_true_iff]%andb_true_iff. destruct (gone notes (ic_conn c)) eqn:E; [|done]. exfalso.
  pose proof (do_obey _ _ _ Hd) as Hob. destruct (ic_logged_in c) eqn:El.
  - destruct (do_logged _ _ _ Hd i c Ei El) as (Hs & _). apply (dw_sessions _ (obey_wf _ _ Hob)) in Hs. by eapply gone_no_slot.
  - destruct (do_conn _ _ _ Hd i c Ei Ho) as (_ & _ & Hf). destruct (Hf El Hc) as [_ Hn]. apply gone_spec in E as [id Hin].
    apply Hn. by eapply named_by_note.
Qed.

(** *** The handlers of one connection *)

Lemma client_of_conn username l id l' :
  client_of username l = Some (id, l') -> lk_conn l' = lk_conn l.
Proof.
  unfold client_of. rewrite gets_bind. destruct (_ !! username); [by intros [= _ <-]|]. rewrite gets_bind. destruct (_ <=? _); by intros [= _ <-].
Qed.

(** A login is turned away or accepted, and the note says which. *)
Lemma login_cases payload l l' :
  login_ payload l = Some (tt, l') ->
  (exists reason, lk_conn l' = (lk_conn l) <| ic_closing := true |> /\
     notes_pushed (lk_server l') = notes_pushed (lk_server l) ++ [LOGIN_REJECTED reason (ic_conn (lk_conn l))]) \/
  (exists id sequence, lk_conn l' = mkInConn (ic_conn (lk_conn l)) (ic_open (lk_conn l)) true (ic_closing (lk_conn l)) id (ic_opened_tsc (lk_conn l))
       (ic_last_recv_tsc (lk_conn l)) (ic_partial (lk_conn l)) /\
     notes_pushed (lk_server l') = notes_pushed (lk_server l) ++ [LOGIN_ACCEPTED id (ic_conn (lk_conn l)) sequence]).
Proof.
  assert (forall reason l1, reject_login_ reason l1 = Some (tt, l') -> lk_conn l1 = lk_conn l -> notes_pushed (lk_server l1) = notes_pushed (lk_server l) ->
    exists reason, lk_conn l' = (lk_conn l) <| ic_closing := true |> /\
      notes_pushed (lk_server l') = notes_pushed (lk_server l) ++ [LOGIN_REJECTED reason (ic_conn (lk_conn l))]) as Hrej.
  { intros reason l1 [= <-] Hc Hn. exists reason. cbn [lk_conn lk_server notes_pushed ic_conn]. by rewrite Hc, Hn. }
  intros E. unfold login_ in E. destruct (decode_soup_login_request payload) as [login|]; [|left; by eapply Hrej].
  cbv zeta in E. destruct (bool_decide _ && bool_decide _ && bool_decide _); [left; by eapply Hrej|].
  destruct (normalize_username _) as [username []]; [left; by eapply Hrej|]. apply bind_inv in E as (id & l1 & E1 & E).
  pose proof (client_of_notes _ _ _ _ E1) as Hn1. pose proof (client_of_conn _ _ _ _ E1) as Hc1.
  destruct id as [id|]; [|left; by eapply Hrej]. rewrite bind_bind, gets_bind in E. apply bind_inv in E as (connected & l2 & E2 & E).
  destruct (inbound_sessions_ (lk_server l1) !! Z.to_nat id) as [b|] eqn:Eb; [|done]. injection E2 as <- <-. destruct b; [left; by eapply Hrej|].
  rewrite bind_bind, gets_bind in E. apply bind_inv in E as (retained & l3 & E3 & E). destruct (retained_from_ _ !! _); [|done]. injection E3 as <- <-.
  destruct (negb _ && _); [left; by eapply Hrej|]. apply bind_inv in E as ([] & l4 & E4 & E). unfold set_connected in E4. rewrite Eb in E4. injection E4 as <-.
  injection E as <-. right. eexists _, _. cbn [lk_conn lk_server notes_pushed ic_conn]. by rewrite Hc1, Hn1.
Qed.

Lemma disconnect_cases l l' :
  disconnect_ l = Some (tt, l') -> ic_conn (lk_conn l') = ic_conn (lk_conn l) /\ taking (lk_conn l') = false /\
  (notes_pushed (lk_server l') = notes_pushed (lk_server l) /\ ic_open (lk_conn l) = false \/
   exists id, notes_pushed (lk_server l') = notes_pushed (lk_server l) ++ [DISCONNECTED id (ic_conn (lk_conn l))]).
Proof.
  unfold disconnect_. rewrite gets_bind. destruct (ic_open (lk_conn l)) eqn:Eo; cbn [negb].
  2: { intros [= <-]. split; [done|]. split; [unfold taking; by rewrite Eo|by left]. }
  intros ([] & l1 & E1 & E)%bind_inv. injection E as <-.
  assert (lk_conn l1 = lk_conn l /\ notes_pushed (lk_server l1) = notes_pushed (lk_server l)) as [Hc Hn].
  { destruct (ic_logged_in (lk_conn l)); cbn [when] in E1; [|by injection E1 as <-]. unfold set_connected in E1. destruct (_ !! _); [|done]. by injection E1 as <-. }
  cbn [lk_conn lk_server notes_pushed ic_conn]. rewrite Hc, Hn. split; [done|]. split; [done|]. right. by eexists.
Qed.

(** Nobody has been let in on a connection that is still to log in. *)
Definition not_admitted (l : Link) : Prop := ic_logged_in (lk_conn l) = false -> admitted (notes_pushed (lk_server l)) (ic_conn (lk_conn l)) = None.

Section Packets.
Context (rdtsc : nat -> Z).

(** A handled message leaves the notes about connections alone. *)
Lemma ouch_notes client_id msg stamps l a l' conn :
  handle_ouch_ rdtsc client_id msg stamps l = Some (a, l') ->
  notes_pushed (lk_server l) `prefix_of` notes_pushed (lk_server l') /\
  (admitted (notes_pushed (lk_server l)) conn = None -> admitted (notes_pushed (lk_server l')) conn = None).
Proof.
  intros E. destruct (handle_ouch_pushes _ _ _ _ _ _ _ E) as [_ [[_ ->]|(_ & t & e & tsc & _ & (_ & -> & _))]]; [done|].
  unfold push_translation. destruct (tr_note t), (tr_request t); cbv zeta; cbn [push_request notes_pushed]; (split; [first [done|by eexists]|]);
    intros Hn; rewrite ?admitted_snoc by done; done.
Qed.

Lemma handle_packet_hears stamps packet l b l' final :
  handle_soup_packet_ rdtsc stamps packet l = Some (b, l') -> taking (lk_conn l) = true -> not_admitted l ->
  notes_pushed (lk_server l') `prefix_of` final -> (b = false -> final = notes_pushed (lk_server l')) ->
  ic_conn (lk_conn l') = ic_conn (lk_conn l) /\ notes_pushed (lk_server l) `prefix_of` notes_pushed (lk_server l') /\ b = taking (lk_conn l') /\
  match hear_soup (admitted final (ic_conn (lk_conn l))) (speaker_of (lk_conn l)) packet with
  | None => b = false /\ handled [] (lk_server l) (lk_server l')
  | Some (speaker, said) => b = true /\ speaker_of (lk_conn l') = speaker /\ handled said (lk_server l) (lk_server l') /\ not_admitted l'
  end.
Proof.
  intros E Ht Hna Hpre Hend. unfold handle_soup_packet_ in E. rewrite gets_bind in E. apply bind_inv in E as ([] & l1 & E1 & E). injection E as <- <-.
  assert (handled [] (lk_server l) (lk_server l)) as Hnone by (by apply handled_same). unfold hear_soup.
  destruct (_ =? SOUP_LOGIN_REQUEST) eqn:Et1; [|destruct (_ =? SOUP_UNSEQUENCED_DATA) eqn:Et2; [|destruct (_ =? SOUP_LOGOUT_REQUEST) eqn:Et3]].
  - unfold speaker_of at 1. destruct (ic_logged_in (lk_conn l)) eqn:El; cbn [negb when] in E1.
    { injection E1 as <-. split; [done|]. split; [done|]. split; [done|]. split; [done|]. split; [unfold speaker_of; by rewrite El|done]. }
    pose proof (stepwise_login (handled []) _ _ _ _ E1) as Hh. specialize (Hna El).
    destruct (login_cases _ _ _ E1) as [(reason & Hc & Hn)|(id & sequence & Hc & Hn)]; rewrite Hc, Hn in *; cbn [ic_conn ic_open ic_closing] in *.
    + rewrite andb_false_r in *. rewrite (Hend eq_refl), admitted_snoc by done. split; [done|]. split; [by eexists|]. split; [|done]. unfold taking. cbn. by rewrite andb_false_r.
    + assert (admitted final (ic_conn (lk_conn l)) = Some id) as -> by (eapply admitted_prefix; [exact Hpre|]; rewrite admitted_snoc by done; by rewrite decide_True).
      split; [done|]. split; [by eexists|]. split; [done|]. split; [exact Ht|]. split; [done|]. split; [done|]. unfold not_admitted. by rewrite Hc.
  - unfold speaker_of. destruct (ic_logged_in (lk_conn l)) eqn:El; cbn [when] in E1.
    2: { injection E1 as <-. rewrite El. split; [done|]. split; [done|]. split; [done|]. split; [exact Ht|]. split; [done|]. split; [|done]. done. }
    apply bind_inv in E1 as (msg & l2 & E2 & E1). unfold lift in E2. destruct (decode_inbound_ouch _) as [m|]; [|done]. injection E2 as -> <-.
    destruct (handled_ouch _ _ _ _ _ _ _ E1) as [Hh Hc]. destruct (ouch_notes _ _ _ _ _ _ (ic_conn (lk_conn l)) E1) as [Hp Hadm].
    rewrite Hc, El. split; [done|]. split; [done|]. split; [done|]. split; [exact Ht|]. split; [done|]. split; [by destruct msg|]. unfold not_admitted. rewrite Hc. congruence.
  - pose proof (stepwise_disconnect (handled []) _ _ _ E1) as Hh. destruct (disconnect_cases _ _ E1) as (Hc & Htk & Hn).
    split; [done|]. split; [destruct Hn as [[-> _]|[id ->]]; [done|by eexists]|]. split; [done|]. by split.
  - injection E1 as <-. split; [done|]. split; [done|]. split; [done|]. split; [exact Ht|]. done.
Qed.

(** The loop hears the stream. *)
Lemma packet_loop_hears stamps fuel bytes l l' :
  packet_loop (H := link_sink rdtsc stamps) fuel bytes l = Some (tt, l') -> taking (lk_conn l) = true -> ic_partial (lk_conn l) = [] -> not_admitted l ->
  let h := hear_stream (admitted (notes_pushed (lk_server l')) (ic_conn (lk_conn l))) fuel (speaker_of (lk_conn l)) bytes in
  ic_conn (lk_conn l') = ic_conn (lk_conn l) /\ notes_pushed (lk_server l) `prefix_of` notes_pushed (lk_server l') /\
  handled (hd_said h) (lk_server l) (lk_server l') /\ hd_over h = negb (taking (lk_conn l')) /\
  (taking (lk_conn l') = true -> hd_speaker h = speaker_of (lk_conn l') /\ hd_rest h = ic_partial (lk_conn l')).
Proof.
  revert bytes l. induction fuel as [|fuel IH]; intros bytes l E Ht Hp Hna; cbv zeta.
  - destruct bytes; cbn [packet_loop hear_stream] in *; [|done]. injection E as <-. rewrite Ht, Hp. split; [done|]. split; [done|]. split; [by apply handled_same|done].
  - destruct bytes as [|b0 bytes]; cbn [packet_loop hear_stream] in *.
    { injection E as <-. rewrite Ht, Hp. split; [done|]. split; [done|]. split; [by apply handled_same|done]. }
    set (all := b0 :: bytes) in *. cbv zeta in E |- *. destruct (soup_status (parse_soup_packet all)).
    + apply bind_inv in E as (ok & l1 & E1 & E). cbn [handle_packet link_sink] in E1. pose proof E1 as Eh.
      destruct (handle_result (H := link_sink rdtsc stamps) _ _ _ _ Eh Hp) as [_ Hp1]. cbn [partial link_sink] in Hp1. destruct ok; cbn [negb] in E.
      * destruct (handle_packet_hears _ _ _ _ _ (notes_pushed (lk_server l1)) E1 Ht Hna) as (Hc1 & Hpre1 & Ht1 & Hm1); [done|done|].
        symmetry in Ht1. assert (not_admitted l1) as Hna1 by (destruct (hear_soup _ _ _) as [[]|]; [apply Hm1|by destruct Hm1]).
        destruct (IH _ _ E Ht1 Hp1 Hna1) as (Hc & Hpre & Hh & Hover & Hrest). rewrite Hc1 in *.
        destruct (handle_packet_hears _ _ _ _ _ (notes_pushed (lk_server l')) E1 Ht Hna Hpre) as (_ & _ & _ & Hm); [done|].
        clear Hm1. destruct (hear_soup (admitted (notes_pushed (lk_server l')) _) _ _) as [[speaker said]|]; [|by destruct Hm]. destruct Hm as (_ & Hsp & Hsaid & _). rewrite Hsp in *.
        cbn [hd_said hd_over hd_speaker hd_rest]. split; [done|]. split; [by etransitivity|]. split; [by eapply handled_trans|]. by split.
      * injection E as <-. destruct (handle_packet_hears _ _ _ _ _ (notes_pushed (lk_server l1)) E1 Ht Hna) as (Hc1 & Hpre1 & Ht1 & Hm1); [done|done|].
        destruct (hear_soup _ _ _) as [[speaker said]|]; [by destruct Hm1|]. destruct Hm1 as [_ Hh]. cbn [hd_said hd_over hd_speaker hd_rest].
        rewrite <- Ht1. by split_and!.
    + destruct ((2 <=? length all)%nat && too_long all).
      * pose proof (stepwise_disconnect (handled []) _ _ _ E) as Hh. destruct (disconnect_cases _ _ E) as (Hc & Htk & Hn). cbn [hd_said hd_over hd_speaker hd_rest].
        rewrite Htk. split; [done|]. split; [destruct Hn as [[-> _]|[id ->]]; [done|by eexists]|]. by split_and!.
      * rewrite modify_bind in E. unfold append_partial in E. destruct (_ <=? _)%nat; [|done]. injection E as <-. cbn [hd_said hd_over hd_speaker hd_rest].
        cbn [set_partial partial link_sink lk_conn lk_server ic_conn ic_partial app]. change (taking _) with (taking (lk_conn l)). rewrite Ht.
        split; [done|]. split; [done|]. split; [by apply handled_same|done].
    + pose proof (stepwise_disconnect (handled []) _ _ _ E) as Hh. destruct (disconnect_cases _ _ E) as (Hc & Htk & Hn). cbn [hd_said hd_over hd_speaker hd_rest].
      rewrite Htk. split; [done|]. split; [destruct Hn as [[-> _]|[id ->]]; [done|by eexists]|]. by split_and!.
Qed.

(** ** Events *)

Lemma lines_insert s s' slot c' li' lines :
  lines_ok s lines -> inbound_connections_ s' = <[slot := c']> (inbound_connections_ s) -> line_of c' li' -> lines_ok s' (<[slot := li']> lines).
Proof. intros H E Hl. unfold lines_ok. rewrite E. by apply Forall2_insert. Qed.

(** A handler run on one connection. *)
Lemma with_connection_line s s' slot c (m : M Link unit) :
  with_connection slot m s = Some (tt, s') -> inbound_connections_ s !! slot = Some c ->
  exists l', m (mkLink c s) = Some (tt, l') /\ s' = (lk_server l') <| inbound_connections_ := <[slot := lk_conn l']> (inbound_connections_ (lk_server l')) |>.
Proof.
  intros Ew E. unfold with_connection in Ew. rewrite E in Ew. destruct (m (mkLink c s)) as [[[] l']|]; [|done]. injection Ew as <-. by exists l'.
Qed.

Lemma handled_put messages s s' conns : handled messages s s' -> handled messages s (s' <| inbound_connections_ := conns |>).
Proof. done. Qed.

(** A segment. *)
Lemma data_hears s s' slot c li stamps bytes lines :
  in_inv s -> server_desk s -> inbound_connections_ s !! slot = Some c -> Forall is_u8 bytes -> taking c = true ->
  lines_ok s lines -> lines !! slot = Some li ->
  with_connection slot
    (_ ← on_conn (fun c => c <| ic_last_recv_tsc := st_recv_tsc stamps |>); on_data_ (H := link_sink rdtsc stamps) bytes) s = Some (tt, s') ->
  if cut_long (li_rest li) bytes then lines_ok s' (<[slot := mkLine (ic_conn c) true (li_speaker li) []]> lines) /\ handled [] s s'
  else let h := hear_stream (admitted (notes_pushed s') (ic_conn c)) (length (li_rest li ++ bytes)) (li_speaker li) (li_rest li ++ bytes) in
    lines_ok s' (<[slot := mkLine (ic_conn c) (hd_over h) (hd_speaker h) (hd_rest h)]> lines) /\ handled (hd_said h) s s'.
Proof.
  intros HI [d Hd] Ec Hb Ht Hl Eli Ew. pose proof (lookup_lt_Some _ _ _ Ec) as Hlt.
  destruct (with_connection_line _ _ _ _ _ Ew Ec) as (l' & El & ->). set (conns := inbound_connections_ s) in *.
  set (c1 := c <| ic_last_recv_tsc := st_recv_tsc stamps |>). set (l1 := mkLink c1 s). change (on_data_ (H := link_sink rdtsc stamps) bytes l1 = Some (tt, l')) in El.
  assert (link_ok slot conns l1) as H1 by (exact (link_ok_conn slot conns Hlt (mkLink c s) c1 (link_ok_of _ _ _ HI Ec) eq_refl eq_refl eq_refl)).
  destruct (proj1 (Forall_lookup _ _) (ii_pending _ HI) slot c Ec Ht) as [Hp Hu].
  assert (inbound_connections_ (lk_server l') = conns) as Hconns.
  { destruct (on_data_inv (H := link_sink rdtsc stamps) (link_ok slot conns)) with (b := bytes) (s := l1) as (l2 & El2 & Hl2 & _);
      [..|rewrite El in El2; injection El2 as <-; apply Hl2]; try done.
    - intros p l Hlk. by apply link_ok_conn.
    - intros packet l Hlk Htk Hpay. by apply handle_packet_ok.
    - intros l Hlk. destruct (disconnect_ok slot conns Hlt l Hlk) as ([] & l2 & ? & ?). by exists l2. }
  destruct (Forall2_lookup_lr _ _ _ _ _ _ Hl Ec Eli) as (Hli & Hover & Hlive). destruct (Hlive Ht) as [Hsp Hrest]. rewrite Hsp, Hrest.
  assert (forall li', line_of (lk_conn l') li' -> lines_ok ((lk_server l') <| inbound_connections_ := <[slot := lk_conn l']> (inbound_connections_ (lk_server l')) |>) (<[slot := li']> lines)) as Hput.
  { intros li' Hl'. eapply lines_insert; [exact Hl| |exact Hl']. cbn [inbound_connections_]. by rewrite Hconns. }
  pose proof (on_data_cases (H := link_sink rdtsc stamps) bytes l1 ltac:(by apply Forall_app) Hp) as Hcases. cbn [partial link_sink l1 lk_conn c1 ic_partial] in Hcases.
  destruct (cut_long (ic_partial c) bytes).
  - destruct Hcases as [p Hcases]. rewrite Hcases in El. cbn [disconnect link_sink] in El.
    pose proof (stepwise_disconnect (handled []) _ _ _ El) as Hh. destruct (disconnect_cases _ _ El) as (Hc & Htk & _). split; [|exact Hh].
    apply Hput. split; [by rewrite Hc|]. rewrite Htk. by split.
  - rewrite Hcases in El. unfold read_stream in El.
    destruct (packet_loop_hears stamps _ _ _ _ El) as (Hc & _ & Hh & Ho & Hr); [exact Ht|done| |].
    { intros Elog. apply andb_true_iff in Ht as [Hop Hcl%negb_true_iff]. destruct (do_conn _ _ _ Hd slot c Ec Hop) as (_ & _ & Hf).
      destruct (Hf Elog Hcl) as [_ Hn]. exact (unnamed_not_admitted _ _ _ (do_obey _ _ _ Hd) Hn). }
    cbn [notes_pushed]. split; [|exact Hh]. apply Hput. split; [by rewrite Hc|]. by split.
Qed.

(** An event of TCP: the observer hears what the server handles. *)
Lemma hear_event_ok s s' ev stamps lines :
  in_inv s -> server_desk s -> tcp_delivers s ev -> lines_ok s lines -> on_tcp_event_ rdtsc ev stamps s = Some (tt, s') ->
  let r := hear_event (notes_pushed s') ev lines in lines_ok s' r.1 /\ handled r.2 s s'.
Proof.
  intros HI Hd (c & Ec & Hev) Hl E. unfold hear_event. cbv zeta. fold (slot_of (event_conn ev)) in Ec. set (slot := slot_of (event_conn ev)) in *.
  destruct (Forall2_lookup_l _ _ _ _ _ Hl Ec) as (li & Eli & Hli & Hover & Hlive). rewrite Eli. pose proof (lookup_lt_Some _ _ _ Ec) as Hlt.
  assert (ic_conn c = event_conn ev -> with_connection slot disconnect_ s = Some (tt, s') ->
    lines_ok s' (<[slot := mkLine (event_conn ev) true (li_speaker li) []]> lines) /\ handled [] s s') as Hdis.
  { intros Heq Ew. destruct (with_connection_line _ _ _ _ _ Ew Ec) as (l' & El & ->). pose proof (stepwise_disconnect (handled []) _ _ _ El) as Hh.
    destruct (disconnect_cases _ _ El) as (Hc & Htk & _). destruct (disconnect_ok slot _ Hlt _ (link_ok_of _ _ _ HI Ec)) as ([] & l2 & El2 & Hl2). rewrite El in El2. injection El2 as <-.
    split; [|exact Hh]. eapply lines_insert; [exact Hl|cbn [inbound_connections_]; by rewrite (lo_conns _ _ _ Hl2)|]. split; [by rewrite Hc|]. rewrite Htk. by split. }
  assert (forall m r0, with_connection slot (c ← gets lk_conn; if bool_decide (ic_conn c <> event_conn ev) then mret tt else m) s = Some (tt, s') ->
    (ic_conn c = event_conn ev -> with_connection slot m s = Some (tt, s') -> lines_ok s' r0.1 /\ handled r0.2 s s') ->
    let r := if bool_decide (li_conn li = event_conn ev) then r0 else (lines, []) in lines_ok s' r.1 /\ handled r.2 s s') as Hread.
  { intros m r0 Em Hm. rewrite (with_connection_gets _ _ _ _ Ec) in Em. cbv zeta. rewrite Hli. destruct (decide (ic_conn c = event_conn ev)) as [Heq|Hne].
    - rewrite bool_decide_eq_false_2 in Em by (intros Hn; by apply Hn). rewrite bool_decide_eq_true_2 by done. by apply Hm.
    - rewrite bool_decide_eq_true_2, (with_connection_ret _ _ _ Ec) in Em by done. injection Em as <-. rewrite bool_decide_eq_false_2 by done.
      split; [done|]. by apply handled_same. }
  unfold on_tcp_event_ in E. cbv zeta in E. fold (slot_of (event_conn ev)) in E. fold slot in E.
  destruct ev as [conn|conn bytes|conn|conn|conn]; cbn [event_conn] in *.
  - destruct (with_connection_line _ _ _ _ _ E Ec) as (l' & El & ->). injection El as <-. split; [|by apply handled_same].
    eapply lines_insert; [exact Hl|done|]. done.
  - rewrite (with_connection_gets _ _ _ _ Ec) in E. rewrite Hli, Hover, negb_involutive.
    destruct (decide (ic_conn c = conn)) as [Heq|Hne].
    2: { rewrite bool_decide_eq_true_2, (with_connection_ret _ _ _ Ec) in E by done. injection E as <-. rewrite bool_decide_eq_false_2 by done.
      split; [done|]. by apply handled_same. }
    rewrite bool_decide_eq_false_2 in E by (intros Hn; by apply Hn). rewrite bool_decide_eq_true_2 by done. cbn [andb].
    assert (negb (ic_open c) || ic_closing c = negb (taking c)) as Etk by (unfold taking; by destruct (ic_open c), (ic_closing c)). rewrite Etk in E.
    destruct (taking c) eqn:Ht; cbn [negb] in E.
    2: { rewrite (with_connection_ret _ _ _ Ec) in E. injection E as <-. split; [done|]. by apply handled_same. }
    pose proof (data_hears s s' slot c li stamps bytes lines HI Hd Ec Hev Ht Hl Eli E) as Hh. rewrite Heq in Hh. by destruct (cut_long (li_rest li) bytes).
  - eapply (Hread _ (_, _)); [exact E|exact Hdis].
  - eapply (Hread _ (_, _)); [exact E|exact Hdis].
  - eapply (Hread _ (_, _)); [exact E|exact Hdis].
Qed.

(** A connection is left alone, or cut off and the notes say so. *)
Definition spared (notes : list ServerNote) (c c' : InboundConnection) : Prop :=
  c' = c \/ (taking c' = false /\ ic_conn c' = ic_conn c /\ gone notes (ic_conn c) = true).
Definition scanned (s s' : Inbound) : Prop :=
  notes_pushed s `prefix_of` notes_pushed s' /\ Forall2 (spared (notes_pushed s')) (inbound_connections_ s) (inbound_connections_ s').

Lemma scanned_refl s : scanned s s.
Proof. split; [done|]. apply Forall_Forall2_diag, Forall_forall. by left. Qed.

Lemma scanned_trans s1 s2 s3 : scanned s1 s2 -> scanned s2 s3 -> scanned s1 s3.
Proof.
  intros [Hp1 H1] [Hp2 H2]. split; [by etransitivity|]. apply Forall2_same_length_lookup. split; [rewrite (Forall2_length _ _ _ H1); by eapply Forall2_length|].
  intros i c c3 Ec E3. destruct (Forall2_lookup_l _ _ _ _ _ H1 Ec) as (c2 & E2 & Hc). destruct (Forall2_lookup_lr _ _ _ _ _ _ H2 E2 E3) as [->|(Ht & Hn & Hg)].
  - destruct Hc as [->|(? & ? & Hg)]; [by left|right]. split_and!; try done. by eapply gone_prefix.
  - right. destruct Hc as [->|(_ & En & _)]; [done|]. rewrite En in *. by split_and!.
Qed.

Lemma check_timeout_scanned clock now s s' slot :
  in_inv s -> with_connection slot (check_timeout clock now) s = Some (tt, s') -> scanned s s' /\ in_inv s'.
Proof.
  intros HI E. assert (slot < length (inbound_connections_ s))%nat as Hlt.
  { unfold with_connection in E. destruct (inbound_connections_ s !! slot) eqn:Ec; [|done]. by eapply lookup_lt_Some. }
  destruct (check_timeout_ok clock now s slot HI Hlt) as (s3 & E3 & H3 & _). assert (s3 = s') as -> by congruence. split; [|done].
  destruct (lookup_lt_is_Some_2 _ _ Hlt) as [c Ec]. unfold check_timeout in E. rewrite (with_connection_gets _ _ _ _ Ec) in E.
  assert (Some (tt, s) = Some (tt, s') -> scanned s s') as Hsame by (intros [= <-]; apply scanned_refl). destruct (ic_open c) eqn:Eo; cbn [negb] in E.
  2: { rewrite (with_connection_ret _ _ _ Ec) in E. by apply Hsame. }
  cbv zeta in E. match type of E with context [when ?b _] => destruct b end; cbn [when] in E; [|rewrite (with_connection_ret _ _ _ Ec) in E; by apply Hsame].
  destruct (with_connection_line _ _ _ _ _ E Ec) as (l' & El & ->). destruct (disconnect_cases _ _ El) as (Hc & Htk & Hn).
  destruct (disconnect_ok slot _ Hlt _ (link_ok_of _ _ _ HI Ec)) as ([] & l2 & El2 & Hl2). rewrite El in El2. injection El2 as <-.
  cbn [lk_conn lk_server] in *. destruct Hn as [[_ ?]|[id Hn]]; [congruence|]. split; cbn [notes_pushed inbound_connections_]; rewrite Hn; [by eexists|].
  rewrite (lo_conns _ _ _ Hl2). apply Forall2_same_length_lookup. split; [by rewrite length_insert|].
  intros i x y Ex [(<- & <- & _)|(_ & Ey)]%list_lookup_insert_Some; [|left; congruence]. right. rewrite Ec in Ex. injection Ex as <-.
  split; [done|]. split; [done|]. apply gone_spec. exists id. apply elem_of_app. right. by left.
Qed.

Lemma check_timeouts_scanned clock now s s' : in_inv s -> check_timeouts_ clock now s = Some (tt, s') -> scanned s s'.
Proof.
  unfold check_timeouts_. generalize (seq 0 (length (inbound_connections_ s))) as slots. intros slots. revert s. induction slots as [|slot slots IH]; intros s HI E.
  { injection E as <-. apply scanned_refl. }
  cbn [foldl] in E. destruct (with_connection slot (check_timeout clock now) s) as [[[] s1]|] eqn:E1.
  - destruct (check_timeout_scanned _ _ _ _ _ HI E1) as [H1 HI1]. eapply scanned_trans; [exact H1|]. by apply IH.
  - exfalso. clear -E. induction slots; [done|]. by apply IHslots.
Qed.

(** A timeout scan: whom it cuts off is in the notes, and nothing is said. *)
Lemma hang_up_ok clock now s s' lines :
  in_inv s -> server_desk s -> lines_ok s lines -> check_timeouts_ clock now s = Some (tt, s') ->
  lines_ok s' (hang_up (notes_pushed s') <$> lines) /\ handled [] s s'.
Proof.
  intros HI Hd Hl E. split; [|exact (check_timeouts_moves (handled []) clock now s s' E)].
  destruct (check_timeouts_desk clock now s s' HI Hd E) as [[d' Hd'] _]. destruct (check_timeouts_scanned _ _ _ _ HI E) as [_ Hscan].
  apply Forall2_same_length_lookup. split; [rewrite length_fmap, <- (Forall2_length _ _ _ Hl); symmetry; by eapply Forall2_length|].
  intros i c' li' Ec' Eli'. apply list_lookup_fmap_Some in Eli' as (li & -> & Eli).
  destruct (Forall2_lookup_r _ _ _ _ _ Hl Eli) as (c & Ec & Hcn & Hover & Hlive). unfold hang_up. rewrite Hcn.
  destruct (Forall2_lookup_lr _ _ _ _ _ _ Hscan Ec Ec') as [->|(Ht & Hn & ->)].
  - destruct (gone (notes_pushed s') (ic_conn c)) eqn:Eg; [|done]. destruct (taking c) eqn:Et; [by rewrite (live_not_gone _ _ _ _ _ Hd' Ec' Et) in Eg|].
    split; [done|]. rewrite Et. by split.
  - split; [done|]. rewrite Ht. by split.
Qed.
End Packets.

Lemma lines_new band : lines_ok (Inbound_new band) (replicate kMaxConnections Line_new).
Proof. apply Forall2_replicate. done. Qed.

Lemma handled_new band messages s :
  handled messages (Inbound_new band) s ->
  exists ts, translate_all messages (OrderEntry_new band) = Some (ts, order_entry_ s) /\ notes_of (notes_pushed s) = translated_notes ts /\
    unstamp <$> requests_pushed s = translated_requests ts.
Proof. by intros (ts & ? & ? & ?); exists ts. Qed.
