(* ===== verification/Outbound.v ===== *)
(** * Outbound: sessions and sending, the outbound thread's half of the server
    ([src/exchange/server/src/server.cpp], second half)

    Each session has a log; a connection logged into it is sent a control packet (its
    Login Accepted, a heartbeat) and then the log from the session's cursor, as far as
    TCP takes bytes.  TCP is the [dpdk] library's: [tcp_send] says how many bytes the
    n-th call takes and [tcp_sendable] whether a connection is alive; the bytes taken
    and the connections closed are kept as history, and so is every packet ever
    appended to a session. *)

From S2P Require Import Prelude Types WireCodec Clock OuchProto OuchCorrect Validation OrderEntry OuchResponder.
From S2P Require Import SoupProto SessionLog Inbound.

(** ** Data *)

Record PendingLatency := mkPending { pl_t0 : Z; pl_t1 : Z; pl_t2 : Z; pl_t3 : Z; pl_t4 : Z; pl_t5 : Z }.
#[export] Instance PendingLatency_inhabited : Inhabited PendingLatency := populate (mkPending 0 0 0 0 0 0).

(** [LatencySample]: the pending part and the two stamps of the send. *)
Record LatencySample := mkSample { ls_pending : PendingLatency; ls_t6 : Z; ls_t7 : Z }.

Record OutboundConnection := mkOutConn {
  oc_conn : ConnId;
  oc_open : bool;
  oc_close_when_flushed : bool;
  oc_dirty : bool;
  oc_client_id : Z;
  oc_last_sent_tsc : Z;
  oc_control : list Z;            (** the first [control_len] bytes of [control] *)
  oc_control_sent : nat;
  oc_closed_generation : Z;
}.
#[export] Instance OutboundConnection_eta : Eta OutboundConnection := fun c =>
  mkOutConn (oc_conn c) (oc_open c) (oc_close_when_flushed c) (oc_dirty c) (oc_client_id c) (oc_last_sent_tsc c)
    (oc_control c) (oc_control_sent c) (oc_closed_generation c).

Definition OutboundConnection_new : OutboundConnection := mkOutConn (mkConnId 0 0) false false false 0 0 [] 0 0.

Record OutboundSession := mkOutSession {
  os_log : option SessionLog;
  os_slot : option Z;
  os_cursor : Z;
  os_samples : list (Z * PendingLatency);   (** [PendingSample]: end offset, latency *)
  os_samples_head : nat;
  os_samples_count : nat;
  os_history : list (list Z);               (** every packet appended, history *)
}.
#[export] Instance OutboundSession_eta : Eta OutboundSession := fun s =>
  mkOutSession (os_log s) (os_slot s) (os_cursor s) (os_samples s) (os_samples_head s) (os_samples_count s) (os_history s).

Definition kMaxPendingSamples : nat := 64.
Definition kMaxControlPacket : nat := 64.
Definition kMaxSoupPacket : nat := 256.

Definition OutboundSession_new : OutboundSession :=
  mkOutSession None None 0 (replicate kMaxPendingSamples (0, inhabitant)) 0 0 [].

Record Outbound := mkOutbound {
  outbound_connections_ : list OutboundConnection;
  dirty_ : list Z;
  outbound_sessions_ : list OutboundSession;
  out_retained_from_ : list Z;
  tcp_taken : list (ConnId * list Z);       (** what each [send] took, history *)
  tcp_closed : list ConnId;                 (** [close] calls, history *)
  latency_recorded : list LatencySample;    (** given to [latency_.record] *)
  tcp_calls : nat;
  out_tsc_reads : nat;
}.
#[export] Instance Outbound_eta : Eta Outbound := fun s =>
  mkOutbound (outbound_connections_ s) (dirty_ s) (outbound_sessions_ s) (out_retained_from_ s) (tcp_taken s) (tcp_closed s)
    (latency_recorded s) (tcp_calls s) (out_tsc_reads s).

Definition Outbound_new : Outbound :=
  mkOutbound (replicate kMaxConnections OutboundConnection_new) [] (replicate 65 OutboundSession_new) (replicate 65 0)
    [] [] [] 0 0.

(** ** Tables *)

Definition conn_at (slot : Z) : M Outbound OutboundConnection := fun s =>
  (fun c => (c, s)) <$> outbound_connections_ s !! Z.to_nat slot.
Definition set_conn (slot : Z) (c : OutboundConnection) : M Outbound unit :=
  modify (fun s => s <| outbound_connections_ := <[Z.to_nat slot := c]> (outbound_connections_ s) |>).
Definition session_at (id : Z) : M Outbound OutboundSession := fun s =>
  (fun se => (se, s)) <$> outbound_sessions_ s !! Z.to_nat id.
Definition set_session (id : Z) (se : OutboundSession) : M Outbound unit :=
  modify (fun s => s <| outbound_sessions_ := <[Z.to_nat id := se]> (outbound_sessions_ s) |>).

(** [retained_from_[client_id].store(sequence)] *)
Definition store_retained (id sequence : Z) : M Outbound unit := fun s =>
  match out_retained_from_ s !! Z.to_nat id with
  | None => None
  | Some _ => Some (tt, s <| out_retained_from_ := <[Z.to_nat id := sequence]> (out_retained_from_ s) |>)
  end.

Section Sending.
Context (rdtsc : nat -> Z) (tcp_send : nat -> ConnId -> list Z -> nat) (tcp_sendable : nat -> ConnId -> bool).
Context (SOUP_REPLAY_BYTES : Z).

Definition out_tsc : M Outbound Z := fun s =>
  Some (rdtsc (out_tsc_reads s), s <| out_tsc_reads := S (out_tsc_reads s) |>).

(** [tcp_tx_.send], [sendable] and [close] *)
Definition send (conn : ConnId) (bytes : list Z) : M Outbound nat := fun s =>
  let n := tcp_send (tcp_calls s) conn bytes in
  Some (n, (s <| tcp_taken := tcp_taken s ++ [(conn, take n bytes)] |>) <| tcp_calls := S (tcp_calls s) |>).

Definition sendable (conn : ConnId) : M Outbound bool := fun s =>
  Some (tcp_sendable (tcp_calls s) conn, s <| tcp_calls := S (tcp_calls s) |>).

Definition tcp_close (conn : ConnId) : M Outbound unit :=
  modify (fun s => s <| tcp_closed := tcp_closed s ++ [conn] |>).

(** ** Operations *)

Definition mark_dirty_ (slot : Z) : M Outbound unit :=
  c ← conn_at slot;
  if oc_dirty c then mret tt else
  _ ← set_conn slot (c <| oc_dirty := true |>);
  modify (fun s => s <| dirty_ := dirty_ s ++ [conn_slot (oc_conn c)] |>).

Definition open_connection_ (conn : ConnId) : M Outbound unit :=
  let slot := conn_slot conn in
  c ← conn_at slot;
  now ← out_tsc;
  set_conn slot (mkOutConn conn true false (oc_dirty c) 0 now [] 0 (oc_closed_generation c)).

(** The copy into [control] faults past its 64 bytes. *)
Definition send_control_ (slot : Z) (packet : list Z) : M Outbound unit :=
  c ← conn_at slot;
  if (kMaxControlPacket <? length packet)%nat then lift None else
  _ ← set_conn slot (mkOutConn (oc_conn c) (oc_open c) (oc_close_when_flushed c) (oc_dirty c) (oc_client_id c)
        (oc_last_sent_tsc c) packet 0 (oc_closed_generation c));
  mark_dirty_ slot.

Definition close_ (conn : ConnId) : M Outbound unit :=
  let slot := conn_slot conn in
  c ← conn_at slot;
  if oc_closed_generation c =? conn_generation conn then mret tt else
  _ ← set_conn slot (c <| oc_closed_generation := conn_generation conn |>);
  _ ← tcp_close conn;
  if bool_decide (oc_conn c <> conn) || negb (oc_open c) then mret tt else
  _ ← when (negb (oc_client_id c =? 0))
        (se ← session_at (oc_client_id c);
         when (bool_decide (os_slot se = Some slot))
           (set_session (oc_client_id c) (mkOutSession (os_log se) None (os_cursor se) (os_samples se)
              (os_samples_head se) 0 (os_history se))));
  set_conn slot (mkOutConn (oc_conn c) false false (oc_dirty c) 0 (oc_last_sent_tsc c) [] 0 (conn_generation conn)).

Definition set_close_when_flushed (slot : Z) : M Outbound unit :=
  c ← conn_at slot; set_conn slot (c <| oc_close_when_flushed := true |>).

(** The Login Rejected packet on a connection that is then closed. *)
Definition send_login_rejected (slot reason : Z) : M Outbound unit :=
  let '(n, packet) := encode_soup_login_rejected reason (replicate (kSoupHeaderLen + 1) 0) in
  _ ← send_control_ slot (take n packet);
  set_close_when_flushed slot.

(** A session's log, created on its first login. *)
Definition session_log (id : Z) : M Outbound SessionLog :=
  se ← session_at id;
  match os_log se with
  | Some log => mret log
  | None =>
      let log := SessionLog_new SOUP_REPLAY_BYTES in
      _ ← set_session id (se <| os_log := Some log |>);
      _ ← store_retained id (first_sequence log);
      mret log
  end.

Definition accept_login_ (client_id : Z) (conn : ConnId) (sequence : Z) : M Outbound unit :=
  log ← session_log client_id;
  _ ← open_connection_ conn;
  let slot := conn_slot conn in
  let start := if (sequence =? 0) || (sequence >? next_sequence log) then next_sequence log else sequence in
  match offset_of start log with
  | None => send_login_rejected slot kSessionNotAvailable
  | Some offset =>
      c ← conn_at slot;
      _ ← set_conn slot (c <| oc_client_id := client_id |>);
      se ← session_at client_id;
      _ ← set_session client_id (mkOutSession (os_log se) (Some slot) offset (os_samples se) (os_samples_head se) 0 (os_history se));
      let '(n, packet) := encode_soup_login_accepted (mkLoginAccepted (soup_session_id SOUP_SESSION) start)
                            (replicate (kSoupHeaderLen + kSoupLoginAcceptedLen) 0) in
      send_control_ slot (take n packet)
  end.

Definition add_sample (end_off : Z) (latency : option PendingLatency) (se : OutboundSession) : OutboundSession :=
  match latency with
  | Some l =>
      if (os_samples_count se <? kMaxPendingSamples)%nat then
        let i := ((os_samples_head se + os_samples_count se) mod kMaxPendingSamples)%nat in
        mkOutSession (os_log se) (os_slot se) (os_cursor se) (<[i := (end_off, l)]> (os_samples se)) (os_samples_head se)
          (S (os_samples_count se)) (os_history se)
      else se
  | None => se
  end.

Definition send_sequenced_ (client_id : Z) (packet : list Z) (latency : option PendingLatency) : M Outbound unit :=
  se ← session_at client_id;
  match os_log se with
  | None => mret tt
  | Some log =>
      _ ← match os_slot se with
          | Some slot =>
              when (would_overwrite (os_cursor se) (Z.of_nat (length packet)) log)
                (c ← conn_at slot; close_ (oc_conn c))
          | None => mret tt
          end;
      se ← session_at client_id;
      let log' := append packet log in
      _ ← set_session client_id (mkOutSession (Some log') (os_slot se) (os_cursor se) (os_samples se) (os_samples_head se)
            (os_samples_count se) (os_history se ++ [packet]));
      _ ← when (negb (first_sequence log' =? first_sequence log)) (store_retained client_id (first_sequence log'));
      match os_slot se with
      | None => mret tt
      | Some slot =>
          se ← session_at client_id;
          _ ← set_session client_id (add_sample (end_offset log') latency se);
          mark_dirty_ slot
      end
  end.

Definition send_ouch_ (response : OuchResponse) (latency : option PendingLatency) : M Outbound unit :=
  let '(len, scratch) := encode_soup_sequenced (resp_ouch response) (replicate kMaxSoupPacket 0) in
  if (len =? 0)%nat then mret tt else send_sequenced_ (resp_client_id response) (take len scratch) latency.

(** *** Flushing *)

(** The control packet: whether anything went out, and whether it is done. *)
Definition flush_control (slot : Z) : M Outbound (bool * bool) :=
  c ← conn_at slot;
  if (oc_control_sent c <? length (oc_control c))%nat then
    n ← send (oc_conn c) (drop (oc_control_sent c) (oc_control c));
    let sent := (oc_control_sent c + n)%nat in
    let finished := (sent =? length (oc_control c))%nat in
    _ ← set_conn slot (mkOutConn (oc_conn c) (oc_open c) (oc_close_when_flushed c) (oc_dirty c) (oc_client_id c)
          (oc_last_sent_tsc c) (if finished then [] else oc_control c) (if finished then 0%nat else sent)
          (oc_closed_generation c));
    mret ((0 <? n)%nat, finished)
  else mret (false, true).

(** The loop over the log; every round sends at least a byte. *)
Fixpoint flush_log_loop (fuel : nat) (conn : ConnId) (log : SessionLog) (cursor : Z) (sent_any : bool) : M Outbound (Z * bool) :=
  if cursor <? end_offset log then
    match fuel with
    | O => fun _ => None
    | S fuel =>
        n ← send conn (contiguous_from cursor log);
        if (n =? 0)%nat then mret (cursor, sent_any)
        else flush_log_loop fuel conn log (cursor + Z.of_nat n) true
    end
  else mret (cursor, sent_any).

(** Latency samples whose packets are out, oldest first. *)
Fixpoint complete_samples (count : nat) (t6 t7 cursor : Z) (se : OutboundSession) : list LatencySample * OutboundSession :=
  match count with
  | O => ([], se)
  | S count =>
      let '(end_off, l) := os_samples se !!! os_samples_head se in
      if end_off <=? cursor then
        let '(done, se') := complete_samples count t6 t7 cursor
          (mkOutSession (os_log se) (os_slot se) (os_cursor se) (os_samples se)
             ((os_samples_head se + 1) mod kMaxPendingSamples)%nat count (os_history se)) in
        (mkSample l t6 t7 :: done, se')
      else ([], se)
  end.

(** The session's log from the cursor, and the samples that complete with it. *)
Definition flush_log (t6 : Z) (sent_any : bool) (c : OutboundConnection) : M Outbound (bool * bool) :=
  se ← session_at (oc_client_id c);
  log ← lift (os_log se);
  cs ← flush_log_loop (Z.to_nat (end_offset log - os_cursor se)) (oc_conn c) log (os_cursor se) sent_any;
  let '(cursor, sent_any) := (cs : Z * bool) in
  let se := se <| os_cursor := cursor |> in
  t7 ← out_tsc;
  let '(samples, se) := complete_samples (os_samples_count se) t6 t7 cursor se in
  _ ← set_session (oc_client_id c) se;
  _ ← modify (fun s => s <| latency_recorded := latency_recorded s ++ samples |>);
  mret (sent_any, cursor =? end_offset log).

Definition flush_connection_ (slot : Z) : M Outbound bool :=
  t6 ← out_tsc;
  cd ← flush_control slot;
  let '(sent_any, done) := (cd : bool * bool) in
  c ← conn_at slot;
  r ← (if (done : bool) && negb (oc_client_id c =? 0) then flush_log t6 sent_any c else mret (sent_any, done));
  let '(sent_any, done) := (r : bool * bool) in
  _ ← when sent_any (now ← out_tsc; c ← conn_at slot; set_conn slot (c <| oc_last_sent_tsc := now |>));
  if negb done then (alive ← sendable (oc_conn c); mret (negb alive))
  else
    c ← conn_at slot;
    _ ← when (oc_close_when_flushed c) (close_ (oc_conn c));
    mret true.

(** One slot of [flush_]: whether it stays dirty. *)
Definition flush_slot (slot : Z) : M Outbound bool :=
  c ← conn_at slot;
  keep ← (if oc_open c then (finished ← flush_connection_ slot; mret (negb finished)) else mret false);
  if (keep : bool) then mret true else
  c ← conn_at slot;
  _ ← set_conn slot (c <| oc_dirty := false |>);
  mret false.

Fixpoint flush_slots (slots : list Z) : M Outbound (list Z) :=
  match slots with
  | [] => mret []
  | slot :: slots =>
      keep ← flush_slot slot;
      kept ← flush_slots slots;
      mret (if (keep : bool) then slot :: kept else kept)
  end.

Definition flush_ : M Outbound unit :=
  slots ← gets dirty_;
  kept ← flush_slots slots;
  modify (fun s => s <| dirty_ := kept |>).

(** *** Heartbeats *)

Definition heartbeat_packet : list Z := (encode_soup_empty SOUP_SERVER_HEARTBEAT (replicate kSoupHeaderLen 0)).2.

Definition heartbeat_slot (clock : TscClock) (now : Z) (slot : Z) : M Outbound unit :=
  c ← conn_at slot;
  if negb (oc_open c) || (oc_client_id c =? 0) || negb (length (oc_control c) =? 0)%nat then mret tt else
  if ticks_to_ns clock (u64 (now - Z.min now (oc_last_sent_tsc c))) <=? kSoupHeartbeatIntervalNs then mret tt else
  se ← session_at (oc_client_id c);
  log ← lift (os_log se);
  if negb (os_cursor se =? end_offset log) then mret tt else
  send_control_ slot heartbeat_packet.

Fixpoint heartbeat_slots (clock : TscClock) (now : Z) (slots : list Z) : M Outbound unit :=
  match slots with
  | [] => mret tt
  | slot :: slots => _ ← heartbeat_slot clock now slot; heartbeat_slots clock now slots
  end.

Definition heartbeat_ (clock : TscClock) (now : Z) : M Outbound unit :=
  n ← gets (fun s => length (outbound_connections_ s));
  heartbeat_slots clock now (Z.of_nat <$> seq 0 n).

(** *** Notes *)

(** The responder's state is threaded through; [timestamp] is the time of day. *)
Definition on_note_ (note : ServerNote) (timestamp : Z) (responder : OuchResponder) : M Outbound OuchResponder :=
  match note with
  | GATEWAY _ gateway =>
      let '(response, responder) := on_note gateway timestamp responder in
      _ ← match response with Some r => send_ouch_ r None | None => mret tt end;
      mret responder
  | LOGIN_ACCEPTED client_id conn sequence => _ ← accept_login_ client_id conn sequence; mret responder
  | LOGIN_REJECTED reason conn =>
      _ ← open_connection_ conn;
      _ ← send_login_rejected (conn_slot conn) reason;
      mret responder
  | DISCONNECTED _ conn => _ ← close_ conn; mret responder
  end.

(** The body of the batch loop: an event is answered on its session, with the stamps of
    its way through the exchange when it answers a request. *)
Definition event_latency (event : EngineEvent) (t5 : Z) : option PendingLatency :=
  if ev_answers_request event && negb (bool_decide (ev_type event = REJECTED))
  then Some (mkPending (ev_read_begin_tsc event) (ev_recv_tsc event) (ev_server_push_tsc event)
               (ev_engine_pop_tsc event) (ev_engine_push_tsc event) t5)
  else None.

Definition send_event (event : EngineEvent) (t5 timestamp : Z) (responder : OuchResponder) : M Outbound OuchResponder :=
  let '(response, responder) := on_event event timestamp responder in
  _ ← match response with Some r => send_ouch_ r (event_latency event t5) | None => mret tt end;
  mret responder.

(** At shutdown: a FIN to everyone still connected. *)
Fixpoint close_slots (slots : list Z) : M Outbound unit :=
  match slots with
  | [] => mret tt
  | slot :: slots =>
      c ← conn_at slot;
      _ ← when (oc_open c) (close_ (oc_conn c));
      close_slots slots
  end.

Definition close_all : M Outbound unit :=
  n ← gets (fun s => length (outbound_connections_ s));
  close_slots (Z.of_nat <$> seq 0 n).
End Sending.
