(* ===== verification/OutboundStream.v ===== *)
(** * OutboundStream: what a connection is sent

    The invariant of the outbound thread: the bytes of a connection, sent and still
    queued, are its Login Accepted and then whole packets: heartbeats and exactly the
    session's messages from the sequence number the login announced.  Every operation
    of [Outbound] keeps it and returns: no index outside a table, no session without a
    log, no control packet past its buffer, no byte of the log read after it was
    overwritten. *)

From S2P Require Import Prelude Types WireCodec Clock OuchProto OuchCorrect Validation OrderEntry OuchResponder.
From S2P Require Import SoupProto SessionLog Inbound NoteProtocol Outbound.

(** ** What a connection is sent *)

(** Login Accepted with [start], then whole packets: heartbeats, and the messages
    [packets] in order. *)
Inductive stream_of (start : Z) : list (list Z) -> list Z -> Prop :=
| stream_login :
    stream_of start [] (soup_frame SOUP_LOGIN_ACCEPTED
      (login_accepted_payload (mkLoginAccepted (soup_session_id SOUP_SESSION) start)))
| stream_heartbeat packets l :
    stream_of start packets l -> stream_of start packets (l ++ soup_frame SOUP_SERVER_HEARTBEAT [])
| stream_data packets l packet : stream_of start packets l -> stream_of start (packets ++ [packet]) (l ++ packet).

Lemma stream_data_all start packets packets' l :
  stream_of start packets l -> stream_of start (packets ++ packets') (l ++ concat packets').
Proof.
  revert packets l. induction packets' as [|p packets' IH]; intros packets l H; cbn [concat]; [by rewrite !app_nil_r|].
  rewrite cons_middle, !app_assoc. by apply IH, stream_data.
Qed.

(** A session's packet: one well-formed message. *)
Definition data_packet (packet : list Z) : Prop :=
  exists msg, outbound_wf msg /\ packet = soup_frame SOUP_SEQUENCED_DATA (outbound_bytes msg).

(** The bytes TCP has taken for a connection. *)
Definition sent_on (conn : ConnId) (taken : list (ConnId * list Z)) : list Z :=
  concat (snd <$> filter (fun x => x.1 = conn) taken).

Lemma sent_on_same conn taken bytes : sent_on conn (taken ++ [(conn, bytes)]) = sent_on conn taken ++ bytes.
Proof.
  unfold sent_on. rewrite filter_app, filter_cons_True by done. rewrite fmap_app, concat_app. cbn. by rewrite app_nil_r.
Qed.

Lemma sent_on_other conn conn' taken bytes : conn' <> conn -> sent_on conn (taken ++ [(conn', bytes)]) = sent_on conn taken.
Proof. intros Hne. unfold sent_on. rewrite filter_app, filter_cons_False by done. cbn. by rewrite app_nil_r. Qed.

(** ** The invariant *)

Section Invariant.
Context (k cap : Z) (Hk : 9 <= k) (Hcap : cap = 2 ^ k).
(** What the notes handled so far have told. *)
Context (desk : Desk) (Hdesk : desk_wf desk).

Definition queued (c : OutboundConnection) (se : OutboundSession) : list Z :=
  drop (oc_control_sent c) (oc_control c) ++ drop (Z.to_nat (os_cursor se)) (concat (os_history se)).

(** The cursor is in the part of the stream the log still holds. *)
Definition cursor_ok (se : OutboundSession) (log : SessionLog) : Prop :=
  0 <= os_cursor se <= end_ log /\ end_ log - cap <= os_cursor se.

Record conn_live (sessions : list OutboundSession) (taken : list (ConnId * list Z)) (i : nat) (c : OutboundConnection) : Prop := {
  cl_slot : conn_slot (oc_conn c) = Z.of_nat i;
  cl_generation : oc_closed_generation c <> conn_generation (oc_conn c);
  cl_control : (oc_control_sent c <= length (oc_control c))%nat;
  cl_desk : dk_slots desk !! i = Some (oc_conn c);
  cl_session : oc_client_id c <> 0 -> 0 < oc_client_id c /\ exists se log start,
    sessions !! Z.to_nat (oc_client_id c) = Some se /\ os_slot se = Some (Z.of_nat i) /\ os_log se = Some log /\
    cursor_ok se log /\ 1 <= start <= Z.of_nat (length (os_history se)) + 1 /\
    stream_of start (drop (Z.to_nat (start - 1)) (os_history se)) (sent_on (oc_conn c) taken ++ queued c se);
}.

Record session_ok (conns : list OutboundConnection) (n : nat) (se : OutboundSession) : Prop := {
  sk_log : match os_log se with
    | None => os_slot se = None /\ os_history se = []
    | Some log => log_holds cap (os_history se) log /\ end_ log < 18446744073709551616 /\ next_seq_ log < 18446744073709551616
    end;
  sk_slot slot : os_slot se = Some slot -> exists c, conns !! Z.to_nat slot = Some c /\ oc_open c = true /\
    oc_client_id c <> 0 /\ Z.to_nat (oc_client_id c) = n;
  sk_desk slot : os_slot se = Some slot -> exists x, dk_sessions desk !! n = Some x /\ conn_slot x = slot;
  sk_packets : Forall data_packet (os_history se);
}.

(** What [close_] has closed in slot [i], the notes have named. *)
Definition closed_ok (i : nat) (c : OutboundConnection) : Prop :=
  oc_closed_generation c = 0 \/ mkConnId (Z.of_nat i) (oc_closed_generation c) ∈ dk_named desk.

Definition taken_ok (taken : list (ConnId * list Z)) : Prop := Forall (fun x => x.1 ∈ dk_named desk) taken.

Record core (conns : list OutboundConnection) (sessions : list OutboundSession) (taken : list (ConnId * list Z)) : Prop := {
  co_conns i c : conns !! i = Some c -> oc_open c = true -> conn_live sessions taken i c;
  co_sessions n se : sessions !! n = Some se -> session_ok conns n se;
  co_closed i c : conns !! i = Some c -> closed_ok i c;
  co_taken : taken_ok taken;
}.

Record out_inv (s : Outbound) : Prop := {
  oi_core : core (outbound_connections_ s) (outbound_sessions_ s) (tcp_taken s);
  oi_sessions : length (outbound_sessions_ s) = 65%nat;
  oi_retained : length (out_retained_from_ s) = 65%nat;
  oi_dirty : Forall (fun d => exists i : nat, d = Z.of_nat i /\ (i < length (outbound_connections_ s))%nat) (dirty_ s);
}.

(** A logged-in connection and its session find each other. *)
Definition linked (c : OutboundConnection) (n : nat) : Prop :=
  oc_open c = true /\ oc_client_id c <> 0 /\ Z.to_nat (oc_client_id c) = n.

Lemma linked_slot conns sessions taken i c n se :
  core conns sessions taken -> conns !! i = Some c -> linked c n -> sessions !! n = Some se -> os_slot se = Some (Z.of_nat i).
Proof.
  intros H Ec (Ho & Hid & <-) Ese. destruct (cl_session _ _ _ _ (co_conns _ _ _ H i c Ec Ho) Hid) as (_ & se' & _ & _ & E & Hs & _).
  congruence.
Qed.

(** Replacing one connection, and what TCP took for it. *)
Lemma core_conn conns sessions taken taken' i c c' :
  core conns sessions taken -> conns !! i = Some c ->
  (forall n, linked c n -> linked c' n) -> (oc_open c' = true -> conn_live sessions taken' i c') ->
  (forall conn, conn_slot conn <> Z.of_nat i -> sent_on conn taken' = sent_on conn taken) ->
  closed_ok i c' -> taken_ok taken' ->
  core (<[i := c']> conns) sessions taken'.
Proof.
  intros H Ec Hlink Hlive Htaken Hclosed Htk. split; [| | |done].
  - intros j d [(<- & <- & _)|(Hne & E)]%list_lookup_insert_Some Ho; [by apply Hlive|].
    destruct (co_conns _ _ _ H j d E Ho) as [Hs Hg Hc Hdk Hse]. split; try done. rewrite Htaken by (rewrite Hs; lia). done.
  - intros n se E. destruct (co_sessions _ _ _ H n se E) as [Hlog Hslot Hsd Hsp]. split; [done| |done|done]. intros slot Hs.
    destruct (Hslot slot Hs) as (d & Ed & Hd). destruct (decide (Z.to_nat slot = i)) as [<-|Hne].
    + exists c'. rewrite list_lookup_insert_eq by (by eapply lookup_lt_Some). split; [done|].
      apply (Hlink n). rewrite Ec in Ed. injection Ed as <-. done.
    + exists d. by rewrite list_lookup_insert_ne.
  - intros j d [(<- & <- & _)|(Hne & E)]%list_lookup_insert_Some; [done|by apply (co_closed _ _ _ H)].
Qed.

(** Replacing a session that no other connection is logged into. *)
Lemma core_session conns sessions taken n se se' :
  core conns sessions taken -> sessions !! n = Some se -> session_ok conns n se' ->
  (forall i c, conns !! i = Some c -> linked c n -> conn_live (<[n := se']> sessions) taken i c) ->
  core conns (<[n := se']> sessions) taken.
Proof.
  intros H Ese Hse Hlive. split; [| |by apply H..].
  - intros i c Ec Ho. destruct (co_conns _ _ _ H i c Ec Ho) as [Hs Hg Hc Hdk Hcs]. split; try done. intros Hid.
    destruct (decide (Z.to_nat (oc_client_id c) = n)) as [<-|Hne].
    + by apply (Hlive i c Ec).
    + rewrite list_lookup_insert_ne by done. by apply Hcs.
  - intros m d [(<- & <- & _)|(Hne & E)]%list_lookup_insert_Some; [done|by apply (co_sessions _ _ _ H)].
Qed.

(** Replacing a connection and the session it is, or was, logged into. *)
Lemma core_both conns sessions taken taken' i c c' n se se' :
  core conns sessions taken -> conns !! i = Some c -> sessions !! n = Some se ->
  (os_slot se = None \/ os_slot se = Some (Z.of_nat i)) -> (forall m, linked c m -> m = n) ->
  (oc_open c' = true -> conn_live (<[n := se']> sessions) taken' i c') -> session_ok (<[i := c']> conns) n se' ->
  (forall conn, conn_slot conn <> Z.of_nat i -> sent_on conn taken' = sent_on conn taken) ->
  closed_ok i c' -> taken_ok taken' ->
  core (<[i := c']> conns) (<[n := se']> sessions) taken'.
Proof.
  intros H Ec Ese Hown Hlink Hlive Hse Htaken Hclosed Htk. split; [| | |done].
  - intros j d [(<- & <- & _)|(Hne & E)]%list_lookup_insert_Some Ho; [by apply Hlive|].
    destruct (co_conns _ _ _ H j d E Ho) as [Hs Hg Hc Hdk Hcs]. split; try done. intros Hid.
    rewrite list_lookup_insert_ne; [rewrite Htaken by (rewrite Hs; lia); by apply Hcs|].
    intros Hn. pose proof (linked_slot conns sessions taken j d n se H E) as Hsl.
    destruct Hown as [Hown|Hown]; rewrite Hown in Hsl; specialize (Hsl (conj Ho (conj Hid (eq_sym Hn))) Ese); [done|].
    injection Hsl as ?. lia.
  - intros m d [(<- & <- & _)|(Hne & E)]%list_lookup_insert_Some; [done|].
    destruct (co_sessions _ _ _ H m d E) as [Hlog Hslot Hsd Hsp]. split; [done| |done|done]. intros slot Hs.
    destruct (Hslot slot Hs) as (e & Ed & Hd). destruct (decide (Z.to_nat slot = i)) as [<-|Hni].
    + exfalso. apply Hne. rewrite Ec in Ed. injection Ed as <-. symmetry. by apply Hlink.
    + exists e. by rewrite list_lookup_insert_ne.
  - intros j d [(<- & <- & _)|(Hne & E)]%list_lookup_insert_Some; [done|by apply (co_closed _ _ _ H)].
Qed.

(** *** Running the table operations *)

Lemma conn_at_Some slot c s : outbound_connections_ s !! Z.to_nat slot = Some c -> conn_at slot s = Some (c, s).
Proof. intros E. unfold conn_at. by rewrite E. Qed.

Lemma session_at_Some id se s : outbound_sessions_ s !! Z.to_nat id = Some se -> session_at id s = Some (se, s).
Proof. intros E. unfold session_at. by rewrite E. Qed.

Lemma conn_at_bind {B} slot c (f : OutboundConnection -> M Outbound B) s :
  outbound_connections_ s !! Z.to_nat slot = Some c -> (conn_at slot ≫= f) s = f c s.
Proof. intros E. exact (bind_Some _ _ _ _ _ (conn_at_Some slot c s E)). Qed.

Lemma session_at_bind {B} id se (f : OutboundSession -> M Outbound B) s :
  outbound_sessions_ s !! Z.to_nat id = Some se -> (session_at id ≫= f) s = f se s.
Proof. intros E. exact (bind_Some _ _ _ _ _ (session_at_Some id se s E)). Qed.

(** [m] returns in a state that satisfies the invariant, with the same slots. *)
Definition out_ok {A} (m : M Outbound A) (s : Outbound) (Q : A -> Outbound -> Prop) : Prop :=
  exists a s', m s = Some (a, s') /\ out_inv s' /\ length (outbound_connections_ s') = length (outbound_connections_ s) /\ Q a s'.

(** A connection changed only in what the invariant does not speak of. *)
Definition same_conn (c c' : OutboundConnection) : Prop :=
  oc_conn c' = oc_conn c /\ oc_open c' = oc_open c /\ oc_client_id c' = oc_client_id c /\ oc_control c' = oc_control c /\
  oc_control_sent c' = oc_control_sent c /\ oc_closed_generation c' = oc_closed_generation c.

Lemma conn_live_same sessions taken i c c' :
  same_conn c c' -> conn_live sessions taken i c -> conn_live sessions taken i c'.
Proof.
  intros (Hc & Ho & Hid & Hct & Hcs & Hg) [? ? ? ? ?]. split; rewrite ?Hc, ?Hid, ?Hct, ?Hcs, ?Hg; try done.
  unfold queued in *. by rewrite Hct, Hcs.
Qed.

Lemma set_conn_same s slot c c' :
  out_inv s -> outbound_connections_ s !! Z.to_nat slot = Some c -> same_conn c c' ->
  out_ok (set_conn slot c') s (fun _ s' => outbound_connections_ s' = <[Z.to_nat slot := c']> (outbound_connections_ s)).
Proof.
  intros [Hc ? ? Hd] E Hs. eexists _, _. split; [done|]. cbn [outbound_connections_]. rewrite length_insert. split; [|done].
  split; cbn [outbound_connections_ outbound_sessions_ tcp_taken dirty_ out_retained_from_]; try done; [|by rewrite length_insert].
  eapply core_conn; [done|done| |..|done| |apply Hc].
  - intros n (? & ? & ?). destruct Hs as (_ & Ho & Hid & _). split; [congruence|]. split; congruence.
  - intros Ho. eapply conn_live_same; [done|]. apply Hc; [done|]. destruct Hs as (_ & Ho' & _). congruence.
  - destruct Hs as (_ & _ & _ & _ & _ & Hg). unfold closed_ok. rewrite Hg. by apply (co_closed _ _ _ Hc).
Qed.

Lemma out_inv_intro s s' :
  out_inv s -> core (outbound_connections_ s') (outbound_sessions_ s') (tcp_taken s') ->
  length (outbound_connections_ s') = length (outbound_connections_ s) ->
  length (outbound_sessions_ s') = length (outbound_sessions_ s) ->
  length (out_retained_from_ s') = length (out_retained_from_ s) -> dirty_ s' = dirty_ s -> out_inv s'.
Proof. intros [? ? ? ?] Hc El Es Er Ed. split; [done|congruence|congruence|]. by rewrite Ed, El. Qed.

Lemma mark_dirty_ok s slot c :
  out_inv s -> outbound_connections_ s !! Z.to_nat slot = Some c -> oc_open c = true ->
  out_ok (mark_dirty_ slot) s (fun _ s' => outbound_sessions_ s' = outbound_sessions_ s /\ tcp_taken s' = tcp_taken s).
Proof.
  intros H E Ho. pose proof (co_conns _ _ _ (oi_core s H) _ _ E Ho) as Hl. pose proof (lookup_lt_Some _ _ _ E) as Hlt.
  unfold out_ok, mark_dirty_. rewrite (conn_at_bind _ _ _ _ E). destruct (oc_dirty c); [by eexists _, _|].
  destruct (set_conn_same s slot c (c <| oc_dirty := true |>) H E) as (? & s1 & E1 & H1 & Hn & _); [done|].
  injection E1 as _ <-. eexists _, _. split; [done|]. split; [|by split].
  destruct H1 as [? ? ? Hd]. split; try done. cbn [dirty_ outbound_connections_] in *. apply Forall_app. split; [done|].
  apply Forall_singleton. exists (Z.to_nat slot). rewrite length_insert. split; [|done]. apply (cl_slot _ _ _ _ Hl).
Qed.

(** *** Closing *)

(** What a step keeps of every session: its log and its history. *)
Definition logs_kept (s s' : Outbound) : Prop :=
  forall (n : nat) se, outbound_sessions_ s !! n = Some se -> exists se', outbound_sessions_ s' !! n = Some se' /\
    os_log se' = os_log se /\ os_history se' = os_history se.

Lemma logs_kept_same s s' : outbound_sessions_ s' = outbound_sessions_ s -> logs_kept s s'.
Proof. intros E n se Hse. exists se. by rewrite E. Qed.

Lemma logs_kept_insert s s' n se se' :
  outbound_sessions_ s !! n = Some se -> outbound_sessions_ s' = <[n := se']> (outbound_sessions_ s) ->
  os_log se' = os_log se -> os_history se' = os_history se -> logs_kept s s'.
Proof.
  intros Ese E Hl Hh m d Hd. destruct (decide (m = n)) as [->|Hne].
  - exists se'. rewrite E, list_lookup_insert_eq by (by eapply lookup_lt_Some). rewrite Ese in Hd. injection Hd as <-. done.
  - exists d. by rewrite E, list_lookup_insert_ne.
Qed.

Lemma closed_named i c conn :
  conn ∈ dk_named desk -> conn_slot conn = Z.of_nat i -> oc_closed_generation c = conn_generation conn -> closed_ok i c.
Proof. intros Hn Hs Hg. right. rewrite Hg, <- Hs. by destruct conn. Qed.

Lemma live_named conns sessions taken i c :
  core conns sessions taken -> conns !! i = Some c -> oc_open c = true -> oc_conn c ∈ dk_named desk.
Proof. intros H E Ho. by destruct (dw_slots desk Hdesk i (oc_conn c)); [apply (co_conns _ _ _ H)|]. Qed.

Lemma close_ok s conn c :
  out_inv s -> 0 <= conn_slot conn -> conn ∈ dk_named desk -> outbound_connections_ s !! Z.to_nat (conn_slot conn) = Some c ->
  out_ok (close_ conn) s (fun _ s' => logs_kept s s' /\ tcp_taken s' = tcp_taken s /\
    (exists c', outbound_connections_ s' !! Z.to_nat (conn_slot conn) = Some c' /\ oc_closed_generation c' = conn_generation conn) /\
    (oc_conn c = conn -> oc_open c = true -> forall se, oc_client_id c <> 0 ->
      outbound_sessions_ s !! Z.to_nat (oc_client_id c) = Some se -> exists se',
      outbound_sessions_ s' !! Z.to_nat (oc_client_id c) = Some se' /\ os_slot se' = None)).
Proof.
  intros H Hpos Hnamed E. set (slot := conn_slot conn) in *. pose proof (lookup_lt_Some _ _ _ E) as Hlt.
  assert (Z.of_nat (Z.to_nat slot) = slot) as Hsl by lia. pose proof (oi_core s H) as Hcore. pose proof (co_taken _ _ _ Hcore) as Htk.
  assert (forall c', oc_closed_generation c' = conn_generation conn -> closed_ok (Z.to_nat slot) c') as Hcl
    by (intros c' Hg; by apply (closed_named _ _ conn)).
  unfold out_ok, close_. fold slot. rewrite (conn_at_bind _ _ _ _ E).
  destruct (Z.eqb_spec (oc_closed_generation c) (conn_generation conn)) as [Hg|Hg].
  { eexists _, _. split; [done|]. split; [done|]. split; [done|]. split; [by apply logs_kept_same|]. split; [done|]. split; [by exists c|].
    intros Hc Ho. destruct (cl_generation _ _ _ _ (co_conns _ _ _ Hcore _ _ E Ho)). congruence. }
  cbv beta iota delta [mbind M_bind set_conn modify tcp_close]. destruct (bool_decide (oc_conn c <> conn) || negb (oc_open c)) eqn:Eb.
  { eexists _, _. split; [done|]. cbn [outbound_connections_]. rewrite length_insert, list_lookup_insert_eq by done. split.
    - apply (out_inv_intro s); cbn [outbound_connections_ outbound_sessions_ tcp_taken out_retained_from_ dirty_]; rewrite ?length_insert; try done.
      eapply core_conn; [done|done|by intros n ?| |done|by apply Hcl|done]. intros Ho. cbn [oc_open] in Ho.
      destruct (co_conns _ _ _ Hcore _ _ E Ho) as [Hs Hgen Hct Hdk Hse]. split; try done. cbn [oc_closed_generation oc_conn].
      intros Heq. apply orb_true_iff in Eb as [Eb|Eb]; [|by rewrite Ho in Eb]. apply bool_decide_eq_true in Eb. apply Eb.
      destruct (oc_conn c) as [sl ge], conn as [sl' ge']. cbn in *. subst. f_equal. unfold slot in *. cbn in *. lia.
    - split; [done|]. split; [by apply logs_kept_same|]. split; [done|]. split; [by eexists|]. intros Hc Ho.
      rewrite Ho, orb_false_r in Eb. apply bool_decide_eq_true in Eb. done. }
  apply orb_false_iff in Eb as [Eb Ho]. apply bool_decide_eq_false, dec_stable in Eb. apply negb_false_iff in Ho.
  pose proof (co_conns _ _ _ Hcore _ _ E Ho) as Hl. destruct (Z.eqb_spec (oc_client_id c) 0) as [Hid|Hid]; cbn [negb when mret M_ret].
  { eexists _, _. split; [done|]. cbn [outbound_connections_]. rewrite !length_insert, list_insert_insert_eq, list_lookup_insert_eq by done.
    split; [|split; [done|split; [by apply logs_kept_same|split; [done|split; [by eexists|by intros _ _ se ?]]]]].
    apply (out_inv_intro s); cbn [outbound_connections_ outbound_sessions_ tcp_taken out_retained_from_ dirty_]; rewrite ?length_insert; try done.
    eapply core_conn; [done|done|by intros n (_ & ? & _)|done|done|by apply Hcl|done]. }
  destruct (cl_session _ _ _ _ Hl Hid) as (Hidp & se & log & start & Ese & Hslot & Hlog & _). rewrite Hsl in Hslot.
  unfold session_at. cbn [outbound_sessions_]. rewrite Ese. cbn [fmap option_fmap option_map]. rewrite bool_decide_true by done.
  cbn [when]. cbv beta iota delta [set_session modify]. eexists _, _. split; [done|]. cbn [outbound_connections_ outbound_sessions_ tcp_taken].
  rewrite !length_insert, list_insert_insert_eq, list_lookup_insert_eq by done. split; [|split; [done|split; [|split; [done|split; [by eexists|]]]]].
  - apply (out_inv_intro s); cbn [outbound_connections_ outbound_sessions_ tcp_taken out_retained_from_ dirty_]; rewrite ?length_insert; try done.
    eapply (core_both _ _ _ _ _ c _ _ se); [done|done|done|right; rewrite Hsl; done|by intros m (_ & _ & ?)|done| |done|by apply Hcl|done].
    destruct (co_sessions _ _ _ Hcore _ _ Ese) as [Hsk _ _ Hsp]. split; cbn [os_log os_slot os_history]; [|done|done|done]. by rewrite Hlog in *.
  - by eapply logs_kept_insert.
  - intros _ _ se' _ _. eexists. rewrite list_lookup_insert_eq by (by eapply lookup_lt_Some). done.
Qed.

Lemma close_dirty conn s s' : close_ conn s = Some (tt, s') -> dirty_ s' = dirty_ s.
Proof.
  unfold close_. intros E. apply bind_inv in E as (c & s1 & E1 & E). assert (s1 = s) as ->.
  { unfold conn_at in E1. by destruct (_ !! _); simplify_eq/=. }
  destruct (_ =? _); [by injection E as <-|]. rewrite (bind_Some _ _ _ tt _ eq_refl), (bind_Some _ _ _ tt _ eq_refl) in E.
  destruct (_ || _); [by injection E as <-|]. apply bind_inv in E as (u & s2 & E2 & E). injection E as <-. cbn [dirty_].
  destruct (_ =? _) in E2; cbn [negb when] in E2; [by injection E2 as _ <-|].
  apply bind_inv in E2 as (se & s3 & E3 & E2). unfold session_at in E3. cbn [outbound_sessions_] in E3.
  destruct (_ !! _) in E3; [|done]. injection E3 as _ <-. by destruct (bool_decide _); injection E2 as _ <-.
Qed.

(** *** Opening and control packets *)

Lemma open_connection_ok rdtsc s conn c :
  out_inv s -> 0 <= conn_slot conn -> outbound_connections_ s !! Z.to_nat (conn_slot conn) = Some c ->
  oc_open c = false -> oc_closed_generation c <> conn_generation conn -> dk_slots desk !! Z.to_nat (conn_slot conn) = Some conn ->
  out_ok (open_connection_ rdtsc conn) s (fun _ s' => outbound_sessions_ s' = outbound_sessions_ s /\ tcp_taken s' = tcp_taken s /\
    exists dirty now, outbound_connections_ s' !! Z.to_nat (conn_slot conn) =
      Some (mkOutConn conn true false dirty 0 now [] 0 (oc_closed_generation c))).
Proof.
  intros H Hpos E Ho Hg Hdk. pose proof (lookup_lt_Some _ _ _ E) as Hlt. unfold out_ok, open_connection_. rewrite (conn_at_bind _ _ _ _ E).
  eexists _, _. split; [done|]. cbn [outbound_connections_]. rewrite length_insert. split; [|split; [done|]].
  - destruct H as [Hc ? ? Hd]. split; cbn [outbound_connections_ outbound_sessions_ tcp_taken dirty_ out_retained_from_];
      [|done|done|by rewrite length_insert].
    eapply core_conn; [done|done|intros n (? & _); congruence| |done|exact (co_closed _ _ _ Hc _ _ E)|by apply (co_taken _ _ _ Hc)].
    intros _. split; cbn; try done. lia.
  - split; [done|]. split; [done|]. eexists _, _. by rewrite list_lookup_insert_eq.
Qed.

(** A connection with another control packet. *)
Definition with_control (packet : list Z) (c : OutboundConnection) : OutboundConnection :=
  mkOutConn (oc_conn c) (oc_open c) (oc_close_when_flushed c) (oc_dirty c) (oc_client_id c) (oc_last_sent_tsc c) packet 0
    (oc_closed_generation c).

Lemma send_control_run s slot c packet :
  outbound_connections_ s !! Z.to_nat slot = Some c -> (length packet <= 64)%nat ->
  send_control_ slot packet s =
  mark_dirty_ slot (s <| outbound_connections_ := <[Z.to_nat slot := with_control packet c]> (outbound_connections_ s) |>).
Proof.
  intros E Hl. unfold send_control_. rewrite (conn_at_bind _ _ _ _ E).
  rewrite (proj2 (Nat.ltb_ge _ _)) by (unfold kMaxControlPacket; lia). done.
Qed.

(** Queued on a connection that is logged in nowhere, or has nothing else to send. *)
Lemma send_control_ok s slot c packet :
  out_inv s -> 0 <= slot -> outbound_connections_ s !! Z.to_nat slot = Some c -> oc_open c = true -> (length packet <= 64)%nat ->
  (oc_client_id c <> 0 -> packet = soup_frame SOUP_SERVER_HEARTBEAT [] /\ oc_control c = [] /\
    forall se, outbound_sessions_ s !! Z.to_nat (oc_client_id c) = Some se ->
      drop (Z.to_nat (os_cursor se)) (concat (os_history se)) = []) ->
  out_ok (send_control_ slot packet) s (fun _ s' => outbound_sessions_ s' = outbound_sessions_ s /\ tcp_taken s' = tcp_taken s).
Proof.
  intros H Hpos E Ho Hlen Hq. pose proof (lookup_lt_Some _ _ _ E) as Hlt. unfold out_ok. rewrite (send_control_run _ _ _ _ E Hlen).
  set (s1 := s <| outbound_connections_ := <[Z.to_nat slot := with_control packet c]> (outbound_connections_ s) |>).
  assert (out_inv s1) as H1.
  { destruct H as [Hc ? ? Hd]. split; cbn [s1 outbound_connections_ outbound_sessions_ tcp_taken dirty_ out_retained_from_];
      [|done|done|by rewrite length_insert].
    eapply core_conn; [done|done|done| |done|exact (co_closed _ _ _ Hc _ _ E)|by apply (co_taken _ _ _ Hc)]. intros _.
    destruct (co_conns _ _ _ Hc _ _ E Ho) as [Hs Hg Hct Hdk Hse]. split; cbn [with_control oc_conn oc_closed_generation oc_control_sent oc_control oc_client_id]; try done; [lia|].
    intros Hid. destruct (Hse Hid) as (Hidp & se & log & start & Ese & Hsl & Hlog & Hcur & Hst & Hstream). split; [done|].
    exists se, log, start. split; [done|]. split; [done|]. split; [done|]. split; [done|]. split; [done|].
    destruct (Hq Hid) as (-> & Hcontrol & Hcursor). unfold queued in *. cbn [oc_control oc_control_sent] in *. rewrite Hcursor in * by done.
    rewrite Hcontrol, drop_nil in Hstream. rewrite !app_nil_r, drop_0 in *. by apply stream_heartbeat. }
  destruct (mark_dirty_ok s1 slot (with_control packet c) H1) as (u & s2 & E2 & H2 & Hl2 & Hse2 & Ht2);
    [cbn; by rewrite list_lookup_insert_eq|done|].
  exists u, s2. split; [done|]. split; [done|]. split; [|by split]. rewrite Hl2. cbn. by rewrite length_insert.
Qed.

(** *** Rejecting and accepting a login *)

Lemma out_ok_bind {A B} (m : M Outbound A) (f : A -> M Outbound B) s Q R :
  out_ok m s Q ->
  (forall a s', out_inv s' -> length (outbound_connections_ s') = length (outbound_connections_ s) -> Q a s' -> out_ok (f a) s' R) ->
  out_ok (m ≫= f) s R.
Proof.
  intros (a & s1 & E1 & H1 & Hl1 & HQ) Hf. destruct (Hf a s1 H1 Hl1 HQ) as (b & s2 & E2 & H2 & Hl2 & HR).
  exists b, s2. rewrite (bind_Some _ _ _ _ _ E1). split; [done|]. split; [done|]. split; [congruence|done].
Qed.

Lemma out_ok_weaken {A} (m : M Outbound A) s (Q R : A -> Outbound -> Prop) :
  out_ok m s Q -> (forall a s', Q a s' -> R a s') -> out_ok m s R.
Proof. intros (a & s' & E & H & Hl & HQ) HR. exists a, s'. auto. Qed.

Lemma reject_packet reason :
  encode_soup_login_rejected reason (replicate (kSoupHeaderLen + 1) 0) = (4%nat, soup_frame SOUP_LOGIN_REJECTED [reason]).
Proof.
  pose proof (soup_login_rejected_frame reason (replicate (kSoupHeaderLen + 1) 0)) as H. cbv zeta in H.
  rewrite soup_frame_length in H. rewrite decide_True in H by (cbn; lia). rewrite H. f_equal.
Qed.

Lemma send_login_rejected_ok s slot c reason :
  out_inv s -> 0 <= slot -> outbound_connections_ s !! Z.to_nat slot = Some c -> oc_open c = true -> oc_client_id c = 0 ->
  out_ok (send_login_rejected slot reason) s (fun _ s' => outbound_sessions_ s' = outbound_sessions_ s /\ tcp_taken s' = tcp_taken s).
Proof.
  intros H Hp E Ho Hid. unfold send_login_rejected. rewrite reject_packet. eapply out_ok_bind.
  - apply send_control_ok with c; try done. rewrite length_take, soup_frame_length. cbn. lia.
  - intros ? s1 H1 Hl (Hs & Ht). destruct (lookup_lt_is_Some_2 (outbound_connections_ s1) (Z.to_nat slot)) as [c1 E1].
    { rewrite Hl. by eapply lookup_lt_Some. }
    destruct (set_conn_same s1 slot c1 (c1 <| oc_close_when_flushed := true |>) H1 E1) as (u & s2 & E2 & H2 & Hl2 & _); [done|].
    exists u, s2. unfold set_close_when_flushed. rewrite (conn_at_bind _ _ _ _ E1). split; [done|]. split; [done|]. split; [done|].
    injection E2 as _ <-. by split.
Qed.

(** The session a login of [client_id] finds or makes. *)
Lemma session_log_ok s id se :
  out_inv s -> 0 <= id -> outbound_sessions_ s !! Z.to_nat id = Some se ->
  out_ok (session_log cap id) s (fun log s' => outbound_connections_ s' = outbound_connections_ s /\ tcp_taken s' = tcp_taken s /\
    outbound_sessions_ s' = <[Z.to_nat id := se <| os_log := Some log |>]> (outbound_sessions_ s) /\
    log_holds cap (os_history se) log /\ end_ log < 18446744073709551616 /\ next_seq_ log < 18446744073709551616).
Proof.
  intros H Hid E. pose proof (oi_core s H) as Hc. destruct (co_sessions _ _ _ Hc _ _ E) as [Hlog Hslot Hsd Hsp].
  unfold out_ok, session_log. rewrite (session_at_bind _ _ _ _ E). destruct (os_log se) as [log|] eqn:El.
  { eexists _, _. split; [done|]. split; [done|]. split; [done|]. split; [done|]. split; [done|]. split; [|done].
    rewrite list_insert_id; [done|]. rewrite E. f_equal. by destruct se; cbn in *; subst. }
  destruct Hlog as [Hsn Hh]. pose proof (lookup_lt_Some _ _ _ E) as Hlt.
  destruct (lookup_lt_is_Some_2 (out_retained_from_ s) (Z.to_nat id)) as [r Er]; [rewrite (oi_retained s H), <- (oi_sessions s H); done|].
  rewrite (bind_Some _ _ _ tt _ eq_refl). cbv beta iota delta [mbind M_bind store_retained]. cbn [out_retained_from_]. rewrite Er.
  eexists _, _. split; [done|].
  assert (log_holds cap (os_history se) (SessionLog_new cap)) as Hnew by (rewrite Hh; apply (SessionLog_new_holds k); [lia|done]).
  split; [|split; [done|split; [done|split; [done|split; [done|split; [done|split; [cbn; lia|cbn; lia]]]]]]].
  apply (out_inv_intro s); cbn [outbound_connections_ outbound_sessions_ tcp_taken out_retained_from_ dirty_]; rewrite ?length_insert; try done.
  eapply core_session; [done|done| |].
  - split; cbn [os_log os_slot os_history]; [|by rewrite Hsn..|done]. by split; [done|split; [cbn; lia|cbn; lia]].
  - intros i c Ec Hlk. pose proof (linked_slot _ _ _ _ _ _ _ Hc Ec Hlk E) as Hf. by rewrite Hsn in Hf.
Qed.
Lemma accept_packet start :
  is_u64 start ->
  encode_soup_login_accepted (mkLoginAccepted (soup_session_id SOUP_SESSION) start) (replicate (kSoupHeaderLen + kSoupLoginAcceptedLen) 0) =
  (33%nat, soup_frame SOUP_LOGIN_ACCEPTED (login_accepted_payload (mkLoginAccepted (soup_session_id SOUP_SESSION) start))).
Proof.
  intros Hs. set (a := mkLoginAccepted _ _). assert (login_accepted_wf a) as Hwf by (split; [reflexivity|done]).
  pose proof (soup_login_accepted_frame a Hwf (replicate (kSoupHeaderLen + kSoupLoginAcceptedLen) 0)) as H. cbv zeta in H.
  assert (length (soup_frame SOUP_LOGIN_ACCEPTED (login_accepted_payload a)) = 33%nat) as Hl.
  { rewrite soup_frame_length. unfold login_accepted_payload. rewrite length_app, numeric_chars_length. reflexivity. }
  rewrite Hl in H. rewrite decide_True in H by (cbn; lia). rewrite H. f_equal.
Qed.

(** A connection logged into a session nobody is logged into: Login Accepted is queued
    and then the log from [start]. *)
Lemma login_core conns sessions taken i c n se conn c' se' log start :
  core conns sessions taken -> conns !! i = Some c -> oc_open c = true -> oc_client_id c = 0 ->
  sessions !! n = Some se -> os_slot se = None -> os_log se = Some log -> log_holds cap (os_history se) log ->
  end_ log < 18446744073709551616 -> next_seq_ log < 18446744073709551616 ->
  1 <= first_seq_ log <= start -> start <= next_seq_ log ->
  oc_conn c = conn -> sent_on conn taken = [] -> dk_sessions desk !! n = Some conn ->
  oc_conn c' = conn -> oc_open c' = true -> 0 < oc_client_id c' -> Z.to_nat (oc_client_id c') = n ->
  oc_control c' = soup_frame SOUP_LOGIN_ACCEPTED (login_accepted_payload (mkLoginAccepted (soup_session_id SOUP_SESSION) start)) ->
  oc_control_sent c' = 0%nat -> oc_closed_generation c' = oc_closed_generation c ->
  os_log se' = Some log -> os_slot se' = Some (Z.of_nat i) -> os_history se' = os_history se ->
  os_cursor se' = start_of (os_history se) start ->
  core (<[i := c']> conns) (<[n := se']> sessions) taken.
Proof.
  intros H Ec Ho Hid Ese Hsl Hlog Hh Hend Hnext Hf Hs Hc Ht Hds Hc' Ho' Hid' Hn Hct Hcs Hg Hl' Hs' Hh' Hcur.
  pose proof (lookup_lt_Some _ _ _ Ec) as Hlt. pose proof (lookup_lt_Some _ _ _ Ese) as Hlts.
  eapply (core_both _ _ _ _ _ c _ _ se); [done|done|done|by left|by intros m (_ & ? & _)| | |done| |by apply H].
  - intros _. destruct (co_conns _ _ _ H _ _ Ec Ho) as [Hcl Hcg _ Hdk _]. split; [congruence|congruence|rewrite Hcs; lia|congruence|].
    intros _. split; [done|]. exists se', log, start. rewrite Hn, list_lookup_insert_eq by done. split; [done|]. split; [done|]. split; [done|].
    pose proof (start_le_end _ _ _ start Hh Hs) as Hb. pose proof (start_of_mono (os_history se) (first_seq_ log) start ltac:(lia)) as Hm.
    pose proof (lh_kept _ _ _ Hh). pose proof (lh_next _ _ _ Hh). split; [unfold cursor_ok; rewrite Hcur; lia|]. rewrite Hh'. split; [lia|].
    rewrite Hc', Ht. unfold queued. rewrite Hct, Hcs, Hh', Hcur, drop_0. unfold start_of. rewrite Nat2Z.id, drop_concat. cbn [app].
    apply (stream_data_all start []), stream_login.
  - split; rewrite ?Hl', ?Hs', ?Hh'; [done|..|by apply (co_sessions _ _ _ H _ _ Ese)]; intros slot [= <-].
    + exists c'. rewrite Nat2Z.id, list_lookup_insert_eq by done. split; [done|]. split; [done|]. split; [lia|done].
    + exists conn. split; [done|]. rewrite <- Hc. by apply (co_conns _ _ _ H).
  - unfold closed_ok. rewrite Hg. by apply (co_closed _ _ _ H).
Qed.

(** What a login needs of the connection and the session: a fresh connection in a free
    slot, and a session nobody is logged into. *)
Definition fresh_conn (s : Outbound) (conn : ConnId) : Prop :=
  0 <= conn_slot conn /\ sent_on conn (tcp_taken s) = [] /\ dk_slots desk !! Z.to_nat (conn_slot conn) = Some conn /\
  exists c, outbound_connections_ s !! Z.to_nat (conn_slot conn) = Some c /\ oc_open c = false /\
    oc_closed_generation c <> conn_generation conn.

Definition free_session (s : Outbound) (id : Z) (conn : ConnId) : Prop :=
  0 < id /\ dk_sessions desk !! Z.to_nat id = Some conn /\
  exists se, outbound_sessions_ s !! Z.to_nat id = Some se /\ os_slot se = None.

Lemma login_accepted_ok rdtsc s client_id conn sequence :
  out_inv s -> fresh_conn s conn -> free_session s client_id conn -> 0 <= sequence ->
  out_ok (accept_login_ rdtsc cap client_id conn sequence) s (fun _ s' => tcp_taken s' = tcp_taken s).
Proof.
  intros H (Hp & Ht & Hdk & c & Ec & Ho & Hg) (Hid & Hds & se & Ese & Hsl) Hseq. unfold accept_login_.
  eapply out_ok_bind; [apply (session_log_ok s client_id se); [done|lia|done]|].
  intros log s1 H1 _ (Hc1 & Ht1 & Hs1 & Hh & Hend & Hnext). pose proof (lookup_lt_Some _ _ _ Ese) as Hlts.
  eapply out_ok_bind; [apply (open_connection_ok rdtsc s1 conn c); [done|done|by rewrite Hc1|done|done|done]|].
  intros _ s2 H2 Hl2 (Hs2 & Ht2 & dirty & now & Ec2). cbv zeta.
  set (start := if _ : bool then _ else _). set (c2 := mkOutConn _ _ _ _ _ _ _ _ _) in Ec2.
  assert (1 <= start <= next_seq_ log) as Hstart.
  { pose proof (lh_first _ _ _ Hh). unfold start, next_sequence. destruct (Z.eqb_spec sequence 0); cbn [orb]; [lia|].
    rewrite Z.gtb_ltb. destruct (Z.ltb_spec (next_seq_ log) sequence); lia. }
  rewrite (offset_of_holds _ _ _ _ Hh). case_decide as Hd.
  2:{ eapply out_ok_weaken; [apply (send_login_rejected_ok s2 _ c2); done|]. intros _ s' (_ & Ht'). congruence. }
  rewrite accept_packet by (unfold is_u64; lia). set (packet := soup_frame _ _).
  assert (length packet = 33%nat) as Hlen
    by (unfold packet; rewrite soup_frame_length; unfold login_accepted_payload; rewrite length_app, numeric_chars_length; reflexivity).
  pose proof (lookup_lt_Some _ _ _ Ec2) as Hlt2.
  assert (outbound_sessions_ s2 !! Z.to_nat client_id = Some (se <| os_log := Some log |>)) as Ese2
    by (by rewrite Hs2, Hs1, list_lookup_insert_eq).
  set (c3 := c2 <| oc_client_id := client_id |>).
  set (s3 := s2 <| outbound_connections_ := <[Z.to_nat (conn_slot conn) := c3]> (outbound_connections_ s2) |>).
  set (se3 := mkOutSession (Some log) (Some (conn_slot conn)) (start_of (os_history se) start) (os_samples se) (os_samples_head se) 0 (os_history se)).
  set (s4 := s3 <| outbound_sessions_ := <[Z.to_nat client_id := se3]> (outbound_sessions_ s3) |>).
  set (s5 := s4 <| outbound_connections_ := <[Z.to_nat (conn_slot conn) := with_control packet c3]> (outbound_connections_ s4) |>).
  assert (out_inv s5) as H5.
  { apply (out_inv_intro s2); cbn [s5 s4 s3 outbound_connections_ outbound_sessions_ tcp_taken out_retained_from_ dirty_];
      rewrite ?length_insert; try done. rewrite list_insert_insert_eq.
    eapply login_core with (c := c2) (conn := conn) (start := start); [by apply H2|done|done|done|exact Ese2|done|done|done|done|done|..]; try done;
      cbn; try lia; try congruence. - pose proof (lh_first _ _ _ Hh). lia. - f_equal. lia. }
  destruct (mark_dirty_ok s5 (conn_slot conn) (with_control packet c3) H5) as (u & s6 & E6 & H6 & Hl6 & _ & Ht6);
    [cbn; by rewrite list_lookup_insert_eq by (by rewrite length_insert)|done|].
  exists u, s6. split; [|split; [done|split; [by rewrite Hl6; cbn; rewrite !length_insert|rewrite Ht6; cbn; congruence]]].
  rewrite (conn_at_bind _ _ _ _ Ec2), (bind_Some _ _ _ tt s3 eq_refl), (session_at_bind _ _ _ s3 Ese2), (bind_Some _ _ _ tt s4 eq_refl).
  rewrite take_ge by lia. rewrite (send_control_run s4 _ c3); [done| |lia]. cbn. by rewrite list_lookup_insert_eq.
Qed.

(** *** Sequenced messages *)

(** A packet appended to a session: the connection logged into it has it queued. *)
Lemma sequenced_core conns sessions taken n se se' log packet :
  core conns sessions taken -> sessions !! n = Some se -> os_log se = Some log -> log_fits cap packet log ->
  (os_slot se <> None -> would_overwrite (os_cursor se) (Z.of_nat (length packet)) log = false) ->
  os_log se' = Some (append packet log) -> os_slot se' = os_slot se -> os_cursor se' = os_cursor se ->
  os_history se' = os_history se ++ [packet] -> data_packet packet ->
  core conns (<[n := se']> sessions) taken.
Proof.
  intros H Ese Hlog Hfit Hw Hl' Hs' Hc' Hh' Hdp. pose proof (lookup_lt_Some _ _ _ Ese) as Hlt.
  destruct (co_sessions _ _ _ H _ _ Ese) as [Hsk Hslot Hsd Hsp]. rewrite Hlog in Hsk. destruct Hsk as (Hh & Hend & Hnext).
  destruct (append_holds k cap ltac:(lia) Hcap _ _ _ Hh Hfit) as [Hh2 _]. pose proof (lh_end _ _ _ Hh) as He. pose proof (lh_end _ _ _ Hh2) as He2.
  pose proof (lh_next _ _ _ Hh) as Hn. pose proof (lh_next _ _ _ Hh2) as Hn2.
  rewrite concat_app, length_app in *. cbn [concat length] in *. rewrite app_nil_r in He2. destruct Hfit as (Hf1 & Hf2 & Hf3).
  eapply core_session; [done|done| |].
  - split; rewrite ?Hl', ?Hh', ?Hs'; [|done|done|apply Forall_app; split; [done|by apply Forall_singleton]]. split; [done|]. lia.
  - intros i c Ec Hlk. pose proof (linked_slot _ _ _ _ _ _ _ H Ec Hlk Ese) as Hsl. destruct Hlk as (Ho & Hid & Hidn).
    destruct (co_conns _ _ _ H i c Ec Ho) as [Hcs Hcg Hcc Hdk Hcl]. split; [done|done|done|done|]. intros _.
    destruct (Hcl Hid) as (Hpos & se0 & log0 & start & E0 & _ & Hl0 & [Hcur1 Hcur2] & Hst & Hstream). split; [done|].
    rewrite Hidn, Ese in E0. injection E0 as <-. rewrite Hlog in Hl0. injection Hl0 as <-.
    exists se', (append packet log), start. rewrite Hidn, list_lookup_insert_eq by done.
    pose proof (would_overwrite_false k cap ltac:(lia) Hcap _ _ _ packet Hh (conj Hf1 (conj Hf2 Hf3)) Hcur1 (Hw ltac:(by rewrite Hsl))) as Hov.
    split; [done|]. split; [congruence|]. split; [done|]. split; [unfold cursor_ok; rewrite Hc'; lia|].
    rewrite Hh', length_app. split; [cbn [length]; lia|]. rewrite drop_app_le by lia. unfold queued in *. rewrite Hc', Hh', concat_app.
    cbn [concat]. rewrite app_nil_r, (drop_app_le (concat (os_history se))) by lia. rewrite !app_assoc. rewrite <- (app_assoc (sent_on _ _)).
    by apply stream_data.
Qed.

(** A slow consumer is dropped before its backlog is overwritten. *)
Lemma make_room_ok s n se log len :
  out_inv s -> outbound_sessions_ s !! n = Some se -> os_log se = Some log ->
  out_ok (match os_slot se with
          | Some slot => when (would_overwrite (os_cursor se) len log) (c ← conn_at slot; close_ (oc_conn c))
          | None => mret tt
          end) s
    (fun _ s' => tcp_taken s' = tcp_taken s /\ exists se', outbound_sessions_ s' !! n = Some se' /\ os_log se' = Some log /\
       os_history se' = os_history se /\ (os_slot se' <> None -> would_overwrite (os_cursor se') len log = false)).
Proof.
  intros H Ese Hlog. destruct (os_slot se) as [slot|] eqn:Hsl.
  2:{ eexists _, _. split; [done|]. split; [done|]. split; [done|]. split; [done|]. exists se. rewrite Hsl. by repeat split. }
  destruct (would_overwrite (os_cursor se) len log) eqn:Hw; cbn [when].
  2:{ eexists _, _. split; [done|]. split; [done|]. split; [done|]. split; [done|]. exists se. by repeat split. }
  destruct (sk_slot _ _ _ (co_sessions _ _ _ (oi_core s H) _ _ Ese) _ Hsl) as (c & Ec & Ho & Hid & Hidn).
  pose proof (cl_slot _ _ _ _ (co_conns _ _ _ (oi_core s H) _ _ Ec Ho)) as Hcs.
  unfold out_ok. rewrite (conn_at_bind _ _ _ _ Ec).
  destruct (close_ok s (oc_conn c) c H) as (u & s1 & E1 & H1 & Hl1 & Hk1 & Ht1 & _ & Hfree);
    [lia|by eapply live_named; [apply H|..]|by rewrite Hcs, Nat2Z.id|].
  exists u, s1. split; [done|]. split; [done|]. split; [done|]. split; [done|].
  destruct (Hk1 _ _ Ese) as (se1 & Ese1 & Hlog1 & Hh1). exists se1. split; [done|]. split; [congruence|]. split; [done|].
  subst n. destruct (Hfree eq_refl Ho se Hid Ese) as (se2 & Ese2 & Hnone). rewrite Ese1 in Ese2. injection Ese2 as <-. by rewrite Hnone.
Qed.

Lemma add_sample_fields end_off latency se :
  os_log (add_sample end_off latency se) = os_log se /\ os_slot (add_sample end_off latency se) = os_slot se /\
  os_cursor (add_sample end_off latency se) = os_cursor se /\ os_history (add_sample end_off latency se) = os_history se.
Proof. unfold add_sample. destruct latency; [|done]. by destruct (_ <? _)%nat. Qed.

Lemma store_retained_ok s b id v :
  out_inv s -> (Z.to_nat id < 65)%nat ->
  out_ok (when b (store_retained id v)) s (fun _ s' => outbound_connections_ s' = outbound_connections_ s /\
    outbound_sessions_ s' = outbound_sessions_ s /\ tcp_taken s' = tcp_taken s).
Proof.
  intros H Hid. destruct b; cbn [when]; [|by eexists _, _].
  destruct (lookup_lt_is_Some_2 (out_retained_from_ s) (Z.to_nat id)) as [r Er]; [by rewrite (oi_retained s H)|].
  unfold out_ok, store_retained. rewrite Er. eexists _, _. split; [done|]. split; [|done].
  apply (out_inv_intro s); cbn [outbound_connections_ outbound_sessions_ tcp_taken out_retained_from_ dirty_]; rewrite ?length_insert; try done.
  apply H.
Qed.

(** A session changed only in its latency samples. *)
Lemma set_session_same s id se se' :
  out_inv s -> outbound_sessions_ s !! Z.to_nat id = Some se -> os_log se' = os_log se -> os_slot se' = os_slot se ->
  os_cursor se' = os_cursor se -> os_history se' = os_history se ->
  out_ok (set_session id se') s (fun _ s' => outbound_connections_ s' = outbound_connections_ s /\ tcp_taken s' = tcp_taken s /\
    outbound_sessions_ s' = <[Z.to_nat id := se']> (outbound_sessions_ s)).
Proof.
  intros H E Hl Hs Hc Hh. pose proof (lookup_lt_Some _ _ _ E) as Hlt. eexists _, _. split; [done|]. split; [|done].
  apply (out_inv_intro s); cbn [outbound_connections_ outbound_sessions_ tcp_taken out_retained_from_ dirty_]; rewrite ?length_insert; try done.
  eapply core_session; [by apply H|done| |].
  - destruct (co_sessions _ _ _ (oi_core s H) _ _ E). by split; rewrite ?Hl, ?Hs, ?Hh.
  - intros i c Ec (Ho & Hid & Hn). destruct (co_conns _ _ _ (oi_core s H) i c Ec Ho) as [Hcs Hcg Hcc Hdk Hcl]. split; [done|done|done|done|]. intros _.
    destruct (Hcl Hid) as (Hpos & se0 & log & start & E0 & ? & ? & ? & ? & ?). rewrite Hn, E in E0. injection E0 as <-. split; [done|].
    exists se', log, start. rewrite Hn, list_lookup_insert_eq by done. unfold cursor_ok, queued in *. by rewrite Hl, Hs, Hc, Hh.
Qed.

Lemma send_sequenced_ok s id se packet latency :
  out_inv s -> outbound_sessions_ s !! Z.to_nat id = Some se ->
  (forall log, os_log se = Some log -> log_fits cap packet log) -> data_packet packet ->
  out_ok (send_sequenced_ id packet latency) s (fun _ s' => tcp_taken s' = tcp_taken s /\
    (os_log se <> None -> exists se', outbound_sessions_ s' !! Z.to_nat id = Some se' /\ os_history se' = os_history se ++ [packet])).
Proof.
  intros H Ese Hfit Hdp. unfold send_sequenced_, out_ok. rewrite (session_at_bind _ _ _ _ Ese).
  destruct (os_log se) as [log|] eqn:Hlog; [|by eexists _, _]. specialize (Hfit log eq_refl). pose proof (lookup_lt_Some _ _ _ Ese) as Hlt.
  eapply out_ok_bind; [by apply make_room_ok|]. intros _ s1 H1 _ (Ht1 & se1 & Ese1 & Hlog1 & Hh1 & Hw1).
  unfold out_ok. rewrite (session_at_bind _ _ _ _ Ese1). cbv zeta. set (se2 := mkOutSession _ _ _ _ _ _ _).
  eapply (out_ok_bind (set_session id se2) _ s1 (fun _ s' => outbound_connections_ s' = outbound_connections_ s1 /\ tcp_taken s' = tcp_taken s1 /\
    outbound_sessions_ s' = <[Z.to_nat id := se2]> (outbound_sessions_ s1))).
  { eexists _, _. split; [done|]. split; [|done].
    apply (out_inv_intro s1); cbn [outbound_connections_ outbound_sessions_ tcp_taken out_retained_from_ dirty_]; rewrite ?length_insert; try done.
    eapply sequenced_core with (packet := packet); [by apply H1|done|done|done|done|done..]. }
  intros _ s2 H2 _ (Hc2 & Ht2 & Hs2). eapply out_ok_bind.
  { apply store_retained_ok; [done|]. by rewrite <- (oi_sessions s H). }
  intros _ s3 H3 _ (Hc3 & Hs3 & Ht3).
  assert (outbound_sessions_ s3 !! Z.to_nat id = Some se2) as Ese3
    by (rewrite Hs3, Hs2, list_lookup_insert_eq by (by eapply lookup_lt_Some); done).
  assert (os_history se2 = os_history se ++ [packet]) as Hhist by (cbn; congruence).
  destruct (os_slot se1) as [slot|] eqn:Hsl.
  2:{ eexists _, _. split; [done|]. split; [done|]. split; [done|]. split; [congruence|]. intros _. by exists se2. }
  unfold out_ok. rewrite (session_at_bind _ _ _ _ Ese3). pose proof (add_sample_fields (end_offset (append packet log)) latency se2) as (Hf1 & Hf2 & Hf3 & Hf4).
  eapply out_ok_bind; [by apply (set_session_same s3 id se2)|]. intros _ s4 H4 _ (Hc4 & Ht4 & Hs4).
  destruct (sk_slot _ _ _ (co_sessions _ _ _ (oi_core s1 H1) _ _ Ese1) _ Hsl) as (c & Ec & Ho & _).
  eapply out_ok_weaken; [apply (mark_dirty_ok s4 slot c); [done|congruence|done]|]. intros _ s5 (Hs5 & Ht5). split; [congruence|]. intros _.
  eexists. rewrite Hs5, Hs4, list_lookup_insert_eq by (by eapply lookup_lt_Some). split; [done|]. by rewrite Hf4.
Qed.

(** *** Messages and shutdown *)

(** No session's log is near the end of its 64-bit offsets. *)
Definition room (s : Outbound) : Prop :=
  forall (n : nat) se log, outbound_sessions_ s !! n = Some se -> os_log se = Some log ->
    end_ log + 256 < 18446744073709551616 /\ next_seq_ log + 1 < 18446744073709551616.

Lemma send_ouch_ok s r latency se :
  out_inv s -> room s -> outbound_wf (resp_ouch r) -> outbound_sessions_ s !! Z.to_nat (resp_client_id r) = Some se ->
  out_ok (send_ouch_ r latency) s (fun _ s' => tcp_taken s' = tcp_taken s /\
    (os_log se <> None -> exists se', outbound_sessions_ s' !! Z.to_nat (resp_client_id r) = Some se' /\
      os_history se' = os_history se ++ [soup_frame SOUP_SEQUENCED_DATA (outbound_bytes (resp_ouch r))])).
Proof.
  intros H Hroom Hwf E. unfold send_ouch_. pose proof (outbound_size_bound (resp_ouch r)) as Hb.
  rewrite outbound_size in Hb by done. set (packet := soup_frame SOUP_SEQUENCED_DATA (outbound_bytes (resp_ouch r))).
  assert (length packet <= 256 /\ 0 < length packet)%nat as [Hlen Hpos]
    by (unfold packet; rewrite soup_frame_length; unfold kSoupHeaderLen in *; lia).
  pose proof (soup_sequenced_frame (resp_ouch r) Hwf (replicate kMaxSoupPacket 0)) as He. cbv zeta in He. fold packet in He.
  rewrite decide_True in He by (rewrite length_replicate; unfold kMaxSoupPacket; lia). rewrite He. rewrite (proj2 (Nat.eqb_neq _ _)) by lia.
  rewrite take_app_length. apply send_sequenced_ok; [done|done| |by exists (resp_ouch r)]. intros log Hlog.
  destruct (Hroom _ _ _ E Hlog) as [Hr1 Hr2]. assert (512 <= cap) by (rewrite Hcap; change 512 with (2 ^ 9); apply Z.pow_le_mono_r; lia).
  split; [lia|]. split; lia.
Qed.

Lemma close_slots_ok slots s :
  out_inv s -> Forall (fun z => 0 <= z /\ (Z.to_nat z < length (outbound_connections_ s))%nat) slots ->
  out_ok (close_slots slots) s (fun _ s' => logs_kept s s' /\ tcp_taken s' = tcp_taken s).
Proof.
  revert s. induction slots as [|z slots IH]; intros s H Hs; cbn [close_slots].
  { eexists _, _. split; [done|]. split; [done|]. split; [done|]. by split; [apply logs_kept_same|]. }
  apply Forall_cons in Hs as [[Hz Hlt] Hs]. destruct (lookup_lt_is_Some_2 _ _ Hlt) as [c E]. unfold out_ok. rewrite (conn_at_bind _ _ _ _ E).
  eapply (out_ok_bind _ _ _ (fun _ s' => logs_kept s s' /\ tcp_taken s' = tcp_taken s)).
  - destruct (oc_open c) eqn:Ho; cbn [when].
    + pose proof (cl_slot _ _ _ _ (co_conns _ _ _ (oi_core s H) _ _ E Ho)) as Hsl.
      eapply out_ok_weaken; [apply (close_ok s (oc_conn c) c H); [lia|by eapply live_named; [apply H|..]|by rewrite Hsl, Nat2Z.id]|].
      by intros u s' (? & ? & _).
    + eexists _, _. split; [done|]. split; [done|]. split; [done|]. by split; [apply logs_kept_same|].
  - intros u s1 H1 Hl1 (Hk1 & Ht1). eapply out_ok_weaken; [apply IH; [done|by rewrite Hl1]|]. intros u2 s2 (Hk2 & Ht2). split; [|congruence].
    intros n se Hse. destruct (Hk1 n se Hse) as (se1 & E1 & ? & ?). destruct (Hk2 n se1 E1) as (se2 & E2 & ? & ?). exists se2.
    split; [done|]. split; congruence.
Qed.

(** ** Flushing *)

Section Flush.
Context (rdtsc : nat -> Z) (tcp_send : nat -> ConnId -> list Z -> nat) (tcp_sendable : nat -> ConnId -> bool).
(** TCP takes a prefix of what it is offered. *)
Hypothesis tcp_send_le : forall n conn bytes, (tcp_send n conn bytes <= length bytes)%nat.

(** Nothing the invariant speaks of has changed. *)
Definition same_tables (s s' : Outbound) : Prop :=
  outbound_connections_ s' = outbound_connections_ s /\ outbound_sessions_ s' = outbound_sessions_ s /\
  tcp_taken s' = tcp_taken s /\ dirty_ s' = dirty_ s.

Lemma out_tsc_ok s : out_inv s -> out_ok (out_tsc rdtsc) s (fun _ s' => same_tables s s').
Proof. intros [? ? ? ?]. by eexists _, _. Qed.

Lemma sendable_ok s conn : out_inv s -> out_ok (sendable tcp_sendable conn) s (fun _ s' => same_tables s s').
Proof. intros [? ? ? ?]. by eexists _, _. Qed.

(** A connection whose control packet TCP takes some of. *)
Lemma control_core conns sessions taken i c c' bytes :
  core conns sessions taken -> conns !! i = Some c -> oc_open c = true ->
  oc_conn c' = oc_conn c -> oc_open c' = oc_open c -> oc_client_id c' = oc_client_id c ->
  oc_closed_generation c' = oc_closed_generation c -> (oc_control_sent c' <= length (oc_control c'))%nat ->
  drop (oc_control_sent c) (oc_control c) = bytes ++ drop (oc_control_sent c') (oc_control c') ->
  core (<[i := c']> conns) sessions (taken ++ [(oc_conn c, bytes)]).
Proof.
  intros H Ec Ho Hc Ho' Hid Hg Hcs Hbytes. pose proof (co_conns _ _ _ H i c Ec Ho) as [Hsl Hgen _ Hdk Hse].
  eapply core_conn; [done|done| | | | |].
  - intros n (? & ? & ?). split; [congruence|]. split; congruence.
  - intros _. split; [congruence|congruence|done|congruence|]. rewrite Hid. intros Hne.
    destruct (Hse Hne) as (Hpos & se & log & start & ? & ? & ? & [? ?] & [? ?] & Hstream). split; [done|]. exists se, log, start.
    split_and!; try done. rewrite Hc, sent_on_same, <- app_assoc. unfold queued in *. by rewrite Hbytes, <- app_assoc in Hstream.
  - intros conn Hne. apply sent_on_other. congruence.
  - unfold closed_ok. rewrite Hg. by apply (co_closed _ _ _ H).
  - apply Forall_app. split; [apply H|]. apply Forall_singleton. by eapply live_named.
Qed.

Lemma flush_control_ok s slot c :
  out_inv s -> outbound_connections_ s !! Z.to_nat slot = Some c -> oc_open c = true ->
  out_ok (flush_control tcp_send slot) s (fun r s' => outbound_sessions_ s' = outbound_sessions_ s /\ dirty_ s' = dirty_ s /\
    exists c', outbound_connections_ s' !! Z.to_nat slot = Some c' /\ oc_open c' = true /\ oc_conn c' = oc_conn c /\
      oc_client_id c' = oc_client_id c /\ (r.2 = true -> drop (oc_control_sent c') (oc_control c') = [])).
Proof.
  intros H E Ho. pose proof (lookup_lt_Some _ _ _ E) as Hlt. pose proof (co_conns _ _ _ (oi_core s H) _ _ E Ho) as [_ _ Hcs _ _].
  unfold out_ok, flush_control. rewrite (conn_at_bind _ _ _ _ E).
  destruct (Nat.ltb_spec (oc_control_sent c) (length (oc_control c))) as [Hl|Hl].
  2:{ eexists _, _. split; [done|]. split; [done|]. split; [done|]. split; [done|]. split; [done|]. exists c. repeat split; try done.
      intros _. by apply drop_ge. }
  rewrite (bind_Some _ _ _ _ _ eq_refl). set (n := tcp_send _ _ _). cbv zeta. rewrite (bind_Some _ _ _ tt _ eq_refl).
  pose proof (tcp_send_le (tcp_calls s) (oc_conn c) (drop (oc_control_sent c) (oc_control c))) as Hn. fold n in Hn. rewrite length_drop in Hn.
  eexists _, _. split; [done|]. cbn [outbound_connections_ outbound_sessions_ dirty_ snd]. rewrite length_insert.
  split; [|split; [done|split; [done|split; [done|]]]].
  - apply (out_inv_intro s); cbn [outbound_connections_ outbound_sessions_ tcp_taken out_retained_from_ dirty_]; rewrite ?length_insert; try done.
    eapply control_core; [by apply H|done|done|done..| |]; cbn [oc_control oc_control_sent];
      destruct (Nat.eqb_spec (oc_control_sent c + n) (length (oc_control c))); cbn [length]; try lia.
    + rewrite drop_nil, app_nil_r. rewrite take_ge; [done|rewrite length_drop; lia].
    + by rewrite <- drop_drop, take_drop.
  - eexists. rewrite list_lookup_insert_eq by done. split; [done|]. cbn [oc_open oc_conn oc_client_id oc_control_sent oc_control].
    repeat split; try done. destruct (_ =? _)%nat; [by rewrite drop_nil|done].
Qed.

(** What is read of a session's stream. *)
Definition between (a b : Z) (hist : list (list Z)) : list Z := take (Z.to_nat (b - a)) (drop (Z.to_nat a) (concat hist)).

Lemma between_app a b c hist : 0 <= a <= b -> b <= c -> between a b hist ++ between b c hist = between a c hist.
Proof.
  intros H1 H2. unfold between. replace (Z.to_nat b) with (Z.to_nat a + Z.to_nat (b - a))%nat by lia.
  rewrite <- drop_drop. set (l := drop (Z.to_nat a) _). replace (Z.to_nat (c - a)) with (Z.to_nat (b - a) + Z.to_nat (c - b))%nat by lia.
  by rewrite take_take_drop.
Qed.

(** The loop ends, and has sent the stream up to the cursor it leaves. *)
Lemma flush_log_loop_ok hist log conn fuel cursor sent_any s :
  log_holds cap hist log -> end_ log < 18446744073709551616 -> 0 <= cursor <= end_ log -> end_ log - cap <= cursor ->
  (Z.to_nat (end_ log - cursor) <= fuel)%nat ->
  exists cursor' b taken calls, flush_log_loop tcp_send fuel conn log cursor sent_any s =
    Some ((cursor', b), mkOutbound (outbound_connections_ s) (dirty_ s) (outbound_sessions_ s) (out_retained_from_ s) taken
      (tcp_closed s) (latency_recorded s) calls (out_tsc_reads s)) /\
    cursor <= cursor' <= end_ log /\ (taken_ok (tcp_taken s) -> conn ∈ dk_named desk -> taken_ok taken) /\ sent_on conn taken = sent_on conn (tcp_taken s) ++ between cursor cursor' hist /\
    (forall conn', conn' <> conn -> sent_on conn' taken = sent_on conn' (tcp_taken s)).
Proof.
  intros Hh Hend. revert cursor sent_any s. induction fuel as [|fuel IH]; intros cursor sent_any s Hc Hk2 Hf; cbn [flush_log_loop];
    unfold end_offset; (destruct (Z.ltb_spec cursor (end_ log)) as [Hlt|Hge];
      [|exists cursor, sent_any, (tcp_taken s), (tcp_calls s); split; [by destruct s|]; split; [lia|]; split; [done|]; split; [|done];
        unfold between; rewrite Z.sub_diag; cbn; by rewrite app_nil_r]); [lia|].
  rewrite (bind_Some _ _ _ _ _ eq_refl). set (piece := contiguous_from cursor log). set (n := tcp_send _ _ _).
  pose proof (tcp_send_le (tcp_calls s) conn piece) as Hn. fold n in Hn. clearbody n.
  assert (length piece <= Z.to_nat (end_ log - cursor) /\ take n piece = between cursor (cursor + Z.of_nat n) hist)%nat as [Hlen Hpiece].
  { unfold piece in *. rewrite (contiguous_holds k cap ltac:(lia) Hcap hist) in Hn |- * by done. rewrite length_take, length_drop in Hn |- *.
    split; [lia|]. unfold between. rewrite take_take. f_equal. lia. }
  destruct (Nat.eqb_spec n 0) as [Hz|Hnz].
  - eexists cursor, sent_any, _, _. split; [done|]. split; [lia|]. split; [|split].
    + intros ? ?. apply Forall_app. split; [done|]. by apply Forall_singleton.
    + cbn [tcp_taken]. rewrite sent_on_same, Hpiece. unfold between. f_equal. f_equal. lia.
    + intros conn' Hne. by apply sent_on_other.
  - edestruct (IH (cursor + Z.of_nat n) true) as (cursor' & b & taken & calls & -> & Hc' & Htk & Hs & Ho); [lia..|].
    eexists cursor', b, taken, calls. split; [done|]. split; [lia|]. split; [|split].
    + intros ? ?. apply Htk; [|done]. apply Forall_app. split; [done|]. by apply Forall_singleton.
    + rewrite Hs. cbn [tcp_taken]. rewrite sent_on_same, Hpiece, <- app_assoc. f_equal. apply between_app; lia.
    + intros conn' Hne. rewrite Ho by done. cbn [tcp_taken]. by apply sent_on_other.
Qed.

Lemma log_core conns sessions taken taken' i c n se se' log :
  core conns sessions taken -> conns !! i = Some c -> linked c n -> sessions !! n = Some se -> os_log se = Some log ->
  drop (oc_control_sent c) (oc_control c) = [] ->
  os_log se' = os_log se -> os_slot se' = os_slot se -> os_history se' = os_history se ->
  os_cursor se <= os_cursor se' <= end_ log ->
  sent_on (oc_conn c) taken' = sent_on (oc_conn c) taken ++ between (os_cursor se) (os_cursor se') (os_history se) ->
  (forall conn, conn <> oc_conn c -> sent_on conn taken' = sent_on conn taken) -> taken_ok taken' ->
  core conns (<[n := se']> sessions) taken'.
Proof.
  intros H Ec Hlk Ese Hlog Hctl Hl' Hs' Hh' Hcur Hsent Hother Htk. pose proof (linked_slot _ _ _ _ _ _ _ H Ec Hlk Ese) as Hsl.
  destruct Hlk as (Ho & Hid & Hn). destruct (co_conns _ _ _ H i c Ec Ho) as [Hcs Hcg Hcc Hdk Hcl].
  rewrite <- (list_insert_id conns i c) by done.
  eapply (core_both _ _ _ _ _ c _ _ se); [done|done|done|by right|by intros m (_ & _ & <-)| | | |by apply (co_closed _ _ _ H)|done].
  - intros _. split; [done|done|done|done|]. intros _.
    destruct (Hcl Hid) as (Hpos & se0 & log0 & start & E0 & _ & Hl0 & [Hcur1 Hcur2] & Hst & Hstream). split; [done|].
    rewrite Hn, Ese in E0. injection E0 as <-. rewrite Hlog in Hl0. injection Hl0 as <-. exists se', log, start.
    rewrite Hn, list_lookup_insert_eq by (by eapply lookup_lt_Some). split; [done|]. split; [congruence|]. split; [congruence|].
    split; [unfold cursor_ok; lia|]. rewrite Hh'. split; [done|]. rewrite Hsent. unfold queued in *. rewrite Hctl, Hh' in *. cbn [app] in *.
    rewrite <- app_assoc. unfold between.
    replace (Z.to_nat (os_cursor se')) with (Z.to_nat (os_cursor se) + Z.to_nat (os_cursor se' - os_cursor se))%nat by lia.
    by rewrite <- drop_drop, take_drop.
  - destruct (co_sessions _ _ _ H _ _ Ese) as [Hk1 Hk2 Hk3]. rewrite list_insert_id by done. by split; rewrite ?Hl', ?Hs', ?Hh'.
  - intros conn Hne. apply Hother. congruence.
Qed.

Lemma complete_samples_fields count t6 t7 cursor se :
  let se' := (complete_samples count t6 t7 cursor se).2 in
  os_log se' = os_log se /\ os_slot se' = os_slot se /\ os_cursor se' = os_cursor se /\ os_history se' = os_history se.
Proof.
  revert se. induction count as [|count IH]; intros se; cbn [complete_samples]; [done|].
  destruct (os_samples se !!! os_samples_head se) as [e l]. destruct (e <=? cursor); [|done].
  specialize (IH (mkOutSession (os_log se) (os_slot se) (os_cursor se) (os_samples se)
    ((os_samples_head se + 1) mod kMaxPendingSamples)%nat count (os_history se))).
  by destruct (complete_samples count t6 t7 cursor _) as [done se'].
Qed.

Lemma flush_log_ok s slot t6 sent_any c :
  out_inv s -> outbound_connections_ s !! Z.to_nat slot = Some c -> oc_open c = true -> oc_client_id c <> 0 ->
  drop (oc_control_sent c) (oc_control c) = [] ->
  out_ok (flush_log rdtsc tcp_send t6 sent_any c) s (fun r s' => outbound_connections_ s' = outbound_connections_ s /\ dirty_ s' = dirty_ s).
Proof.
  intros H E Ho Hid Hctl. destruct (cl_session _ _ _ _ (co_conns _ _ _ (oi_core s H) _ _ E Ho) Hid)
    as (Hpos & se & log & start & Ese & _ & Hlog & [Hcur1 Hcur2] & _).
  pose proof (sk_log _ _ _ (co_sessions _ _ _ (oi_core s H) _ _ Ese)) as Hsk. rewrite Hlog in Hsk. destruct Hsk as (Hh & Hend & _).
  unfold out_ok, flush_log. rewrite (session_at_bind _ _ _ _ Ese), (lift_bind _ _ _ _ Hlog).
  destruct (flush_log_loop_ok _ log (oc_conn c) (Z.to_nat (end_offset log - os_cursor se)) (os_cursor se) sent_any s Hh Hend Hcur1 Hcur2)
    as (cursor & b & taken & calls & Eloop & Hcur & Htk & Hsent & Hother); [done|].
  rewrite (bind_Some _ _ _ _ _ Eloop). cbv zeta. rewrite (bind_Some _ _ _ _ _ eq_refl).
  set (se1 := se <| os_cursor := cursor |>). set (t7 := rdtsc _). pose proof (complete_samples_fields (os_samples_count se1) t6 t7 cursor se1) as Hf.
  destruct (complete_samples (os_samples_count se1) t6 t7 cursor se1) as [samples se2]. cbv zeta in Hf. cbn [snd] in Hf.
  destruct Hf as (Hf1 & Hf2 & Hf3 & Hf4). rewrite (bind_Some _ _ _ tt _ eq_refl), (bind_Some _ _ _ tt _ eq_refl).
  eexists _, _. split; [done|]. split; [|done].
  apply (out_inv_intro s); cbn [outbound_connections_ outbound_sessions_ tcp_taken out_retained_from_ dirty_]; rewrite ?length_insert; try done.
  eapply (log_core _ _ _ _ _ c _ se se2 log); [by apply H|done|by split|done|done|done|done|done|done|..]; rewrite ?Hf3; try done.
  apply Htk; [apply H|]. by eapply live_named; [apply H|..].
Qed.

(** Slots are slots. *)
Lemma slot_lookup s slot c s' :
  outbound_connections_ s !! Z.to_nat slot = Some c -> length (outbound_connections_ s') = length (outbound_connections_ s) ->
  exists c', outbound_connections_ s' !! Z.to_nat slot = Some c'.
Proof. intros E Hl. apply lookup_lt_is_Some_2. rewrite Hl. by eapply lookup_lt_Some. Qed.

Lemma touch_sent_ok s slot c b :
  out_inv s -> outbound_connections_ s !! Z.to_nat slot = Some c -> oc_open c = true ->
  out_ok (when b (now ← out_tsc rdtsc; c ← conn_at slot; set_conn slot (c <| oc_last_sent_tsc := now |>))) s
    (fun _ s' => dirty_ s' = dirty_ s /\ exists c', outbound_connections_ s' !! Z.to_nat slot = Some c' /\ oc_open c' = true).
Proof.
  intros H E Ho. destruct b; cbn [when]; [|eexists _, _; split; [done|]; split; [done|]; split; [done|]; split; [done|by exists c]].
  eapply out_ok_bind; [by apply out_tsc_ok|]. intros now s1 H1 Hl1 (Hc1 & _ & _ & Hd1). rewrite <- Hc1 in E.
  unfold out_ok. rewrite (conn_at_bind _ _ _ _ E). pose proof (lookup_lt_Some _ _ _ E) as Hlt.
  destruct (set_conn_same s1 slot c (c <| oc_last_sent_tsc := now |>) H1 E) as (u & s2 & E2 & H2 & Hl2 & Hc2); [done|].
  exists u, s2. split; [done|]. split; [done|]. split; [done|]. injection E2 as _ <-. split; [done|].
  eexists. cbn [outbound_connections_]. by rewrite list_lookup_insert_eq.
Qed.

Lemma flush_connection_ok s slot c :
  out_inv s -> outbound_connections_ s !! Z.to_nat slot = Some c -> oc_open c = true ->
  out_ok (flush_connection_ rdtsc tcp_send tcp_sendable slot) s (fun _ s' => dirty_ s' = dirty_ s).
Proof.
  intros H E Ho. unfold flush_connection_. eapply out_ok_bind; [by apply out_tsc_ok|].
  intros t6 s1 H1 _ (Hc1 & _ & _ & Hd1). rewrite <- Hc1 in E. eapply out_ok_bind; [by apply (flush_control_ok s1 slot c)|].
  intros [sent done] s2 H2 Hl2 (_ & Hd2 & c2 & E2 & Ho2 & Hcn & Hid & Hdone). cbn [snd] in Hdone.
  unfold out_ok. rewrite (conn_at_bind _ _ _ _ E2).
  eapply (out_ok_bind _ _ _ (fun _ s' => outbound_connections_ s' = outbound_connections_ s2 /\ dirty_ s' = dirty_ s2)).
  { destruct (done && negb (oc_client_id c2 =? 0)) eqn:Eb; [|by eexists _, _]. apply andb_true_iff in Eb as [-> Eb].
    apply negb_true_iff, Z.eqb_neq in Eb. apply (flush_log_ok s2 slot); auto. }
  intros [sent' done'] s3 H3 _ (Hc3 & Hd3). rewrite <- Hc3 in E2. eapply out_ok_bind; [by eapply touch_sent_ok|].
  intros _ s4 H4 _ (Hd4 & c4 & E4 & Ho4). destruct done'; cbn [negb].
  - unfold out_ok. rewrite (conn_at_bind _ _ _ _ E4). pose proof (cl_slot _ _ _ _ (co_conns _ _ _ (oi_core s4 H4) _ _ E4 Ho4)) as Hsl.
    destruct (oc_close_when_flushed c4); cbn [when].
    + destruct (close_ok s4 (oc_conn c4) c4 H4) as ([] & s5 & E5 & H5 & Hl5 & _);
        [lia|by eapply live_named; [apply H4|..]|by rewrite Hsl, Nat2Z.id|].
      exists true, s5. rewrite (bind_Some _ _ _ _ _ E5). split; [done|]. split; [done|]. split; [done|]. rewrite <- Hd1, <- Hd2, <- Hd3, <- Hd4.
      by apply (close_dirty _ _ _ E5).
    + eexists _, _. split; [done|]. split; [done|]. split; [done|]. congruence.
  - eapply out_ok_bind; [by apply sendable_ok|]. intros alive s5 H5 _ (_ & _ & _ & Hd5). eexists _, _. split; [done|]. split; [done|].
    split; [done|]. congruence.
Qed.

Lemma flush_slot_ok s slot :
  out_inv s -> (Z.to_nat slot < length (outbound_connections_ s))%nat ->
  out_ok (flush_slot rdtsc tcp_send tcp_sendable slot) s (fun _ s' => dirty_ s' = dirty_ s).
Proof.
  intros H Hlt. destruct (lookup_lt_is_Some_2 _ _ Hlt) as [c E]. unfold flush_slot, out_ok. rewrite (conn_at_bind _ _ _ _ E).
  eapply (out_ok_bind _ _ _ (fun _ s' => dirty_ s' = dirty_ s)).
  { destruct (oc_open c) eqn:Ho; [|by eexists _, _]. eapply out_ok_bind; [by apply (flush_connection_ok s slot c)|].
    intros b s1 H1 Hl1 Hd1. by eexists _, _. }
  intros keep s1 H1 Hl1 Hd1. destruct keep; [by eexists _, _|]. destruct (slot_lookup s slot c s1 E Hl1) as [c1 E1].
  unfold out_ok. rewrite (conn_at_bind _ _ _ _ E1).
  destruct (set_conn_same s1 slot c1 (c1 <| oc_dirty := false |>) H1 E1) as (u & s2 & E2 & H2 & Hl2 & _); [done|].
  exists false, s2. rewrite (bind_Some _ _ _ _ _ E2). split; [done|]. split; [done|]. split; [done|]. by injection E2 as _ <-.
Qed.

Lemma flush_slots_ok slots s :
  out_inv s -> Forall (fun d => exists i : nat, d = Z.of_nat i /\ (i < length (outbound_connections_ s))%nat) slots ->
  out_ok (flush_slots rdtsc tcp_send tcp_sendable slots) s (fun kept s' => sublist kept slots /\ dirty_ s' = dirty_ s).
Proof.
  revert s. induction slots as [|slot slots IH]; intros s H Hs; cbn [flush_slots].
  { by eexists _, _. }
  apply Forall_cons in Hs as [(i & Hi & Hlt) Hs].
  eapply out_ok_bind; [apply flush_slot_ok; [done|by rewrite Hi, Nat2Z.id]|]. intros keep s1 H1 Hl1 Hd1.
  eapply out_ok_bind; [apply IH; [done|by rewrite Hl1]|]. intros kept s2 H2 Hl2 (Hsub & Hd2). eexists _, _. split; [done|].
  split; [done|]. split; [done|]. split; [|congruence]. destruct keep; [by apply sublist_skip|by apply sublist_cons].
Qed.

Lemma flush_ok s : out_inv s -> out_ok (flush_ rdtsc tcp_send tcp_sendable) s (fun _ _ => True).
Proof.
  intros H. unfold flush_, out_ok. rewrite gets_bind. eapply out_ok_bind; [apply flush_slots_ok; [done|apply H]|].
  intros kept s1 H1 Hl1 (Hsub & _). eexists _, _. split; [done|]. split; [|done]. destruct H1 as [? ? ? _]. split; try done.
  cbn [dirty_ outbound_connections_]. rewrite Hl1. apply Forall_forall. intros d Hd. apply (sublist_subseteq _ _ Hsub) in Hd.
  pose proof (oi_dirty s H) as Ha. rewrite Forall_forall in Ha. by apply Ha.
Qed.

(** *** Heartbeats *)

Lemma heartbeat_slot_ok s clock now slot :
  out_inv s -> 0 <= slot -> (Z.to_nat slot < length (outbound_connections_ s))%nat ->
  out_ok (heartbeat_slot clock now slot) s (fun _ s' => tcp_taken s' = tcp_taken s).
Proof.
  intros H Hp Hlt. destruct (lookup_lt_is_Some_2 _ _ Hlt) as [c E]. unfold heartbeat_slot, out_ok. rewrite (conn_at_bind _ _ _ _ E).
  destruct (negb (oc_open c) || _ || _) eqn:Eb; [by eexists _, _|]. apply orb_false_iff in Eb as [[Ho Hid]%orb_false_iff Hct].
  apply negb_false_iff in Ho, Hct. apply Z.eqb_neq in Hid. apply Nat.eqb_eq, length_zero_iff_nil in Hct.
  destruct (_ <=? _); [by eexists _, _|].
  destruct (cl_session _ _ _ _ (co_conns _ _ _ (oi_core s H) _ _ E Ho) Hid) as (Hpos & se & log & start & Ese & _ & Hlog & _).
  rewrite (session_at_bind _ _ _ _ Ese), (lift_bind _ _ _ _ Hlog). destruct (Z.eqb_spec (os_cursor se) (end_offset log)) as [Hc|]; cbn [negb]; [|by eexists _, _].
  pose proof (sk_log _ _ _ (co_sessions _ _ _ (oi_core s H) _ _ Ese)) as Hsk. rewrite Hlog in Hsk. destruct Hsk as (Hh & _).
  eapply out_ok_weaken; [apply (send_control_ok s slot c heartbeat_packet); try done|by intros _ s' (_ & ?)].
  - by apply Nat.leb_le.
  - intros _. split; [reflexivity|]. split; [done|]. intros se0 E0. rewrite Ese in E0. injection E0 as <-.
    apply drop_ge. unfold end_offset in Hc. rewrite Hc, (lh_end _ _ _ Hh). lia.
Qed.

Lemma heartbeat_ok s clock now : out_inv s -> out_ok (heartbeat_ clock now) s (fun _ s' => tcp_taken s' = tcp_taken s).
Proof.
  intros H. unfold heartbeat_, out_ok. rewrite gets_bind.
  assert (forall m s', out_inv s' -> (m <= length (outbound_connections_ s'))%nat ->
    forall l, Forall (fun z => 0 <= z /\ (Z.to_nat z < m)%nat) l -> out_ok (heartbeat_slots clock now l) s' (fun _ s2 => tcp_taken s2 = tcp_taken s')) as Hl.
  { intros m s' H' Hm l. revert s' H' Hm. induction l as [|z l IH]; intros s' H' Hm Hf; cbn [heartbeat_slots]; [by eexists _, _|].
    apply Forall_cons in Hf as [[Hz1 Hz2] Hf]. eapply out_ok_bind; [apply heartbeat_slot_ok; [done|done|lia]|]. intros u s1 H1 Hl1 Ht1.
    eapply out_ok_weaken; [apply IH; [done|lia|done]|]. intros u2 s2 Ht2. congruence. }
  eapply Hl; [done|reflexivity|]. apply Forall_fmap, Forall_seq. intros j Hj. cbn. lia.
Qed.

End Flush.
End Invariant.
