(* ===== verification/OutboundTheorems.v ===== *)
(** * OutboundTheorems: the outbound thread's runs

    The outbound thread handles notes and engine events, flushes, sends heartbeats and
    closes; a run is any sequence of these steps ([outbound_] drains the notes, then a
    batch of events, then flushes).  Notes come as the protocol allows, TCP takes a
    prefix of what it is offered, and a session's 64-bit offsets do not run out. *)

From S2P Require Import Prelude Types WireCodec Clock OuchProto OuchCorrect Validation OrderEntry OuchResponder.
From S2P Require Import SoupProto SessionLog Inbound NoteProtocol Outbound OutboundStream.

(** ** What a note tells *)

(** A desk that knows at least as much. *)
Definition desk_le (d d' : Desk) : Prop :=
  dk_slots d ⊆ dk_slots d' /\ dk_sessions d ⊆ dk_sessions d' /\ dk_named d ⊆ dk_named d'.

Lemma out_inv_desk cap d d' s : desk_le d d' -> out_inv cap d s -> out_inv cap d' s.
Proof.
  intros (Hs & Hn & Hd) [[Hc Hse Hcl Ht] ? ? ?]. split; try done. split.
  - intros i c E Ho. destruct (Hc i c E Ho) as [? ? ? Hdk ?]. split; try done. by eapply lookup_weaken.
  - intros n se E. destruct (Hse n se E) as [? ? Hsd]. split; try done. intros slot Hsl. destruct (Hsd slot Hsl) as (x & Ex & Hx).
    exists x. split; [|done]. by eapply lookup_weaken.
  - intros i c E. destruct (Hcl i c E) as [?|?]; [by left|]. right. by apply Hd.
  - eapply Forall_impl; [exact Ht|]. intros x Hx. by apply Hd.
Qed.

Lemma login_desk_le d note :
  match note with DISCONNECTED _ _ => False | _ => note_allowed d note end -> desk_le d (desk_note note d).
Proof.
  destruct note as [id g|id conn seq|reason conn|]; cbn [desk_note note_allowed]; [done|..|done].
  - intros ((_ & Hf & _) & _ & Hs & _). split; [by apply insert_subseteq|]. split; [by apply insert_subseteq|]. by set_solver.
  - intros (_ & Hf & _). split; [by apply insert_subseteq|]. by split; [|set_solver].
Qed.

(** A fresh connection, for the thread. *)
Lemma fresh_conn_of cap d s conn d' :
  out_inv cap d s -> length (outbound_connections_ s) = kMaxConnections -> conn_fresh d conn ->
  dk_slots d' !! slot_of conn = Some conn -> fresh_conn d' s conn.
Proof.
  intros [[Hc _ Hcl Ht] _ _ _] Hlen ((Hp & Hlt & Hg) & Hfree & Hnew) Hd'. split; [done|]. split; [|split; [done|]].
  - clear Hc. unfold sent_on, taken_ok in *. induction (tcp_taken s) as [|[x bs] l IH]; [done|]. apply Forall_cons in Ht as [Hx Ht].
    rewrite filter_cons_False; [by apply IH|]. cbn in *. by intros ->.
  - destruct (lookup_lt_is_Some_2 (outbound_connections_ s) (slot_of conn)) as [c E]; [by rewrite Hlen|]. exists c. split; [done|]. split.
    + destruct (oc_open c) eqn:Ho; [|done]. pose proof (cl_desk _ _ _ _ _ _ (Hc _ _ E Ho)) as Hdk. congruence.
    + intros Heq. destruct (Hcl _ _ E) as [H0|Hn]; [congruence|]. apply Hnew. rewrite Heq in Hn.
      replace conn with (mkConnId (Z.of_nat (slot_of conn)) (conn_generation conn)); [done|]. destruct conn. unfold slot_of. cbn in *. f_equal. lia.
Qed.

Lemma free_session_of cap d s id conn d' :
  out_inv cap d s -> client_ok id -> dk_sessions d !! Z.to_nat id = None -> dk_sessions d' !! Z.to_nat id = Some conn ->
  free_session d' s id conn.
Proof.
  intros [[_ Hse _ _] Hl _ _] Hid Hfree Hd'. unfold client_ok, MAX_CLIENTS in Hid. split; [lia|]. split; [done|].
  destruct (lookup_lt_is_Some_2 (outbound_sessions_ s) (Z.to_nat id)) as [se E]; [rewrite Hl; lia|]. exists se. split; [done|].
  destruct (os_slot se) as [slot|] eqn:Hs; [|done]. destruct (sk_desk _ _ _ _ _ (Hse _ _ E) slot Hs) as (x & Ex & _). congruence.
Qed.

(** After [close_], the desk can forget the connection. *)
Lemma out_inv_disconnected cap d s id conn c :
  desk_wf d -> out_inv cap (mkDesk (dk_slots d) (dk_sessions d) (conn :: dk_named d)) s -> note_allowed d (DISCONNECTED id conn) ->
  outbound_connections_ s !! slot_of conn = Some c -> oc_closed_generation c = conn_generation conn ->
  out_inv cap (desk_note (DISCONNECTED id conn) d) s.
Proof.
  intros Hwf [[Hc Hse Hcl Ht] ? ? ?] ([Hp _] & Hown & Hlog & Hses) E Hg.
  assert (oc_open c = false) as Hclosed.
  { destruct (oc_open c) eqn:Ho; [|done]. destruct (Hc _ _ E Ho) as [_ Hgen _ Hdk _]. destruct Hgen. rewrite (Hown _ Hdk). done. }
  split; try done. split; cbn [desk_note dk_slots dk_sessions dk_named]; try done.
  - intros i x Ex Ho. destruct (Hc i x Ex Ho) as [? ? ? Hdk ?]. split; try done. cbn [dk_slots] in *.
    rewrite lookup_delete_ne; [done|]. intros <-. congruence.
  - intros n se Ese. destruct (Hse n se Ese) as [? Hslot Hsd]. split; try done. intros slot Hs. cbn [dk_sessions] in *.
    destruct (Hsd slot Hs) as (x & Ex & Hx). exists x. split; [|done]. destruct (Z.eqb_spec id 0) as [|Hid]; [done|].
    rewrite lookup_delete_ne; [done|]. intros <-. rewrite (Hlog Hid) in Ex. injection Ex as <-.
    destruct (Hslot slot Hs) as (c' & Ec' & Ho' & _). unfold slot_of in E. rewrite Hx in E. congruence.
Qed.

(** ** Runs *)

Record OutThread := mkThread { th_desk : Desk; th_responder : OuchResponder; th_out : Outbound }.

Definition OutThread_new : OutThread := mkThread Desk_new ∅ Outbound_new.

(** Every order answered belongs to one of the sessions. *)
Definition resp_clients (R : OuchResponder) : Prop := map_Forall (fun _ o => client_ok (rec_client_id (lr_record o))) R.

Lemma on_note_clients note ts R :
  resp_clients R -> client_ok (rec_client_id (note_record note)) ->
  resp_clients (on_note note ts R).2 /\ match (on_note note ts R).1 with None => True | Some r => client_ok (resp_client_id r) end.
Proof.
  intros H Hr. unfold on_note. destruct (note_kind note); cbn [fst snd resp_client_id].
  1, 2: split; [by apply map_Forall_insert_2|done].
  by split.
Qed.

Lemma resp_reduce_clients id o shares R : resp_clients R -> R !! id = Some o -> resp_clients (resp_reduce id o shares R).
Proof.
  intros H E. unfold resp_reduce. cbv zeta. destruct (_ =? 0); [by apply map_Forall_delete|].
  apply map_Forall_insert_2; [apply (H _ _ E)|done].
Qed.

Lemma on_event_clients ev ts R :
  resp_clients R ->
  resp_clients (on_event ev ts R).2 /\ match (on_event ev ts R).1 with None => True | Some r => client_ok (resp_client_id r) end.
Proof.
  intros H. unfold on_event. destruct (R !! _) as [o|] eqn:E; [|done]. pose proof (H _ _ E) as Ho.
  destruct (ev_type ev); cbn [fst snd resp_client_id].
  - split; [by apply map_Forall_insert_2|done].
  - destruct (R !! ev_orig_order_id ev) as [orig|] eqn:E2; [|done]. cbn [fst snd resp_client_id].
    split; [apply map_Forall_insert_2; [done|by apply map_Forall_delete]|done].
  - split; [by apply resp_reduce_clients|done].
  - split; [by apply resp_reduce_clients|done].
  - split; [by apply map_Forall_delete|done].
Qed.

Section Thread.
Context (k cap : Z) (Hk : 9 <= k) (Hcap : cap = 2 ^ k).
Context (rdtsc : nat -> Z) (tcp_send : nat -> ConnId -> list Z -> nat) (tcp_sendable : nat -> ConnId -> bool).
Hypothesis tcp_send_le : forall n conn bytes, (tcp_send n conn bytes <= length bytes)%nat.

(** What the thread may do next. *)
Inductive out_action :=
| act_note (note : ServerNote) (ts : Z)
| act_event (ev : EngineEvent) (t5 ts : Z)
| act_flush
| act_heartbeat (clock : TscClock) (now : Z)
| act_shutdown.

Definition action_ok (t : OutThread) (a : out_action) : Prop :=
  match a with
  | act_note note ts => note_allowed (th_desk t) note /\ gateway_ok note /\ is_u64 ts /\ room (th_out t)
  | act_event ev t5 ts => event_typed ev /\ is_u64 ts /\ room (th_out t)
  | _ => True
  end.

Definition out_act (a : out_action) (t : OutThread) : option OutThread :=
  let same (m : M Outbound unit) := (fun '(_, s) => mkThread (th_desk t) (th_responder t) s) <$> m (th_out t) in
  match a with
  | act_note note ts =>
      (fun '(R, s) => mkThread (desk_note note (th_desk t)) R s) <$> on_note_ rdtsc cap note ts (th_responder t) (th_out t)
  | act_event ev t5 ts => (fun '(R, s) => mkThread (th_desk t) R s) <$> send_event ev t5 ts (th_responder t) (th_out t)
  | act_flush => same (flush_ rdtsc tcp_send tcp_sendable)
  | act_heartbeat clock now => same (heartbeat_ clock now)
  | act_shutdown => same close_all
  end.

Record thread_inv (t : OutThread) : Prop := {
  ti_desk : desk_wf (th_desk t);
  ti_typed : resp_typed (th_responder t);
  ti_clients : resp_clients (th_responder t);
  ti_out : out_inv cap (th_desk t) (th_out t);
  ti_conns : length (outbound_connections_ (th_out t)) = kMaxConnections;
}.

Lemma OutThread_new_inv : thread_inv OutThread_new.
Proof.
  split; cbn [OutThread_new th_desk th_responder th_out]; [apply Desk_new_wf|apply map_Forall_empty|apply map_Forall_empty| |].
  - split; [|done..|constructor]. split; cbn -[replicate].
    + intros i c [-> _]%lookup_replicate. done.
    + intros n se [-> _]%lookup_replicate. split; cbn; done.
    + intros i c [-> _]%lookup_replicate. by left.
    + constructor.
  - apply length_replicate.
Qed.

(** A response goes on its session's log. *)
Lemma send_response_ok desk s r latency :
  desk_wf desk -> out_inv cap desk s -> room s ->
  match r with None => True | Some r => outbound_wf (resp_ouch r) end ->
  match r with None => True | Some r => client_ok (resp_client_id r) end ->
  out_ok cap desk (match r with Some r => send_ouch_ r latency | None => mret tt end) s (fun _ _ => True).
Proof.
  intros Hd H Hr Hwf Hc. destruct r as [r|]; [|by eexists _, _].
  destruct (lookup_lt_is_Some_2 (outbound_sessions_ s) (Z.to_nat (resp_client_id r))) as [se E].
  { rewrite (oi_sessions _ _ _ H). unfold client_ok, MAX_CLIENTS in Hc. lia. }
  eapply out_ok_weaken; [by eapply (send_ouch_ok k)|done].
Qed.

Lemma note_returns t note ts :
  thread_inv t -> note_allowed (th_desk t) note -> gateway_ok note -> is_u64 ts -> room (th_out t) ->
  exists t', out_act (act_note note ts) t = Some t' /\ thread_inv t'.
Proof.
  intros [Hd Ht Hc H Hl] Hok Hgw Hts Hr. pose proof (desk_note_wf _ _ Hd Hok) as Hd'. destruct t as [d R s]. cbn [th_desk th_responder th_out] in *.
  cbn [out_act th_desk th_responder th_out].
  enough (exists R' s', on_note_ rdtsc cap note ts R s = Some (R', s') /\ resp_typed R' /\ resp_clients R' /\
    out_inv cap (desk_note note d) s' /\ length (outbound_connections_ s') = length (outbound_connections_ s)) as (R' & s' & -> & ? & ? & ? & ?).
  { eexists. split; [done|]. split; cbn [th_desk th_responder th_out]; try done. congruence. }
  destruct note as [id g|id conn sequence|reason conn|id conn]; cbn [on_note_].
  - destruct Hgw as (Hg1 & Hg2 & Hg3). assert (client_ok (rec_client_id (note_record g))) as Hg4 by (rewrite Hg3; apply Hok). destruct (on_note_typed g ts R Ht Hg1 Hg2 Hts) as [Ht' Hwf]. destruct (on_note_clients g ts R Hc Hg4) as [Hc' Hcl].
    destruct (on_note g ts R) as [r R']. cbn [fst snd] in *. destruct (send_response_ok d s r None Hd H Hr Hwf Hcl) as (u & s' & E & H' & Hl' & _).
    rewrite (bind_Some _ _ _ _ _ E). by exists R', s'.
  - pose proof (login_desk_le d (LOGIN_ACCEPTED id conn sequence) Hok) as Hle. destruct Hok as (Hf & Hid & Hses & Hseq).
    destruct (login_accepted_ok k cap Hk Hcap _ rdtsc s id conn sequence (out_inv_desk _ _ _ _ Hle H)) as (u & s' & E & H' & Hl' & _).
    { eapply fresh_conn_of; [done|done|done|]. apply lookup_insert_eq. }
    { eapply free_session_of; [done|done|done|]. apply lookup_insert_eq. }
    { unfold is_u64 in Hseq. lia. }
    rewrite (bind_Some _ _ _ _ _ E). by exists R, s'.
  - pose proof (login_desk_le d (LOGIN_REJECTED reason conn) Hok) as Hle. pose proof (out_inv_desk _ _ _ _ Hle H) as H1.
    destruct (fresh_conn_of cap d s conn (desk_note (LOGIN_REJECTED reason conn) d) H Hl Hok (lookup_insert_eq _ _ _)) as (Hp & _ & Hdk & c & Ec & Ho & Hg).
    destruct (open_connection_ok k cap Hk _ rdtsc s conn c H1 Hp Ec Ho Hg Hdk) as (u & s1 & E1 & H1' & Hl1 & _ & _ & dirty & now & Ec1).
    destruct (send_login_rejected_ok k cap Hk _ s1 (conn_slot conn) _ reason H1' Hp Ec1 eq_refl eq_refl) as (u2 & s2 & E2 & H2 & Hl2 & _).
    rewrite (bind_Some _ _ _ _ _ E1), (bind_Some _ _ _ _ _ E2). exists R, s2. split; [done|]. split; [done|]. split; [done|]. split; [done|]. congruence.
  - pose proof Hok as ([Hp [Hlt _]] & _). set (d1 := mkDesk (dk_slots d) (dk_sessions d) (conn :: dk_named d)).
    assert (desk_wf d1) as Hd1. { destruct Hd as [Ha Hb]. split; [|done]. intros i x E. destruct (Ha i x E). by split; [right|]. }
    assert (out_inv cap d1 s) as H1. { eapply out_inv_desk; [|done]. split; [done|]. split; [done|]. cbn. set_solver. }
    destruct (lookup_lt_is_Some_2 (outbound_connections_ s) (slot_of conn)) as [c E]; [by rewrite Hl|].
    destruct (close_ok k cap Hk d1 s conn c H1 Hp) as (u & s' & E' & H' & Hl' & _ & _ & (c' & Ec' & Hg) & _); [left|done|].
    rewrite (bind_Some _ _ _ _ _ E'). exists R, s'. split; [done|]. split; [done|]. split; [done|]. split; [|done].
    by eapply out_inv_disconnected.
Qed.

Lemma event_returns t ev t5 ts :
  thread_inv t -> event_typed ev -> is_u64 ts -> room (th_out t) ->
  exists t', out_act (act_event ev t5 ts) t = Some t' /\ thread_inv t'.
Proof.
  intros [Hd Ht Hc H Hl] Hev Hts Hr. destruct t as [d R s]. cbn [th_desk th_responder th_out] in *.
  destruct (on_event_typed ev ts R Ht Hev Hts) as [Ht' Hwf]. destruct (on_event_clients ev ts R Hc) as [Hc' Hcl].
  cbn [out_act th_desk th_responder th_out]. unfold send_event. destruct (on_event ev ts R) as [r R']. cbn [fst snd] in *.
  destruct (send_response_ok d s r (event_latency ev t5) Hd H Hr Hwf Hcl) as (u & s' & E & H' & Hl' & _).
  rewrite (bind_Some _ _ _ _ _ E). eexists. split; [done|]. split; cbn [th_desk th_responder th_out]; try done. congruence.
Qed.

Lemma out_act_inv t a : thread_inv t -> action_ok t a -> exists t', out_act a t = Some t' /\ thread_inv t'.
Proof.
  intros H Ha. destruct a as [note ts|ev t5 ts| |clock now|]; cbn [action_ok] in Ha.
  - destruct Ha as (? & ? & ? & ?). by apply note_returns.
  - destruct Ha as (? & ? & ?). by apply event_returns.
  - destruct H as [Hd Ht Hc H Hl]. destruct (flush_ok k cap Hk Hcap _ Hd rdtsc tcp_send tcp_sendable tcp_send_le _ H) as (u & s' & E & H' & Hl' & _).
    cbn [out_act]. rewrite E. eexists. split; [done|]. split; try done. cbn [th_out]. congruence.
  - destruct H as [Hd Ht Hc H Hl]. destruct (heartbeat_ok k cap Hk _ _ clock now H) as (u & s' & E & H' & Hl' & _).
    cbn [out_act]. rewrite E. eexists. split; [done|]. split; try done. cbn [th_out]. congruence.
  - destruct H as [Hd Ht Hc H Hl].
    destruct (close_slots_ok k cap Hk _ Hd (Z.of_nat <$> seq 0 (length (outbound_connections_ (th_out t)))) (th_out t) H)
      as (u & s' & E & H' & Hl' & _). { apply Forall_fmap, Forall_seq. intros j Hj. cbn. lia. }
    cbn [out_act]. unfold close_all. rewrite gets_bind, E. eexists. split; [done|]. split; try done. cbn [th_out]. congruence.
Qed.
End Thread.
