(* ===== verification/OutboundLogs.v ===== *)
(** * OutboundLogs: what the outbound thread does to the sessions' logs

    Every operation of [Outbound] either leaves all logs and histories alone ([quiet]),
    creates one session's log, or appends one packet to one session ([put]); and the
    shutdown leaves no connection open. *)

From S2P Require Import Prelude Types WireCodec Clock OuchProto OuchCorrect Validation OrderEntry OuchResponder.
From S2P Require Import SoupProto SessionLog Inbound NoteProtocol Outbound OutboundStream OutboundTheorems.

(** ** How the logs grow *)

(** A session's log and everything ever appended to it. *)
Definition log_of (se : OutboundSession) : option SessionLog * list (list Z) := (os_log se, os_history se).
Notation logs s := (log_of <$> outbound_sessions_ s).

Definition quiet {A} (m : M Outbound A) : Prop := forall s a s', m s = Some (a, s') -> logs s' = logs s.

Lemma quiet_ret {A} (a : A) : quiet (mret a).
Proof. intros s b s' E. by injection E as _ <-. Qed.

Lemma quiet_bind {A B} (m : M Outbound A) (k : A -> M Outbound B) : quiet m -> (forall a, quiet (k a)) -> quiet (m ≫= k).
Proof. intros Hm Hk s b s2 (a & s1 & E1 & E2)%bind_inv. by rewrite (Hk a _ _ _ E2), (Hm _ _ _ E1). Qed.

Lemma quiet_conn_at slot : quiet (conn_at slot).
Proof. intros s c s' E. unfold conn_at in E. apply fmap_Some in E as (c0 & _ & E). by injection E as _ <-. Qed.

Lemma quiet_set_conn slot c : quiet (set_conn slot c).
Proof. intros s a s' E. by injection E as _ <-. Qed.

Lemma quiet_out_tsc rdtsc : quiet (out_tsc rdtsc).
Proof. intros s a s' E. by injection E as _ <-. Qed.

Lemma quiet_tcp_close conn : quiet (tcp_close conn).
Proof. intros s a s' E. by injection E as _ <-. Qed.

Lemma quiet_store_retained id v : quiet (store_retained id v).
Proof. intros s a s' E. unfold store_retained in E. destruct (_ !! _); [|done]. by injection E as _ <-. Qed.

Lemma quiet_modify f : (forall s, outbound_sessions_ (f s) = outbound_sessions_ s) -> quiet (modify f).
Proof. intros Hf s a s' E. injection E as _ <-. by rewrite Hf. Qed.

Lemma quiet_when b m : quiet m -> quiet (when b m).
Proof. intros Hm. destruct b; [done|apply quiet_ret]. Qed.

Create HintDb quiet.
#[local] Hint Resolve quiet_ret quiet_bind quiet_conn_at quiet_set_conn quiet_out_tsc quiet_tcp_close quiet_store_retained quiet_modify quiet_when : quiet.

Lemma quiet_mark_dirty slot : quiet (mark_dirty_ slot).
Proof. apply quiet_bind; [auto with quiet|]. intros c. destruct (oc_dirty c); auto with quiet. Qed.

Lemma quiet_send_control slot packet : quiet (send_control_ slot packet).
Proof.
  apply quiet_bind; [auto with quiet|]. intros c. destruct (_ <? _)%nat; [by intros s a s' E|].
  apply quiet_bind; [auto with quiet|]. intros _. apply quiet_mark_dirty.
Qed.

Lemma quiet_open_connection rdtsc conn : quiet (open_connection_ rdtsc conn).
Proof. unfold open_connection_. cbv zeta. auto 10 with quiet. Qed.

(** Rewriting a session without touching its log. *)
Lemma quiet_session id se se' s s' :
  outbound_sessions_ s !! Z.to_nat id = Some se -> log_of se' = log_of se -> set_session id se' s = Some (tt, s') -> logs s' = logs s.
Proof.
  intros E Hl Es. injection Es as <-. cbn [outbound_sessions_]. rewrite list_fmap_insert. apply list_insert_id. by rewrite list_lookup_fmap, E, Hl.
Qed.

Lemma session_at_inv id s se s' : session_at id s = Some (se, s') -> outbound_sessions_ s !! Z.to_nat id = Some se /\ s' = s.
Proof. unfold session_at. intros (x & E & H)%fmap_Some. by injection H as <- <-. Qed.

Lemma quiet_close conn : quiet (close_ conn).
Proof.
  apply quiet_bind; [auto with quiet|]. intros c. destruct (_ =? _); [auto with quiet|].
  apply quiet_bind; [auto with quiet|]. intros _. apply quiet_bind; [auto with quiet|]. intros _.
  destruct (_ || _); [auto with quiet|]. apply quiet_bind; [|auto with quiet]. apply quiet_when.
  intros s a s2 (se & s1 & [E ->]%session_at_inv & E2)%bind_inv. destruct (bool_decide _); [|by injection E2 as _ <-].
  destruct a. by eapply quiet_session; [exact E| |exact E2].
Qed.

Lemma quiet_send_login_rejected slot reason : quiet (send_login_rejected slot reason).
Proof.
  unfold send_login_rejected. destruct (encode_soup_login_rejected _ _) as [n packet]. apply quiet_bind; [apply quiet_send_control|].
  intros _. unfold set_close_when_flushed. auto with quiet.
Qed.

Lemma quiet_send tcp_send conn bytes : quiet (send tcp_send conn bytes).
Proof. intros s a s' E. by injection E as _ <-. Qed.

Lemma quiet_sendable tcp_sendable conn : quiet (sendable tcp_sendable conn).
Proof. intros s a s' E. by injection E as _ <-. Qed.
#[local] Hint Resolve quiet_send quiet_sendable quiet_close quiet_send_control : quiet.

Section QuietFlush.
Context (rdtsc : nat -> Z) (tcp_send : nat -> ConnId -> list Z -> nat) (tcp_sendable : nat -> ConnId -> bool).

Lemma quiet_flush_control slot : quiet (flush_control tcp_send slot).
Proof. apply quiet_bind; [auto with quiet|]. intros c. destruct (_ <? _)%nat; auto 10 with quiet. Qed.

Lemma flush_log_loop_sessions fuel conn log cursor b s a s' :
  flush_log_loop tcp_send fuel conn log cursor b s = Some (a, s') -> outbound_sessions_ s' = outbound_sessions_ s.
Proof.
  revert cursor b s. induction fuel as [|fuel IH]; intros cursor b s E; cbn [flush_log_loop] in E; (destruct (_ <? _); [|by injection E as _ <-]); [done|].
  apply bind_inv in E as (n & s2 & [= _ <-] & E). destruct (_ =? 0)%nat; [by injection E as _ <-|]. by apply IH in E.
Qed.

Lemma quiet_flush_log t6 b c : quiet (flush_log rdtsc tcp_send t6 b c).
Proof.
  intros s a s' (se & s1 & [E ->]%session_at_inv & E1)%bind_inv. apply bind_inv in E1 as (log & s1 & E2 & E1).
  unfold lift in E2. destruct (os_log se) as [log0|] eqn:Hlog; [|done]. injection E2 as -> <-.
  apply bind_inv in E1 as ([cursor b'] & s1 & E2 & E1).
  pose proof (flush_log_loop_sessions _ _ _ _ _ _ _ _ E2) as Hs1.
  apply bind_inv in E1 as (t7 & s2 & [= _ <-] & E1). cbn [os_samples_count] in E1.
  match type of E1 with context [complete_samples ?n ?a ?b ?c ?se0] => pose proof (complete_samples_fields n a b c se0) as Hf; destruct (complete_samples n a b c se0) as [samples se'] end.
  destruct Hf as (Hf1 & _ & _ & Hf2). cbn [os_log os_history snd] in Hf1, Hf2. assert (log_of se' = log_of se) as Hf by (unfold log_of; congruence). apply bind_inv in E1 as ([] & s3 & E3 & E1). injection E1 as _ <-.
  cbn [outbound_sessions_]. rewrite <- Hs1. refine (quiet_session (oc_client_id c) se se' _ s3 _ Hf E3). cbn [outbound_sessions_]. by rewrite Hs1.
Qed.

Lemma quiet_flush : quiet (flush_ rdtsc tcp_send tcp_sendable).
Proof.
  assert (forall slot, quiet (flush_connection_ rdtsc tcp_send tcp_sendable slot)) as Hc.
  { intros slot. apply quiet_bind; [auto with quiet|]. intros t6. apply quiet_bind; [apply quiet_flush_control|]. intros [b d].
    apply quiet_bind; [auto with quiet|]. intros c. apply quiet_bind; [destruct (_ && _); [apply quiet_flush_log|auto with quiet]|]. intros [b' d'].
    apply quiet_bind; [auto 10 with quiet|]. intros _. destruct (negb d'); auto 10 with quiet. }
  assert (forall slots, quiet (flush_slots rdtsc tcp_send tcp_sendable slots)) as Hs.
  { induction slots as [|slot slots IH]; cbn [flush_slots]; [auto with quiet|]. apply quiet_bind; [|auto with quiet].
    apply quiet_bind; [auto with quiet|]. intros c. apply quiet_bind; [destruct (oc_open c); auto with quiet|]. intros []; auto 10 with quiet. }
  apply quiet_bind; [by intros s a s' [= _ <-]|]. intros slots. apply quiet_bind; [auto|]. intros kept. by apply quiet_modify.
Qed.
End QuietFlush.

Lemma quiet_heartbeat clock now : quiet (heartbeat_ clock now).
Proof.
  apply quiet_bind; [by intros s a s' [= _ <-]|]. intros n. generalize (Z.of_nat <$> seq 0 n). intros slots. induction slots as [|slot slots IH]; cbn [heartbeat_slots]; [auto with quiet|].
  apply quiet_bind; [|auto]. apply quiet_bind; [auto with quiet|]. intros c. destruct (_ || _); [auto with quiet|]. destruct (_ <=? _); [auto with quiet|].
  apply quiet_bind; [by intros s se s' [_ ->]%session_at_inv|]. intros se. apply quiet_bind; [intros s a s' E; unfold lift in E; destruct (os_log se); [by injection E as _ <-|done]|].
  intros log. destruct (negb _); auto with quiet.
Qed.

(** One packet appended to one session, if that has a log. *)
Definition put (id : Z) (packet : list Z) (l : list (option SessionLog * list (list Z))) : list (option SessionLog * list (list Z)) :=
  match l !! Z.to_nat id with
  | Some (Some log, history) => <[Z.to_nat id := (Some (append packet log), history ++ [packet])]> l
  | _ => l
  end.

Definition puts {A} (id : Z) (packet : list Z) (m : M Outbound A) : Prop := forall s a s', m s = Some (a, s') -> logs s' = put id packet (logs s).

Lemma puts_then {A B} id packet (m : M Outbound A) (k : A -> M Outbound B) : puts id packet m -> (forall a, quiet (k a)) -> puts id packet (m ≫= k).
Proof. intros Hm Hk s b s2 (a & s1 & E1 & E2)%bind_inv. rewrite (Hk a _ _ _ E2). by apply (Hm _ _ _ E1). Qed.

Lemma puts_send_sequenced id packet latency : puts id packet (send_sequenced_ id packet latency).
Proof.
  intros s a s' (se & s1 & [E ->]%session_at_inv & E2)%bind_inv. unfold put. rewrite list_lookup_fmap, E. unfold log_of at 2. cbn [fmap option_fmap option_map].
  destruct (os_log se) as [log|] eqn:Hl; [|by injection E2 as _ <-].
  apply bind_inv in E2 as (u1 & s1 & E1 & E2). assert (logs s1 = logs s) as H1.
  { destruct (os_slot se); [|by injection E1 as _ <-]. revert E1. apply quiet_when. apply quiet_bind; [auto with quiet|]. intros c. apply quiet_close. }
  apply bind_inv in E2 as (se1 & s2 & [Ese1 ->]%session_at_inv & E2). cbv zeta in E2. apply bind_inv in E2 as ([] & s2 & E3 & E2).
  assert (os_history se1 = os_history se) as Hh1.
  { pose proof (f_equal (fun l => l !! Z.to_nat id) H1) as Hx. cbn in Hx. rewrite !list_lookup_fmap, E, Ese1 in Hx. unfold log_of in Hx. cbn in Hx. congruence. }
  injection E3 as <-. apply bind_inv in E2 as (u3 & s3 & E4 & E2).
  rewrite <- H1, <- Hh1. match goal with |- _ = <[_ := ?x]> _ => set (y := x) end.
  assert (logs s3 = <[Z.to_nat id := y]> (logs s1)) as H3.
  { etransitivity; [revert E4; apply quiet_when, quiet_store_retained|]. cbn [outbound_sessions_]. by rewrite list_fmap_insert. }
  rewrite <- H3. destruct (os_slot se1) as [slot|]; [|by injection E2 as _ <-]. apply bind_inv in E2 as (se3 & s4 & [Ese3 ->]%session_at_inv & E2).
  apply bind_inv in E2 as ([] & s4 & E5 & E2). rewrite (quiet_mark_dirty _ _ _ _ E2). destruct (add_sample_fields (end_offset (append packet log)) latency se3) as (Hf1 & _ & _ & Hf2).
  eapply quiet_session; [exact Ese3| |exact E5]. unfold log_of. congruence.
Qed.

(** One log is created, or gets one message. *)
Definition log_grew (o o' : option SessionLog * list (list Z)) : Prop :=
  o' = o \/ (exists cap, o.1 = None /\ o' = (Some (SessionLog_new cap), o.2)) \/
  exists log packet, o.1 = Some log /\ (length packet <= 256)%nat /\ o' = (Some (append packet log), o.2 ++ [packet]).

Definition grew (s s' : Outbound) : Prop := Forall2 log_grew (logs s) (logs s').

Definition grows {A} (m : M Outbound A) : Prop := forall s a s', m s = Some (a, s') -> grew s s'.

Lemma log_grew_refl l : Forall2 log_grew l l.
Proof. apply Forall_Forall2_diag, Forall_true. intros o. by left. Qed.

Lemma grew_quiet s s' : logs s' = logs s -> grew s s'.
Proof. intros E. unfold grew. rewrite E. apply log_grew_refl. Qed.

Lemma quiet_grows {A} (m : M Outbound A) : quiet m -> grows m.
Proof. intros H s a s' E. by apply grew_quiet, (H _ _ _ E). Qed.

Lemma puts_grows {A} id packet (m : M Outbound A) : (length packet <= 256)%nat -> puts id packet m -> grows m.
Proof.
  intros Hlen H s a s' E. unfold grew. rewrite (H _ _ _ E). unfold put. destruct (logs s !! Z.to_nat id) as [[[log|] h]|] eqn:El; [|apply log_grew_refl..].
  rewrite <- (list_insert_id (logs s) (Z.to_nat id) (Some log, h) El) at 1. apply Forall2_insert; [apply log_grew_refl|]. right; right. by exists log, packet.
Qed.

Lemma grows_then {A B} (m : M Outbound A) (k : A -> M Outbound B) : grows m -> (forall a, quiet (k a)) -> grows (m ≫= k).
Proof. intros Hm Hk s b s2 (a & s1 & E1 & E2)%bind_inv. unfold grew. rewrite (Hk a _ _ _ E2). by apply (Hm _ _ _ E1). Qed.

(** Logging in: the session has a log afterwards, and otherwise nothing changes. *)
Definition opened (id : Z) (s s' : Outbound) : Prop :=
  logs s' = logs s \/ exists cap h, logs s !! Z.to_nat id = Some (None, h) /\ logs s' = <[Z.to_nat id := (Some (SessionLog_new cap), h)]> (logs s).

Lemma opened_grew id s s' : opened id s s' -> grew s s'.
Proof.
  intros [E|(cap & h & El & E)]; [by apply grew_quiet|]. unfold grew. rewrite E.
  rewrite <- (list_insert_id (logs s) (Z.to_nat id) (None, h) El) at 1. apply Forall2_insert; [apply log_grew_refl|]. right; left. by exists cap.
Qed.

Lemma session_log_opened cap id s log s' :
  session_log cap id s = Some (log, s') -> opened id s s' /\ exists h, logs s' !! Z.to_nat id = Some (Some log, h).
Proof.
  intros (se & s1 & [E ->]%session_at_inv & E2)%bind_inv. pose proof (lookup_lt_Some _ _ _ E) as Hlt. destruct (os_log se) as [l|] eqn:Hl.
  { injection E2 as <- <-. split; [by left|]. exists (os_history se). rewrite list_lookup_fmap, E. cbn. unfold log_of. by rewrite Hl. }
  apply bind_inv in E2 as ([] & s2 & [= <-] & E3). apply bind_inv in E3 as (u & s3 & E3 & E4). injection E4 as <- <-.
  assert (logs s3 = <[Z.to_nat id := (Some (SessionLog_new cap), os_history se)]> (logs s)) as H3.
  { etransitivity; [exact (quiet_store_retained _ _ _ _ _ E3)|]. cbn [outbound_sessions_]. by rewrite list_fmap_insert. }
  split; [|exists (os_history se); rewrite H3, list_lookup_insert_eq by (by rewrite length_fmap); done]. right. exists cap, (os_history se). split; [|done].
  rewrite list_lookup_fmap, E. cbn. unfold log_of. by rewrite Hl.
Qed.

Lemma accept_login_opened rdtsc cap id conn sequence s a s' :
  accept_login_ rdtsc cap id conn sequence s = Some (a, s') -> opened id s s' /\ exists log h, logs s' !! Z.to_nat id = Some (Some log, h).
Proof.
  intros (log & s1 & E1 & E)%bind_inv. destruct (session_log_opened _ _ _ _ _ E1) as [Ho [h Hh]].
  assert (logs s' = logs s1) as Hs; [|unfold opened; rewrite Hs; split; [done|by exists log, h]]. clear Hh Ho E1. revert E.
  match goal with |- ?m s1 = _ -> _ => enough (quiet m) as Hq by apply Hq end. apply quiet_bind; [apply quiet_open_connection|]. intros _. cbv zeta.
  destruct (offset_of _ log) as [offset|]; [|apply quiet_send_login_rejected].
  apply quiet_bind; [auto with quiet|]. intros c. apply quiet_bind; [auto with quiet|]. intros _.
  intros s0 b s2 (se & s3 & [E ->]%session_at_inv & E2)%bind_inv. apply bind_inv in E2 as ([] & s4 & E1 & E2).
  destruct (encode_soup_login_accepted _ _) as [n packet]. rewrite (quiet_send_control _ _ _ _ _ E2). by eapply quiet_session; [exact E| |exact E1].
Qed.

Lemma grows_accept_login rdtsc cap id conn sequence : grows (accept_login_ rdtsc cap id conn sequence).
Proof. intros s a s' E. by eapply opened_grew, accept_login_opened. Qed.

Lemma sequenced_length msg out : ((encode_soup_sequenced msg out).1 <= 256)%nat.
Proof.
  unfold encode_soup_sequenced. pose proof (outbound_size_bound msg) as Hb. destruct (_ =? 0)%nat; [cbn; lia|].
  destruct (write_header _ _ _) as [ok out1]. destruct ok; [|cbn; lia]. cbn [negb]. destruct (encode_outbound_ouch _ _) as [n payload].
  destruct (_ =? _)%nat; cbn [fst]; lia.
Qed.

(** The packet a response becomes. *)
Definition response_packet (r : OuchResponse) : list Z := soup_frame SOUP_SEQUENCED_DATA (outbound_bytes (resp_ouch r)).

Lemma puts_send_ouch r latency : outbound_wf (resp_ouch r) -> puts (resp_client_id r) (response_packet r) (send_ouch_ r latency).
Proof.
  intros Hwf. unfold send_ouch_. pose proof (outbound_size_bound (resp_ouch r)) as Hb. rewrite outbound_size in Hb by done.
  assert (length (response_packet r) <= 256 /\ 0 < length (response_packet r))%nat as [Hlen Hpos]
    by (unfold response_packet; rewrite soup_frame_length; unfold kSoupHeaderLen in *; lia).
  pose proof (soup_sequenced_frame (resp_ouch r) Hwf (replicate kMaxSoupPacket 0)) as He. cbv zeta in He. fold (response_packet r) in He.
  rewrite decide_True in He by (rewrite length_replicate; unfold kMaxSoupPacket; lia). rewrite He. rewrite (proj2 (Nat.eqb_neq _ _)) by lia.
  rewrite take_app_length. apply puts_send_sequenced.
Qed.

Lemma grows_send_ouch r latency : grows (send_ouch_ r latency).
Proof.
  unfold send_ouch_. pose proof (sequenced_length (resp_ouch r) (replicate kMaxSoupPacket 0)) as Hlen.
  destruct (encode_soup_sequenced _ _) as [len scratch]. destruct (len =? 0)%nat; [apply quiet_grows, quiet_ret|]. eapply puts_grows; [|apply puts_send_sequenced].
  rewrite length_take. cbn [fst] in Hlen. lia.
Qed.

Lemma grows_on_note rdtsc cap note ts R : grows (on_note_ rdtsc cap note ts R).
Proof.
  destruct note as [id g|id conn sequence|reason conn|id conn]; cbn [on_note_].
  - destruct (on_note g ts R) as [[r|] R']; (apply grows_then; [|intros _; apply quiet_ret]); [apply grows_send_ouch|apply quiet_grows, quiet_ret].
  - apply grows_then; [apply grows_accept_login|]. intros _. apply quiet_ret.
  - apply quiet_grows. apply quiet_bind; [apply quiet_open_connection|]. intros _. apply quiet_bind; [apply quiet_send_login_rejected|]. intros _. apply quiet_ret.
  - apply quiet_grows. apply quiet_bind; [apply quiet_close|]. intros _. apply quiet_ret.
Qed.

Lemma grows_send_event ev t5 ts R : grows (send_event ev t5 ts R).
Proof.
  unfold send_event. destruct (on_event ev ts R) as [[r|] R']; (apply grows_then; [|intros _; apply quiet_ret]);
    [apply grows_send_ouch|apply quiet_grows, quiet_ret].
Qed.

(** No session's log is within [m] messages of the end of its 64-bit offsets. *)
Definition room_for (m : nat) (s : Outbound) : Prop :=
  256 * Z.of_nat m < 9223372036854775808 /\
  forall (n : nat) log h, logs s !! n = Some (Some log, h) ->
    0 <= end_ log /\ end_ log + 256 * Z.of_nat m < 18446744073709551616 /\
    0 <= next_seq_ log /\ next_seq_ log + Z.of_nat m < 18446744073709551616.

Lemma room_for_room m s : room_for (S m) s -> room s.
Proof.
  intros [_ H] n se log E Hl. destruct (H n log (os_history se)) as (? & ? & ? & ?); [rewrite list_lookup_fmap, E; cbn; unfold log_of; by rewrite Hl|]. lia.
Qed.

Lemma room_for_quiet m s s' : logs s' = logs s -> room_for m s -> room_for m s'.
Proof. intros E. unfold room_for. by rewrite E. Qed.

Lemma room_for_le m m' s : (m' <= m)%nat -> room_for m s -> room_for m' s.
Proof. intros Hle [H1 H2]. split; [lia|]. intros n log h E. destruct (H2 n log h E) as (? & ? & ? & ?). lia. Qed.

Lemma drop_oldest_ends fuel len s : end_ (drop_oldest fuel len s) = end_ s /\ next_seq_ (drop_oldest fuel len s) = next_seq_ s.
Proof. revert s. induction fuel as [|fuel IH]; intros s; cbn [drop_oldest]; [done|]. destruct (_ && _); [|done]. by rewrite !(proj1 (IH _)), !(proj2 (IH _)). Qed.

Lemma room_for_grew m s s' : grew s s' -> room_for (S m) s -> room_for m s'.
Proof.
  intros Hg [Hm H]. split; [lia|]. intros n log' h' E. destruct (Forall2_lookup_r _ _ _ _ _ Hg E) as ([o h] & Eo & [Hsame|[(cap & Ho & Hnew)|(log & packet & Ho & Hlen & Happ)]]).
  - destruct (H n log' h') as (? & ? & ? & ?); [by rewrite Eo, <- Hsame|]. lia.
  - injection Hnew as -> _. cbn. lia.
  - injection Happ as -> _. cbn [fst] in Ho. subst o. destruct (H n log h Eo) as (H1 & H2 & H3 & H4). unfold append. cbv zeta. cbn [end_ next_seq_].
    set (fuel := Z.to_nat _). rewrite !(proj1 (drop_oldest_ends fuel _ log)), !(proj2 (drop_oldest_ends fuel _ log)). rewrite !u64_id by ulia. lia.
Qed.

(** ** Shutdown *)

(** Every open connection is in its own slot and has not been closed. *)
Definition all_live (conns : list OutboundConnection) : Prop :=
  forall (i : nat) c, conns !! i = Some c -> oc_open c = true ->
    conn_slot (oc_conn c) = Z.of_nat i /\ oc_closed_generation c <> conn_generation (oc_conn c).

Lemma close_closes s s' (i : nat) c :
  close_ (oc_conn c) s = Some (tt, s') -> outbound_connections_ s !! i = Some c -> oc_open c = true ->
  conn_slot (oc_conn c) = Z.of_nat i -> oc_closed_generation c <> conn_generation (oc_conn c) ->
  exists c', outbound_connections_ s' = <[i := c']> (outbound_connections_ s) /\ oc_open c' = false.
Proof.
  intros E Ec Ho Hs Hg. pose proof (lookup_lt_Some _ _ _ Ec) as Hlt. unfold close_ in E. rewrite Hs in E.
  apply bind_inv in E as (c0 & s0 & E0 & E). unfold conn_at in E0. rewrite Nat2Z.id, Ec in E0. injection E0 as <- <-.
  rewrite (proj2 (Z.eqb_neq _ _)) in E by done. apply bind_inv in E as (u1 & s1 & [= _ <-] & E). apply bind_inv in E as (u2 & s2 & [= _ <-] & E).
  rewrite bool_decide_eq_false_2, Ho in E by (by intros []). cbn [orb negb] in E. apply bind_inv in E as (u3 & s3 & E3 & E). injection E as <-.
  assert (exists x, outbound_connections_ s3 = <[i := x]> (outbound_connections_ s)) as [x H3].
  { rewrite Nat2Z.id in E3. destruct (negb _); [|injection E3 as _ <-; by eexists]. cbn [when] in E3. apply bind_inv in E3 as (se & s4 & [_ ->]%session_at_inv & E3).
    destruct (bool_decide _); injection E3 as _ <-; by eexists. }
  eexists. cbn [outbound_connections_]. rewrite H3, Nat2Z.id, list_insert_insert_eq. by split.
Qed.

(** What [close_slots] leaves open, it was not asked to close. *)
Lemma close_slots_closed slots s s' (i : nat) c :
  close_slots (Z.of_nat <$> slots) s = Some (tt, s') -> all_live (outbound_connections_ s) ->
  outbound_connections_ s' !! i = Some c -> oc_open c = true -> i ∉ slots /\ outbound_connections_ s !! i = Some c.
Proof.
  revert s. induction slots as [|j slots IH]; intros s E Hl Ei Ho; [injection E as <-; by split; [apply not_elem_of_nil|]|]. cbn [fmap list_fmap close_slots] in E.
  apply bind_inv in E as (d & s0 & E0 & E). unfold conn_at in E0. rewrite Nat2Z.id in E0. destruct (outbound_connections_ s !! j) as [d0|] eqn:Ej; [|done]. injection E0 as -> <-.
  apply bind_inv in E as ([] & s1 & E1 & E). destruct (oc_open d) eqn:Hd; cbn [when] in E1.
  - destruct (Hl j d Ej Hd) as [Hs Hg]. destruct (close_closes s s1 j d E1 Ej Hd Hs Hg) as (d' & Ec & Hd'). pose proof (lookup_lt_Some _ _ _ Ej) as Hlt.
    destruct (IH s1 E) as [Hn Es1]; [|done..|].
    { intros x e Ex He. rewrite Ec in Ex. apply list_lookup_insert_Some in Ex as [(_ & <- & _)|[_ Ex]]; [congruence|by apply Hl]. }
    rewrite Ec in Es1. apply list_lookup_insert_Some in Es1 as [(_ & <- & _)|[Hne Es1]]; [congruence|]. by split; [apply not_elem_of_cons|].
  - injection E1 as <-. destruct (IH s E Hl Ei Ho) as [Hn Es]. split; [|done]. apply not_elem_of_cons. split; [|done]. intros ->. congruence.
Qed.

Lemma quiet_close_all : quiet close_all.
Proof.
  apply quiet_bind; [by intros s a s' [= _ <-]|]. intros n. generalize (Z.of_nat <$> seq 0 n). intros slots.
  induction slots as [|slot slots IH]; cbn [close_slots]; [apply quiet_ret|]. apply quiet_bind; [apply quiet_conn_at|]. intros c.
  apply quiet_bind; [apply quiet_when, quiet_close|done].
Qed.

(** ** What the sessions carry *)

Definition has_log (s : Outbound) (n : nat) : Prop := exists log h, logs s !! n = Some (Some log, h).

(** The responses for session [n], as packets. *)
Definition packets_for (n : nat) (sent : list OuchResponse) : list (list Z) :=
  response_packet <$> filter (fun r => Z.to_nat (resp_client_id r) = n) sent.

(** Every session's history is exactly its part of what was sent, and whoever may still be
    sent something has a log to put it on. *)
Record carried (t : OutThread) (sent : list OuchResponse) : Prop := {
  ca_history n o h : logs (th_out t) !! n = Some (o, h) -> h = packets_for n sent;
  ca_desk n : is_Some (dk_sessions (th_desk t) !! n) -> has_log (th_out t) n;
  ca_clients : map_Forall (fun _ o => has_log (th_out t) (Z.to_nat (rec_client_id (lr_record o)))) (th_responder t);
}.

Lemma packets_for_app n sent sent' : packets_for n (sent ++ sent') = packets_for n sent ++ packets_for n sent'.
Proof. unfold packets_for. by rewrite filter_app, fmap_app. Qed.

Lemma packets_for_single n r : packets_for n [r] = if decide (Z.to_nat (resp_client_id r) = n) then [response_packet r] else [].
Proof. unfold packets_for. rewrite filter_cons. by case_decide. Qed.

Lemma OutThread_new_carried : carried OutThread_new [].
Proof.
  split; cbn [OutThread_new th_desk th_responder th_out].
  - intros n o h E. unfold Outbound_new in E. cbn [outbound_sessions_] in E. rewrite fmap_replicate in E. apply lookup_replicate in E as [E _]. by injection E.
  - intros n [x E]. cbn in E. by rewrite lookup_empty in E.
  - apply map_Forall_empty.
Qed.

(** The logs and who may be sent something stay. *)
Lemma carried_quiet d R R' s s' d' sent :
  logs s' = logs s -> (forall n, is_Some (dk_sessions d' !! n) -> is_Some (dk_sessions d !! n)) ->
  map_Forall (fun _ o => has_log s (Z.to_nat (rec_client_id (lr_record o)))) R' ->
  carried (mkThread d R s) sent -> carried (mkThread d' R' s') sent.
Proof.
  intros E Hd HR [Hh Hl _]. cbn [th_desk th_responder th_out] in *. split; cbn [th_desk th_responder th_out]; unfold has_log in *; rewrite E; [done| |done].
  intros n Hn. by apply Hl, Hd.
Qed.

Lemma has_log_put s s' id packet n : logs s' = put id packet (logs s) -> has_log s n -> has_log s' n.
Proof.
  intros E (log & h & El). unfold has_log. rewrite E. unfold put. destruct (logs s !! Z.to_nat id) as [[[l|] h']|] eqn:Eid; [|by exists log, h..].
  destruct (decide (Z.to_nat id = n)) as [<-|Hne]; [|exists log, h; by rewrite list_lookup_insert_ne].
  eexists _, _. apply list_lookup_insert_eq. by apply lookup_lt_Some in El.
Qed.

(** A response is put on its session. *)
Lemma carried_put d R R' s s' r sent :
  logs s' = put (resp_client_id r) (response_packet r) (logs s) -> has_log s (Z.to_nat (resp_client_id r)) ->
  map_Forall (fun _ o => has_log s (Z.to_nat (rec_client_id (lr_record o)))) R' ->
  carried (mkThread d R s) sent -> carried (mkThread d R' s') (sent ++ [r]).
Proof.
  intros E Hlog HR [Hh Hl _]. cbn [th_desk th_responder th_out] in *. split; cbn [th_desk th_responder th_out].
  - intros n o h En. rewrite packets_for_app, packets_for_single. destruct Hlog as (log & h0 & Elog). rewrite E in En. unfold put in En. rewrite Elog in En.
    case_decide as Hc.
    + subst n. rewrite list_lookup_insert_eq in En by (by apply lookup_lt_Some in Elog). injection En as _ <-. by rewrite (Hh _ _ _ Elog).
    + rewrite list_lookup_insert_ne in En by done. rewrite app_nil_r. by eapply Hh.
  - intros n Hn. eapply has_log_put; [exact E|]. by apply Hl.
  - eapply map_Forall_impl; [exact HR|]. intros i o Ho. by eapply has_log_put.
Qed.

Lemma has_log_opened id s s' n : opened id s s' -> has_log s n -> has_log s' n.
Proof.
  intros [E|(cap & h & El & E)] (log & h' & En); unfold has_log; rewrite E; [by exists log, h'|].
  destruct (decide (Z.to_nat id = n)) as [<-|Hne]; [rewrite El in En; congruence|]. exists log, h'. by rewrite list_lookup_insert_ne.
Qed.

Section Carried.
Context (cap : Z) (rdtsc : nat -> Z) (tcp_send : nat -> ConnId -> list Z -> nat) (tcp_sendable : nat -> ConnId -> bool).

Notation act := (out_act cap rdtsc tcp_send tcp_sendable).

(** The answer to a note, if it has one. *)
Definition note_response (note : ServerNote) (ts : Z) (R : OuchResponder) : option OuchResponse :=
  match note with GATEWAY _ g => (on_note g ts R).1 | _ => None end.

Lemma carried_note t t' note ts sent :
  thread_inv cap t -> note_allowed (th_desk t) note -> gateway_ok note -> is_u64 ts -> act (act_note note ts) t = Some t' ->
  carried t sent -> carried t' (sent ++ option_list (note_response note ts (th_responder t))).
Proof.
  intros Hi Hok Hgw Hts E H. destruct t as [d R s]. cbn [th_desk th_responder th_out] in *. cbn [out_act th_desk th_responder th_out] in E.
  apply fmap_Some in E as ([R' s'] & E & ->). pose proof (ca_clients _ _ H) as HR. cbn [th_responder th_out] in HR.
  destruct note as [id g|id conn sequence|reason conn|id conn]; cbn [on_note_ note_response desk_note] in *.
  - destruct Hgw as (Hg1 & Hg2 & Hg3). destruct (on_note_typed g ts R (ti_typed _ _ Hi) Hg1 Hg2 Hts) as [_ Hwf].
    assert (has_log s (Z.to_nat id)) as Hlog by (apply (ca_desk _ _ H), Hok). rewrite <- Hg3 in Hlog.
    assert (map_Forall (fun _ o => has_log s (Z.to_nat (rec_client_id (lr_record o)))) (on_note g ts R).2) as HR'
      by (unfold on_note; destruct (note_kind g); [by apply map_Forall_insert_2..|done]).
    assert (forall r, (on_note g ts R).1 = Some r -> resp_client_id r = rec_client_id (note_record g)) as Hcl
      by (intros r; unfold on_note; destruct (note_kind g); [done..|by intros [= <-]]).
    destruct (on_note g ts R) as [[r|] R1]; cbn [fst snd option_list] in *; apply bind_inv in E as (u & s1 & E1 & E); injection E as <- <-.
    + eapply (carried_put d R); [exact (puts_send_ouch r None Hwf _ _ _ E1)|by rewrite (Hcl r)|done|done].
    + injection E1 as _ <-. rewrite app_nil_r. by eapply (carried_quiet d R).
  - apply bind_inv in E as (u & s1 & E1 & E). injection E as <- <-. destruct (accept_login_opened _ _ _ _ _ _ _ _ E1) as [Ho Hnew]. cbn [option_list]. rewrite app_nil_r.
    destruct H as [Hh Hl _]. cbn [th_desk th_responder th_out] in *. split; cbn [th_desk th_responder th_out dk_sessions].
    + intros n o h En. destruct Ho as [Eo|(c & h0 & El & Eo)]; rewrite Eo in En; [by eapply Hh|].
      apply list_lookup_insert_Some in En as [(<- & [= _ <-] & _)|[_ En]]; by eapply Hh.
    + intros n [x Ex]. apply lookup_insert_Some in Ex as [[<- _]|[_ Ex]]; [done|]. eapply has_log_opened; [done|]. by apply Hl.
    + eapply map_Forall_impl; [exact HR|]. intros i o. by apply has_log_opened with (id := id).
  - apply bind_inv in E as (u1 & s1 & E1 & E). apply bind_inv in E as (u2 & s2 & E2 & E). injection E as <- <-. rewrite app_nil_r.
    eapply (carried_quiet d R); [|done|exact HR|exact H]. by rewrite (quiet_send_login_rejected _ _ _ _ _ E2), (quiet_open_connection _ _ _ _ _ E1).
  - apply bind_inv in E as (u1 & s1 & E1 & E). injection E as <- <-. rewrite app_nil_r.
    eapply (carried_quiet d R); [exact (quiet_close _ _ _ _ E1)| |exact HR|exact H].
    intros n Hn. cbn [dk_sessions] in Hn. destruct (id =? 0); [done|]. destruct Hn as [x Hn]. apply lookup_delete_Some in Hn as [_ Hn]. by exists x.
Qed.

Lemma on_event_has_log s ev ts R :
  map_Forall (fun _ o => has_log s (Z.to_nat (rec_client_id (lr_record o)))) R ->
  map_Forall (fun _ o => has_log s (Z.to_nat (rec_client_id (lr_record o)))) (on_event ev ts R).2 /\
  forall r, (on_event ev ts R).1 = Some r -> has_log s (Z.to_nat (resp_client_id r)).
Proof.
  intros H. unfold on_event. destruct (R !! ev_order_id ev) as [o|] eqn:E; [|done]. pose proof (H _ _ E) as Ho. cbv beta in Ho.
  assert (map_Forall (fun _ o => has_log s (Z.to_nat (rec_client_id (lr_record o)))) (resp_reduce (ev_order_id ev) o (ev_quantity ev) R)) as Hred.
  { unfold resp_reduce. cbv zeta. destruct (_ =? 0); [by apply map_Forall_delete|by apply map_Forall_insert_2]. }
  destruct (ev_type ev); cbn [fst snd resp_client_id].
  - split; [by apply map_Forall_insert_2|by intros r [= <-]].
  - destruct (R !! ev_orig_order_id ev); [|done]. split; [apply map_Forall_insert_2; [done|by apply map_Forall_delete]|by intros r0 [= <-]].
  - split; [done|by intros r [= <-]].
  - split; [done|by intros r [= <-]].
  - split; [by apply map_Forall_delete|by intros r [= <-]].
Qed.

Lemma carried_event t t' ev t5 ts sent :
  thread_inv cap t -> event_typed ev -> is_u64 ts -> act (act_event ev t5 ts) t = Some t' ->
  carried t sent -> carried t' (sent ++ option_list (on_event ev ts (th_responder t)).1).
Proof.
  intros Hi Hev Hts E H. destruct t as [d R s]. cbn [th_desk th_responder th_out] in *. cbn [out_act th_desk th_responder th_out] in E.
  apply fmap_Some in E as ([R' s'] & E & ->). destruct (on_event_has_log s ev ts R (ca_clients _ _ H)) as [HR' Hcl].
  destruct (on_event_typed ev ts R (ti_typed _ _ Hi) Hev Hts) as [_ Hwf]. unfold send_event in E.
  destruct (on_event ev ts R) as [[r|] R1]; cbn [fst snd option_list] in *; apply bind_inv in E as (u & s1 & E1 & E); injection E as <- <-.
  - eapply (carried_put d R); [exact (puts_send_ouch r _ Hwf _ _ _ E1)|by apply Hcl|done|done].
  - injection E1 as _ <-. rewrite app_nil_r. by eapply (carried_quiet d R).
Qed.

(** A flush, a heartbeat scan or the shutdown. *)
Lemma carried_act t t' a sent :
  match a with act_note _ _ | act_event _ _ _ => False | _ => True end -> act a t = Some t' -> carried t sent ->
  carried t' sent /\ th_responder t' = th_responder t.
Proof.
  intros Ha E H. destruct t as [d R s].
  assert (forall m : M Outbound unit, quiet m -> (fun '(_, s) => mkThread d R s) <$> m s = Some t' -> carried t' sent /\ th_responder t' = R) as Hm.
  { intros m Hq Em. apply fmap_Some in Em as ([u s'] & Em & ->). split; [|done]. eapply (carried_quiet d R); [exact (Hq _ _ _ Em)|done|apply (ca_clients _ _ H)|done]. }
  destruct a; [done|done|..]; cbn [out_act th_desk th_responder th_out] in E; (eapply Hm; [|exact E]);
    [apply quiet_flush|apply quiet_heartbeat|apply quiet_close_all].
Qed.
End Carried.
