(* ===== verification/Server.v ===== *)
(** * Server: both threads together ([src/exchange/server/src/server.cpp])

    The inbound thread of [Inbound] and the outbound thread of [Outbound] share the ring
    of notes and the table [retained_from_]; TCP delivers to one and takes bytes from
    the other.  Any interleaving is a run.  What the outbound thread needs of the notes
    ([NoteProtocol]) is what the inbound thread keeps to, so nothing is assumed of the
    one about the other. *)

From S2P Require Import Prelude Types WireCodec Clock OuchProto OuchCorrect Validation OrderEntry OuchResponder.
From S2P Require Import SoupProto SessionLog Reassembly Pipeline Inbound NoteProtocol InboundSteps NoteTyping Outbound OutboundStream OutboundTheorems.

(** ** Reading the notes *)

Definition desk_after (notes : list ServerNote) : Desk := fold_left (fun d note => desk_note note d) notes Desk_new.

Lemma notes_obey_desk notes d : notes_obey notes d -> d = desk_after notes.
Proof. induction 1 as [|notes note d _ IH _]; [done|]. unfold desk_after in *. rewrite fold_left_app. cbn [fold_left]. by rewrite IH. Qed.

Lemma desk_after_next notes (n : nat) note :
  notes !! n = Some note -> desk_after (take (S n) notes) = desk_note note (desk_after (take n notes)).
Proof. intros E. rewrite (take_S_r _ _ note E). unfold desk_after. by rewrite fold_left_app. Qed.

(** Every note of a well-behaved run was allowed when it came. *)
Lemma notes_obey_lookup notes d (n : nat) note :
  notes_obey notes d -> notes !! n = Some note -> note_allowed (desk_after (take n notes)) note.
Proof.
  induction 1 as [|notes note' d H IH Hok]; [done|]. intros E. destruct (decide (n < length notes)%nat) as [Hlt|Hge].
  - rewrite lookup_app_l in E by done. rewrite take_app_le by lia. by apply IH.
  - rewrite lookup_app_r in E by lia. destruct (n - length notes)%nat as [|m] eqn:Em; [|by destruct m]. injection E as <-.
    replace n with (length notes) by lia. by rewrite take_app_length, <- (notes_obey_desk notes d H).
Qed.

Lemma notes_obey_take notes d (n : nat) : notes_obey notes d -> notes_obey (take n notes) (desk_after (take n notes)).
Proof.
  intros H. pose proof (notes_obey_desk notes d H) as Hd. revert n. induction H as [|notes note d H IH Hok]; intros n; [rewrite take_nil; apply obey_none|].
  destruct (decide (n <= length notes)%nat) as [Hle|Hgt].
  - rewrite take_app_le by done. apply IH. by apply notes_obey_desk.
  - rewrite take_ge by (rewrite length_app; cbn; lia). rewrite <- Hd. by apply obey_note.
Qed.

(** A session's connection has logged into it. *)
Lemma notes_obey_session notes d n x :
  notes_obey notes d -> dk_sessions d !! n = Some x ->
  exists id sequence, Z.to_nat id = n /\ client_ok id /\ LOGIN_ACCEPTED id x sequence ∈ notes.
Proof.
  induction 1 as [|notes note d _ IH Hok]; [cbn; by rewrite lookup_empty|]. intros E.
  assert (dk_sessions d !! n = Some x -> exists id sequence, Z.to_nat id = n /\ client_ok id /\ LOGIN_ACCEPTED id x sequence ∈ notes ++ [note]) as Hold.
  { intros Hd. destruct (IH Hd) as (id & sequence & ? & ? & ?). exists id, sequence. rewrite elem_of_app. auto. }
  destruct note as [id g|id conn sequence|reason conn|id conn]; cbn [desk_note dk_sessions] in E; [by apply Hold| |by apply Hold|].
  - apply lookup_insert_Some in E as [[<- <-]|[_ E]]; [|by apply Hold]. exists id, sequence. split; [done|]. split; [apply Hok|].
    rewrite elem_of_app. right. by left.
  - destruct (id =? 0); [by apply Hold|]. apply lookup_delete_Some in E as [_ E]. by apply Hold.
Qed.

(** ** Runs of the server *)

Record Server := mkServer {
  sv_in : Inbound;       (** the inbound thread *)
  sv_read : nat;         (** how many of its notes the outbound thread has popped *)
  sv_out : OutThread;    (** the outbound thread *)
}.

Definition Server_new (band : PriceBand) : Server := mkServer (Inbound_new band) 0 OutThread_new.

Section Runs.
Context (k cap : Z) (Hk : 9 <= k) (Hcap : cap = 2 ^ k).
(** Each thread has its own sequence of readings of the time-stamp counter. *)
Context (in_rdtsc rdtsc : nat -> Z) (tcp_send : nat -> ConnId -> list Z -> nat) (tcp_sendable : nat -> ConnId -> bool).
Hypothesis tcp_send_le : forall n conn bytes, (tcp_send n conn bytes <= length bytes)%nat.

Notation act := (out_act cap rdtsc tcp_send tcp_sendable).

(** Either thread may read the time-stamp counter. *)
Definition in_tick (s : Inbound) : Inbound := s <| in_tsc_reads := S (in_tsc_reads s) |>.
Definition out_tick (t : OutThread) : OutThread :=
  mkThread (th_desk t) (th_responder t) ((th_out t) <| out_tsc_reads := S (out_tsc_reads (th_out t)) |>).

Inductive server_step : Server -> Server -> Prop :=
| sv_event ev stamps s n t s' :
    tcp_delivers s ev -> tcp_fresh s ev -> on_tcp_event_ in_rdtsc ev stamps s = Some (tt, s') ->
    server_step (mkServer s n t) (mkServer s' n t)
| sv_timeouts clock now s n t s' :
    check_timeouts_ clock now s = Some (tt, s') -> server_step (mkServer s n t) (mkServer s' n t)
| sv_retained s n t :
    server_step (mkServer s n t) (mkServer (s <| retained_from_ := out_retained_from_ (th_out t) |>) n t)
| sv_note note ts s n t t' :
    notes_pushed s !! n = Some note -> is_u64 ts -> room (th_out t) ->
    act (act_note note ts) t = Some t' -> server_step (mkServer s n t) (mkServer s (S n) t')
| sv_act a s n t t' :
    match a with act_note _ _ => False | _ => action_ok t a end -> act a t = Some t' ->
    server_step (mkServer s n t) (mkServer s n t')
| sv_in_clock s n t : server_step (mkServer s n t) (mkServer (in_tick s) n t)
| sv_out_clock s n t : server_step (mkServer s n t) (mkServer s n (out_tick t)).

Inductive server_reachable (band : PriceBand) : Server -> Prop :=
| sv_start : server_reachable band (Server_new band)
| sv_next sv sv' : server_reachable band sv -> server_step sv sv' -> server_reachable band sv'.

Record server_inv (sv : Server) : Prop := {
  si_in : in_inv (sv_in sv);
  si_desk : server_desk (sv_in sv);
  si_typed : notes_typed (sv_in sv);
  si_out : thread_inv cap (sv_out sv);
  si_read : th_desk (sv_out sv) = desk_after (take (sv_read sv) (notes_pushed (sv_in sv)));
  si_bound : (sv_read sv <= length (notes_pushed (sv_in sv)))%nat;
}.

Lemma Server_new_inv band : server_inv (Server_new band).
Proof.
  split; cbn [Server_new sv_in sv_read sv_out]; [apply Inbound_new_inv| |apply Inbound_new_typed|apply OutThread_new_inv|done|lia].
  exists Desk_new. split; cbn -[replicate]; try (intros ? ?; by rewrite lookup_empty); [apply obey_none|..];
    intros i c [-> _]%lookup_replicate; done.
Qed.

(** Notes the outbound thread has not read do not change what it knows. *)
Lemma desk_after_prefix notes notes' (n : nat) :
  notes `prefix_of` notes' -> (n <= length notes)%nat -> desk_after (take n notes') = desk_after (take n notes).
Proof. intros [more ->] Hn. by rewrite take_app_le. Qed.

Lemma server_inbound s n t s' :
  server_inv (mkServer s n t) -> in_inv s' -> server_more s s' -> notes_typed s' -> server_inv (mkServer s' n t).
Proof.
  intros [Hi _ _ Ho Hr Hb] Hi' [Hd Hp] Hty. cbn [sv_in sv_read sv_out] in *. split; cbn [sv_in sv_read sv_out]; [done|done|done|done| |].
  - by rewrite (desk_after_prefix _ _ _ Hp Hb).
  - apply prefix_length in Hp. lia.
Qed.

(** The next note is one the protocol allows. *)
Lemma next_note_ok s n t note :
  server_inv (mkServer s n t) -> notes_pushed s !! n = Some note -> note_allowed (th_desk t) note /\ gateway_ok note.
Proof.
  intros [_ [d Hd] [Hty _] _ Hr _] E. cbn [sv_in sv_read sv_out] in *. rewrite Hr. split; [by eapply notes_obey_lookup; [apply Hd|]|].
  by eapply Forall_lookup_1.
Qed.

Lemma server_step_inv sv sv' : server_inv sv -> server_step sv sv' -> server_inv sv'.
Proof.
  intros H Hs. destruct Hs as [ev stamps s n t s' Hev Hf E|clock now s n t s' E|s n t|note ts s n t t' E Hts Hr Ea|a s n t t' Ha Ea|s n t|s n t].
  - pose proof (si_in _ H) as Hi. destruct (on_tcp_event_ok in_rdtsc s ev stamps Hi Hev) as (s1 & E1 & H1 & _). rewrite E in E1. injection E1 as <-.
    eapply server_inbound; [done|done| |].
    + by eapply on_tcp_event_desk; [..|exact E]; [|apply H|..].
    + exact (on_tcp_event_moves in_rdtsc stays_typed _ _ ev stamps Hi (si_desk _ H) Hev E (si_typed _ H)).
  - pose proof (si_in _ H) as Hi. destruct (check_timeouts_ok clock now s Hi) as (s1 & E1 & H1 & _). rewrite E in E1. injection E1 as <-.
    eapply server_inbound; [done|done| |].
    + by eapply check_timeouts_desk; [..|exact E]; [|apply H].
    + exact (check_timeouts_moves stays_typed (QuietMoves0 := im_quiet (rdtsc := in_rdtsc)) clock now _ _ E (si_typed _ H)).
  - pose proof (oi_retained _ _ _ (ti_out _ _ (si_out _ H))) as Hl. pose proof (si_in _ H) as [[? ? ? ? ?] ? ? ?].
    eapply server_inbound; [done|..]; [by split| |apply H]. destruct H as [_ [d Hd] _ _ _ _]. split; [|done]. by exists d.
  - destruct (next_note_ok _ _ _ _ H E) as [Hok Hg]. destruct (note_returns k cap Hk Hcap rdtsc tcp_send tcp_sendable tcp_send_le t note ts) as (t1 & E1 & H1);
      [apply H|done|done|done|done|]. rewrite Ea in E1. injection E1 as <-. destruct H as [? ? ? _ Hrd Hb]. cbn [sv_in sv_read sv_out] in *.
    split; cbn [sv_in sv_read sv_out]; try done; [|by apply lookup_lt_Some in E].
    rewrite (desk_after_next _ _ _ E), <- Hrd. cbn [out_act] in Ea. destruct (on_note_ _ _ _ _ _ _) as [[R s']|]; [|done].
    by injection Ea as <-.
  - destruct (out_act_inv k cap Hk Hcap rdtsc tcp_send tcp_sendable tcp_send_le t a) as (t1 & E1 & H1); [apply H|by destruct a|].
    rewrite Ea in E1. injection E1 as <-. destruct H as [? ? ? _ Hrd Hb]. cbn [sv_in sv_read sv_out] in *.
    split; cbn [sv_in sv_read sv_out]; try done. rewrite <- Hrd. destruct a as [note ts|ev t5 ts| |clock now|]; [done|..];
      cbn [out_act] in Ea; cbv zeta in Ea; apply fmap_Some in Ea as ([R s'] & _ & ->); done.
  - pose proof (si_in _ H) as [[? ? ? ? ?] ? ? ?]. eapply server_inbound; [done|..]; [by split| |apply H]. destruct H as [_ [d Hd] _ _ _ _]. split; [|done]. by exists d.
  - destruct H as [? ? ? [? ? ? [? ? ? ?] ?] ? ?]. by split.
Qed.

Lemma server_reachable_inv band sv : server_reachable band sv -> server_inv sv.
Proof. induction 1 as [|sv sv' _ IH Hs]; [apply Server_new_inv|by eapply server_step_inv]. Qed.

(** What reaches a client, and that it is the session's: messages it can decode, numbered
    in 64 bits. *)
Lemma connection_stream band sv (i : nat) c :
  server_reachable band sv -> let s := th_out (sv_out sv) in
  outbound_connections_ s !! i = Some c -> oc_open c = true -> oc_client_id c <> 0 ->
  exists se start sequence, outbound_sessions_ s !! Z.to_nat (oc_client_id c) = Some se /\
    LOGIN_ACCEPTED (oc_client_id c) (oc_conn c) sequence ∈ notes_pushed (sv_in sv) /\
    1 <= start <= Z.of_nat (length (os_history se)) + 1 /\
    stream_of start (drop (Z.to_nat (start - 1)) (os_history se)) (sent_on (oc_conn c) (tcp_taken s) ++ queued c se) /\
    Forall data_packet (os_history se) /\ Z.of_nat (length (os_history se)) + 1 < 18446744073709551616.
Proof.
  intros Hr s E Ho Hid. pose proof (server_reachable_inv band sv Hr) as [_ [d Hd] _ [Hwf _ _ Hout _] Hread _]. fold s in Hout.
  pose proof (co_conns _ _ _ _ _ (oi_core _ _ _ Hout) _ _ E Ho) as Hl. pose proof (cl_desk _ _ _ _ _ _ Hl) as Hslot.
  destruct (cl_session _ _ _ _ _ _ Hl Hid) as (Hpos & se & log & start & Ese & Hs & Hlog & _ & Hst & Hstream).
  destruct (co_sessions _ _ _ _ _ (oi_core _ _ _ Hout) _ _ Ese) as [Hsk _ Hsd Hsp]. rewrite Hlog in Hsk. destruct Hsk as (Hh & _ & Hnext).
  destruct (Hsd _ Hs) as (x & Hx & Hxs).
  pose proof (dw_sessions _ Hwf _ _ Hx) as Hxd. unfold slot_of in Hxd. rewrite Hxs, Nat2Z.id, Hslot in Hxd. injection Hxd as <-.
  rewrite Hread in Hx. destruct (notes_obey_session _ _ _ _ (notes_obey_take _ _ (sv_read sv) (do_obey _ _ _ Hd)) Hx) as (id & sequence & Hn & Hok & Hin).
  exists se, start, sequence. split; [done|]. split; [|pose proof (lh_next _ _ _ Hh); split_and!; (done || lia)]. unfold client_ok in Hok. replace (oc_client_id c) with id by lia.
  by apply (subseteq_take (sv_read sv)).
Qed.

(** ** Theorems *)

(** C12: Whatever reaches a client is its own session, whole and in order: in every
    reachable state of the two threads, a connection the outbound thread sends a session
    on has logged into exactly that session, and the bytes TCP took for it, followed by
    those still queued, are a Login Accepted that announces some sequence number [start],
    then whole packets: heartbeats and exactly the messages of the session from number
    [start] on, each once and in order, however TCP cut and delayed them. *)
Theorem server_streams_intact band sv (i : nat) c :
  server_reachable band sv -> let s := th_out (sv_out sv) in
  outbound_connections_ s !! i = Some c -> oc_open c = true -> oc_client_id c <> 0 ->
  exists se start sequence, outbound_sessions_ s !! Z.to_nat (oc_client_id c) = Some se /\
    LOGIN_ACCEPTED (oc_client_id c) (oc_conn c) sequence ∈ notes_pushed (sv_in sv) /\
    1 <= start <= Z.of_nat (length (os_history se)) + 1 /\
    stream_of start (drop (Z.to_nat (start - 1)) (os_history se)) (sent_on (oc_conn c) (tcp_taken s) ++ queued c se).
Proof.
  intros Hr s E Ho Hid. destruct (connection_stream band sv i c Hr E Ho Hid) as (se & start & sequence & ? & ? & ? & ? & _).
  by exists se, start, sequence.
Qed.

(** C14: Neither thread can be broken: from any reachable state, whatever bytes TCP
    delivers and takes, every event and timeout scan of the inbound thread, the next
    note, every engine event, flush, heartbeat scan and the shutdown of the outbound
    thread run to the end: no index outside a table, no copy past a buffer, no session
    without a log, and the send loop ends. *)
Theorem server_never_faults band sv :
  server_reachable band sv ->
  (forall ev stamps, tcp_delivers (sv_in sv) ev -> is_Some (on_tcp_event_ in_rdtsc ev stamps (sv_in sv))) /\
  (forall clock now, is_Some (check_timeouts_ clock now (sv_in sv))) /\
  (forall note ts, notes_pushed (sv_in sv) !! sv_read sv = Some note -> is_u64 ts -> room (th_out (sv_out sv)) ->
    is_Some (act (act_note note ts) (sv_out sv))) /\
  (forall a, match a with act_note _ _ => False | _ => action_ok (sv_out sv) a end -> is_Some (act a (sv_out sv))).
Proof.
  intros Hr. pose proof (server_reachable_inv band sv Hr) as H. pose proof (si_in _ H) as Hi. split; [|split; [|split]].
  - intros ev stamps Hev. destruct (on_tcp_event_ok in_rdtsc _ ev stamps Hi Hev) as (s' & E & _). by eexists.
  - intros clock now. destruct (check_timeouts_ok clock now _ Hi) as (s' & E & _). by eexists.
  - intros note ts E Hts Hroom. destruct sv as [s n t]. cbn [sv_in sv_read sv_out] in *. destruct (next_note_ok _ _ _ _ H E) as [Hok Hg].
    destruct (note_returns k cap Hk Hcap rdtsc tcp_send tcp_sendable tcp_send_le t note ts) as (t1 & E1 & _);
      [apply H|done..|by eexists].
  - intros a Ha. destruct (out_act_inv k cap Hk Hcap rdtsc tcp_send tcp_sendable tcp_send_le (sv_out sv) a) as (t1 & E1 & _); [apply H|by destruct a|].
    by eexists.
Qed.

(** C13: The inbound thread keeps to the protocol of the notes, whatever TCP delivers: a
    connection is announced at most once and only in a slot that has none, a session is
    logged into only while nobody is, every login ends with a disconnect before the slot
    or the session is used again, orders come only from sessions somebody is logged
    into, and what the notes tell is what the connection table says. *)
Theorem notes_follow_protocol band sv :
  server_reachable band sv ->
  desk_ok (inbound_connections_ (sv_in sv)) (notes_pushed (sv_in sv)) (desk_after (notes_pushed (sv_in sv))).
Proof.
  intros Hr. destruct (server_reachable_inv band sv Hr) as [_ [d Hd] _ _ _ _]. by rewrite <- (notes_obey_desk _ _ (do_obey _ _ _ Hd)).
Qed.
End Runs.

(** ** A client connects, logs in and enters an order *)

Module Examples.
Definition ex_send (_ : nat) (_ : ConnId) (bytes : list Z) : nat := length bytes.
Definition ex_sendable (_ : nat) (_ : ConnId) : bool := true.
Definition ex_band : PriceBand := example_band.

Definition ex_in (ev : tcp_event) (s : Inbound) : Inbound :=
  from_option snd s (on_tcp_event_ example_clock_reads ev example_stamps s).
Definition ex_out (a : out_action) (t : OutThread) : OutThread :=
  default t (out_act 512 example_clock_reads ex_send ex_sendable a t).

Definition order_bytes : list Z :=
  let '(n, packet) := encode_soup_unsequenced (enter_order valid_enter) (replicate 512 0) in take n packet.

Definition in1 : Inbound := ex_in (tcp_accepted example_conn) (Inbound_new ex_band).
Definition in2 : Inbound := ex_in (tcp_data example_conn login_bytes) in1.
Definition in3 : Inbound := ex_in (tcp_data example_conn order_bytes) in2.

Definition ex_note (i : nat) : ServerNote := default (LOGIN_REJECTED 0 example_conn) (notes_pushed in3 !! i).

Definition ex_event : EngineEvent := mkEvent 10 11 12 13 14 1 0 0 1 1025 100 ACCEPTED 0 true.

Definition out1 : OutThread := ex_out (act_note (ex_note 0) 7) OutThread_new.
Definition out2 : OutThread := ex_out act_flush out1.
Definition out3 : OutThread := ex_out (act_note (ex_note 1) 8) out2.
Definition out4 : OutThread := ex_out (act_event ex_event 15 9) out3.
Definition out5 : OutThread := ex_out act_flush out4.

(** [room], as a check. *)
Definition has_room (s : Outbound) : bool :=
  forallb (fun se => match os_log se with
    | None => true
    | Some log => (end_ log + 256 <? 18446744073709551616) && (next_seq_ log + 1 <? 18446744073709551616)
    end) (outbound_sessions_ s).

Lemma has_room_sound s : has_room s = true -> room s.
Proof.
  intros H n se log E Hlog. unfold has_room in H. rewrite forallb_forall in H. specialize (H se). rewrite Hlog in H.
  apply andb_true_iff in H as [H1 H2]; [by zbool|]. apply list_elem_of_In. by eapply list_elem_of_lookup_2.
Qed.

Ltac computed := vm_compute; first [exact I|repeat split; first [reflexivity|discriminate|lia]].

Lemma ex_tcp_send_le n conn bytes : (ex_send n conn bytes <= length bytes)%nat.
Proof. done. Qed.

Notation reach := (server_reachable 512 example_clock_reads example_clock_reads ex_send ex_sendable ex_band).

Lemma order_bytes_u8 : Forall is_u8 order_bytes.
Proof.
  set (l := order_bytes). vm_compute in l. subst l.
  repeat (apply Forall_cons; split; [split; [discriminate|reflexivity]|]). apply Forall_nil_2.
Qed.

Lemma in3_reach : reach (mkServer in3 0 OutThread_new).
Proof.
  eapply sv_next; [eapply sv_next; [eapply sv_next; [apply sv_start|]|]|].
  - apply (sv_event 512 _ _ _ _ (tcp_accepted example_conn) example_stamps _ _ _ in1); [|split; [computed|by intros ?%elem_of_nil]|by vm_compute].
    exists InboundConnection_new. split; reflexivity.
  - apply (sv_event 512 _ _ _ _ (tcp_data example_conn login_bytes) example_stamps _ _ _ in2); [|done|by vm_compute].
    eexists. split; [vm_compute; reflexivity|]. exact login_bytes_u8.
  - apply (sv_event 512 _ _ _ _ (tcp_data example_conn order_bytes) example_stamps _ _ _ in3); [|done|by vm_compute].
    eexists. split; [vm_compute; reflexivity|]. exact order_bytes_u8.
Qed.

Lemma out5_reach : reach (mkServer in3 2 out5).
Proof.
  eapply sv_next; [eapply sv_next; [eapply sv_next; [eapply sv_next; [eapply sv_next; [exact in3_reach|]|]|]|]|].
  - apply (sv_note 512 _ _ _ _ (ex_note 0) 7 in3 0 _ out1); [by vm_compute|computed|by apply has_room_sound; vm_compute|by vm_compute].
  - apply (sv_act 512 _ _ _ _ act_flush in3 1 _ out2); [done|by vm_compute].
  - apply (sv_note 512 _ _ _ _ (ex_note 1) 8 in3 1 _ out3); [by vm_compute|computed|by apply has_room_sound; vm_compute|by vm_compute].
  - apply (sv_act 512 _ _ _ _ (act_event ex_event 15 9) in3 2 _ out4); [|by vm_compute].
    split; [computed|]. split; [computed|]. by apply has_room_sound; vm_compute.
  - apply (sv_act 512 _ _ _ _ act_flush in3 2 _ out5); [done|by vm_compute].
Qed.

Definition ex_server : Server := mkServer in3 2 out5.
Definition ex_conn : OutboundConnection := default OutboundConnection_new (outbound_connections_ (th_out (sv_out ex_server)) !! 0%nat).

Lemma ex_server_reach : reach ex_server.
Proof. exact out5_reach. Qed.

Lemma ex_conn_at : outbound_connections_ (th_out (sv_out ex_server)) !! 0%nat = Some ex_conn.
Proof. vm_compute. reflexivity. Qed.
Lemma ex_conn_open : oc_open ex_conn = true.
Proof. vm_compute. reflexivity. Qed.
Lemma ex_conn_client : oc_client_id ex_conn = 1.
Proof. vm_compute. reflexivity. Qed.

Lemma server_streams_intact_witness :
  exists se start sequence, outbound_sessions_ (th_out (sv_out ex_server)) !! Z.to_nat (oc_client_id ex_conn) = Some se /\
    LOGIN_ACCEPTED (oc_client_id ex_conn) (oc_conn ex_conn) sequence ∈ notes_pushed (sv_in ex_server) /\
    1 <= start <= Z.of_nat (length (os_history se)) + 1 /\
    stream_of start (drop (Z.to_nat (start - 1)) (os_history se))
      (sent_on (oc_conn ex_conn) (tcp_taken (th_out (sv_out ex_server))) ++ queued ex_conn se).
Proof.
  refine (server_streams_intact 9 512 _ _ example_clock_reads example_clock_reads ex_send ex_sendable ex_tcp_send_le ex_band ex_server 0 ex_conn ex_server_reach
    ex_conn_at ex_conn_open _); [lia|reflexivity|]. rewrite ex_conn_client. lia.
Defined.

Lemma server_never_faults_witness :
  is_Some (check_timeouts_ (mkClock 0 0 0) 20 (sv_in ex_server)) /\
  is_Some (out_act 512 example_clock_reads ex_send ex_sendable act_shutdown (sv_out ex_server)).
Proof.
  destruct (server_never_faults 9 512 ltac:(lia) eq_refl example_clock_reads example_clock_reads ex_send ex_sendable ex_tcp_send_le ex_band
    ex_server ex_server_reach) as (_ & Htimeouts & _ & Hact).
  exact (conj (Htimeouts (mkClock 0 0 0) 20) (Hact act_shutdown I)).
Defined.

Lemma notes_follow_protocol_witness :
  desk_ok (inbound_connections_ (sv_in ex_server)) (notes_pushed (sv_in ex_server)) (desk_after (notes_pushed (sv_in ex_server))).
Proof.
  exact (notes_follow_protocol 9 512 ltac:(lia) eq_refl example_clock_reads example_clock_reads ex_send ex_sendable ex_tcp_send_le ex_band ex_server ex_server_reach).
Defined.
End Examples.
