(* ===== verification/ServerLoops.v ===== *)
(** * ServerLoops: the two threads' loops ([Server::inbound_], [Server::outbound_])

    What each thread does in a round of its loop, with the time-stamp counter it reads on
    the way.  What the queues, the rings and TCP hold when the thread looks is input: the
    bursts of an inbound round, the notes and events that an outbound round pops.  Every
    round is a sequence of steps of [Server], so what is proved of those holds of the
    threads as they are written. *)

From S2P Require Import Prelude Types WireCodec Clock OuchProto OuchCorrect Validation OrderEntry OuchResponder.
From S2P Require Import SoupProto SessionLog Reassembly Pipeline Inbound NoteProtocol Outbound OutboundStream OutboundTheorems OutboundLogs Server.

(** ** The loops *)

Definition kScanIntervalNs : Z := 100000000.
Definition kOutboundBatch : nat := 32.

Section Loops.
Context (rdtsc : nat -> Z) (clock : TscClock).

(** Whether the thread's periodic scan is due. *)
Definition scan_due (now last_scan_tsc : Z) : bool := ticks_to_ns clock (u64 (now - last_scan_tsc)) >=? kScanIntervalNs.

(** *** Inbound *)

Definition in_tsc : M Inbound Z := fun s => Some (rdtsc (in_tsc_reads s), in_tick s).

Fixpoint handle_events (events : list tcp_event) (stamps : InboundStamps) : M Inbound unit :=
  match events with
  | [] => mret tt
  | event :: events => _ ← on_tcp_event_ rdtsc event stamps; handle_events events stamps
  end.

(** One queue: [None] is an empty burst, else what TCP makes of the burst. *)
Definition poll_queue (burst : option (list tcp_event)) : M Inbound unit :=
  read_begin_tsc ← in_tsc;
  match burst with
  | None => mret tt
  | Some events =>
      recv_tsc ← in_tsc;
      handle_events events (mkStamps read_begin_tsc recv_tsc)
  end.

Fixpoint poll_queues (bursts : list (option (list tcp_event))) : M Inbound unit :=
  match bursts with
  | [] => mret tt
  | burst :: bursts => _ ← poll_queue burst; poll_queues bursts
  end.

(** One round; the result is the new [last_scan_tsc]. *)
Definition inbound_round (bursts : list (option (list tcp_event))) (last_scan_tsc : Z) : M Inbound Z :=
  _ ← poll_queues bursts;
  now ← in_tsc;
  if scan_due now last_scan_tsc then (_ ← check_timeouts_ clock now; mret now) else mret last_scan_tsc.

Fixpoint inbound_loop (rounds : list (list (option (list tcp_event)))) (last_scan_tsc : Z) : M Inbound Z :=
  match rounds with
  | [] => mret last_scan_tsc
  | bursts :: rounds => last_scan_tsc ← inbound_round bursts last_scan_tsc; inbound_loop rounds last_scan_tsc
  end.

Definition inbound_ (rounds : list (list (option (list tcp_event)))) : M Inbound Z :=
  last_scan_tsc ← in_tsc;
  inbound_loop rounds last_scan_tsc.

(** *** Outbound *)

Context (tcp_send : nat -> ConnId -> list Z -> nat) (tcp_sendable : nat -> ConnId -> bool) (cap : Z).

(** The time of day is only read for a note of the gateway. *)
Definition handle_note (note : ServerNote) (responder : OuchResponder) : M Outbound OuchResponder :=
  match note with
  | GATEWAY _ _ => now ← out_tsc rdtsc; on_note_ rdtsc cap note (ns_since_midnight clock now) responder
  | _ => on_note_ rdtsc cap note 0 responder
  end.

(** [drain_notes]: the notes popped before the ring was found empty. *)
Fixpoint drain_notes (notes : list ServerNote) (responder : OuchResponder) : M Outbound OuchResponder :=
  match notes with
  | [] => mret responder
  | note :: notes => responder ← handle_note note responder; drain_notes notes responder
  end.

(** An event popped, and the notes found after it. *)
Definition handle_event (event : EngineEvent) (notes : list ServerNote) (responder : OuchResponder) : M Outbound OuchResponder :=
  t5 ← out_tsc rdtsc;
  responder ← drain_notes notes responder;
  send_event event t5 (ns_since_midnight clock (ev_engine_push_tsc event)) responder.

(** At most [n] events; the end of the list is an empty ring. *)
Fixpoint event_batch (n : nat) (pops : list (EngineEvent * list ServerNote)) (responder : OuchResponder) : M Outbound OuchResponder :=
  match n, pops with
  | S n, (event, notes) :: pops => responder ← handle_event event notes responder; event_batch n pops responder
  | _, _ => mret responder
  end.

(** What a round pops. *)
Record RoundPops := mkPops { rp_notes : list ServerNote; rp_events : list (EngineEvent * list ServerNote) }.

Definition outbound_round (pops : RoundPops) (responder : OuchResponder) (last_scan_tsc : Z) : M Outbound (OuchResponder * Z) :=
  responder ← drain_notes (rp_notes pops) responder;
  responder ← event_batch kOutboundBatch (rp_events pops) responder;
  _ ← flush_ rdtsc tcp_send tcp_sendable;
  now ← out_tsc rdtsc;
  if scan_due now last_scan_tsc then (_ ← heartbeat_ clock now; mret (responder, now)) else mret (responder, last_scan_tsc).

Fixpoint outbound_loop (rounds : list RoundPops) (responder : OuchResponder) (last_scan_tsc : Z) : M Outbound OuchResponder :=
  match rounds with
  | [] => mret responder
  | pops :: rounds =>
      r ← outbound_round pops responder last_scan_tsc;
      outbound_loop rounds r.1 r.2
  end.

(** The thread: its rounds until shutdown, then a FIN to everyone still connected. *)
Definition outbound_ (rounds : list RoundPops) : M Outbound OuchResponder :=
  last_scan_tsc ← out_tsc rdtsc;
  responder ← outbound_loop rounds ∅ last_scan_tsc;
  _ ← close_all;
  mret responder.
End Loops.

(** ** The loops are steps of the server *)

Section Refine.
Context (k cap : Z) (Hk : 9 <= k) (Hcap : cap = 2 ^ k).
Context (in_rdtsc rdtsc : nat -> Z) (clock : TscClock) (tcp_send : nat -> ConnId -> list Z -> nat) (tcp_sendable : nat -> ConnId -> bool).
Hypothesis tcp_send_le : forall n conn bytes, (tcp_send n conn bytes <= length bytes)%nat.
Context (band : PriceBand).

Notation reach := (server_reachable cap in_rdtsc rdtsc tcp_send tcp_sendable band).
Notation act := (out_act cap rdtsc tcp_send tcp_sendable).

(** *** Inbound *)

(** TCP's promise for the events of a burst, each when its turn comes. *)
Fixpoint events_delivered (events : list tcp_event) (stamps : InboundStamps) (s : Inbound) : Prop :=
  match events with
  | [] => True
  | event :: events =>
      tcp_delivers s event /\ tcp_fresh s event /\
      forall s', on_tcp_event_ in_rdtsc event stamps s = Some (tt, s') -> events_delivered events stamps s'
  end.

Definition burst_delivered (burst : option (list tcp_event)) (s : Inbound) : Prop :=
  match burst with
  | None => True
  | Some events => events_delivered events (mkStamps (in_rdtsc (in_tsc_reads s)) (in_rdtsc (S (in_tsc_reads s)))) (in_tick (in_tick s))
  end.

Fixpoint bursts_delivered (bursts : list (option (list tcp_event))) (s : Inbound) : Prop :=
  match bursts with
  | [] => True
  | burst :: bursts => burst_delivered burst s /\ forall s', poll_queue in_rdtsc burst s = Some (tt, s') -> bursts_delivered bursts s'
  end.

Lemma in_tsc_bind {B} (f : Z -> M Inbound B) s : (in_tsc in_rdtsc ≫= f) s = f (in_rdtsc (in_tsc_reads s)) (in_tick s).
Proof. done. Qed.

Lemma reach_in_tick s n t : reach (mkServer s n t) -> reach (mkServer (in_tick s) n t).
Proof. intros H. eapply sv_next; [exact H|apply sv_in_clock]. Qed.

Lemma handle_events_reach events stamps s n t :
  reach (mkServer s n t) -> events_delivered events stamps s ->
  exists s', handle_events in_rdtsc events stamps s = Some (tt, s') /\ reach (mkServer s' n t).
Proof.
  revert s. induction events as [|ev events IH]; intros s Hr Hd; [by exists s|]. destruct Hd as (Hd & Hf & Hnext).
  pose proof (server_reachable_inv k cap Hk Hcap _ _ _ _ tcp_send_le _ _ Hr) as Hi.
  destruct (on_tcp_event_ok in_rdtsc s ev stamps (si_in _ _ Hi) Hd) as (s1 & E & _).
  destruct (IH s1) as (s' & E' & H'); [eapply sv_next; [exact Hr|by eapply sv_event]|by apply Hnext|].
  exists s'. split; [|done]. cbn [handle_events]. by rewrite (bind_Some _ _ _ _ _ E).
Qed.

Lemma poll_queue_reach burst s n t :
  reach (mkServer s n t) -> burst_delivered burst s -> exists s', poll_queue in_rdtsc burst s = Some (tt, s') /\ reach (mkServer s' n t).
Proof.
  intros Hr Hd. unfold poll_queue. rewrite in_tsc_bind. destruct burst as [events|]; [|eexists; split; [done|by apply reach_in_tick]].
  rewrite in_tsc_bind. apply handle_events_reach; [by apply reach_in_tick, reach_in_tick|done].
Qed.

Lemma poll_queues_reach bursts s n t :
  reach (mkServer s n t) -> bursts_delivered bursts s -> exists s', poll_queues in_rdtsc bursts s = Some (tt, s') /\ reach (mkServer s' n t).
Proof.
  revert s. induction bursts as [|burst bursts IH]; intros s Hr Hd; [by exists s|]. destruct Hd as [Hd Hnext].
  destruct (poll_queue_reach burst s n t Hr Hd) as (s1 & E & H1). destruct (IH s1 H1 (Hnext _ E)) as (s' & E' & H').
  exists s'. split; [|done]. cbn [poll_queues]. by rewrite (bind_Some _ _ _ _ _ E).
Qed.

Lemma inbound_round_reach bursts last s n t :
  reach (mkServer s n t) -> bursts_delivered bursts s ->
  exists last' s', inbound_round in_rdtsc clock bursts last s = Some (last', s') /\ reach (mkServer s' n t).
Proof.
  intros Hr Hd. destruct (poll_queues_reach bursts s n t Hr Hd) as (s1 & E & H1). unfold inbound_round. rewrite (bind_Some _ _ _ _ _ E), in_tsc_bind.
  apply reach_in_tick in H1. set (now := in_rdtsc _). destruct (scan_due clock now last); [|by eexists _, _].
  pose proof (server_reachable_inv k cap Hk Hcap _ _ _ _ tcp_send_le _ _ H1) as Hi.
  destruct (check_timeouts_ok clock now _ (si_in _ _ Hi)) as (s2 & E2 & _). cbn [sv_in] in E2. rewrite (bind_Some _ _ _ _ _ E2).
  eexists _, _. split; [done|]. eapply sv_next; [exact H1|by eapply sv_timeouts].
Qed.

(** *** Outbound *)

(** A flush, a heartbeat scan or the shutdown. *)
Lemma server_act (m : M Outbound unit) a s n t :
  reach (mkServer s n t) -> match a with act_note _ _ | act_event _ _ _ => False | _ => True end ->
  (forall t, act a t = (fun '(_, s) => mkThread (th_desk t) (th_responder t) s) <$> m (th_out t)) ->
  exists t', m (th_out t) = Some (tt, th_out t') /\ th_responder t' = th_responder t /\ reach (mkServer s n t').
Proof.
  intros Hr Ha Em. pose proof (server_reachable_inv k cap Hk Hcap _ _ _ _ tcp_send_le _ _ Hr) as Hi.
  destruct (out_act_inv k cap Hk Hcap rdtsc tcp_send tcp_sendable tcp_send_le t a (si_out _ _ Hi)) as (t' & E & _); [by destruct a|].
  pose proof E as Ea. rewrite Em in Ea. apply fmap_Some in Ea as ([[] s'] & Em' & ->). eexists (mkThread _ _ s'). split; [exact Em'|]. split; [done|].
  eapply sv_next; [exact Hr|]. eapply sv_act; [|exact E]. by destruct a.
Qed.

Lemma reach_out_tick s n t : reach (mkServer s n t) -> reach (mkServer s n (out_tick t)).
Proof. intros H. eapply sv_next; [exact H|apply sv_out_clock]. Qed.

Lemma out_tsc_bind {B} (f : Z -> M Outbound B) t : (out_tsc rdtsc ≫= f) (th_out t) = f (rdtsc (out_tsc_reads (th_out t))) (th_out (out_tick t)).
Proof. done. Qed.

Lemma timestamp_u64 c now : is_u64 (ns_since_midnight c now).
Proof. pose proof (ns_since_midnight_range c now). unfold kNsPerDay, kNsPerSec in *. ulia. Qed.

(** One note, the next one the inbound thread pushed. *)
Lemma on_note_reach note ts s n t m :
  reach (mkServer s n t) -> notes_pushed s !! n = Some note -> is_u64 ts -> room_for (S m) (th_out t) ->
  exists t', on_note_ rdtsc cap note ts (th_responder t) (th_out t) = Some (th_responder t', th_out t') /\
    reach (mkServer s (S n) t') /\ room_for m (th_out t').
Proof.
  intros Hr En Hts Hroom. pose proof (server_reachable_inv k cap Hk Hcap _ _ _ _ tcp_send_le _ _ Hr) as Hi. destruct (next_note_ok _ _ _ _ _ Hi En) as [Hok Hg].
  destruct (note_returns k cap Hk Hcap rdtsc tcp_send tcp_sendable tcp_send_le t note ts (si_out _ _ Hi) Hok Hg Hts (room_for_room _ _ Hroom)) as (t' & E & _).
  pose proof E as Ea. cbn [out_act] in Ea. destruct (on_note_ rdtsc cap note ts _ _) as [[R s']|] eqn:En'; [|done]. injection Ea as <-.
  eexists (mkThread _ R s'). split; [done|]. cbn [th_responder th_out]. split; [|by eapply room_for_grew; [eapply grows_on_note|]].
  eapply sv_next; [exact Hr|]. eapply sv_note; [done|done|by eapply room_for_room|exact E].
Qed.

Lemma handle_note_reach note s n t m :
  reach (mkServer s n t) -> notes_pushed s !! n = Some note -> room_for (S m) (th_out t) ->
  exists t', handle_note rdtsc clock cap note (th_responder t) (th_out t) = Some (th_responder t', th_out t') /\
    reach (mkServer s (S n) t') /\ room_for m (th_out t').
Proof.
  intros Hr En Hroom. unfold handle_note. destruct note as [id g|id conn sequence|reason conn|id conn]; [|by apply on_note_reach..].
  rewrite out_tsc_bind. apply (on_note_reach _ _ s n (out_tick t)); [by apply reach_out_tick|done|apply timestamp_u64|done].
Qed.

(** The notes a drain pops are the next ones. *)
Definition next_notes (notes : list ServerNote) (s : Inbound) (n : nat) : Prop := notes `prefix_of` drop n (notes_pushed s).

Lemma next_notes_cons note notes s n : next_notes (note :: notes) s n -> notes_pushed s !! n = Some note /\ next_notes notes s (S n).
Proof.
  intros [more E]. assert (notes_pushed s !! n = Some note) as Hn by (pose proof (lookup_drop (notes_pushed s) n 0) as H; rewrite E, Nat.add_0_r in H; by rewrite <- H).
  split; [done|]. exists more. rewrite (drop_S _ note n Hn) in E. by injection E.
Qed.

Lemma drain_notes_reach notes s n t m :
  reach (mkServer s n t) -> next_notes notes s n -> room_for (length notes + m) (th_out t) ->
  exists t', drain_notes rdtsc clock cap notes (th_responder t) (th_out t) = Some (th_responder t', th_out t') /\
    reach (mkServer s (n + length notes) t') /\ room_for m (th_out t').
Proof.
  revert n t. induction notes as [|note notes IH]; intros n t Hr Hn Hroom; [exists t; cbn [length]; by rewrite Nat.add_0_r|].
  apply next_notes_cons in Hn as [En Hn]. destruct (handle_note_reach note s n t _ Hr En Hroom) as (t1 & E1 & H1 & Hroom1).
  destruct (IH (S n) t1 H1 Hn Hroom1) as (t' & E' & H' & Hroom'). exists t'. cbn [drain_notes length]. rewrite (bind_Some _ _ _ _ _ E1).
  split; [done|]. by rewrite Nat.add_succ_r.
Qed.

Lemma handle_event_reach event notes s n t m :
  reach (mkServer s n t) -> next_notes notes s n -> event_typed event -> room_for (length notes + S m) (th_out t) ->
  exists t', handle_event rdtsc clock cap event notes (th_responder t) (th_out t) = Some (th_responder t', th_out t') /\
    reach (mkServer s (n + length notes) t') /\ room_for m (th_out t').
Proof.
  intros Hr Hn Hev Hroom. unfold handle_event. rewrite out_tsc_bind. set (t5 := rdtsc _).
  destruct (drain_notes_reach notes s n (out_tick t) (S m) (reach_out_tick _ _ _ Hr) Hn Hroom) as (t1 & E1 & H1 & Hroom1).
  change (th_responder (out_tick t)) with (th_responder t) in E1. rewrite (bind_Some _ _ _ _ _ E1).
  set (ts := ns_since_midnight _ _). pose proof (server_reachable_inv k cap Hk Hcap _ _ _ _ tcp_send_le _ _ H1) as Hi.
  pose proof (room_for_room _ _ Hroom1) as Hroom0.
  destruct (event_returns k cap Hk Hcap rdtsc tcp_send tcp_sendable t1 event t5 ts (si_out _ _ Hi) Hev (timestamp_u64 _ _) Hroom0) as (t' & E & _).
  pose proof E as Ea. cbn [out_act] in Ea. destruct (send_event event t5 ts _ _) as [[R s']|] eqn:Es; [|done]. injection Ea as <-.
  eexists (mkThread _ R s'). split; [done|]. cbn [th_responder th_out]. split; [|by eapply room_for_grew; [eapply grows_send_event|]].
  eapply sv_next; [exact H1|]. eapply (sv_act _ _ _ _ _ (act_event event t5 ts)); [|exact E]. split; [done|]. split; [apply timestamp_u64|done].
Qed.

(** Everything popped by a batch: its notes, and how many logs can grow. *)
Definition batch_notes (pops : list (EngineEvent * list ServerNote)) : list ServerNote := concat pops.*2.
Definition batch_size (pops : list (EngineEvent * list ServerNote)) : nat := length pops + length (batch_notes pops).

Lemma next_notes_app notes notes' s n : next_notes (notes ++ notes') s n -> next_notes notes s n /\ next_notes notes' s (n + length notes).
Proof.
  revert n. induction notes as [|note notes IH]; intros n H; [split; [by exists (drop n (notes_pushed s))|]; cbn; by rewrite Nat.add_0_r|].
  destruct (next_notes_cons _ _ _ _ H) as [En H']. destruct (IH (S n) H') as [[more E] H2]. cbn [length]. rewrite Nat.add_succ_r. split; [|done].
  exists more. rewrite (drop_S _ note n En), E. done.
Qed.

Lemma event_batch_reach i pops s n t m :
  reach (mkServer s n t) -> next_notes (batch_notes (take i pops)) s n -> Forall (fun p => event_typed p.1) pops ->
  room_for (batch_size (take i pops) + m) (th_out t) ->
  exists t', event_batch rdtsc clock cap i pops (th_responder t) (th_out t) = Some (th_responder t', th_out t') /\
    reach (mkServer s (n + length (batch_notes (take i pops))) t') /\ room_for m (th_out t').
Proof.
  revert n t i. induction pops as [|[event notes] pops IH]; intros n t [|i] Hr Hn Hev Hroom; cbn [take] in *;
    [by exists t; rewrite Nat.add_0_r; cbn [event_batch batch_notes]..|]. unfold batch_size, batch_notes in *. cbn [fmap list_fmap concat snd length] in *. rewrite length_app in *.
  apply next_notes_app in Hn as [Hn Hn']. apply Forall_cons in Hev as [Hev Hevs].
  destruct (handle_event_reach event notes s n t (length (take i pops) + length (concat (take i pops).*2) + m) Hr Hn Hev) as (t1 & E1 & H1 & Hroom1).
  { eapply room_for_le; [|exact Hroom]. lia. }
  destruct (IH _ t1 i H1 Hn' Hevs Hroom1) as (t' & E' & H' & Hroom'). exists t'. cbn [event_batch]. rewrite (bind_Some _ _ _ _ _ E1). split; [done|].
  by rewrite Nat.add_assoc.
Qed.

(** The notes a round pops, in order. *)
Definition round_notes (pops : RoundPops) : list ServerNote := rp_notes pops ++ batch_notes (take kOutboundBatch (rp_events pops)).
Definition round_size (pops : RoundPops) : nat := length (rp_notes pops) + batch_size (take kOutboundBatch (rp_events pops)).

Lemma outbound_round_reach pops last s n t m :
  reach (mkServer s n t) -> next_notes (round_notes pops) s n -> Forall (fun p => event_typed p.1) (rp_events pops) ->
  room_for (round_size pops + m) (th_out t) ->
  exists last' t', outbound_round rdtsc clock tcp_send tcp_sendable cap pops (th_responder t) last (th_out t) = Some ((th_responder t', last'), th_out t') /\
    reach (mkServer s (n + length (round_notes pops)) t') /\ room_for m (th_out t').
Proof.
  intros Hr Hn Hev Hroom. unfold round_notes, round_size in *. apply next_notes_app in Hn as [Hn Hn']. rewrite <- Nat.add_assoc in Hroom.
  destruct (drain_notes_reach (rp_notes pops) s n t _ Hr Hn Hroom) as (t1 & E1 & H1 & Hroom1).
  destruct (event_batch_reach kOutboundBatch (rp_events pops) s _ t1 m H1 Hn' Hev Hroom1) as (t2 & E2 & H2 & Hroom2).
  unfold outbound_round. rewrite (bind_Some _ _ _ _ _ E1), (bind_Some _ _ _ _ _ E2). rewrite length_app, Nat.add_assoc. clear E1 E2 H1 Hn Hn' Hr Hroom Hroom1.
  destruct (server_act (flush_ rdtsc tcp_send tcp_sendable) act_flush _ _ _ H2 I ltac:(done)) as (t3 & E3 & ER3 & H3).
  assert (room_for m (th_out (out_tick t3))) as Hroom3 by (exact (room_for_quiet _ _ _ (quiet_flush _ _ _ _ _ _ E3) Hroom2)).
  rewrite (bind_Some _ _ _ _ _ E3), out_tsc_bind. set (now := rdtsc _). apply reach_out_tick in H3. rewrite <- ER3. destruct (scan_due clock now last).
  - destruct (server_act (heartbeat_ clock now) (act_heartbeat clock now) _ _ _ H3 I ltac:(done)) as (t4 & E4 & ER4 & H4).
    rewrite (bind_Some _ _ _ _ _ E4). exists now, t4. split; [by rewrite ER4|]. split; [done|]. by eapply room_for_quiet; [eapply quiet_heartbeat|].
  - by exists last, (out_tick t3).
Qed.

(** *** Any interleaving of rounds *)

Record ServerRun := mkRun {
  run_in : Inbound; run_in_scan : Z;             (** the inbound thread and its [last_scan_tsc] *)
  run_read : nat;                                (** notes popped *)
  run_responder : OuchResponder; run_out : Outbound; run_out_scan : Z;
}.

Definition ServerRun_new : ServerRun :=
  mkRun (in_tick (Inbound_new band)) (in_rdtsc 0) 0 ∅ (th_out (out_tick OutThread_new)) (rdtsc 0).

(** What the queues and rings may hold for a round. *)
Definition round_input (r : ServerRun) (pops : RoundPops) : Prop :=
  next_notes (round_notes pops) (run_in r) (run_read r) /\ Forall (fun p => event_typed p.1) (rp_events pops) /\
  room_for (round_size pops) (run_out r).

Inductive round_step : ServerRun -> ServerRun -> Prop :=
| rs_inbound bursts r last s' :
    bursts_delivered bursts (run_in r) -> inbound_round in_rdtsc clock bursts (run_in_scan r) (run_in r) = Some (last, s') ->
    round_step r (mkRun s' last (run_read r) (run_responder r) (run_out r) (run_out_scan r))
| rs_outbound pops r R last o' :
    round_input r pops ->
    outbound_round rdtsc clock tcp_send tcp_sendable cap pops (run_responder r) (run_out_scan r) (run_out r) = Some ((R, last), o') ->
    round_step r (mkRun (run_in r) (run_in_scan r) (run_read r + length (round_notes pops)) R o' last)
| rs_retained r :
    round_step r (mkRun ((run_in r) <| retained_from_ := out_retained_from_ (run_out r) |>) (run_in_scan r) (run_read r) (run_responder r) (run_out r) (run_out_scan r)).

Inductive run_reachable : ServerRun -> Prop :=
| run_start : run_reachable ServerRun_new
| run_next r r' : run_reachable r -> round_step r r' -> run_reachable r'.

Definition run_server (r : ServerRun) (desk : Desk) : Server := mkServer (run_in r) (run_read r) (mkThread desk (run_responder r) (run_out r)).

Lemma run_reachable_server r : run_reachable r -> exists desk, reach (run_server r desk).
Proof.
  induction 1 as [|r r' _ [desk Hr] Hs].
  - exists Desk_new. apply (reach_in_tick (Inbound_new band) 0 (out_tick OutThread_new)), reach_out_tick. apply sv_start.
  - unfold run_server in *. destruct Hs as [bursts r last s' Hd E|pops r R last o' (Hn & Hev & Hroom) E|r].
    + destruct (inbound_round_reach bursts (run_in_scan r) _ _ _ Hr Hd) as (last1 & s1 & E1 & H1). rewrite E in E1. injection E1 as <- <-. by exists desk.
    + rewrite <- (Nat.add_0_r (round_size pops)) in Hroom.
      destruct (outbound_round_reach pops (run_out_scan r) _ _ (mkThread desk (run_responder r) (run_out r)) 0 Hr Hn Hev Hroom) as (last1 & t1 & E1 & H1 & _).
      cbn [th_responder th_out] in E1. rewrite E in E1. injection E1 as -> <- ->. exists (th_desk t1). by destruct t1.
    + exists desk. eapply sv_next; [exact Hr|apply sv_retained].
Qed.

(** *** The whole outbound thread *)

Lemma outbound_loop_reach rounds last s n t :
  reach (mkServer s n t) -> next_notes (concat (round_notes <$> rounds)) s n -> Forall (fun pops => Forall (fun p => event_typed p.1) (rp_events pops)) rounds ->
  room_for (sum_list_with round_size rounds) (th_out t) ->
  exists t', outbound_loop rdtsc clock tcp_send tcp_sendable cap rounds (th_responder t) last (th_out t) = Some (th_responder t', th_out t') /\
    reach (mkServer s (n + length (concat (round_notes <$> rounds))) t').
Proof.
  revert n t last. induction rounds as [|pops rounds IH]; intros n t last Hr Hn Hev Hroom; [exists t; split; [done|]; cbn; by rewrite Nat.add_0_r|].
  cbn [fmap list_fmap concat sum_list_with] in *. apply next_notes_app in Hn as [Hn Hn']. apply Forall_cons in Hev as [Hev Hevs].
  destruct (outbound_round_reach pops last s n t _ Hr Hn Hev Hroom) as (last1 & t1 & E1 & H1 & Hroom1).
  destruct (IH _ t1 last1 H1 Hn' Hevs Hroom1) as (t' & E' & H'). exists t'. cbn [outbound_loop]. rewrite (bind_Some _ _ _ _ _ E1). split; [done|].
  by rewrite length_app, Nat.add_assoc.
Qed.

Lemma room_for_new m : 256 * Z.of_nat m < 9223372036854775808 -> room_for m Outbound_new.
Proof.
  intros Hm. split; [done|]. intros n log h E. unfold Outbound_new in E. cbn [outbound_sessions_] in E. rewrite fmap_replicate in E. by apply lookup_replicate in E as [E _].
Qed.

Lemma reach_all_live s n t : reach (mkServer s n t) -> all_live (outbound_connections_ (th_out t)).
Proof.
  intros Hr i c Ec Ho. pose proof (server_reachable_inv k cap Hk Hcap _ _ _ _ tcp_send_le _ _ Hr) as Hi.
  destruct (co_conns _ _ _ _ _ (oi_core _ _ _ (ti_out _ _ (si_out _ _ Hi))) i c Ec Ho) as [? ? _ _ _]. done.
Qed.

Lemma close_all_reach s n t :
  reach (mkServer s n t) ->
  exists t', close_all (th_out t) = Some (tt, th_out t') /\ th_responder t' = th_responder t /\ reach (mkServer s n t') /\
    forall (i : nat) c, outbound_connections_ (th_out t') !! i = Some c -> oc_open c = false.
Proof.
  intros Hr. destruct (server_act close_all act_shutdown _ _ _ Hr I ltac:(done)) as (t' & E & ER & H'). exists t'. split; [done|]. split; [done|]. split; [done|].
  intros i c Ei. destruct (oc_open c) eqn:Ho; [|done]. unfold close_all in E. rewrite gets_bind in E.
  destruct (close_slots_closed _ _ _ i c E (reach_all_live _ _ _ Hr) Ei Ho) as [Hn Hi]. destruct Hn. apply elem_of_seq. apply lookup_lt_Some in Hi. lia.
Qed.

(** ** Theorems *)

(** C15: the two threads as they are written are the server of the other theorems.  However
    the rounds of the inbound and the outbound loop interleave, the state is one the
    server's steps reach; from there a round of either loop runs to its end, whatever TCP
    delivers and takes, whatever engine events and notes wait and whenever the scans are
    due; and the shutdown leaves no connection open. *)
Theorem threads_implement_server r :
  run_reachable r ->
  (exists desk, reach (run_server r desk)) /\
  (forall bursts, bursts_delivered bursts (run_in r) -> is_Some (inbound_round in_rdtsc clock bursts (run_in_scan r) (run_in r))) /\
  (forall pops, round_input r pops ->
    is_Some (outbound_round rdtsc clock tcp_send tcp_sendable cap pops (run_responder r) (run_out_scan r) (run_out r))) /\
  exists o, close_all (run_out r) = Some (tt, o) /\ forall (i : nat) c, outbound_connections_ o !! i = Some c -> oc_open c = false.
Proof.
  intros H. destruct (run_reachable_server r H) as [desk Hr]. unfold run_server in *. split; [by exists desk|]. split; [|split].
  - intros bursts Hd. destruct (inbound_round_reach bursts (run_in_scan r) _ _ _ Hr Hd) as (last & s' & -> & _). done.
  - intros pops (Hn & Hev & Hroom). rewrite <- (Nat.add_0_r (round_size pops)) in Hroom.
    destruct (outbound_round_reach pops (run_out_scan r) _ _ (mkThread desk (run_responder r) (run_out r)) 0 Hr Hn Hev Hroom) as (last1 & t1 & E1 & _).
    cbn [th_responder th_out] in E1. by rewrite E1.
  - destruct (close_all_reach _ _ _ Hr) as (t' & E & _ & _ & Hc). by exists (th_out t').
Qed.

(** The outbound thread, from its start to its end: after any rounds, popping notes the
    inbound thread pushed and any events the engine can write, the connections still open
    are closed, and the state it leaves is one the server's steps reach. *)
Theorem outbound_thread_returns s rounds :
  reach (mkServer s 0 OutThread_new) -> next_notes (concat (round_notes <$> rounds)) s 0 ->
  Forall (fun pops => Forall (fun p => event_typed p.1) (rp_events pops)) rounds ->
  256 * Z.of_nat (sum_list_with round_size rounds) < 9223372036854775808 ->
  exists R o desk, outbound_ rdtsc clock tcp_send tcp_sendable cap rounds Outbound_new = Some (R, o) /\
    reach (mkServer s (length (concat (round_notes <$> rounds))) (mkThread desk R o)) /\
    forall (i : nat) c, outbound_connections_ o !! i = Some c -> oc_open c = false.
Proof.
  intros Hr Hn Hev Hm. unfold outbound_. change Outbound_new with (th_out OutThread_new). rewrite out_tsc_bind. set (last := rdtsc _).
  destruct (outbound_loop_reach rounds last s 0 (out_tick OutThread_new) (reach_out_tick _ _ _ Hr) Hn Hev) as (t1 & E1 & H1);
    [exact (room_for_quiet _ Outbound_new _ eq_refl (room_for_new _ Hm))|].
  change (th_responder (out_tick OutThread_new)) with (∅ : OuchResponder) in E1. rewrite (bind_Some _ _ _ _ _ E1).
  destruct (close_all_reach _ _ _ H1) as (t2 & E2 & ER & H2 & Hc). rewrite (bind_Some _ _ _ _ _ E2).
  exists (th_responder t1), (th_out t2), (th_desk t2). split; [done|]. split; [|done]. rewrite <- ER. by destruct t2.
Qed.
End Refine.

(** ** A client connects, logs in and enters an order *)

Module Rounds.
Import Server.Examples.

Definition ex_tsc_clock : TscClock := mkClock 0 0 4294967296.
Definition ex_rounds : list RoundPops := [mkPops [ex_note 0; ex_note 1] [(ex_event, [])]; mkPops [] []].

Lemma ex_event_only : Forall (fun p : EngineEvent * list ServerNote => event_typed p.1) [(ex_event, [])].
Proof. apply Forall_singleton. computed. Qed.

Lemma outbound_thread_returns_witness :
  exists R o desk, outbound_ example_clock_reads ex_tsc_clock ex_send ex_sendable 512 ex_rounds Outbound_new = Some (R, o) /\
    server_reachable 512 example_clock_reads example_clock_reads ex_send ex_sendable ex_band (mkServer in3 2 (mkThread desk R o)) /\
    forall (i : nat) c, outbound_connections_ o !! i = Some c -> oc_open c = false.
Proof.
  refine (outbound_thread_returns 9 512 _ _ example_clock_reads example_clock_reads ex_tsc_clock ex_send ex_sendable ex_tcp_send_le ex_band in3 ex_rounds in3_reach _ _ _).
  - lia.
  - reflexivity.
  - exists []. vm_compute. reflexivity.
  - apply Forall_cons_2; [exact ex_event_only|]. apply Forall_cons_2; apply Forall_nil_2.
  - reflexivity.
Defined.

Definition ex_bursts : list (option (list tcp_event)) :=
  [None; Some [tcp_accepted example_conn; tcp_data example_conn login_bytes; tcp_data example_conn order_bytes]].

Notation run0 := (ServerRun_new example_clock_reads example_clock_reads ex_band).

Lemma ex_bursts_delivered : bursts_delivered example_clock_reads ex_bursts (run_in run0).
Proof.
  split; [exact I|]. intros s1 E1. vm_compute in E1. injection E1 as <-. split; [|done].
  split; [exists InboundConnection_new; split; reflexivity|]. split; [split; [computed|by intros ?%elem_of_nil]|].
  intros s2 E2. vm_compute in E2. injection E2 as <-.
  split; [eexists; split; [vm_compute; reflexivity|exact login_bytes_u8]|]. split; [exact I|].
  intros s3 E3. vm_compute in E3. injection E3 as <-.
  split; [eexists; split; [vm_compute; reflexivity|exact order_bytes_u8]|]. by split.
Qed.

Definition ex_after : Z * Inbound :=
  default (0, Inbound_new ex_band) (inbound_round example_clock_reads ex_tsc_clock ex_bursts (run_in_scan run0) (run_in run0)).
Definition ex_server_run : ServerRun := mkRun ex_after.2 ex_after.1 0 ∅ (run_out run0) (run_out_scan run0).

Lemma ex_server_run_reachable : run_reachable 512 example_clock_reads example_clock_reads ex_tsc_clock ex_send ex_sendable ex_band ex_server_run.
Proof. eapply run_next; [apply run_start|]. eapply (rs_inbound _ _ _ _ _ _ ex_bursts); [exact ex_bursts_delivered|]. vm_compute. reflexivity. Qed.

Lemma threads_implement_server_witness :
  is_Some (outbound_round example_clock_reads ex_tsc_clock ex_send ex_sendable 512 (mkPops [ex_note 0; ex_note 1] [(ex_event, [])])
    (run_responder ex_server_run) (run_out_scan ex_server_run) (run_out ex_server_run)).
Proof.
  destruct (threads_implement_server 9 512 ltac:(lia) eq_refl example_clock_reads example_clock_reads ex_tsc_clock ex_send ex_sendable ex_tcp_send_le ex_band ex_server_run ex_server_run_reachable)
    as (_ & _ & Hout & _).
  apply Hout. split; [exists []; vm_compute; reflexivity|]. split; [exact ex_event_only|]. by apply (room_for_new 3).
Defined.
End Rounds.
