(* ===== verification/Exchange.v ===== *)
(** * Exchange: the engine and the server's two threads together
    ([src/exchange/app/exchange.cpp], [exchange.hpp])

    [Exchange] owns the rings and the threads; this file puts [Inbound], [Engine] and
    [Outbound] on them as they are, byte streams, order book in memory and session logs
    included, and lets every thread run when it likes.  An event of the inbound thread
    is one step; what it pushes comes on the two rings afterwards, in the order of the
    pushes and a request not before the notes that were pushed before it, which allows
    every interleaving of the code's single pushes.  A push on a full ring fails and is
    tried again.  The outbound thread answers an event when, after the pop, it has found
    the ring of notes empty. *)

From S2P Require Import Prelude Types WireCodec Clock ItchProto OuchProto OuchCorrect Validation RingBuffer PriceLevelQueue Orderbook OrderbookSpec.
From S2P Require Import OrderbookRefine OrderbookCorrect BookInvariant Engine OrderEntry OuchTyped OuchResponder Gateway Pipeline.
From S2P Require Import SoupProto SessionLog Reassembly Inbound NoteProtocol InboundSteps NoteTyping InboundFlow Hearing.
From S2P Require Import Outbound OutboundStream OutboundTheorems OutboundLogs Server.

(** ** State *)

Record Exchange := mkExchange {
  xc_in : Inbound;                      (** the inbound thread, with all it has pushed *)
  xc_notes_on : nat;                    (** how many of its notes are on [notes_] *)
  xc_engine : EngineState;              (** [engine_] and [in_ring_] *)
  xc_events_read : nat;                 (** events popped off [out_ring_] *)
  xc_notes_read : nat;                  (** notes popped off [notes_] *)
  xc_event : option EngineEvent;        (** popped and not yet answered *)
  xc_ready : bool;                      (** the notes were drained after that pop *)
  xc_out : OutThread;                   (** the outbound thread *)
  (** history: the responses handed to [send_ouch_], each with the event it answers
      ([None] for a reject of the gateway), and the events that had no response *)
  xc_sent : list (option EngineEvent * OuchResponse);
  xc_unanswered : list EngineEvent;
}.
#[export] Instance Exchange_eta : Eta Exchange := fun x =>
  mkExchange (xc_in x) (xc_notes_on x) (xc_engine x) (xc_events_read x) (xc_notes_read x) (xc_event x) (xc_ready x) (xc_out x)
    (xc_sent x) (xc_unanswered x).

(** ** Steps *)

Inductive xc_action :=
| x_tcp (ev : tcp_event) (stamps : InboundStamps)     (** the inbound thread *)
| x_timeouts (clock : TscClock) (now : Z)
| x_retained
| x_in_clock
| x_note_on                                           (** its pushes *)
| x_submit
| x_match                                             (** the matching thread *)
| x_note (ts : Z)                                     (** the outbound thread *)
| x_pop
| x_drained
| x_answer (t5 ts : Z)
| x_out (a : out_action)
| x_out_clock.

Section Exchange.
Context `{cfg : BookConfig}.
Context (cap : Z) (in_rdtsc en_rdtsc rdtsc : nat -> Z).
Context (tcp_send : nat -> ConnId -> list Z -> nat) (tcp_sendable : nat -> ConnId -> bool).

(** [Exchange::Exchange] *)
Definition Exchange_new (md_ring : RingBuffer ITCH) (in_ring : RingBuffer EngineRequest) (clock : TscClock) : Exchange :=
  mkExchange (Inbound_new (mkPriceBand MIN_PRICE MAX_PRICE)) 0 (Engine_new md_ring in_ring clock) 0 0 None false OutThread_new [] [].

Notation act := (out_act cap rdtsc tcp_send tcp_sendable).

(** The next note comes on the ring. *)
Definition push_note_on (x : Exchange) : option Exchange :=
  if (xc_notes_on x <? length (notes_pushed (xc_in x)))%nat then Some (x <| xc_notes_on := S (xc_notes_on x) |>) else None.

(** The next request is tried on its ring, when the notes pushed before it are on theirs. *)
Definition push_request_on (x : Exchange) : option Exchange :=
  let n := length (en_submitted (xc_engine x)) in
  match requests_pushed (xc_in x) !! n, request_marks (xc_in x) !! n with
  | Some request, Some mark =>
      if (mark <=? xc_notes_on x)%nat then (fun '(_, e) => x <| xc_engine := e |>) <$> submit request (xc_engine x) else None
  | _, _ => None
  end.

(** [drain_notes]: the next note, when there is one. *)
Definition read_note (ts : Z) (x : Exchange) : option Exchange :=
  if xc_ready x || negb (xc_notes_read x <? xc_notes_on x)%nat then None else
  match notes_pushed (xc_in x) !! xc_notes_read x with
  | None => None
  | Some note =>
      (fun t => x <| xc_out := t |> <| xc_notes_read := S (xc_notes_read x) |>
        <| xc_sent := xc_sent x ++ (pair None <$> option_list (note_response note ts (th_responder (xc_out x)))) |>)
        <$> act (act_note note ts) (xc_out x)
  end.

Definition read_event (x : Exchange) : option Exchange :=
  match xc_event x, out_ring_ (en_book (xc_engine x)) !! xc_events_read x with
  | None, Some ev => Some (x <| xc_event := Some ev |> <| xc_events_read := S (xc_events_read x) |>)
  | _, _ => None
  end.

(** [drain_notes] returns after the pop of an event: it has found the ring empty. *)
Definition notes_drained (x : Exchange) : option Exchange :=
  match xc_event x with
  | Some _ => if (xc_notes_on x <=? xc_notes_read x)%nat then Some (x <| xc_ready := true |>) else None
  | None => None
  end.

Definition answer (t5 ts : Z) (x : Exchange) : option Exchange :=
  match xc_event x, xc_ready x with
  | Some ev, true =>
      (fun t => match (on_event ev ts (th_responder (xc_out x))).1 with
        | Some r => x <| xc_out := t |> <| xc_event := @None EngineEvent |> <| xc_ready := false |> <| xc_sent := xc_sent x ++ [(Some ev, r)] |>
        | None => x <| xc_out := t |> <| xc_event := @None EngineEvent |> <| xc_ready := false |> <| xc_unanswered := xc_unanswered x ++ [ev] |>
        end) <$> act (act_event ev t5 ts) (xc_out x)
  | _, _ => None
  end.

Definition xc_act (a : xc_action) (x : Exchange) : option Exchange :=
  match a with
  | x_tcp ev stamps => (fun '(_, s) => x <| xc_in := s |>) <$> on_tcp_event_ in_rdtsc ev stamps (xc_in x)
  | x_timeouts clock now => (fun '(_, s) => x <| xc_in := s |>) <$> check_timeouts_ clock now (xc_in x)
  | x_retained => Some (x <| xc_in := (xc_in x) <| retained_from_ := out_retained_from_ (th_out (xc_out x)) |> |>)
  | x_in_clock => Some (x <| xc_in := in_tick (xc_in x) |>)
  | x_note_on => push_note_on x
  | x_submit => push_request_on x
  | x_match => (fun '(_, e) => x <| xc_engine := e |>) <$> handleMatching_step en_rdtsc (xc_engine x)
  | x_note ts => read_note ts x
  | x_pop => read_event x
  | x_drained => notes_drained x
  | x_answer t5 ts => answer t5 ts x
  | x_out a =>
      match a with
      | act_note _ _ | act_event _ _ _ => None
      | _ => (fun t => x <| xc_out := t |>) <$> act a (xc_out x)
      end
  | x_out_clock => Some (x <| xc_out := out_tick (xc_out x) |>)
  end.

(** What is asked of the outside: TCP delivers bytes and fresh connections, times are
    64-bit, and no counter of 64 bits is used up. *)
Definition xc_ok (a : xc_action) (x x' : Exchange) : Prop :=
  match a with
  | x_tcp ev _ => tcp_delivers (xc_in x) ev /\ tcp_fresh (xc_in x) ev /\ few_notes (xc_in x')
  | x_timeouts _ _ => few_notes (xc_in x')
  | x_note ts | x_answer _ ts => is_u64 ts /\ room (th_out (xc_out x))
  | _ => True
  end.

Context (md_ring : RingBuffer ITCH) (in_ring : RingBuffer EngineRequest) (clock : TscClock).

Inductive exchange_reachable : Exchange -> Prop :=
| xc_start : exchange_reachable (Exchange_new md_ring in_ring clock)
| xc_next a x x' : exchange_reachable x -> xc_act a x = Some x' -> xc_ok a x x' -> exchange_reachable x'.

(** An observer of the wire follows the exchange: what he hears at one of its steps. *)
Definition listen (a : xc_action) (x' : Exchange) (lines : list Line) : list Line * list (Z * OuchInboundFrame) :=
  match a with
  | x_tcp ev _ => hear_event (notes_pushed (xc_in x')) ev lines
  | x_timeouts _ _ => (hang_up (notes_pushed (xc_in x')) <$> lines, [])
  | _ => (lines, [])
  end.

(** A run of the exchange, with what he has heard: the state of the lines and the messages. *)
Inductive exchange_heard : list Line -> list (Z * OuchInboundFrame) -> Exchange -> Prop :=
| heard_start : exchange_heard (replicate kMaxConnections Line_new) [] (Exchange_new md_ring in_ring clock)
| heard_next lines messages a x x' :
    exchange_heard lines messages x -> xc_act a x = Some x' -> xc_ok a x x' ->
    exchange_heard (listen a x' lines).1 (messages ++ (listen a x' lines).2) x'.

(** He can follow every run. *)
Lemma reachable_heard x : exchange_reachable x -> exists lines messages, exchange_heard lines messages x.
Proof. induction 1 as [|a x x' _ (lines & messages & IH) E Hok]; eexists _, _; [constructor|by eapply heard_next]. Qed.

(** ** Invariant *)

Context (k N K : Z) (Hk : 9 <= k) (Hcap : cap = 2 ^ k).
Hypothesis tcp_send_le : forall n conn bytes, (tcp_send n conn bytes <= length bytes)%nat.
Context (Hmd : ring_rep N md_ring []) (Hin : ring_rep K in_ring []).

Notation executed x := (en_executed (xc_engine x)).
Notation submitted x := (en_submitted (xc_engine x)).
Notation summary x := (spec_run en_rdtsc clock (executed x)).
Notation sreach := (server_reachable cap in_rdtsc rdtsc tcp_send tcp_sendable (mkPriceBand MIN_PRICE MAX_PRICE)).
Notation ereach := (engine_reachable en_rdtsc md_ring in_ring clock).

(** The pipeline but for the inbound thread, whose part [with_inbound] fills in. *)
Definition other_threads (x : Exchange) : Pipeline :=
  mkPipeline (OrderEntry_new (mkPriceBand MIN_PRICE MAX_PRICE)) None [] [] (sm_book (summary x)) (drop (xc_events_read x) (sm_events (summary x)))
    (xc_event x) (xc_ready x) (th_responder (xc_out x)) (xc_sent x).*2 (xc_unanswered x).

Record xc_inv (x : Exchange) : Prop := {
  xi_server : sreach (mkServer (xc_in x) (xc_notes_read x) (xc_out x));
  xi_engine : ereach (xc_engine x);
  xi_few : few_notes (xc_in x);
  xi_flows : flows (other_threads x) (xc_notes_read x) (length (executed x)) (xc_in x);
  xi_submitted : submitted x `prefix_of` requests_pushed (xc_in x);
  xi_marks (i m : nat) : (i < length (submitted x))%nat -> request_marks (xc_in x) !! i = Some m -> (m <= xc_notes_on x)%nat;
  xi_read : (xc_notes_read x <= xc_notes_on x)%nat;
  xi_on : (xc_notes_on x <= length (notes_pushed (xc_in x)))%nat;
  xi_events : (xc_events_read x <= length (sm_events (summary x)))%nat;
  xi_sent : omap fst (xc_sent x) ++ option_list (xc_event x) = take (xc_events_read x) (sm_events (summary x));
  xi_owner : Forall (fun '(ev, r) => from_option (fun ev => resp_client_id r = ev_client_id ev) True ev) (xc_sent x);
  xi_carried : carried (xc_out x) (xc_sent x).*2;
}.

Lemma Exchange_new_inv : xc_inv (Exchange_new md_ring in_ring clock).
Proof.
  split.
  - apply sv_start.
  - apply rtc_refl.
  - done.
  - split; [split; [done|done|constructor]|done|done|]. apply Pipeline_new_inv.
  - done.
  - intros i m Hi. cbn in Hi. lia.
  - done.
  - done.
  - done.
  - done.
  - constructor.
  - apply OutThread_new_carried.
Qed.

(** *** The inbound thread *)

Lemma inbound_inv x s' :
  xc_inv x -> sreach (mkServer s' (xc_notes_read x) (xc_out x)) -> few_notes s' ->
  keeps_flow (other_threads x) (xc_notes_read x) (length (executed x)) (xc_in x) s' -> xc_inv (x <| xc_in := s' |>).
Proof.
  intros [Hs He Hfew Hf Hsub Hm Hr Ho Hev Hsent Hown Hc] Hs' Hfew' [[Hx1 Hx2 Hx3] Hfl].
  split; cbn [xc_in xc_notes_on xc_engine xc_events_read xc_notes_read xc_event xc_ready xc_out xc_sent]; try done.
  - exact (Hfl Hfew' Hf).
  - by etransitivity.
  - intros i m Hi Em. apply (Hm i m Hi). destruct Hx3 as [more Hx3]. rewrite Hx3, lookup_app_l in Em; [done|].
    rewrite <- (Forall2_length _ _ _ (nb_marks _ (fl_numbered _ _ _ _ Hf))). apply prefix_length in Hsub. lia.
  - apply prefix_length in Hx1. lia.
Qed.

Lemma tcp_inv x x' ev stamps : xc_inv x -> xc_act (x_tcp ev stamps) x = Some x' -> xc_ok (x_tcp ev stamps) x x' -> xc_inv x'.
Proof.
  intros H E (Hd & Hf & Hfew). cbn [xc_act] in E. apply fmap_Some in E as ([[] s'] & E & ->). pose proof (server_reachable_inv k cap Hk Hcap _ _ _ _ tcp_send_le _ _ (xi_server _ H)) as Hi.
  apply inbound_inv; [done| |done|].
  - eapply sv_next; [apply H|]. by eapply sv_event.
  - exact (on_tcp_event_moves in_rdtsc _ _ _ ev stamps (si_in _ _ Hi) (si_desk _ _ Hi) Hd E).
Qed.

Lemma timeouts_inv x x' clk now : xc_inv x -> xc_act (x_timeouts clk now) x = Some x' -> xc_ok (x_timeouts clk now) x x' -> xc_inv x'.
Proof.
  intros H E Hfew. cbn [xc_act] in E. apply fmap_Some in E as ([[] s'] & E & ->). apply inbound_inv; [done| |done|].
  - eapply sv_next; [apply H|]. by eapply sv_timeouts.
  - exact (check_timeouts_moves _ (QuietMoves0 := im_quiet (rdtsc := in_rdtsc)) clk now _ _ E).
Qed.

(** *** The pushes *)

Lemma push_note_on_inv x x' : xc_inv x -> push_note_on x = Some x' -> xc_inv x'.
Proof.
  intros H E. unfold push_note_on in E. destruct (Nat.ltb_spec (xc_notes_on x) (length (notes_pushed (xc_in x)))); [|done]. injection E as <-.
  destruct H as [? ? ? ? ? Hm Hr Ho ? ? ? ?]. split; cbn [xc_in xc_notes_on xc_engine xc_notes_read]; try done; [|lia].
  intros i m Hi Em. pose proof (Hm i m Hi Em). lia.
Qed.

Lemma submit_result rq e ok e' :
  submit rq e = Some (ok, e') ->
  en_executed e' = en_executed e /\ en_submitted e' = en_submitted e ++ (if ok then [rq] else []).
Proof.
  intros (b & e1 & E1 & E)%bind_inv. unfold on_ring in E1. destruct (push rq (en_in_ring e)) as [[b0 r]|]; [|done]. injection E1 as -> <-.
  destruct b; injection E as <- <-; cbn [en_executed en_submitted]; [done|by rewrite app_nil_r].
Qed.

Lemma executed_prefix x : xc_inv x -> executed x `prefix_of` submitted x.
Proof.
  intros H. destruct (engine_reachable_inv en_rdtsc N K _ _ _ _ Hmd Hin (xi_engine _ H)) as [_ (l & _ & ->) _ _]. by eexists.
Qed.

Lemma push_request_on_inv x x' : xc_inv x -> push_request_on x = Some x' -> xc_inv x'.
Proof.
  intros H E. unfold push_request_on in E. cbv zeta in E. set (n := length (submitted x)) in *.
  destruct (requests_pushed (xc_in x) !! n) as [rq|] eqn:Erq; [|done]. destruct (request_marks (xc_in x) !! n) as [mark|] eqn:Em; [|done].
  destruct (Nat.leb_spec mark (xc_notes_on x)) as [Hmark|]; [|done]. apply fmap_Some in E as ([ok e'] & E & ->).
  destruct (submit_result _ _ _ _ E) as [Ex Es]. pose proof (executed_prefix x H) as Hle%prefix_length.
  assert (request_ok rq) as Hok.
  { apply (proj1 (Forall_forall _ _) (pi_requests _ (fl_pipeline _ _ _ _ (xi_flows _ H)))). unfold waiting_requests.
    apply elem_of_app. left. cbn [with_inbound with_pushes pl_inbound]. apply list_elem_of_lookup. exists (n - length (executed x))%nat.
    rewrite lookup_drop. by replace (length (executed x) + (n - length (executed x)))%nat with n by lia. }
  destruct H as [Hs He ? ? Hsub Hm ? ? ? ? ? ?].
  split; cbn [xc_in xc_notes_on xc_engine xc_events_read xc_notes_read xc_event xc_ready xc_out xc_sent]; unfold other_threads; cbn [xc_in xc_notes_on xc_engine xc_events_read xc_notes_read xc_event xc_ready xc_out xc_sent]; rewrite ?Ex; try done.
  - eapply rtc_r; [exact He|]. by eapply es_submit.
  - rewrite Es. destruct ok; [|by rewrite app_nil_r]. destruct Hsub as [more Hsub]. rewrite Hsub, lookup_app_r, Nat.sub_diag in Erq by done.
    destruct more as [|rq' more]; [done|]. injection Erq as ->. exists more. by rewrite Hsub, <- app_assoc.
  - intros i m Hi Ei. rewrite Es, length_app in Hi. destruct (decide (i < n)%nat); [by apply (Hm i)|].
    replace i with n in Ei by (destruct ok; cbn in Hi; lia). congruence.
Qed.

(** *** The matching thread *)

Lemma match_inv x x' : xc_inv x -> xc_act x_match x = Some x' -> xc_inv x'.
Proof.
  intros H E. cbn [xc_act] in E. apply fmap_Some in E as ([[] e'] & E & ->). pose proof (engine_reachable_inv en_rdtsc N K _ _ _ _ Hmd Hin (xi_engine _ H)) as Hi.
  destruct (handleMatching_step_effect en_rdtsc N K clock _ _ Hi E) as [Hs Hx].
  assert (ereach e') as He by (eapply rtc_r; [apply H|by eapply es_match]). destruct Hx as [Hx|(req & Hx & Hreq)].
  { destruct H. split; cbn [xc_in xc_notes_on xc_engine xc_events_read xc_notes_read xc_event xc_ready xc_out xc_sent]; unfold other_threads;
      cbn [xc_in xc_notes_on xc_engine xc_events_read xc_notes_read xc_event xc_ready xc_out xc_sent]; rewrite ?Hx, ?Hs; done. }
  pose proof (xi_flows _ H) as [Hnum Hread _ Hp]. pose proof (xi_submitted _ H) as Hsub. pose proof (prefix_lookup_Some _ _ _ _ Hreq Hsub) as Hreq'.
  pose proof (lookup_lt_Some _ _ _ Hreq') as Hlt. pose proof (xi_events _ H) as Hev.
  set (ctx := request_context en_rdtsc clock (sm_tsc (summary x)) req).
  assert (pl_inbound (with_inbound (other_threads x) (xc_notes_read x) (length (executed x)) (xc_in x)) = ctx_req ctx :: drop (S (length (executed x))) (requests_pushed (xc_in x))) as Hin'
    by (by apply drop_S).
  pose proof (step_execute_inv en_rdtsc ctx (S (sm_tsc (summary x))) _ _ Hp Hin') as Hp'. unfold engine_execute in Hp'. rewrite Hin' in Hp'.
  destruct H as [? _ ? _ _ ? ? ? _ Hsent ? ?].
  split; cbn [xc_in xc_notes_on xc_engine xc_events_read xc_notes_read xc_event xc_ready xc_out xc_sent]; rewrite ?Hs; try done.
  - unfold other_threads. cbn [xc_in xc_notes_on xc_engine xc_events_read xc_notes_read xc_event xc_ready xc_out xc_sent xc_unanswered]. rewrite Hx, length_app, Nat.add_1_r, spec_run_snoc.
    split; [done|done|lia|]. unfold spec_execute, with_inbound, with_pushes in *. cbn in Hp'. cbn. by rewrite drop_app_le.
  - rewrite Hx, spec_run_snoc. unfold spec_execute. cbn [sm_events]. rewrite length_app. lia.
  - rewrite Hx, spec_run_snoc. unfold spec_execute. cbn [sm_events]. by rewrite take_app_le.
Qed.

(** *** The outbound thread *)

Lemma thread_inv_of x : xc_inv x -> thread_inv cap (xc_out x).
Proof. intros H. exact (si_out _ _ (server_reachable_inv k cap Hk Hcap _ _ _ _ tcp_send_le _ _ (xi_server _ H))). Qed.

Lemma note_responder note ts t t' :
  act (act_note note ts) t = Some t' ->
  th_responder t' = match note with GATEWAY _ g => (on_note g ts (th_responder t)).2 | _ => th_responder t end.
Proof.
  intros E. cbn [out_act] in E. apply fmap_Some in E as ([R s'] & E & ->). cbn [th_responder].
  destruct note as [id g|id conn sequence|reason conn|id conn]; cbn [on_note_] in E.
  - destruct (on_note g ts (th_responder t)) as [r R1]. apply bind_inv in E as (u & s1 & _ & E). by injection E as <- _.
  - apply bind_inv in E as (u & s1 & _ & E). by injection E as <- _.
  - apply bind_inv in E as (u & s1 & _ & E). apply bind_inv in E as (u2 & s2 & _ & E). by injection E as <- _.
  - apply bind_inv in E as (u & s1 & _ & E). by injection E as <- _.
Qed.

Lemma event_responder ev t5 ts t t' :
  act (act_event ev t5 ts) t = Some t' -> th_responder t' = (on_event ev ts (th_responder t)).2.
Proof.
  intros E. cbn [out_act] in E. apply fmap_Some in E as ([R s'] & E & ->). unfold send_event in E.
  destruct (on_event ev ts (th_responder t)) as [r R1]. apply bind_inv in E as (u & s1 & _ & E). by injection E as <- _.
Qed.

Lemma read_note_inv x x' ts : xc_inv x -> read_note ts x = Some x' -> xc_ok (x_note ts) x x' -> xc_inv x'.
Proof.
  intros H E [Hts Hroom]. unfold read_note in E. destruct (xc_ready x) eqn:Er; [done|]. cbn [orb] in E.
  destruct (Nat.ltb_spec (xc_notes_read x) (xc_notes_on x)) as [Hlt|]; [|done]. cbn [negb] in E.
  destruct (notes_pushed (xc_in x) !! xc_notes_read x) as [note|] eqn:En; [|done]. apply fmap_Some in E as (t & E & ->).
  pose proof (server_reachable_inv k cap Hk Hcap _ _ _ _ tcp_send_le _ _ (xi_server _ H)) as Hi. destruct (next_note_ok _ _ _ _ _ Hi En) as [Hok Hg].
  pose proof (note_responder _ _ _ _ E) as HR. pose proof (carried_note _ _ _ _ _ _ _ _ _ (thread_inv_of x H) Hok Hg Hts E (xi_carried _ H)) as Hc.
  assert ((xc_sent x ++ (pair None <$> option_list (note_response note ts (th_responder (xc_out x))))).*2
    = (xc_sent x).*2 ++ option_list (note_response note ts (th_responder (xc_out x)))) as Hsnd by (rewrite fmap_app; by destruct (note_response _ _ _)).
  pose proof (lookup_lt_Some _ _ _ En) as Hlen. destruct H as [Hs ? ? [Hnum Hread Hx Hp] ? ? ? ? ? Hsent Hown _].
  split; cbn [xc_in xc_notes_on xc_engine xc_events_read xc_notes_read xc_event xc_ready xc_out xc_sent]; try done.
  - eapply sv_next; [exact Hs|]. by eapply sv_note.
  - split; [done|lia|done|]. unfold other_threads. cbn [xc_in xc_notes_on xc_engine xc_events_read xc_notes_read xc_event xc_ready xc_out xc_sent xc_unanswered].
    rewrite Hsnd, HR. unfold with_inbound, other_threads in Hp. rewrite (drop_S _ _ _ En), Er in Hp. unfold with_inbound.
    destruct note as [id g|id conn sequence|reason conn|id conn]; [|cbn [note_response option_list]; rewrite app_nil_r; exact Hp..].
    apply (step_note_inv ts) in Hp; [|done]. unfold drain_note in Hp. cbn [pl_ready pl_notes with_pushes] in Hp.
    cbn [note_response]. change (gateway_notes (GATEWAY id g :: ?l)) with (g :: gateway_notes l) in Hp.
    cbn in Hp. destruct (on_note g ts (th_responder (xc_out x))) as [r R]. exact Hp.
  - rewrite omap_app. replace (omap fst (pair None <$> _)) with (@nil EngineEvent) by (by destruct (note_response _ _ _)). by rewrite app_nil_r.
  - apply Forall_app. split; [done|]. destruct (note_response _ _ _); [by apply Forall_singleton|constructor].
  - by rewrite Hsnd.
Qed.

Lemma read_event_inv x x' : xc_inv x -> read_event x = Some x' -> xc_inv x'.
Proof.
  intros H E. unfold read_event in E. destruct (xc_event x) eqn:Ee; [done|].
  pose proof (engine_reachable_inv en_rdtsc N K _ _ _ _ Hmd Hin (xi_engine _ H)) as Hi. rewrite (eb_out _ _ _ _ (ei_book _ _ _ _ _ Hi)) in E.
  destruct (sm_events (summary x) !! xc_events_read x) as [ev|] eqn:En; [|done]. injection E as <-. pose proof (lookup_lt_Some _ _ _ En) as Hlt.
  destruct H as [? ? ? [Hnum Hread Hx Hp] ? ? ? ? ? Hsent ? ?].
  split; cbn [xc_in xc_notes_on xc_engine xc_events_read xc_notes_read xc_event xc_ready xc_out xc_sent]; try done.
  - split; [done..|]. apply step_pop_inv in Hp. unfold pop_event, with_inbound, with_pushes, other_threads in *. cbn [pl_event pl_outbound] in Hp.
    rewrite Ee, (drop_S _ _ _ En) in Hp. exact Hp.
  - rewrite (take_S_r _ _ _ En), <- Hsent, Ee. by rewrite <- app_assoc.
Qed.

Lemma act_inv x x' a : xc_inv x -> xc_act (x_out a) x = Some x' -> xc_inv x'.
Proof.
  intros H E. cbn [xc_act] in E. assert (match a with act_note _ _ | act_event _ _ _ => False | _ => True end) as Ha by (by destruct a).
  assert (exists t, act a (xc_out x) = Some t /\ x' = x <| xc_out := t |>) as (t & Et & ->) by (destruct a; [done|done|..]; apply fmap_Some in E as (t & ? & ->); by exists t).
  destruct (carried_act _ _ _ _ _ _ _ _ Ha Et (xi_carried _ H)) as [Hc HR]. destruct H as [Hs ? ? Hf ? ? ? ? ? ? ? _].
  split; cbn [xc_in xc_notes_on xc_engine xc_events_read xc_notes_read xc_event xc_ready xc_out xc_sent]; try done.
  - eapply sv_next; [exact Hs|]. eapply sv_act; [|exact Et]. by destruct a.
  - unfold other_threads in *. cbn [xc_in xc_notes_on xc_engine xc_events_read xc_notes_read xc_event xc_ready xc_out xc_sent xc_unanswered]. by rewrite HR.
Qed.

Lemma answer_inv x x' t5 ts : xc_inv x -> answer t5 ts x = Some x' -> xc_ok (x_answer t5 ts) x x' -> xc_inv x'.
Proof.
  intros H E [Hts Hroom]. unfold answer in E. destruct (xc_event x) as [ev|] eqn:Ee; [|done]. destruct (xc_ready x) eqn:Er; [|done].
  apply fmap_Some in E as (t & E & ->). pose proof (xi_flows _ H) as [Hnum Hread Hx Hp].
  assert (event_typed ev) as Hty.
  { pose proof (pi_events _ Hp) as Hall. unfold waiting_events in Hall. cbn [with_inbound with_pushes other_threads pl_event] in Hall. rewrite Ee in Hall. by apply Forall_inv in Hall as [? _]. }
  pose proof (carried_event _ _ _ _ _ _ _ _ _ _ (thread_inv_of x H) Hty Hts E (xi_carried _ H)) as Hc. pose proof (event_responder _ _ _ _ _ E) as HR.
  assert (exists f, (on_event ev ts (th_responder (xc_out x))).1 = Some (mkResponse (ev_client_id ev) f)) as [f Hr].
  { destruct (pi_follow _ Hp) as (R & Hf & _). unfold in_flight in Hf. cbn [with_inbound with_pushes other_threads pl_ready pl_event pl_resp] in Hf. rewrite Er, Ee in Hf.
    destruct Hf as (ev' & R1 & [= <-] & Ho & _). destruct (Ho ts) as [f Hf]. exists f. by rewrite Hf. }
  rewrite Hr in Hc |- *. cbn [option_list] in Hc. destruct H as [Hs ? ? _ ? ? ? ? ? Hsent Hown _]. rewrite Ee in Hsent.
  split; cbn [xc_in xc_notes_on xc_engine xc_events_read xc_notes_read xc_event xc_ready xc_out xc_sent]; try done.
  - eapply sv_next; [exact Hs|]. eapply (sv_act _ _ _ _ _ (act_event ev t5 ts)); [by split|exact E].
  - split; [done..|]. destruct (on_event ev ts (th_responder (xc_out x))) as [r R] eqn:Eo. cbn [fst snd] in HR, Hr. subst r.
    pose proof (answered_inv ts _ ev _ R Hts Hp Ee Er Eo) as Hp'.
    unfold other_threads. cbn [xc_in xc_notes_on xc_engine xc_events_read xc_notes_read xc_event xc_ready xc_out xc_sent xc_unanswered]. rewrite HR, fmap_app. exact Hp'.
  - rewrite omap_app, <- Hsent. cbn. by rewrite app_nil_r.
  - apply Forall_app. split; [done|]. by apply Forall_singleton.
  - by rewrite fmap_app.
Qed.

(** The events of a run name orders its requests brought. *)
Lemma spec_run_ids reqs n :
  Forall request_ok reqs -> 0 <= n -> Forall (fun rq => Forall (fun id => id <= n) (own_id rq)) reqs ->
  (forall id, id ∈ sb_ids (sm_book (spec_run en_rdtsc clock reqs)) -> id <= n) /\
  Forall (fun ev => ev_order_id ev <= n /\ ev_orig_order_id ev <= n) (sm_events (spec_run en_rdtsc clock reqs)).
Proof.
  intros Hok Hn. induction reqs as [|req reqs IH] using rev_ind; intros Hids; [split; [by intros id ?%elem_of_nil|constructor]|].
  apply Forall_app in Hok as [Hok Hreq%Forall_inv]. apply Forall_app in Hids as [Hids Hid%Forall_inv]. destruct (IH Hok Hids) as [Hb He]. rewrite Forall_forall in Hid.
  rewrite spec_run_snoc. unfold spec_execute. cbn [sm_book sm_events]. set (ctx := request_context _ _ _ _).
  split; [intros id [?|?]%spec_process_ids; auto|]. apply Forall_app. split; [done|].
  eapply Forall_impl; [apply stamp_events_ok, (process_events_ok ctx); [by apply spec_run_wf|done]|].
  intros ev (_ & Ho & Horig). split; [destruct Ho; auto|]. destruct Horig as [->|?]; auto.
Qed.

(** What the engine has executed names only orders whose notes are on the ring. *)
Lemma executed_ids x :
  xc_inv x -> Forall (fun rq => Forall (fun id => id <= Z.of_nat (orders_in (take (xc_notes_on x) (notes_pushed (xc_in x))))) (own_id rq)) (executed x).
Proof.
  intros H. apply Forall_forall. intros rq [i Ei]%list_elem_of_lookup. pose proof (prefix_lookup_Some _ _ _ _ Ei (executed_prefix x H)) as Es.
  pose proof (prefix_lookup_Some _ _ _ _ Es (xi_submitted _ H)) as Er.
  destruct (Forall2_lookup_l _ _ _ _ _ (nb_marks _ (fl_numbered _ _ _ _ (xi_flows _ H))) Er) as (m & Em & _ & Hids).
  pose proof (xi_marks _ H i m (lookup_lt_Some _ _ _ Es) Em) as Hm. eapply Forall_impl; [exact Hids|]. intros id Hid. cbv beta in Hid.
  pose proof (orders_in_take (notes_pushed (xc_in x)) _ _ Hm). lia.
Qed.

Lemma drained_inv x x' : xc_inv x -> notes_drained x = Some x' -> xc_inv x'.
Proof.
  intros H E. unfold notes_drained in E. destruct (xc_event x) as [ev|] eqn:Ee; [|done].
  destruct (Nat.leb_spec (xc_notes_on x) (xc_notes_read x)) as [Hle|]; [|done]. injection E as <-.
  pose proof (engine_reachable_inv en_rdtsc N K _ _ _ _ Hmd Hin (xi_engine _ H)) as Hi.
  assert (Forall request_ok (executed x)) as Hok.
  { destruct (executed_prefix x H) as [more Es]. pose proof (ei_ok _ _ _ _ _ Hi) as Hok. rewrite Es in Hok. by apply Forall_app in Hok as [? _]. }
  destruct (spec_run_ids (executed x) _ Hok (Nat2Z.is_nonneg _) (executed_ids x H)) as [_ Hids].
  assert (ev ∈ sm_events (summary x)) as Hev.
  { apply (subseteq_take (xc_events_read x)). rewrite <- (xi_sent _ H), Ee. apply elem_of_app. right. by left. }
  destruct (proj1 (Forall_forall _ _) Hids ev Hev) as [Hid Horig]. pose proof (xi_flows _ H) as [Hnum Hread Hx Hp].
  apply (drain_ends_inv _ ev) in Hp; [|done|].
  - destruct H. split; try done; cbn [xc_event xc_sent xc_events_read xc_engine]; [|by rewrite <- Ee].
    split; [done..|]. unfold other_threads, with_inbound, with_pushes in *. cbn in Hp. cbn. by rewrite Ee in Hp.
  - cbn [with_inbound with_pushes pl_notes]. apply Forall_forall. intros g (note & Hn & Hg)%list_elem_of_omap Hkind.
    destruct note as [id g'| | |]; try done. injection Hg as ->. apply list_elem_of_lookup in Hn as [j Ej]. rewrite lookup_drop in Ej.
    rewrite (nb_notes _ Hnum _ _ _ Ej Hkind).
    pose proof (orders_in_take (notes_pushed (xc_in x)) (xc_notes_on x) (xc_notes_read x + j)). lia.
Qed.

Lemma xc_act_inv a x x' : xc_inv x -> xc_act a x = Some x' -> xc_ok a x x' -> xc_inv x'.
Proof.
  intros H E Hok. destruct a as [ev stamps|clk now| | | | | |ts| | |t5 ts|a|].
  - exact (tcp_inv _ _ _ _ H E Hok).
  - exact (timeouts_inv _ _ _ _ H E Hok).
  - injection E as <-. apply inbound_inv; [done| |apply H|by apply same_pushes_flow]. eapply sv_next; [apply H|apply sv_retained].
  - injection E as <-. apply inbound_inv; [done| |apply H|by apply same_pushes_flow]. eapply sv_next; [apply H|apply sv_in_clock].
  - exact (push_note_on_inv _ _ H E).
  - exact (push_request_on_inv _ _ H E).
  - exact (match_inv _ _ H E).
  - exact (read_note_inv _ _ _ H E Hok).
  - exact (read_event_inv _ _ H E).
  - exact (drained_inv _ _ H E).
  - exact (answer_inv _ _ _ _ H E Hok).
  - exact (act_inv _ _ _ H E).
  - injection E as <-. destruct H as [Hs ? ? ? ? ? ? ? ? ? ? Hc]. split; try done; cbn [xc_in xc_notes_read xc_out xc_sent].
    + eapply sv_next; [exact Hs|apply sv_out_clock].
    + destruct Hc as [Hh Hd Hcl]. by split.
Qed.

Lemma exchange_reachable_inv x : exchange_reachable x -> xc_inv x.
Proof. induction 1 as [|a x x' _ IH E Hok]; [apply Exchange_new_inv|by eapply xc_act_inv]. Qed.

(** *** The outbound thread can always go on *)

Lemma read_note_runs x ts :
  xc_inv x -> xc_ready x = false -> (xc_notes_read x < xc_notes_on x)%nat -> is_u64 ts -> room (th_out (xc_out x)) ->
  exists note t, act (act_note note ts) (xc_out x) = Some t /\
    read_note ts x = Some (x <| xc_out := t |> <| xc_notes_read := S (xc_notes_read x) |>
      <| xc_sent := xc_sent x ++ (pair None <$> option_list (note_response note ts (th_responder (xc_out x)))) |>).
Proof.
  intros H Er Hlt Hts Hroom. pose proof (xi_on _ H) as Hon. destruct (lookup_lt_is_Some_2 (notes_pushed (xc_in x)) (xc_notes_read x)) as [note En]; [lia|].
  pose proof (server_reachable_inv k cap Hk Hcap _ _ _ _ tcp_send_le _ _ (xi_server _ H)) as Hi. destruct (next_note_ok _ _ _ _ _ Hi En) as [Hok Hg].
  destruct (note_returns k cap Hk Hcap rdtsc tcp_send tcp_sendable tcp_send_le _ note ts (thread_inv_of x H) Hok Hg Hts Hroom) as (t & E & _).
  exists note, t. split; [done|]. unfold read_note. rewrite Er, (proj2 (Nat.ltb_lt _ _) Hlt). cbn [orb negb]. by rewrite En, E.
Qed.

Lemma answer_runs x ev t5 ts :
  xc_inv x -> xc_event x = Some ev -> xc_ready x = true -> is_u64 ts -> room (th_out (xc_out x)) ->
  exists x' r, answer t5 ts x = Some x' /\ xc_in x' = xc_in x /\ xc_engine x' = xc_engine x /\ xc_event x' = None /\
    xc_sent x' = xc_sent x ++ [(Some ev, r)].
Proof.
  intros H Ee Er Hts Hroom. pose proof (fl_pipeline _ _ _ _ (xi_flows _ H)) as Hp.
  assert (event_typed ev) as Hty.
  { pose proof (pi_events _ Hp) as Hall. unfold waiting_events in Hall. cbn [with_inbound with_pushes other_threads pl_event] in Hall. rewrite Ee in Hall. by apply Forall_inv in Hall as [? _]. }
  destruct (event_returns k cap Hk Hcap rdtsc tcp_send tcp_sendable _ ev t5 ts (thread_inv_of x H) Hty Hts Hroom) as (t & E & _).
  destruct (pi_follow _ Hp) as (R & Hf & _). unfold in_flight in Hf. cbn [with_inbound with_pushes other_threads pl_ready pl_event pl_resp] in Hf. rewrite Er, Ee in Hf.
  destruct Hf as (ev' & R1 & [= <-] & Ho & _). destruct (Ho ts) as [f Hf]. unfold answer. rewrite Ee, Er, E, Hf. by eexists _, _.
Qed.

(** *** The messages behind the requests *)

Lemma listen_ok a x x' lines :
  xc_inv x -> xc_act a x = Some x' -> xc_ok a x x' -> lines_ok (xc_in x) lines ->
  let r := listen a x' lines in lines_ok (xc_in x') r.1 /\ handled r.2 (xc_in x) (xc_in x').
Proof.
  intros H E Hok Hl. pose proof (server_reachable_inv k cap Hk Hcap _ _ _ _ tcp_send_le _ _ (xi_server _ H)) as Hi.
  assert (xc_in x' = xc_in x -> lines_ok (xc_in x') lines /\ handled [] (xc_in x) (xc_in x')) as Hsame by (intros ->; split; [done|by apply handled_same]).
  destruct a as [ev stamps|clk now| | | | | |ts| | |t5 ts|a|]; cbn [xc_act listen] in *.
  - apply fmap_Some in E as ([[] s'] & E & ->). exact (hear_event_ok in_rdtsc _ _ ev stamps lines (si_in _ _ Hi) (si_desk _ _ Hi) (proj1 Hok) Hl E).
  - apply fmap_Some in E as ([[] s'] & E & ->). exact (hang_up_ok clk now _ _ lines (si_in _ _ Hi) (si_desk _ _ Hi) Hl E).
  - injection E as <-. split; [exact Hl|by apply handled_same].
  - injection E as <-. split; [exact Hl|by apply handled_same].
  - unfold push_note_on in E. case_match; [|done]. injection E as <-. by apply Hsame.
  - unfold push_request_on in E. repeat case_match; try done. apply fmap_Some in E as ([? ?] & _ & ->). by apply Hsame.
  - apply fmap_Some in E as ([? ?] & _ & ->). by apply Hsame.
  - unfold read_note in E. repeat case_match; try done. apply fmap_Some in E as (? & _ & ->). by apply Hsame.
  - unfold read_event in E. repeat case_match; try done. injection E as <-. by apply Hsame.
  - unfold notes_drained in E. repeat case_match; try done. injection E as <-. by apply Hsame.
  - unfold answer in E. repeat case_match; try done; apply fmap_Some in E as (? & _ & ->); by apply Hsame.
  - destruct a; try done; apply fmap_Some in E as (? & _ & ->); by apply Hsame.
  - injection E as <-. by apply Hsame.
Qed.

Lemma heard_handled lines messages x :
  exchange_heard lines messages x ->
  exchange_reachable x /\ lines_ok (xc_in x) lines /\ handled messages (Inbound_new (mkPriceBand MIN_PRICE MAX_PRICE)) (xc_in x).
Proof.
  induction 1 as [|lines messages a x x' _ (Hx & Hl & Hh) E Hok]; [split; [constructor|]; split; [apply lines_new|by apply handled_same]|].
  destruct (listen_ok a x x' lines (exchange_reachable_inv _ Hx) E Hok Hl) as [Hl' Hh']. split; [by eapply xc_next|]. split; [exact Hl'|by eapply handled_trans].
Qed.

Lemma ready_is_answered x ev :
  exchange_reachable x -> xc_event x = Some ev -> xc_ready x = true -> room (th_out (xc_out x)) ->
  exists x' r, exchange_reachable x' /\ xc_in x' = xc_in x /\ xc_engine x' = xc_engine x /\ xc_event x' = None /\
    xc_sent x' = xc_sent x ++ [(Some ev, r)] /\ resp_client_id r = ev_client_id ev.
Proof.
  intros Hx Ee Er Hroom. assert (is_u64 0) as H0 by ulia.
  destruct (answer_runs x ev 0 0 (exchange_reachable_inv _ Hx) Ee Er H0 Hroom) as (x' & r & E & Ei & En & Ee' & Es).
  assert (exchange_reachable x') as Hx' by (eapply (xc_next (x_answer 0 0)); [exact Hx|exact E|by split]). exists x', r. do 5 (split; [done|]).
  pose proof (xi_owner _ (exchange_reachable_inv _ Hx')) as Ho. rewrite Es in Ho. apply Forall_app in Ho as [_ Ho]. by apply Forall_inv in Ho.
Qed.

(** ** Theorems *)

(** C6: The exchange is its parts.  However the three threads interleave and whatever
    bytes the clients send, the two threads of the server are in a state their own steps
    reach, the matching thread is in one it reaches from requests the book accepts, and
    the requests executed are, in order, the first of those submitted, which are the
    first of those the clients' messages became.  What is proved of the server and of
    the engine under these conditions therefore holds of the whole. *)
Theorem exchange_refines_parts x :
  exchange_reachable x ->
  sreach (mkServer (xc_in x) (xc_notes_read x) (xc_out x)) /\ ereach (xc_engine x) /\
  executed x `prefix_of` submitted x /\ submitted x `prefix_of` requests_pushed (xc_in x) /\ Forall request_ok (requests_pushed (xc_in x)).
Proof.
  intros H%exchange_reachable_inv. split; [apply H|]. split; [apply H|]. split; [by apply executed_prefix|]. split; [apply H|].
  destruct (executed_prefix x H) as [more Es]. pose proof (engine_reachable_inv en_rdtsc N K _ _ _ _ Hmd Hin (xi_engine _ H)) as Hi.
  pose proof (ei_ok _ _ _ _ _ Hi) as Hok. rewrite Es in Hok. apply Forall_app in Hok as [Hok _].
  rewrite <- (take_drop (length (executed x)) (requests_pushed (xc_in x))). apply Forall_app. split.
  - destruct (xi_submitted _ H) as [more' ->]. rewrite Es, <- app_assoc. by rewrite take_app_length.
  - pose proof (pi_requests _ (fl_pipeline _ _ _ _ (xi_flows _ H))) as Hr. unfold waiting_requests in Hr. by apply Forall_app in Hr as [? _].
Qed.

(** C3: Every event is answered, on its owner's session.  In every reachable state of the
    exchange, the events answered so far, with the one in hand, are exactly the first
    events that matching the executed requests produces, in their order; none went
    unanswered; each answer is addressed to the client the engine named; and the messages
    ever put on a client's session are exactly the answers to that client, in order. *)
Theorem events_reach_sessions x (n : nat) se :
  exchange_reachable x -> outbound_sessions_ (th_out (xc_out x)) !! n = Some se ->
  os_history se = packets_for n (xc_sent x).*2 /\ xc_unanswered x = [] /\
  omap fst (xc_sent x) ++ option_list (xc_event x) = take (xc_events_read x) (sm_events (summary x)) /\
  Forall (fun '(ev, r) => from_option (fun ev => resp_client_id r = ev_client_id ev) True ev) (xc_sent x).
Proof.
  intros H%exchange_reachable_inv E. split; [|split; [|split; apply H]].
  - apply (ca_history _ _ (xi_carried _ H) n (os_log se)). by rewrite list_lookup_fmap, E.
  - exact (pi_answered _ (fl_pipeline _ _ _ _ (xi_flows _ H))).
Qed.

(** C4: What a client reads.  On a connection the outbound thread sends a session on, the
    bytes TCP took, with those still queued, are a Login Accepted that announces some
    number [start] and then, between heartbeats, exactly the answers to that client from
    number [start] on, each once, whole and in order. *)
Theorem client_reads_its_answers x (i : nat) c :
  exchange_reachable x -> let s := th_out (xc_out x) in
  outbound_connections_ s !! i = Some c -> oc_open c = true -> oc_client_id c <> 0 ->
  let answers := packets_for (Z.to_nat (oc_client_id c)) (xc_sent x).*2 in
  exists se start, outbound_sessions_ s !! Z.to_nat (oc_client_id c) = Some se /\ 1 <= start <= Z.of_nat (length answers) + 1 /\
    stream_of start (drop (Z.to_nat (start - 1)) answers) (sent_on (oc_conn c) (tcp_taken s) ++ queued c se).
Proof.
  intros H%exchange_reachable_inv s E Ho Hid answers.
  destruct (connection_stream k cap Hk Hcap _ _ _ _ tcp_send_le _ _ i c (xi_server _ H) E Ho Hid) as (se & start & _ & Ese & _ & Hst & Hstream & _).
  exists se, start. cbn [sv_out] in *. fold s in Ese, Hstream.
  assert (os_history se = answers) as <-; [|done]. apply (ca_history _ _ (xi_carried _ H) _ (os_log se)). unfold s in Ese. by rewrite list_lookup_fmap, Ese.
Qed.

(** C5: When everything in flight has arrived, the exchange has done what matching all the
    clients' requests in order does: the book in memory is that of the specification,
    every event it produces has been answered, in order, and the responder knows every
    resting order with its owner and open shares. *)
Theorem quiescent_exchange x :
  exchange_reachable x -> xc_notes_read x = length (notes_pushed (xc_in x)) -> executed x = requests_pushed (xc_in x) ->
  xc_event x = None -> xc_events_read x = length (out_ring_ (en_book (xc_engine x))) ->
  let st := spec_run en_rdtsc clock (requests_pushed (xc_in x)) in
  view (en_book (xc_engine x)) = Some (sm_book st) /\ omap fst (xc_sent x) = sm_events st /\ tracks (sm_book st) (th_responder (xc_out x)).
Proof.
  intros H%exchange_reachable_inv Hn Hx He Hr st. pose proof (engine_reachable_inv en_rdtsc N K _ _ _ _ Hmd Hin (xi_engine _ H)) as Hi.
  destruct (ei_book _ _ _ _ _ Hi) as [[qs Hb] _ _ Hout _ _]. unfold st. rewrite <- Hx. split; [by eapply view_rep|]. rewrite Hout in Hr. split.
  - pose proof (xi_sent _ H) as Hs. rewrite He, app_nil_r, Hr, firstn_all in Hs. done.
  - destruct (pi_follow _ (fl_pipeline _ _ _ _ (xi_flows _ H))) as (R & Hf & Htr & _). unfold in_flight, waiting_events in Hf.
    cbn [with_inbound with_pushes other_threads pl_ready pl_event pl_notes pl_outbound pl_resp] in Hf, Htr. rewrite He, Hn, Hr, !drop_all in Hf.
    destruct (xc_ready x); [by destruct Hf as (? & ? & ? & _)|]. cbn in Hf. by inversion Hf; subst.
Qed.

(** C11: The requests are what the clients asked for.  Let an observer of the wire follow a
    run of the exchange: he puts together the bytes TCP delivers on each connection, cuts
    them into packets, takes from the server's notes only as whom a login was accepted
    and which connection timed out, and keeps the OUCH messages of logged-in connections,
    each with the client that sent it.  Then translating the messages he has heard, one
    after another from an empty gateway, gives the gateway's state, the notes pushed, each
    for the sender of its message, and the requests pushed, but for their time stamps: no
    request without a message, none lost, none changed, none charged to another client
    and none out of order, however TCP cut the bytes.  And the server's connections are
    where he has them: over or not, logged in as the same client, with the same bytes of a
    packet not yet whole. *)
Theorem requests_are_translations lines messages x :
  exchange_heard lines messages x ->
  (exists ts, translate_all messages (OrderEntry_new (mkPriceBand MIN_PRICE MAX_PRICE)) = Some (ts, order_entry_ (xc_in x)) /\
     notes_of (notes_pushed (xc_in x)) = translated_notes ts /\ unstamp <$> requests_pushed (xc_in x) = translated_requests ts) /\
  Forall2 line_of (inbound_connections_ (xc_in x)) lines.
Proof. intros (_ & Hl & Hh)%heard_handled. split; [exact (handled_new _ _ _ Hh)|exact Hl]. Qed.

(** C26: An event in hand gets its answer.  Once the outbound thread has popped an event it
    needs nothing from the other threads: reading the notes that are on the ring and
    answering brings it to a state where the event has been answered to its owner, with
    at most rejects of the gateway sent before. *)
Theorem event_in_hand_is_answered x ev :
  exchange_reachable x -> xc_event x = Some ev -> room_for (S (xc_notes_on x - xc_notes_read x)) (th_out (xc_out x)) ->
  exists x' rejects r, exchange_reachable x' /\ xc_in x' = xc_in x /\ xc_engine x' = xc_engine x /\ xc_event x' = None /\
    xc_sent x' = xc_sent x ++ rejects ++ [(Some ev, r)] /\ Forall (fun '(ev, _) => ev = None) rejects /\ resp_client_id r = ev_client_id ev.
Proof.
  remember (xc_notes_on x - xc_notes_read x)%nat as d eqn:Ed. revert x Ed. induction d as [d IH] using lt_wf_ind. intros x Ed Hx Ee Hroom.
  assert (is_u64 0) as Hts by ulia.
  pose proof (exchange_reachable_inv _ Hx) as H.
  destruct (xc_ready x) eqn:Er.
  { destruct (ready_is_answered x ev Hx Ee Er) as (x' & r & ? & ? & ? & ? & ? & ?); [by eapply room_for_room|]. by exists x', [], r. }
  destruct (decide (xc_notes_read x < xc_notes_on x)%nat) as [Hlt|Hge].
  - destruct (read_note_runs x 0 H Er Hlt Hts (room_for_room _ _ Hroom)) as (note & t & Et & E). match type of E with _ = Some ?z => set (y := z) in E end.
    assert (exchange_reachable y) as Hy by (eapply (xc_next (x_note 0)); [exact Hx|exact E|split; [done|by eapply room_for_room]]).
    destruct (IH (pred d)) with (x := y) as (x' & rejects & r & Hx' & Ei & En & Ee' & Es & Hrej & Hown); try done; [lia|cbn [y xc_notes_on xc_notes_read]; lia| |].
    + cbn [y xc_out]. replace (S (pred d)) with d by lia. cbn [out_act] in Et. apply fmap_Some in Et as ([R s'] & Et & ->).
      eapply room_for_grew; [exact (grows_on_note _ _ _ _ _ _ _ _ Et)|done].
    + exists x', ((pair None <$> option_list (note_response note 0 (th_responder (xc_out x)))) ++ rejects), r. rewrite Ei, En, Es. cbn [y xc_in xc_engine xc_sent].
      do 4 (split; [done|]). split; [by rewrite <- !app_assoc|]. split; [|done]. apply Forall_app. split; [|done]. destruct (note_response _ _ _); [by apply Forall_singleton|constructor].
  - destruct (ready_is_answered (x <| xc_ready := true |>) ev) as (x' & r & ? & ? & ? & ? & ? & ?); [|done|done|by eapply room_for_room|by exists x', [], r].
    eapply (xc_next x_drained); [exact Hx| |done]. cbn [xc_act]. unfold notes_drained. rewrite Ee, (proj2 (Nat.leb_le _ _)) by lia. done.
Qed.
End Exchange.

(** ** A client connects, logs in and enters an order that rests *)

Module Demo.
Import Server.Examples.

(** The exchange's book, cut to prices and orders the example can reach. *)
#[local] Program Instance demo_config : BookConfig := {|
  MIN_PRICE := 1; MAX_PRICE := 2000; PREALLOCATION_COUNT := 8; BOOK_SYMBOL := str "SIM"; BOOK_STOCK_LOCATE := 1;
|}.
Solve Obligations with (unfold is_u32, is_u16; lia).

Definition demo_md : RingBuffer ITCH := ring_new ITCH_NONE 8.
Definition demo_in : RingBuffer EngineRequest := ring_new (mkRequest 0 0 0 0 0 0 0 0 NEW BID LIMIT DAY) 8.
Definition demo_clock : TscClock := mkClock 0 0 0.

Notation demo_act := (xc_act 512 example_clock_reads example_clock_reads example_clock_reads ex_send ex_sendable).
Notation demo_reach := (exchange_reachable 512 example_clock_reads example_clock_reads example_clock_reads ex_send ex_sendable demo_md demo_in demo_clock).

Definition demo_do (x : Exchange) (a : xc_action) : Exchange := default x (demo_act a x).

Definition demo0 : Exchange := Exchange_new demo_md demo_in demo_clock.
Definition demo1 : Exchange := demo_do demo0 (x_tcp (tcp_accepted example_conn) example_stamps).
Definition demo2 : Exchange := demo_do demo1 (x_tcp (tcp_data example_conn login_bytes) example_stamps).
Definition demo3 : Exchange := demo_do demo2 (x_tcp (tcp_data example_conn order_bytes) example_stamps).
(** The login's note, the order's note and the request go on their rings, and it is matched. *)
Definition demo4 : Exchange := foldl demo_do demo3 [x_note_on; x_note_on; x_submit; x_match; x_match; x_match].
Definition demo5 : Exchange := demo_do demo4 (x_note 7).
Definition demo6 : Exchange := foldl demo_do demo5 [x_out act_flush; x_pop].
Definition demo7 : Exchange := demo_do demo6 (x_note 8).
Definition demo8 : Exchange := foldl demo_do demo7 [x_drained].
Definition demo9 : Exchange := demo_do demo8 (x_answer 15 9).
Definition demo10 : Exchange := foldl demo_do demo9 [x_out act_flush].

Lemma demo_in_rep : ring_rep 8 demo_in [].
Proof. do 4 eexists. apply ring_new_rep, ring_size_ok_8. Qed.

Lemma demo_md_rep : ring_rep 8 demo_md [].
Proof. do 4 eexists. apply ring_new_rep, ring_size_ok_8. Qed.

(** A step that happens, where what it asks of the outside holds. *)
Lemma demo_next x a : demo_reach x -> is_Some (demo_act a x) -> xc_ok a x (demo_do x a) -> demo_reach (demo_do x a).
Proof. intros Hx [x' E] Hok. unfold demo_do in *. rewrite E in *. by eapply xc_next. Qed.

(** Steps that ask nothing. *)
Definition asks_nothing (a : xc_action) : bool :=
  match a with x_tcp _ _ | x_timeouts _ _ | x_note _ | x_answer _ _ => false | _ => true end.

Fixpoint all_happen (x : Exchange) (acts : list xc_action) : bool :=
  match acts with
  | [] => true
  | a :: acts => asks_nothing a && bool_decide (is_Some (demo_act a x)) && all_happen (demo_do x a) acts
  end.

Lemma demo_steps acts x : demo_reach x -> all_happen x acts = true -> demo_reach (foldl demo_do x acts).
Proof.
  revert x. induction acts as [|a acts IH]; intros x Hx H; [done|]. cbn [all_happen] in H. apply andb_true_iff in H as [H Hacts].
  apply andb_true_iff in H as [Ha Hs]. apply bool_decide_eq_true in Hs. cbn [foldl]. apply IH; [|done]. apply demo_next; [done..|]. by destruct a.
Qed.

Lemma happens {A} (o : option A) : (if o then true else false) = true -> is_Some o.
Proof. by destruct o. Qed.

Lemma demo3_reach : demo_reach demo3.
Proof.
  apply demo_next; [apply demo_next; [apply demo_next; [apply xc_start|..]|..]|..]; try (apply happens; vm_compute; reflexivity); (split; [|split; [|vm_compute; reflexivity]]).
  - exists InboundConnection_new. split; reflexivity.
  - split; [computed|by intros ?%elem_of_nil].
  - eexists. split; [vm_compute; reflexivity|exact login_bytes_u8].
  - done.
  - eexists. split; [vm_compute; reflexivity|exact order_bytes_u8].
  - done.
Qed.

Lemma demo6_reach : demo_reach demo6.
Proof.
  unfold demo6. apply demo_steps; [|vm_compute; reflexivity].
  unfold demo5. apply demo_next; [|apply happens; vm_compute; reflexivity|split; [computed|apply has_room_sound; vm_compute; reflexivity]].
  unfold demo4. apply demo_steps; [exact demo3_reach|vm_compute; reflexivity].
Qed.

Lemma demo8_reach : demo_reach demo8.
Proof.
  unfold demo8. apply demo_steps; [|vm_compute; reflexivity].
  unfold demo7. apply demo_next; [exact demo6_reach|apply happens; vm_compute; reflexivity|split; [computed|apply has_room_sound; vm_compute; reflexivity]].
Qed.

Lemma demo10_reach : demo_reach demo10.
Proof.
  unfold demo10. apply demo_steps; [|vm_compute; reflexivity].
  unfold demo9. apply demo_next; [exact demo8_reach|apply happens; vm_compute; reflexivity|split; [computed|apply has_room_sound; vm_compute; reflexivity]].
Qed.

Lemma exchange_refines_parts_witness :
  length (requests_pushed (xc_in demo8)) = 1%nat /\ Forall request_ok (requests_pushed (xc_in demo8)) /\
  engine_reachable example_clock_reads demo_md demo_in demo_clock (xc_engine demo8).
Proof.
  destruct (exchange_refines_parts 512 example_clock_reads example_clock_reads example_clock_reads ex_send ex_sendable demo_md demo_in demo_clock 9 8 8
    ltac:(lia) eq_refl ex_tcp_send_le demo_md_rep demo_in_rep demo8 demo8_reach) as (_ & He & _ & _ & Hok).
  split; [vm_compute; reflexivity|]. exact (conj Hok He).
Defined.

Definition demo_session : OutboundSession := default OutboundSession_new (outbound_sessions_ (th_out (xc_out demo10)) !! 1%nat).

Lemma events_reach_sessions_witness :
  length (os_history demo_session) = 1%nat /\ os_history demo_session = packets_for 1 (xc_sent demo10).*2 /\
  length (omap fst (xc_sent demo10)) = 1%nat.
Proof.
  destruct (events_reach_sessions 512 example_clock_reads example_clock_reads example_clock_reads ex_send ex_sendable demo_md demo_in demo_clock 9 8 8
    ltac:(lia) eq_refl ex_tcp_send_le demo_md_rep demo_in_rep demo10 1 demo_session demo10_reach) as (Hh & _).
  - vm_compute. reflexivity.
  - split; [vm_compute; reflexivity|]. split; [exact Hh|vm_compute; reflexivity].
Defined.

Definition demo_conn : OutboundConnection := default OutboundConnection_new (outbound_connections_ (th_out (xc_out demo10)) !! 0%nat).

Lemma client_reads_its_answers_witness :
  exists se start, 1 <= start <= 2 /\
    stream_of start (drop (Z.to_nat (start - 1)) (packets_for (Z.to_nat (oc_client_id demo_conn)) (xc_sent demo10).*2))
      (sent_on (oc_conn demo_conn) (tcp_taken (th_out (xc_out demo10))) ++ queued demo_conn se).
Proof.
  destruct (client_reads_its_answers 512 example_clock_reads example_clock_reads example_clock_reads ex_send ex_sendable demo_md demo_in demo_clock 9 8 8
    ltac:(lia) eq_refl ex_tcp_send_le demo_md_rep demo_in_rep demo10 0 demo_conn demo10_reach) as (se & start & _ & Hst & Hs).
  - vm_compute. reflexivity.
  - vm_compute. reflexivity.
  - vm_compute. discriminate.
  - exists se, start. split; [|exact Hs]. vm_compute in Hst. exact Hst.
Defined.

Lemma quiescent_exchange_witness :
  let st := spec_run example_clock_reads demo_clock (requests_pushed (xc_in demo10)) in
  length (sb_bids (sm_book st)) = 1%nat /\ omap fst (xc_sent demo10) = sm_events st /\ tracks (sm_book st) (th_responder (xc_out demo10)).
Proof.
  destruct (quiescent_exchange 512 example_clock_reads example_clock_reads example_clock_reads ex_send ex_sendable demo_md demo_in demo_clock 9 8 8
    ltac:(lia) eq_refl ex_tcp_send_le demo_md_rep demo_in_rep demo10 demo10_reach) as (_ & Hev & Ht).
  - vm_compute. reflexivity.
  - vm_compute. reflexivity.
  - vm_compute. reflexivity.
  - vm_compute. reflexivity.
  - split; [vm_compute; reflexivity|]. exact (conj Hev Ht).
Defined.

(** [room_for], as a check. *)
Definition has_room_for (m : nat) (s : Outbound) : bool :=
  (256 * Z.of_nat m <? 9223372036854775808) &&
  forallb (fun se => match os_log se with
    | None => true
    | Some log => (0 <=? end_ log) && (end_ log + 256 * Z.of_nat m <? 18446744073709551616) &&
        (0 <=? next_seq_ log) && (next_seq_ log + Z.of_nat m <? 18446744073709551616)
    end) (outbound_sessions_ s).

Lemma has_room_for_sound m s : has_room_for m s = true -> room_for m s.
Proof.
  unfold has_room_for. intros [Hm H]%andb_true_iff. split; [lia|]. intros n log h E. rewrite list_lookup_fmap in E. apply fmap_Some in E as (se & E & Hl).
  rewrite forallb_forall in H. specialize (H se). injection Hl as Hl _. rewrite <- Hl in H.
  rewrite !andb_true_iff in H. destruct H as [[[? ?] ?] ?]; [|zbool; lia]. apply list_elem_of_In. by eapply list_elem_of_lookup_2.
Qed.

Definition demo_event : EngineEvent := mkEvent 10 11 0 0 1 1 0 0 1 1025 100 ACCEPTED 0 true.

Lemma event_in_hand_is_answered_witness :
  exists x' rejects r, demo_reach x' /\ xc_event x' = None /\ xc_sent x' = xc_sent demo6 ++ rejects ++ [(Some demo_event, r)] /\ resp_client_id r = 1.
Proof.
  destruct (event_in_hand_is_answered 512 example_clock_reads example_clock_reads example_clock_reads ex_send ex_sendable demo_md demo_in demo_clock 9 8 8
    ltac:(lia) eq_refl ex_tcp_send_le demo_md_rep demo_in_rep demo6 demo_event demo6_reach) as (x' & rejects & r & Hx & _ & _ & He & Hs & _ & Hc).
  - vm_compute. reflexivity.
  - apply has_room_for_sound. vm_compute. reflexivity.
  - exists x', rejects, r. split; [exact Hx|]. split; [exact He|]. split; [exact Hs|exact Hc].
Defined.

(** The demo, as the observer hears it. *)
Notation demo_heard := (exchange_heard 512 example_clock_reads example_clock_reads example_clock_reads ex_send ex_sendable demo_md demo_in demo_clock).

Record Followed := mkFollowed { fo_lines : list Line; fo_messages : list (Z * OuchInboundFrame); fo_exchange : Exchange }.
Definition demo_follow (h : Followed) (a : xc_action) : Followed :=
  let x' := demo_do (fo_exchange h) a in let r := listen a x' (fo_lines h) in mkFollowed r.1 (fo_messages h ++ r.2) x'.
Definition followed (h : Followed) : Prop := demo_heard (fo_lines h) (fo_messages h) (fo_exchange h).

Lemma demo_followed h a :
  followed h -> is_Some (demo_act a (fo_exchange h)) -> xc_ok a (fo_exchange h) (demo_do (fo_exchange h) a) -> followed (demo_follow h a).
Proof.
  intros Hx [x' E] Hok. unfold followed, demo_follow. cbv zeta. cbn [fo_lines fo_messages fo_exchange].
  unfold demo_do in *. rewrite E in *. by eapply heard_next.
Qed.

(** The client enters one order, and TCP cuts the packet in two. *)
Definition heard0 : Followed := mkFollowed (replicate kMaxConnections Line_new) [] demo0.
Definition heard1 : Followed := demo_follow heard0 (x_tcp (tcp_accepted example_conn) example_stamps).
Definition heard2 : Followed := demo_follow heard1 (x_tcp (tcp_data example_conn login_bytes) example_stamps).
Definition heard3 : Followed := demo_follow heard2 (x_tcp (tcp_data example_conn (take 20 order_bytes)) example_stamps).
Definition heard4 : Followed := demo_follow heard3 (x_tcp (tcp_data example_conn (drop 20 order_bytes)) example_stamps).

Lemma heard2_followed : followed heard2.
Proof.
  apply demo_followed; [apply demo_followed; [apply heard_start|..]|..]; try (apply happens; vm_compute; reflexivity); (split; [|split; [|vm_compute; reflexivity]]).
  - exists InboundConnection_new. split; reflexivity.
  - split; [computed|by intros ?%elem_of_nil].
  - eexists. split; [vm_compute; reflexivity|exact login_bytes_u8].
  - done.
Qed.

Lemma heard4_followed : followed heard4.
Proof.
  apply demo_followed; [apply demo_followed; [exact heard2_followed|..]|..]; try (apply happens; vm_compute; reflexivity); (split; [|split; [|vm_compute; reflexivity]]).
  - eexists. split; [vm_compute; reflexivity|apply Forall_take; exact order_bytes_u8].
  - done.
  - eexists. split; [vm_compute; reflexivity|apply Forall_drop; exact order_bytes_u8].
  - done.
Qed.

Lemma requests_are_translations_witness :
  (fst <$> fo_messages heard4) = [1] /\
  exists ts, translate_all (fo_messages heard4) (OrderEntry_new (mkPriceBand 1 2000)) = Some (ts, order_entry_ (xc_in (fo_exchange heard4))) /\
    unstamp <$> requests_pushed (xc_in (fo_exchange heard4)) = translated_requests ts /\ length (translated_requests ts) = 1%nat.
Proof.
  destruct (requests_are_translations 512 example_clock_reads example_clock_reads example_clock_reads ex_send ex_sendable demo_md demo_in demo_clock 9 8 8
    ltac:(lia) eq_refl ex_tcp_send_le demo_md_rep demo_in_rep _ _ _ heard4_followed) as [(ts & Ht & _ & Hr) _].
  split; [vm_compute; reflexivity|]. exists ts. split; [exact Ht|]. split; [exact Hr|]. rewrite <- Hr. vm_compute. reflexivity.
Defined.
End Demo.
