(* ===== verification/Buffer.v ===== *)
(** * Buffer: the client's byte buffers ([src/infra/buffer.hpp])

    A fixed array with two cursors: the read path takes bytes off the front, the write
    path sends from the front.  [recv] and [send] are the kernel's: what they return is
    an argument.  The buffer is a queue of bytes: [buf_view] is what is left to read,
    [buf_pending] what is left to send. *)

From S2P Require Import Prelude WireCodec.

(** What [recv] returns: bytes (none at the end of the stream) or an error, and whether
    the error is EAGAIN. *)
Inductive recv_result := received (bytes : list Z) | recv_error (again : bool).

(** What [send] returns: how many bytes it took, or an error. *)
Inductive send_result := took (n : nat) | send_error (again : bool).

Record Buffer := mkBuffer { buf_data : list Z; buf_len : nat; buf_bytes_written : nat; buf_read_off : nat }.
#[export] Instance Buffer_eta : Eta Buffer := fun b => mkBuffer (buf_data b) (buf_len b) (buf_bytes_written b) (buf_read_off b).

Section Buffer.
Context (N : nat).

Definition Buffer_new : Buffer := mkBuffer (replicate N 0) 0 0 0.

Definition buf_length (b : Buffer) : nat := (buf_len b - buf_read_off b)%nat.
Definition buf_remaining_capacity (b : Buffer) : nat := (N - buf_len b)%nat.
Definition buf_view (b : Buffer) : list Z := take (buf_len b - buf_read_off b) (drop (buf_read_off b) (buf_data b)).

(** The compaction of [read_from]: the unread tail moves to the front. *)
Definition buf_compact (b : Buffer) : Buffer :=
  if (0 <? buf_read_off b)%nat && (buf_len b =? N)%nat then
    let remaining := (buf_len b - buf_read_off b)%nat in
    mkBuffer (if (0 <? remaining)%nat then memcpy 0 (buf_view b) (buf_data b) else buf_data b) remaining (buf_bytes_written b) 0
  else b.

Definition buf_read_from (r : recv_result) (b : Buffer) : Buffer :=
  let b := buf_compact b in
  match r with
  | received bytes => mkBuffer (memcpy (buf_len b) bytes (buf_data b)) (buf_len b + length bytes) (buf_bytes_written b) (buf_read_off b)
  | recv_error _ => b
  end.

Definition buf_advance (n : nat) (b : Buffer) : Buffer :=
  let read_off := (buf_read_off b + n)%nat in
  if (buf_len b <=? read_off)%nat then mkBuffer (buf_data b) 0 (buf_bytes_written b) 0
  else mkBuffer (buf_data b) (buf_len b) (buf_bytes_written b) read_off.

Definition buf_remaining_to_send (b : Buffer) : nat := (buf_len b - buf_bytes_written b)%nat.
Definition buf_has_room (n : nat) (b : Buffer) : bool := (buf_len b + n <=? N)%nat.

Definition buf_append (src : list Z) (b : Buffer) : bool * Buffer :=
  if negb (buf_has_room (length src) b) then (false, b)
  else (true, mkBuffer (memcpy (buf_len b) src (buf_data b)) (buf_len b + length src) (buf_bytes_written b) (buf_read_off b)).

(** What [write_to] offers the kernel. *)
Definition buf_pending (b : Buffer) : list Z := take (buf_len b - buf_bytes_written b) (drop (buf_bytes_written b) (buf_data b)).

Definition buf_write_to (r : send_result) (b : Buffer) : Buffer :=
  match r with
  | took n => mkBuffer (buf_data b) (buf_len b) (buf_bytes_written b + n) (buf_read_off b)
  | send_error _ => b
  end.

Definition buf_try_reset (b : Buffer) : Buffer :=
  if (buf_bytes_written b =? buf_len b)%nat then mkBuffer (buf_data b) 0 0 (buf_read_off b) else b.

Definition buf_clear (b : Buffer) : Buffer := mkBuffer (buf_data b) 0 0 0.

(** ** A queue of bytes *)

(** The cursors are inside the array, and the path not in use is at rest. *)
Record buf_ok (b : Buffer) : Prop := {
  bo_data : length (buf_data b) = N;
  bo_len : (buf_len b <= N)%nat;
  bo_read : (buf_read_off b <= buf_len b)%nat;
  bo_written : (buf_bytes_written b <= buf_len b)%nat;
}.

Definition slice (a b : nat) (l : list Z) : list Z := take (b - a) (drop a l).

Lemma slice_memcpy a len bs l :
  (a <= len)%nat -> (len + length bs <= length l)%nat -> slice a (len + length bs) (memcpy len bs l) = slice a len l ++ bs.
Proof.
  intros Ha Hl. assert (memcpy len bs l = (take len l ++ bs) ++ drop (length bs) (drop len l)) as ->.
  { rewrite <- (take_drop len l) at 1. pose proof (memcpy_app (take len l) bs (drop len l)) as H. rewrite length_take, Nat.min_l in H by lia.
    apply H. rewrite length_drop. lia. }
  unfold slice. rewrite drop_app_le by (rewrite length_app, length_take; lia). rewrite drop_app_le by (rewrite length_take; lia).
  rewrite skipn_firstn_comm, take_app_length'; [done|]. rewrite length_app, length_take, length_drop. lia.
Qed.

Lemma memcpy_length dst bs l : length (memcpy dst bs l) = length l.
Proof. apply length_inserts. Qed.

Lemma buf_length_view b : buf_ok b -> length (buf_view b) = buf_length b.
Proof. intros [? ? ? ?]. unfold buf_view, buf_length. rewrite length_take, length_drop. lia. Qed.

Lemma buf_compact_ok b : buf_ok b -> buf_bytes_written b = 0%nat -> buf_ok (buf_compact b) /\ buf_view (buf_compact b) = buf_view b /\
  buf_bytes_written (buf_compact b) = 0%nat /\ (buf_length b < N -> buf_len (buf_compact b) < N)%nat.
Proof.
  intros H Hw. pose proof H as [Hd Hl Hr _]. unfold buf_compact. destruct (_ && _) eqn:E.
  2: { split; [done|]. split; [done|]. split; [done|]. unfold buf_length. apply andb_false_iff in E as [E|E]; [apply Nat.ltb_ge in E|apply Nat.eqb_neq in E]; lia. }
  apply andb_true_iff in E as [E1%Nat.ltb_lt E2%Nat.eqb_eq]. split; [|split; [|by split; [|unfold buf_length; cbn; lia]]].
  - split; cbn; [match goal with |- context [if ?b then _ else _] => destruct b end; rewrite ?memcpy_length; done|lia|lia|lia].
  - pose proof (buf_length_view b H) as Hlen. unfold buf_length in Hlen. unfold buf_view at 1. cbn [buf_len buf_read_off buf_data].
    destruct (Nat.ltb_spec 0 (buf_len b - buf_read_off b)).
    + pose proof (slice_memcpy 0 0 (buf_view b) (buf_data b)) as Hs. rewrite Hlen in Hs. unfold slice in Hs. rewrite Nat.sub_0_r in Hs.
      cbn [Nat.add] in Hs. rewrite Nat.sub_0_r in *. rewrite Hs by lia. done.
    + replace (buf_len b - buf_read_off b)%nat with 0%nat by lia. symmetry. apply length_zero_iff_nil. lia.
Qed.

Lemma buf_read_from_ok b bytes :
  buf_ok b -> buf_bytes_written b = 0%nat -> (length bytes <= buf_remaining_capacity (buf_compact b))%nat ->
  buf_ok (buf_read_from (received bytes) b) /\ buf_view (buf_read_from (received bytes) b) = buf_view b ++ bytes /\
  buf_bytes_written (buf_read_from (received bytes) b) = 0%nat.
Proof.
  intros H Hw Hn. unfold buf_remaining_capacity in Hn. destruct (buf_compact_ok b H Hw) as ([Hd Hl Hr Hwr] & Hv & Hw' & _). unfold buf_read_from. split; [|split; [|done]].
  - split; cbn; rewrite ?memcpy_length; lia.
  - rewrite <- Hv. pose proof (slice_memcpy (buf_read_off (buf_compact b)) (buf_len (buf_compact b)) bytes (buf_data (buf_compact b)) Hr) as Hs.
    apply Hs. lia.
Qed.

Lemma buf_read_error again b : buf_read_from (recv_error again) b = buf_compact b.
Proof. done. Qed.

Lemma buf_advance_ok b n :
  buf_ok b -> buf_bytes_written b = 0%nat -> buf_ok (buf_advance n b) /\ buf_view (buf_advance n b) = drop n (buf_view b) /\
  buf_bytes_written (buf_advance n b) = 0%nat.
Proof.
  intros H Hw. pose proof H as [Hd Hl Hr _]. unfold buf_advance. destruct (Nat.leb_spec (buf_len b) (buf_read_off b + n)) as [Hle|Hgt].
  - split; [by split; cbn; try lia|]. split; [|done]. symmetry. apply drop_ge. rewrite buf_length_view by done. unfold buf_length. lia.
  - split; [by split; cbn; try lia|]. split; [|done]. unfold buf_view. cbn [buf_len buf_read_off buf_data].
    rewrite skipn_firstn_comm, drop_drop. f_equal. lia.
Qed.

Lemma buf_append_ok b src :
  buf_ok b -> buf_ok (buf_append src b).2 /\
  if (buf_append src b).1 then buf_pending (buf_append src b).2 = buf_pending b ++ src else (buf_append src b).2 = b.
Proof.
  intros H. pose proof H as [Hd Hl Hr Hw]. unfold buf_append, buf_has_room. destruct (Nat.leb_spec (buf_len b + length src) N); cbn [negb fst snd]; [|done].
  split; [split; cbn; rewrite ?memcpy_length; lia|].
  pose proof (slice_memcpy (buf_bytes_written b) (buf_len b) src (buf_data b) Hw) as Hs. apply Hs. lia.
Qed.

Lemma buf_write_to_ok b n :
  buf_ok b -> (n <= length (buf_pending b))%nat ->
  buf_ok (buf_write_to (took n) b) /\ buf_pending b = take n (buf_pending b) ++ buf_pending (buf_write_to (took n) b).
Proof.
  intros [Hd Hl Hr Hw] Hn. unfold buf_pending in *. rewrite length_take, length_drop in Hn. split; [split; cbn; try done; lia|].
  cbn [buf_write_to buf_len buf_bytes_written buf_data]. rewrite <- (take_drop n (take _ _)) at 1. f_equal.
  rewrite skipn_firstn_comm, drop_drop. f_equal. lia.
Qed.
End Buffer.
