(* ===== verification/OrderFactory.v ===== *)
(** * OrderFactory: the load generator's orders
    ([src/client/include/order_factory.hpp])

    The factory draws random numbers and does its price arithmetic in [double].  Both
    come from the C++ library: what a draw gives is a parameter, and so are the
    operations on doubles, of which facts that hold of IEEE doubles are used, NaN and the
    infinities included.  Converting a NaN, or a number the integer type cannot hold, is
    undefined and faults here.  Every message the factory builds can be put on the wire
    and the exchange takes every order it enters; building one is defined as long as the
    mid price, a random walk nothing bounds, is finite. *)

From S2P Require Import Prelude Types WireCodec OuchProto OuchCorrect Validation OuchResponder.

(** ** Configuration ([src/client/config/config.hpp]) *)

Definition CLIENT_MIN_PRICE : Z := 1.
Definition CLIENT_MAX_PRICE : Z := 1000 * 100.
Definition MID_PRICE_INITIAL : Z := 100 * 100.
Definition MID_PRICE_UPDATE_N : Z := 16.
Definition CLIENT_SYMBOL : list Z := str "SIM".

(** ** Doubles and draws *)

Class Double (F : Type) := {
  d_of : Z -> F;                     (** [double{n}] *)
  d_add : F -> F -> F;
  d_sub : F -> F -> F;
  d_mul : F -> F -> F;
  d_abs : F -> F;
  d_exp : F -> F;
  d_lt : F -> F -> bool;
  d_trunc : F -> option Z;           (** conversion to an unsigned integer type *)
  d_finite : F -> bool;              (** [std::isfinite] *)
  d_nan : F -> bool;                 (** [std::isnan] *)
}.

(** Facts of IEEE doubles.  Whole numbers below 2^53 are exact; conversion truncates what
    lies between two of them and is undefined on NaN; finite numbers multiply to a
    number or an infinity, and adding to a finite number makes no NaN. *)
Class DoubleLaws (F : Type) `{Double F} : Prop := {
  d_of_finite n : 0 <= n < 2 ^ 53 -> d_finite (d_of n) = true;
  d_trunc_of n : 0 <= n < 2 ^ 53 -> d_trunc (d_of n) = Some n;
  d_trunc_between x lo hi : 0 <= lo <= hi -> hi < 2 ^ 53 -> d_nan x = false ->
    d_lt x (d_of lo) = false -> d_lt (d_of hi) x = false -> exists n, d_trunc x = Some n /\ lo <= n <= hi;
  d_trunc_nan x : d_nan x = true -> d_trunc x = None;
  d_abs_finite x : d_finite x = true -> d_finite (d_abs x) = true;
  d_mul_nan x y : d_finite x = true -> d_finite y = true -> d_nan (d_mul x y) = false;
  d_add_nan x y : d_finite x = true -> d_nan y = false -> d_nan (d_add x y) = false;
  d_sub_nan x y : d_finite x = true -> d_nan y = false -> d_nan (d_sub x y) = false;
}.

(** What the distributions give, by the number of draws made before. *)
Record Draws (F : Type) := mkDraws {
  log_return_dist_ : nat -> F;
  qty_dist_ : nat -> F;
  side_dist_ : nat -> bool;
  type_dist_ : nat -> bool;
  roll_dist_ : nat -> Z;
  big_qty_dist_ : nat -> Z;
}.
Arguments log_return_dist_ {F}. Arguments qty_dist_ {F}. Arguments side_dist_ {F}.
Arguments type_dist_ {F}. Arguments roll_dist_ {F}. Arguments big_qty_dist_ {F}.

(** ** The factory *)

Inductive FrameKind := KIND_ENTER | KIND_CANCEL | KIND_REPLACE | KIND_INVALID.

Record Target := mkTarget { tg_user_ref_num : Z; tg_side : Side }.

Section Factory.
Context {F : Type} `{Double F} (draws : Draws F).

Record OrderFactory := mkFactory { mid_price_ : F; frame_count_ : Z; rng_ : nat }.

Definition OrderFactory_new : OrderFactory := mkFactory (d_of MID_PRICE_INITIAL) 0 0.

(** One draw from a distribution. *)
Definition draw {A} (dist : Draws F -> nat -> A) : M OrderFactory A := fun f =>
  Some (dist draws (rng_ f), mkFactory (mid_price_ f) (frame_count_ f) (S (rng_ f))).

(** [std::clamp] *)
Definition d_clamp (v lo hi : F) : F := if d_lt v lo then lo else if d_lt hi v then hi else v.

Definition kMarketPrice : Z := 0x7FFFFFFF.
Definition kSymbol : list Z := alpha 8 CLIENT_SYMBOL.
Definition kClOrdId : list Z := alpha 14 (str "LOADGEN").

Definition limit_price (side : Side) : M OrderFactory Z :=
  r ← draw log_return_dist_;
  mid ← gets mid_price_;
  let spread := d_mul (d_abs r) mid in
  let raw := match side with BID => d_sub mid spread | ASK => d_add mid spread end in
  lift (d_trunc (d_clamp raw (d_of CLIENT_MIN_PRICE) (d_of CLIENT_MAX_PRICE))).

Definition order_qty : M OrderFactory Z :=
  q ← draw qty_dist_; lift (d_trunc (d_clamp q (d_of 1) (d_of kOuchMaxQuantity))).

Definition enter_msg (user_ref_num : Z) (side : Side) (quantity price tif : Z) : OuchEnterOrder :=
  Eval lazy beta iota delta
    [ouch_default OuchEnterOrder_msg eo_message_type eo_user_ref_num eo_side eo_quantity eo_symbol eo_price
     eo_time_in_force eo_display eo_capacity eo_intermarket_sweep_eligibility eo_cross_type eo_cl_ord_id eo_firm
     eo_min_qty eo_customer_type eo_max_floor eo_price_type eo_peg_offset eo_discretion_price
     eo_discretion_price_type eo_discretion_peg_offset eo_post_only eo_random_reserves eo_expire_time eo_trade_now
     eo_handle_inst eo_group_id eo_shares_located eo_locate_broker eo_user_ref_idx eo_aiq_strategy eo_aiq_group_id
     eo_appendage] in
  ouch_default <| eo_user_ref_num := user_ref_num |> <| eo_side := to_ouch_side side |> <| eo_quantity := quantity |>
    <| eo_symbol := kSymbol |> <| eo_price := price |> <| eo_time_in_force := tif |> <| eo_display := ch "Y" |>
    <| eo_capacity := ch "A" |> <| eo_intermarket_sweep_eligibility := ch "N" |> <| eo_cross_type := ch "N" |>
    <| eo_cl_ord_id := kClOrdId |>.

Definition make_enter (user_ref_num : Z) : M OrderFactory OuchEnterOrder :=
  s ← draw side_dist_;
  t ← draw type_dist_;
  let side := if (s : bool) then ASK else BID in
  let market := negb t in
  quantity ← order_qty;
  price ← (if (market : bool) then mret kMarketPrice else p ← limit_price side; mret (to_ouch_price p));
  mret (enter_msg user_ref_num side quantity price (if (market : bool) then ch "3" else ch "0")).

Definition make_cancel (target : Target) : OuchCancelOrder :=
  mkOuchCancelOrder INBOUND_CANCEL_ORDER (tg_user_ref_num target) 0 0 tag_set_empty.

Definition replace_msg (orig user_ref_num quantity price : Z) : OuchReplaceOrder :=
  Eval lazy beta iota delta
    [ouch_default OuchReplaceOrder_msg ro_message_type ro_orig_user_ref_num ro_user_ref_num ro_quantity ro_price
     ro_time_in_force ro_display ro_intermarket_sweep_eligibility ro_cl_ord_id ro_min_qty ro_max_floor ro_price_type
     ro_peg_offset ro_discretion_price ro_discretion_price_type ro_discretion_peg_offset ro_post_only
     ro_random_reserves ro_expire_time ro_trade_now ro_handle_inst ro_shares_located ro_locate_broker ro_side
     ro_user_ref_idx ro_aiq_strategy ro_aiq_group_id ro_appendage] in
  ouch_default <| ro_orig_user_ref_num := orig |> <| ro_user_ref_num := user_ref_num |> <| ro_quantity := quantity |>
    <| ro_price := price |> <| ro_time_in_force := ch "0" |> <| ro_display := ch "Y" |>
    <| ro_intermarket_sweep_eligibility := ch "N" |> <| ro_cl_ord_id := kClOrdId |>.

Definition make_replace (user_ref_num : Z) (target : Target) : M OrderFactory OuchReplaceOrder :=
  quantity ← order_qty;
  price ← limit_price (tg_side target);
  mret (replace_msg (tg_user_ref_num target) user_ref_num quantity (to_ouch_price price)).

(** An Enter the exchange must reject; [build_message] does not use it. *)
Definition make_invalid (user_ref_num : Z) : M OrderFactory OuchEnterOrder :=
  m ← make_enter user_ref_num;
  quantity ← draw big_qty_dist_;
  mret (m <| eo_quantity := quantity |>).

Definition build_message (user_ref_num : Z) (target : option Target) : M OrderFactory (FrameKind * OuchInboundFrame) :=
  _ ← modify (fun f => mkFactory (mid_price_ f) (u32 (frame_count_ f + 1)) (rng_ f));
  count ← gets frame_count_;
  _ ← when (Z.land count (MID_PRICE_UPDATE_N - 1) =? 0)
        (r ← draw log_return_dist_; modify (fun f => mkFactory (d_mul (mid_price_ f) (d_exp r)) (frame_count_ f) (rng_ f)));
  r ← draw roll_dist_;
  match target with
  | None => m ← make_enter user_ref_num; mret (KIND_ENTER, enter_order m)
  | Some target =>
      if (r >? 20) then m ← make_enter user_ref_num; mret (KIND_ENTER, enter_order m)
      else if (r >? 8) then mret (KIND_CANCEL, cancel_order (make_cancel target))
      else m ← make_replace user_ref_num target; mret (KIND_REPLACE, replace_order m)
  end.
End Factory.

(** ** What the exchange makes of the messages *)

(** The exchange's band, [MIN_PRICE] and [MAX_PRICE] of [src/exchange/config/config.hpp]. *)
Definition exchange_band : PriceBand := mkPriceBand (MIN_PRICE (BookConfig := exchange_config)) (MAX_PRICE (BookConfig := exchange_config)).

(** What the distributions are documented to give: normal returns are finite, log-normal
    sizes are not NaN. *)
Class DrawLaws {F : Type} `{Double F} (draws : Draws F) : Prop := {
  log_return_finite n : d_finite (log_return_dist_ draws n) = true;
  qty_number n : d_nan (qty_dist_ draws n) = false;
}.

(** The mid price the next message is built with. *)
Definition next_mid {F : Type} `{Double F} (draws : Draws F) (f : OrderFactory) : F :=
  if Z.land (u32 (frame_count_ f + 1)) (MID_PRICE_UPDATE_N - 1) =? 0
  then d_mul (mid_price_ f) (d_exp (log_return_dist_ draws (rng_ f))) else mid_price_ f.

Section Messages.
Context {F : Type} `{DoubleLaws F} (draws : Draws F) `{!DrawLaws draws}.

(** A computation of the factory that is defined while the mid price is finite, leaves
    it alone and gives only results in [Q]. *)
Definition gives {A} (m : M (OrderFactory (F:=F)) A) (Q : A -> Prop) : Prop := forall f,
  (d_finite (mid_price_ f) = true -> is_Some (m f)) /\
  (forall a f', m f = Some (a, f') -> Q a /\ mid_price_ f' = mid_price_ f).

Lemma gives_ret {A} (a : A) (Q : A -> Prop) : Q a -> gives (mret a) Q.
Proof. intros Ha f. split; [by eexists|]. by intros b f' [= <- <-]. Qed.

Lemma gives_bind {A B} (m : M OrderFactory A) (k : A -> M OrderFactory B) P Q :
  gives m P -> (forall a, P a -> gives (k a) Q) -> gives (m ≫= k) Q.
Proof.
  intros Hm Hk f. destruct (Hm f) as [Ht Hs]. split.
  - intros Hf. destruct (Ht Hf) as [[a f1] E]. rewrite (bind_Some _ _ _ _ _ E). destruct (Hs _ _ E) as [Ha Ef]. apply (Hk a Ha). by rewrite Ef.
  - intros b f' (a & f1 & E & Eb)%bind_inv. destruct (Hs _ _ E) as [Ha <-]. by apply (Hk a Ha).
Qed.

Lemma gives_draw {A} (dist : Draws F -> nat -> A) (Q : A -> Prop) : (forall n, Q (dist draws n)) -> gives (draw draws dist) Q.
Proof. intros Hd f. split; [by eexists|]. intros a f' [= <- <-]. split; [apply Hd|done]. Qed.

Lemma clamp_range v lo hi n :
  0 <= lo <= hi -> hi < 2 ^ 53 -> d_trunc (d_clamp v (d_of lo) (d_of hi)) = Some n -> lo <= n <= hi.
Proof.
  intros Hl Hh. unfold d_clamp. destruct (d_lt v (d_of lo)) eqn:E1; [rewrite d_trunc_of by lia; intros [= <-]; lia|].
  destruct (d_lt (d_of hi) v) eqn:E2; [rewrite d_trunc_of by lia; intros [= <-]; lia|].
  destruct (d_nan v) eqn:Ev; [by rewrite d_trunc_nan|]. destruct (d_trunc_between v lo hi) as (m & -> & Hm); [done..|]. by intros [= <-].
Qed.

Lemma clamp_defined v lo hi : 0 <= lo <= hi -> hi < 2 ^ 53 -> d_nan v = false -> is_Some (d_trunc (d_clamp v (d_of lo) (d_of hi))).
Proof.
  intros Hl Hh Hv. unfold d_clamp. destruct (d_lt v (d_of lo)) eqn:E1; [rewrite d_trunc_of by lia; eauto|].
  destruct (d_lt (d_of hi) v) eqn:E2; [rewrite d_trunc_of by lia; eauto|]. destruct (d_trunc_between v lo hi) as (m & -> & Hm); eauto.
Qed.

Lemma limit_price_gives side : gives (limit_price draws side) (fun p => 1 <= p <= 100000).
Proof.
  intros f. unfold limit_price. rewrite (bind_Some _ _ _ _ _ eq_refl), gets_bind. cbv zeta. cbn [mid_price_].
  match goal with |- context [d_clamp ?x _ _] => set (raw := x) end. split.
  - intros Hf. unfold lift. destruct (clamp_defined raw CLIENT_MIN_PRICE CLIENT_MAX_PRICE) as [n ->]; [by vm_compute..| |by eexists].
    assert (d_nan (d_mul (d_abs (log_return_dist_ draws (rng_ f))) (mid_price_ f)) = false) as Hsp by (apply d_mul_nan; [apply d_abs_finite, log_return_finite|done]).
    unfold raw. destruct side; [by apply d_sub_nan|by apply d_add_nan].
  - intros p f' E. unfold lift in E. destruct (d_trunc _) as [n|] eqn:En; [|done]. injection E as <- <-. split; [|done].
    apply (clamp_range raw CLIENT_MIN_PRICE CLIENT_MAX_PRICE); [by vm_compute..|done].
Qed.

Lemma order_qty_gives : gives (order_qty draws) (fun q => 1 <= q <= 999999).
Proof.
  unfold order_qty. apply (gives_bind _ _ (fun q => d_nan q = false)); [apply gives_draw, qty_number|]. intros q Hq f. unfold lift. split.
  - intros _. destruct (clamp_defined q 1 kOuchMaxQuantity) as [n ->]; [by vm_compute..|done|by eexists].
  - intros n f' E. destruct (d_trunc _) as [m|] eqn:En; [|done]. injection E as <- <-. split; [|done]. by apply (clamp_range q 1 kOuchMaxQuantity) in En.
Qed.

Lemma enter_msg_wf user_ref_num side quantity price tif :
  is_u32 user_ref_num -> is_u32 quantity -> is_u64 price -> is_u8 tif -> inbound_wf (enter_order (enter_msg user_ref_num side quantity price tif)).
Proof. intros. destruct side; plain_message. Qed.

Lemma replace_msg_wf orig user_ref_num quantity price :
  is_u32 orig -> is_u32 user_ref_num -> is_u32 quantity -> is_u64 price -> inbound_wf (replace_order (replace_msg orig user_ref_num quantity price)).
Proof. intros. plain_message. Qed.

Lemma make_cancel_wf target : is_u32 (tg_user_ref_num target) -> inbound_wf (cancel_order (make_cancel target)).
Proof. intros. plain_message. Qed.

Lemma valid_quantity_ok q : 1 <= q <= 999999 -> valid_quantity q = true.
Proof. intros Hq. unfold valid_quantity, kOuchMaxQuantity. rewrite Z.gtb_ltb. apply andb_true_iff. split; [apply Z.ltb_lt|apply Z.leb_le]; lia. Qed.

Lemma limit_accepted p : 1 <= p <= 100000 -> to_engine_price (to_ouch_price p) exchange_band = Some (mkEnginePrice LIMIT p).
Proof. intros Hp. rewrite to_ouch_price_small by lia. apply to_engine_price_cents; [cbn; lia|lia]. Qed.

(** A whole Enter, as it comes out of the draws. *)
Definition enter_valid (user_ref_num : Z) (m : OuchEnterOrder) : Prop :=
  inbound_wf (enter_order m) /\ eo_user_ref_num m = user_ref_num /\ ec_reject_reason (check_enter m exchange_band) = 0.

Lemma make_enter_gives user_ref_num : is_u32 user_ref_num -> gives (make_enter draws user_ref_num) (enter_valid user_ref_num).
Proof.
  intros Hu. unfold make_enter. apply (gives_bind _ _ (fun _ => True)); [by apply gives_draw|]. intros s _.
  apply (gives_bind _ _ (fun _ => True)); [by apply gives_draw|]. intros t _. cbv zeta.
  apply (gives_bind _ _ _ _ order_qty_gives). intros q Hq. set (side := if s then ASK else BID).
  assert (to_engine_side (to_ouch_side side) = Some side) as Hside by (by destruct side). assert (is_u32 q) as Hq32 by (unfold is_u32; lia).
  apply (gives_bind _ _ (fun p => if negb t then p = kMarketPrice else exists cents, 1 <= cents <= 100000 /\ p = to_ouch_price cents)).
  { destruct t; cbn [negb]; [|by apply gives_ret]. apply (gives_bind _ _ _ _ (limit_price_gives side)). intros p Hp. apply gives_ret. by exists p. }
  intros p Hp. apply gives_ret. unfold enter_valid, check_enter.
  cbn [enter_msg eo_user_ref_num eo_side eo_quantity eo_price eo_time_in_force eo_display eo_capacity eo_intermarket_sweep_eligibility eo_cross_type].
  rewrite Hside, valid_quantity_ok by lia. destruct t; cbn [negb] in *.
  - destruct Hp as (cents & Hp & ->). split; [apply enter_msg_wf; [done|done|apply u64_range|done]|]. split; [done|]. rewrite limit_accepted by lia. reflexivity.
  - subst p. split; [apply enter_msg_wf; try done; unfold kMarketPrice; by split|]. split; [done|]. reflexivity.
Qed.

Definition replace_valid (user_ref_num : Z) (target : Target) (m : OuchReplaceOrder) : Prop :=
  inbound_wf (replace_order m) /\ ro_user_ref_num m = user_ref_num /\ ro_orig_user_ref_num m = tg_user_ref_num target /\
  forall side, rc_valid (check_replace m side exchange_band) = true.

Lemma make_replace_gives user_ref_num target :
  is_u32 user_ref_num -> is_u32 (tg_user_ref_num target) -> gives (make_replace draws user_ref_num target) (replace_valid user_ref_num target).
Proof.
  intros Hu Ht. unfold make_replace. apply (gives_bind _ _ _ _ order_qty_gives). intros q Hq.
  apply (gives_bind _ _ _ _ (limit_price_gives (tg_side target))). intros p Hp. apply gives_ret.
  split; [apply replace_msg_wf; try done; [unfold is_u32; lia|apply u64_range]|]. split; [done|]. split; [done|]. intros side.
  unfold check_replace. cbn [replace_msg ro_quantity ro_price ro_time_in_force ro_display ro_intermarket_sweep_eligibility ro_appendage ro_side].
  rewrite valid_quantity_ok, limit_accepted by lia. reflexivity.
Qed.

(** What [build_message] may give. *)
Definition message_valid (user_ref_num : Z) (target : option Target) (kind : FrameKind) (msg : OuchInboundFrame) : Prop :=
  inbound_wf msg /\
  match kind, msg with
  | KIND_ENTER, enter_order m => eo_user_ref_num m = user_ref_num /\ ec_reject_reason (check_enter m exchange_band) = 0
  | KIND_REPLACE, replace_order m =>
      ro_user_ref_num m = user_ref_num /\ (exists t, target = Some t /\ ro_orig_user_ref_num m = tg_user_ref_num t) /\
      forall side, rc_valid (check_replace m side exchange_band) = true
  | KIND_CANCEL, cancel_order m => (exists t, target = Some t /\ xo_user_ref_num m = tg_user_ref_num t) /\ xo_quantity m = 0
  | _, _ => False
  end.

(** The choice of a message, after the mid price has been moved. *)
Lemma choose_gives user_ref_num target :
  is_u32 user_ref_num -> (forall t, target = Some t -> is_u32 (tg_user_ref_num t)) ->
  gives (r ← draw draws roll_dist_;
    match target with
    | None => m ← make_enter draws user_ref_num; mret (KIND_ENTER, enter_order m)
    | Some target =>
        if (r >? 20) then m ← make_enter draws user_ref_num; mret (KIND_ENTER, enter_order m)
        else if (r >? 8) then mret (KIND_CANCEL, cancel_order (make_cancel target))
        else m ← make_replace draws user_ref_num target; mret (KIND_REPLACE, replace_order m)
    end) (fun x => message_valid user_ref_num target x.1 x.2).
Proof.
  intros Hu Ht. apply (gives_bind _ _ (fun _ => True)); [by apply gives_draw|]. intros r _.
  assert (forall target, gives (m ← make_enter draws user_ref_num; mret (KIND_ENTER, enter_order m)) (fun x => message_valid user_ref_num target x.1 x.2)) as Henter.
  { intros tg. apply (gives_bind _ _ _ _ (make_enter_gives user_ref_num Hu)). intros m (? & ? & ?). by apply gives_ret. }
  destruct target as [t|]; [|apply Henter]. destruct (r >? 20); [apply Henter|]. destruct (r >? 8).
  - apply gives_ret. split; [by apply make_cancel_wf, Ht|]. split; [by exists t|done].
  - apply (gives_bind _ _ _ _ (make_replace_gives user_ref_num t Hu (Ht t eq_refl))). intros m (? & ? & ? & ?). apply gives_ret.
    split; [done|]. split; [done|]. split; [by exists t|done].
Qed.

Lemma build_message_ok user_ref_num target f :
  is_u32 user_ref_num -> (forall t, target = Some t -> is_u32 (tg_user_ref_num t)) ->
  (d_finite (next_mid draws f) = true -> is_Some (build_message draws user_ref_num target f)) /\
  (forall kind msg f', build_message draws user_ref_num target f = Some ((kind, msg), f') ->
     message_valid user_ref_num target kind msg /\ mid_price_ f' = next_mid draws f).
Proof.
  intros Hu Ht. unfold build_message, next_mid. rewrite modify_bind, gets_bind. cbn [frame_count_].
  destruct (_ =? 0); cbn [when]; rewrite ?bind_bind, ?ret_bind, ?(bind_Some (draw draws log_return_dist_) _ _ _ _ eq_refl), ?modify_bind;
    cbn [mid_price_ frame_count_ rng_]; set (f1 := mkFactory _ _ _);
    destruct (choose_gives user_ref_num target Hu Ht f1) as [Htot Hsound]; (split; [exact Htot|]); intros kind msg f' E; exact (Hsound _ _ E).
Qed.
End Messages.

(** ** The mid price's walk *)

(** The states of the factory in a run of the program: what its start and the messages
    built so far have made of it. *)
Inductive factory_reachable {F : Type} `{Double F} (draws : Draws F) : OrderFactory (F:=F) -> Prop :=
| fr_new : factory_reachable draws OrderFactory_new
| fr_message f user_ref_num target msg f' :
    factory_reachable draws f -> is_u32 user_ref_num -> (forall t, target = Some t -> is_u32 (tg_user_ref_num t)) ->
    build_message draws user_ref_num target f = Some (msg, f') -> factory_reachable draws f'.

(** The draws never take the mid price past what a double can hold.  (Nothing in the
    factory enforces it, see [infinite_mid_undefined].) *)
Class WalkLaws {F : Type} `{Double F} (draws : Draws F) : Prop := {
  walk_draws :: DrawLaws draws;
  walk_finite f : factory_reachable draws f -> d_finite (next_mid draws f) = true;
}.

(** ** The claim *)

Section Claims.
Context {F : Type} `{DoubleLaws F} (draws : Draws F) `{!DrawLaws draws}.

(** C20: The factory's messages are valid.  Every message [build_message] returns is
    encodable and of the kind it reports; an Enter carries the UserRefNum it was given
    and the exchange finds nothing to reject in it, a Replace also carries its target and
    passes the exchange's checks for every side, and a Cancel asks for all of its target.
    It does return one, no conversion of a double being undefined, whenever the mid price
    it uses is finite, for draws that are what the distributions are documented to give
    (finite returns, sizes that are not NaN); and it moves the mid price as a random walk,
    so that this can be asked again.  The side condition is the code's: the walk is not
    bounded, and from an infinite mid price a bid is priced by converting a NaN
    ([infinite_mid_undefined]). *)
Theorem factory_messages_valid user_ref_num target f :
  is_u32 user_ref_num -> (forall t, target = Some t -> is_u32 (tg_user_ref_num t)) ->
  (d_finite (next_mid draws f) = true -> is_Some (build_message draws user_ref_num target f)) /\
  (forall kind msg f', build_message draws user_ref_num target f = Some ((kind, msg), f') ->
     message_valid user_ref_num target kind msg /\ mid_price_ f' = next_mid draws f).
Proof. by apply build_message_ok. Qed.

(** What [make_invalid] is for: an Enter the exchange rejects. *)
Lemma make_invalid_rejected user_ref_num f m f' :
  is_u32 user_ref_num -> (forall n, 1000000 <= big_qty_dist_ draws n <= 2000000) ->
  make_invalid draws user_ref_num f = Some (m, f') -> ec_reject_reason (check_enter m exchange_band) <> 0.
Proof.
  intros Hu Hbig E. unfold make_invalid in E. apply bind_inv in E as (m0 & f0 & E0 & E). apply bind_inv in E as (q & f1 & Eq & E).
  unfold draw in Eq. injection Eq as <- <-. injection E as <- <-.
  assert (valid_quantity (big_qty_dist_ draws (rng_ f0)) = false) as Hq.
  { specialize (Hbig (rng_ f0)). unfold valid_quantity, kOuchMaxQuantity. apply andb_false_iff. right. apply Z.leb_gt. lia. }
  unfold check_enter. cbn [eo_side eo_quantity]. destruct (to_engine_side _); [|done]. by rewrite Hq.
Qed.
End Claims.

(** Whole numbers with NaN and infinities, for the examples.  A product of more than
    1024 bits overflows. *)
Module Examples.
Inductive num := fin (z : Z) | inf (negative : bool) | nan.

Definition num_neg (x : num) : num := match x with fin z => fin (- z) | inf b => inf (negb b) | nan => nan end.
Definition num_add (x y : num) : num :=
  match x, y with
  | nan, _ | _, nan => nan
  | fin a, fin b => fin (a + b)
  | inf a, inf b => if Bool.eqb a b then inf a else nan
  | inf a, fin _ | fin _, inf a => inf a
  end.
Definition num_sign (x : num) : Z := match x with fin z => Z.sgn z | inf true => -1 | inf false => 1 | nan => 0 end.
Definition num_mul (x y : num) : num :=
  match x, y with
  | nan, _ | _, nan => nan
  | fin a, fin b => if Z.abs (a * b) <? 2 ^ 1024 then fin (a * b) else inf (a * b <? 0)
  | _, _ => if num_sign x * num_sign y =? 0 then nan else inf (num_sign x * num_sign y <? 0)
  end.
Definition num_lt (x y : num) : bool :=
  match x, y with
  | nan, _ | _, nan => false
  | fin a, fin b => a <? b
  | inf a, inf b => a && negb b
  | inf a, fin _ => a
  | fin _, inf b => negb b
  end.
#[export] Instance num_double : Double num := {
  d_of := fin; d_add := num_add; d_sub x y := num_add x (num_neg y); d_mul := num_mul;
  d_abs x := match x with fin z => fin (Z.abs z) | inf _ => inf false | nan => nan end;
  d_exp x := match x with fin z => fin (if z <? 0 then 0 else 2 ^ z) | inf true => fin 0 | inf false => inf false | nan => nan end;
  d_lt := num_lt; d_trunc x := match x with fin z => if 0 <=? z then Some z else None | _ => None end;
  d_finite x := match x with fin _ => true | _ => false end; d_nan x := match x with nan => true | _ => false end;
}.
#[export] Instance num_double_laws : DoubleLaws num.
Proof.
  split; cbn [d_of d_add d_sub d_mul d_abs d_lt d_trunc d_finite d_nan num_double].
  - done.
  - intros n Hn. by rewrite (proj2 (Z.leb_le 0 n)) by lia.
  - intros [z| |] lo hi Hl Hh ? H1 H2; [|by destruct negative|done]. cbn [num_lt] in H1, H2. apply Z.ltb_ge in H1, H2. rewrite (proj2 (Z.leb_le 0 z)) by lia. by exists z.
  - by intros [].
  - by intros [].
  - intros [a| |] [b| |]; try done. intros _ _. unfold num_mul. by destruct (_ <? 2 ^ 1024).
  - by intros [] [].
  - by intros [] [].
Qed.

Definition ex_draws : Draws num :=
  mkDraws num (fun n => fin (Z.of_nat n mod 3 - 2)) (fun n => fin (90 + Z.of_nat n)) (fun n => Nat.even n) (fun n => Nat.even (Nat.div2 n))
    (fun n => 37 * Z.of_nat n mod 100) (fun n => 1000000 + Z.of_nat n).
#[export] Instance ex_draw_laws : DrawLaws ex_draws.
Proof. by split. Qed.
(** These returns are never positive, so the mid price never grows. *)
Definition low (x : num) : Prop := exists z, x = fin z /\ 0 <= z <= 10000.

Lemma ex_next_low f : low (mid_price_ f) -> low (next_mid ex_draws f).
Proof.
  intros (z & Ez & Hz). unfold next_mid. destruct (_ =? 0); [|by exists z]. rewrite Ez. cbn [d_mul d_exp num_double ex_draws log_return_dist_].
  set (r := Z.of_nat (rng_ f) mod 3 - 2). assert (r <= 0) as Hr by (unfold r; pose proof (Z.mod_pos_bound (Z.of_nat (rng_ f)) 3); lia).
  assert (0 <= (if r <? 0 then 0 else 2 ^ r) <= 1) as He by (destruct (Z.ltb_spec r 0); [lia|]; assert (r = 0) as -> by lia; done).
  set (e := if r <? 0 then 0 else 2 ^ r) in *. unfold num_mul. assert (10000 < 2 ^ 1024) by done.
  rewrite (proj2 (Z.ltb_lt _ _)) by (rewrite Z.abs_eq by nia; nia). exists (z * e). split; [done|nia].
Qed.

Lemma ex_reachable_low f : factory_reachable ex_draws f -> low (mid_price_ f).
Proof.
  induction 1 as [|f user_ref_num target [kind msg] f' _ IH Hu Ht E]; [by exists 10000|].
  apply (build_message_ok ex_draws user_ref_num target f Hu Ht) in E as [_ ->]. by apply ex_next_low.
Qed.

#[export] Instance ex_walk_laws : WalkLaws ex_draws.
Proof. split; [apply _|]. intros f Hf. destruct (ex_next_low f (ex_reachable_low f Hf)) as (z & -> & _). done. Qed.

Definition ex_target : Target := mkTarget 3 ASK.

Lemma factory_messages_valid_witness :
  is_Some (build_message ex_draws 7 (Some ex_target) OrderFactory_new) /\
  (forall kind msg f', build_message ex_draws 7 (Some ex_target) OrderFactory_new = Some ((kind, msg), f') ->
     message_valid 7 (Some ex_target) kind msg /\ mid_price_ f' = fin 10000).
Proof.
  destruct (factory_messages_valid ex_draws 7 (Some ex_target) OrderFactory_new) as [Htot Hsound]; [by vm_compute|intros t [= <-]; by vm_compute|].
  split; [by apply Htot|exact Hsound].
Defined.

(** A mid price that has overflowed: the next bid's price is undefined. *)
Lemma infinite_mid_undefined count : limit_price ex_draws BID (mkFactory (inf false) count 0) = None.
Proof. reflexivity. Qed.

(** It can: here after sixteen messages with one large return among the draws. *)
Definition wild_draws : Draws num :=
  mkDraws num (fun _ => fin 2000) (qty_dist_ ex_draws) (side_dist_ ex_draws) (fun _ => false) (fun _ => 50) (big_qty_dist_ ex_draws).
Fixpoint after_messages (n : nat) (f : OrderFactory (F:=num)) : OrderFactory :=
  match n with O => f | S n => match build_message wild_draws 1 None f with Some (_, f) => after_messages n f | None => f end end.
Lemma mid_overflows : mid_price_ (after_messages 16 OrderFactory_new) = inf false.
Proof. by vm_compute. Qed.
End Examples.
