(* ===== verification/Client.v ===== *)
(** * Client: the load generator's connections
    ([src/client/include/client_state.hpp], [src/client/src/load_generator.cpp])

    One client is a connection that logs in, keeps up to [PIPELINE_DEPTH] Enters in
    flight and reads what the exchange sends.  The handlers work on one client, the order
    factory they share and the kernel, whose answers (time, sockets, [recv], [send]) are
    parameters, by the number of calls made before.  [Socket] is what the kernel keeps of
    the connection: the events it is armed for and, as history, the bytes that went
    through it and what happened to the client on all its connections, in order. *)

From S2P Require Import Prelude Types WireCodec OuchProto OuchCorrect Validation SoupProto OuchResponder Buffer OrderFactory.

(** ** Configuration *)

Definition MAX_ACTIVE_ORDERS : Z := 32.
Definition PIPELINE_DEPTH : Z := 32.
Definition MAX_BATCH_MESSAGES : Z := 2 * PIPELINE_DEPTH.
Definition RECONNECT_DELAY_MS : Z := 1000.
Definition SOUP_USERNAME_PREFIX : list Z := str "LG".
Definition SOUP_PASSWORD : list Z := str "LOADGEN".

Definition kWriteBufBytes : nat := Z.to_nat 4096.
Definition kReadBufBytes : nat := Z.to_nat 65536.

(** ** State *)

Record ActiveOrder := mkActive { ao_user_ref_num : Z; ao_side : Side }.

(** The live-order ring. *)
Record ActiveRing := mkRing { active_orders : list ActiveOrder; active_write : Z; active_count : Z; active_read : Z }.

(** The counters of what was sent and answered. *)
Record ClientCounts := mkCounts {
  requests_sent : Z; responses_ack : Z; responses_match : Z; responses_err : Z; responses_canceled : Z; responses_replaced : Z;
}.

Record ClientState := mkClientState {
  cs_client_id : Z;
  cs_fd : Z;
  cs_connecting : bool;
  cs_logged_in : bool;
  cs_write_buf : Buffer;
  cs_read_buf : Buffer;
  cs_acks_pending : Z;
  cs_next_send_ns : Z;
  cs_last_sent_ns : Z;
  cs_reconnect_at_ns : Z;
  cs_reconnect_backoff_ms : Z;
  cs_next_user_ref_num : Z;
  cs_next_sequence : Z;
  cs_active : ActiveRing;
  cs_counts : ClientCounts;
  cs_orders_in_flight : Z;
}.
#[export] Instance ClientState_eta : Eta ClientState := fun c => mkClientState (cs_client_id c) (cs_fd c) (cs_connecting c)
  (cs_logged_in c) (cs_write_buf c) (cs_read_buf c) (cs_acks_pending c) (cs_next_send_ns c) (cs_last_sent_ns c)
  (cs_reconnect_at_ns c) (cs_reconnect_backoff_ms c) (cs_next_user_ref_num c) (cs_next_sequence c) (cs_active c) (cs_counts c)
  (cs_orders_in_flight c).

Definition ActiveRing_new : ActiveRing := mkRing (replicate (Z.to_nat MAX_ACTIVE_ORDERS) (mkActive 0 BID)) 0 0 0.
Definition ClientState_new (id : Z) : ClientState :=
  mkClientState id (-1) false false (Buffer_new kWriteBufBytes) (Buffer_new kReadBufBytes) 0 0 0 0 0 1 1 ActiveRing_new
    (mkCounts 0 0 0 0 0 0) 0.

(** ** Messages from the exchange *)

Definition bump_ack (n : ClientCounts) : ClientCounts :=
  mkCounts (requests_sent n) (u64 (responses_ack n + 1)) (responses_match n) (responses_err n) (responses_canceled n) (responses_replaced n).
Definition bump_match (n : ClientCounts) : ClientCounts :=
  mkCounts (requests_sent n) (responses_ack n) (u64 (responses_match n + 1)) (responses_err n) (responses_canceled n) (responses_replaced n).
Definition bump_err (n : ClientCounts) : ClientCounts :=
  mkCounts (requests_sent n) (responses_ack n) (responses_match n) (u64 (responses_err n + 1)) (responses_canceled n) (responses_replaced n).
Definition bump_canceled (n : ClientCounts) : ClientCounts :=
  mkCounts (requests_sent n) (responses_ack n) (responses_match n) (responses_err n) (u64 (responses_canceled n + 1)) (responses_replaced n).
Definition bump_replaced (n : ClientCounts) : ClientCounts :=
  mkCounts (requests_sent n) (responses_ack n) (responses_match n) (responses_err n) (responses_canceled n) (u64 (responses_replaced n + 1)).
Definition bump_sent (n : ClientCounts) : ClientCounts :=
  mkCounts (u64 (requests_sent n + 1)) (responses_ack n) (responses_match n) (responses_err n) (responses_canceled n) (responses_replaced n).

(** The UserRefNum is a [uint32_t]. *)
Definition rememberOrder (user_ref_num : Z) (side : Side) (r : ActiveRing) : ActiveRing :=
  mkRing (<[Z.to_nat (active_write r mod MAX_ACTIVE_ORDERS) := mkActive (u32 user_ref_num) side]> (active_orders r))
    (u32 (active_write r + 1)) (if active_count r <? MAX_ACTIVE_ORDERS then active_count r + 1 else active_count r) (active_read r).

(** The lambda of [handleOuch]. *)
Definition answer_enter (c : ClientState) : ClientState :=
  if cs_acks_pending c >? 0
  then (c <| cs_acks_pending := cs_acks_pending c - 1 |>) <| cs_orders_in_flight := i64 (cs_orders_in_flight c - 1) |>
  else c.

Definition count_response (bump : ClientCounts -> ClientCounts) (c : ClientState) : ClientState :=
  c <| cs_counts := bump (cs_counts c) |>.

Definition remember (side : Z) (user_ref_num : Z) (c : ClientState) : ClientState :=
  match to_engine_side side with
  | Some side => c <| cs_active := rememberOrder user_ref_num side (cs_active c) |>
  | None => c
  end.

Definition handleOuch (msg : OuchOutboundFrame) (c : ClientState) : bool * ClientState :=
  match msg with
  | order_accepted a => (true, remember (acc_side a) (acc_user_ref_num a) (count_response bump_ack (answer_enter c)))
  | order_rejected _ => (true, count_response bump_err (answer_enter c))
  | order_executed _ => (true, count_response bump_match c)
  | order_canceled _ => (true, count_response bump_canceled c)
  | order_replaced r => (true, remember (rep_side r) (rep_user_ref_num r) (count_response bump_replaced c))
  | OUTBOUND_NONE => (false, c)
  end.

Definition handleSoupPacket (packet : SoupPacket) : M ClientState bool := fun c =>
  let type := soup_type packet in
  if type =? SOUP_LOGIN_ACCEPTED then
    match decode_soup_login_accepted (soup_payload packet) with
    | None => Some (false, c)
    | Some accepted =>
        Some (true, ((c <| cs_next_sequence := la_sequence_number accepted |>) <| cs_logged_in := true |>) <| cs_reconnect_backoff_ms := 0 |>)
    end
  else if type =? SOUP_LOGIN_REJECTED then Some (false, c)
  else if type =? SOUP_SEQUENCED_DATA then
    if negb (cs_logged_in c) then Some (false, c) else
    let c := c <| cs_next_sequence := u64 (cs_next_sequence c + 1) |> in
    match decode_outbound_ouch (soup_payload packet) with
    | None => None
    | Some OUTBOUND_NONE => Some (false, c)
    | Some msg => Some (handleOuch msg c)
    end
  else if (type =? SOUP_SERVER_HEARTBEAT) || (type =? SOUP_DEBUG) then Some (true, c)
  else Some (false, c).

(** ** The kernel *)

Inductive connect_result := connected | in_progress | refused.

Record Kernel := mkKernel {
  k_now_ns : nat -> Z;                       (** [now_ns()] *)
  k_socket : nat -> Z;                       (** a descriptor or -1 *)
  k_connect : nat -> connect_result;
  k_so_error : nat -> Z;
  k_recv : nat -> nat -> recv_result;        (** at most so many bytes *)
  k_send : nat -> list Z -> send_result;
}.

Record Interest := mkInterest { want_in : bool; want_out : bool }.

(** What happens to a client, from outside: a connection is opened, a packet is put in the
    write buffer, the kernel delivers bytes. *)
Inductive io := opened | enqueued (packet : list Z) | delivered (bytes : list Z).

Record Socket := mkSocket {
  ln_armed : option Interest;                (** what epoll watches the socket for *)
  ln_sent : list Z;                          (** what the kernel took on this connection *)
  ln_rcvd : list Z;                          (** what it delivered *)
  ln_trace : list io;                        (** everything so far, earlier connections included *)
}.
Definition Socket_new : Socket := mkSocket None [] [] [].

Section Handlers.
Context {F : Type} `{Double F} (draws : Draws F) (kernel : Kernel).
(** 0 without a rate limit ([EXPECTED_THROUGHPUT 0]). *)
Context (inter_arrival_ns_ : Z).

Record Gen := mkGen { g_cs : ClientState; g_link : Socket; g_factory : OrderFactory (F:=F); g_calls : nat }.

Definition sys {A} (f : Kernel -> nat -> A) : M Gen A := fun g =>
  Some (f kernel (g_calls g), mkGen (g_cs g) (g_link g) (g_factory g) (S (g_calls g))).
Definition now_ns : M Gen Z := sys k_now_ns.
Definition set_cs (f : ClientState -> ClientState) : M Gen unit :=
  modify (fun g => mkGen (f (g_cs g)) (g_link g) (g_factory g) (g_calls g)).
Definition set_link (f : Socket -> Socket) : M Gen unit :=
  modify (fun g => mkGen (g_cs g) (f (g_link g)) (g_factory g) (g_calls g)).
Definition on_cs {A} (m : M ClientState A) : M Gen A := fun g =>
  match m (g_cs g) with Some (a, c) => Some (a, mkGen c (g_link g) (g_factory g) (g_calls g)) | None => None end.
Definition on_factory {A} (m : M OrderFactory A) : M Gen A := fun g =>
  match m (g_factory g) with Some (a, f) => Some (a, mkGen (g_cs g) (g_link g) f (g_calls g)) | None => None end.

Definition epollAdd (i : Interest) : M Gen unit := set_link (fun l => mkSocket (Some i) (ln_sent l) (ln_rcvd l) (ln_trace l)).
Definition epollMod (i : Interest) : M Gen unit :=
  set_link (fun l => mkSocket (match ln_armed l with Some _ => Some i | None => None end) (ln_sent l) (ln_rcvd l) (ln_trace l)).
Definition epollDel : M Gen unit := set_link (fun l => mkSocket None (ln_sent l) (ln_rcvd l) (ln_trace l)).

(** ** Connecting *)

Definition reconnect : M Gen unit :=
  c ← gets g_cs;
  if cs_fd c =? -1 then mret tt else
  _ ← epollDel;
  let backoff := if cs_reconnect_backoff_ms c <? RECONNECT_DELAY_MS then u32 (cs_reconnect_backoff_ms c + 50) else cs_reconnect_backoff_ms c in
  now ← now_ns;
  set_cs (fun c => mkClientState (cs_client_id c) (-1) (cs_connecting c) false (cs_write_buf c) (cs_read_buf c) 0
    (cs_next_send_ns c) (cs_last_sent_ns c) (u64 (now + backoff * 1000000)) backoff (cs_next_user_ref_num c) (cs_next_sequence c)
    (cs_active c) (cs_counts c) (i64 (cs_orders_in_flight c - cs_acks_pending c))).

Definition connectClient : M Gen bool :=
  fd ← sys k_socket;
  if fd =? -1 then mret false else
  _ ← set_cs (fun c => mkClientState (cs_client_id c) fd true false (buf_clear (cs_write_buf c)) (buf_clear (cs_read_buf c)) 0
    (cs_next_send_ns c) (cs_last_sent_ns c) (cs_reconnect_at_ns c) (cs_reconnect_backoff_ms c) (cs_next_user_ref_num c)
    (cs_next_sequence c) (mkRing (active_orders (cs_active c)) 0 0 0) (cs_counts c) (cs_orders_in_flight c));
  _ ← set_link (fun l => mkSocket None [] [] (ln_trace l ++ [opened]));
  rc ← sys k_connect;
  match rc with
  | connected | in_progress => _ ← epollAdd (mkInterest false true); mret true
  | refused => _ ← set_cs (fun c => c <| cs_fd := -1 |>); mret false
  end.

(** ** Sending *)

(** The while loop: every round that goes on sends a byte. *)
Fixpoint flush_loop (fuel : nat) : M Gen unit :=
  b ← gets (fun g => cs_write_buf (g_cs g));
  if (buf_remaining_to_send b =? 0)%nat then set_cs (fun c => c <| cs_write_buf := buf_try_reset (cs_write_buf c) |>) else
  match fuel with
  | O => lift None
  | S fuel =>
      r ← sys (fun k n => k_send k n (buf_pending b));
      _ ← set_cs (fun c => c <| cs_write_buf := buf_write_to r (cs_write_buf c) |>);
      match r with
      | took (S n) =>
          _ ← set_link (fun l => mkSocket (ln_armed l) (ln_sent l ++ take (S n) (buf_pending b)) (ln_rcvd l) (ln_trace l));
          now ← now_ns;
          _ ← set_cs (fun c => c <| cs_last_sent_ns := now |>);
          flush_loop fuel
      | send_error true => epollMod (mkInterest true true)
      | _ => reconnect
      end
  end.

Definition flushWrite : M Gen unit :=
  n ← gets (fun g => buf_remaining_to_send (cs_write_buf (g_cs g))); flush_loop n.

Definition append_write (bytes : list Z) : M Gen unit :=
  appended ← gets (fun g => buf_append kWriteBufBytes bytes (cs_write_buf (g_cs g)));
  _ ← set_cs (fun c => c <| cs_write_buf := appended.2 |>);
  when appended.1 (set_link (fun l => mkSocket (ln_armed l) (ln_sent l) (ln_rcvd l) (ln_trace l ++ [enqueued bytes]))).

Definition sendHeartbeat : M Gen unit :=
  _ ← append_write (encode_soup_empty SOUP_CLIENT_HEARTBEAT (replicate kSoupHeaderLen 0)).2;
  flushWrite.

(** [snprintf] with ["%s%04u"]. *)
Definition username (id : Z) : list Z :=
  let n := id mod 10000 in
  SOUP_USERNAME_PREFIX ++ [ch "0" + n / 1000; ch "0" + n / 100 mod 10; ch "0" + n / 10 mod 10; ch "0" + n mod 10].

Definition client_login (c : ClientState) : SoupLoginRequest :=
  mkLoginRequest (alpha 6 (username (cs_client_id c))) (alpha 10 SOUP_PASSWORD) (alpha 10 []) (cs_next_sequence c).

Definition handleConnect : M Gen unit :=
  err ← sys k_so_error;
  if negb (err =? 0) then reconnect else
  _ ← set_cs (fun c => c <| cs_connecting := false |>);
  _ ← epollMod (mkInterest true false);
  c ← gets g_cs;
  _ ← append_write (encode_soup_login_request (client_login c) (replicate (kSoupHeaderLen + kSoupLoginRequestLen) 0)).2;
  flushWrite.

(** What [buildBatch] does after a message of a kind is in the buffer. *)
Definition count_message (kind : FrameKind) (c : ClientState) : ClientState :=
  let next := u32 (cs_next_user_ref_num c + 1) in
  let a := cs_active c in
  let target_used := mkRing (active_orders a) (active_write a) (active_count a) (u32 (active_read a + 1)) in
  count_response bump_sent
    match kind with
    | KIND_ENTER | KIND_INVALID =>
        ((c <| cs_next_user_ref_num := next |>) <| cs_acks_pending := u32 (cs_acks_pending c + 1) |>)
          <| cs_orders_in_flight := i64 (cs_orders_in_flight c + 1) |>
    | KIND_REPLACE => (c <| cs_next_user_ref_num := next |>) <| cs_active := target_used |>
    | KIND_CANCEL => c <| cs_active := target_used |>
    end.

(** The order a Cancel or Replace is to go for. *)
Definition pick_target (a : ActiveRing) : option (option Target) :=
  if active_count a >? 0 then
    match active_orders a !! Z.to_nat (active_read a mod MAX_ACTIVE_ORDERS) with
    | Some active => Some (Some (mkTarget (ao_user_ref_num active) (ao_side active)))
    | None => None
    end
  else Some None.

(** The for loop with [n] rounds left; [packet] is the scratch array. *)
Fixpoint batch_loop (n : nat) (packet : list Z) : M Gen unit :=
  match n with
  | O => mret tt
  | S n =>
      c ← gets g_cs;
      if negb (cs_acks_pending c <? PIPELINE_DEPTH) then mret tt else
      target ← lift (pick_target (cs_active c));
      '(kind, msg) ← on_factory (build_message draws (cs_next_user_ref_num c) target);
      let '(len, packet) := encode_soup_unsequenced msg packet in
      if (len =? 0)%nat || negb (buf_has_room kWriteBufBytes len (cs_write_buf c)) then mret tt else
      _ ← append_write (take len packet);
      _ ← set_cs (count_message kind);
      batch_loop n packet
  end.

Definition buildBatch : M Gen unit :=
  c ← gets g_cs;
  if negb (cs_logged_in c) then mret tt else
  if (0 <? buf_length (cs_write_buf c))%nat then mret tt else
  if cs_acks_pending c >=? PIPELINE_DEPTH then mret tt else
  early ← (if inter_arrival_ns_ >? 0 then now ← now_ns; mret (now <? cs_next_send_ns c) else mret false);
  if early : bool then mret tt else
  _ ← set_cs (fun c => c <| cs_write_buf := buf_clear (cs_write_buf c) |>);
  _ ← batch_loop (if inter_arrival_ns_ >? 0 then 1 else Z.to_nat MAX_BATCH_MESSAGES) (replicate 128 0);
  _ ← when (inter_arrival_ns_ >? 0) (now ← now_ns; set_cs (fun c => c <| cs_next_send_ns := u64 (now + inter_arrival_ns_) |>));
  flushWrite.

(** ** Receiving *)

(** The while loop; [false] when the connection was given up. *)
Fixpoint read_loop (fuel : nat) : M Gen bool :=
  b ← gets (fun g => cs_read_buf (g_cs g));
  if (buf_length b =? 0)%nat then mret true else
  match fuel with
  | O => lift None
  | S fuel =>
      let parsed := parse_soup_packet (buf_view b) in
      match soup_status parsed with
      | INCOMPLETE => mret true
      | MALFORMED => _ ← reconnect; mret false
      | PACKET =>
          ok ← on_cs (handleSoupPacket (soup_packet parsed));
          if negb ok then (_ ← reconnect; mret false) else
          _ ← set_cs (fun c => c <| cs_read_buf := buf_advance (soup_consumed parsed) (cs_read_buf c) |>);
          read_loop fuel
      end
  end.

Definition handleReadable : M Gen unit :=
  b ← gets (fun g => cs_read_buf (g_cs g));
  r ← sys (fun k n => k_recv k n (buf_remaining_capacity kReadBufBytes (buf_compact kReadBufBytes b)));
  _ ← set_cs (fun c => c <| cs_read_buf := buf_read_from kReadBufBytes r (cs_read_buf c) |>);
  match r with
  | received [] => reconnect
  | recv_error true => mret tt
  | recv_error false => reconnect
  | received bytes =>
      _ ← set_link (fun l => mkSocket (ln_armed l) (ln_sent l) (ln_rcvd l ++ bytes) (ln_trace l ++ [delivered bytes]));
      b ← gets (fun g => cs_read_buf (g_cs g));
      ok ← read_loop (buf_length b);
      if ok : bool then buildBatch else mret tt
  end.
End Handlers.
Arguments Gen F : clear implicits.
Arguments mkGen {F}. Arguments g_cs {F}. Arguments g_link {F}. Arguments g_factory {F}. Arguments g_calls {F}.
