(* ===== verification/ClientInvariant.v ===== *)
(** * ClientInvariant: what a client keeps true

    [track] is the client's side of the SoupBinTCP session as a reader of the protocol
    sees it: logged in or not, and the number of the next message.  [peer_of] follows the
    session through everything that happened to the client, over all its connections: it
    is what an observer of the bytes knows of it, the Enters that are unanswered included.
    [request_stream] is what a client may send on one connection.  The invariant ties them
    to the client's state; every handler of [Client] returns and keeps it. *)

From S2P Require Import Prelude Types WireCodec OuchProto OuchCorrect Validation SoupProto OuchResponder Reassembly Buffer OrderFactory Client.

(** ** Frames found by the parser *)

Definition frame_of (p : SoupPacket) : list Z := soup_frame (soup_type p) (soup_payload p).
Definition packet_fits (p : SoupPacket) : Prop := Z.of_nat (length (soup_payload p)) + 1 <= 65535.

Lemma parse_packet_inv l :
  Forall is_u8 l -> soup_status (parse_soup_packet l) = PACKET ->
  let r := parse_soup_packet l in
  l = frame_of (soup_packet r) ++ drop (soup_consumed r) l /\ packet_fits (soup_packet r) /\ Forall is_u8 (soup_payload (soup_packet r)) /\
  (0 < soup_consumed r)%nat.
Proof.
  intros Hu Hs. assert (l <> []) as Hl by (by intros ->). cbv zeta.
  destruct (parse_cases l Hu Hl) as [[_ E]|[(_ & _ & E)|[(_ & _ & _ & E)|[Hp E]]]]; [congruence..|]. rewrite E. cbn [soup_packet soup_consumed soup_payload].
  pose proof (load2_bound l Hu) as Hb. unfold packet_len in *. destruct l as [|b0 [|b1 [|b2 l]]]; [cbn in Hp; lia..|].
  change (take 2 (b0 :: b1 :: b2 :: l)) with [b0; b1] in *. set (n := load 2 false [b0; b1]) in *.
  assert (store 2 n = [b0; b1]) as Hn by (apply store_load_u16; by repeat (apply Forall_cons in Hu as [? Hu])).
  unfold subspan, kSoupHeaderLen. cbn [drop]. rewrite ?drop_0. cbn [length] in Hp.
  assert (length (take (Z.to_nat (2 + n) - 3) l) = Z.to_nat (n - 1)) as Hlen by (rewrite length_take; lia).
  split; [|split; [|split; [|lia]]].
  - unfold frame_of, soup_frame. cbn [soup_type soup_payload lookup_total list_lookup_total].
    rewrite Hlen. replace (Z.of_nat (Z.to_nat (n - 1)) + 1) with n by lia. rewrite Hn. cbn [app].
    replace (Z.to_nat (2 + n)) with (S (S (S (Z.to_nat (n - 1))))) by lia. cbn [drop Nat.sub]. by rewrite Nat.sub_0_r, take_drop.
  - unfold packet_fits. cbn [soup_payload]. rewrite Hlen. lia.
  - apply Forall_take. by repeat (apply Forall_cons in Hu as [? Hu]).
Qed.

(** ** The session as the client follows it *)

Definition track (st : bool * Z) (p : SoupPacket) : option (bool * Z) :=
  let type := soup_type p in
  if type =? SOUP_LOGIN_ACCEPTED then
    match decode_soup_login_accepted (soup_payload p) with Some a => Some (true, la_sequence_number a) | None => None end
  else if type =? SOUP_SEQUENCED_DATA then
    match st.1, decode_outbound_ouch (soup_payload p) with
    | false, _ | _, None | _, Some OUTBOUND_NONE => None
    | true, Some _ => Some (true, u64 (st.2 + 1))
    end
  else if (type =? SOUP_SERVER_HEARTBEAT) || (type =? SOUP_DEBUG) then Some st
  else None.

Fixpoint track_all (st : bool * Z) (ps : list SoupPacket) : option (bool * Z) :=
  match ps with
  | [] => Some st
  | p :: ps => match track st p with Some st => track_all st ps | None => None end
  end.

Lemma track_all_app st ps ps' :
  track_all st (ps ++ ps') = match track_all st ps with Some st' => track_all st' ps' | None => None end.
Proof. revert st. induction ps as [|p ps IH]; intros st; [done|]. cbn. destruct (track st p); [apply IH|done]. Qed.

Lemma decode_login_accepted_u64 payload a : decode_soup_login_accepted payload = Some a -> is_u64 (la_sequence_number a).
Proof.
  unfold decode_soup_login_accepted. destruct (negb _); [done|]. destruct (read_numeric _) as [v|] eqn:E; [|done]. intros [= <-]. by eapply read_numeric_u64.
Qed.

(** ** The session as an observer of the client's connections knows it *)

Record Peer := mkPeer {
  pe_logged : bool;
  pe_number : Z;             (** of the next message of the session *)
  pe_unanswered : Z;         (** Enters queued on this connection that were not answered *)
  pe_asked : Z;              (** the number when this connection was opened *)
  pe_rest : list Z;          (** delivered bytes that are no whole packet yet *)
}.

(** The client takes every Accepted and every Rejected for the answer to an Enter. *)
Definition answers (p : SoupPacket) : bool :=
  (soup_type p =? SOUP_SEQUENCED_DATA) &&
  match decode_outbound_ouch (soup_payload p) with Some (order_accepted _) | Some (order_rejected _) => true | _ => false end.

(** One packet; [false] if it breaks the protocol.  A message that breaks it still has
    its number. *)
Definition hear_packet (p : SoupPacket) (s : Peer) : bool * Peer :=
  match track (pe_logged s, pe_number s) p with
  | Some (logged, number) =>
      (true, mkPeer logged number (if answers p then Z.max 0 (pe_unanswered s - 1) else pe_unanswered s) (pe_asked s) (pe_rest s))
  | None =>
      (false, mkPeer (pe_logged s) (if (soup_type p =? SOUP_SEQUENCED_DATA) && pe_logged s then u64 (pe_number s + 1) else pe_number s)
        (pe_unanswered s) (pe_asked s) (pe_rest s))
  end.

(** The whole packets among the bytes that wait, up to one that breaks the protocol. *)
Fixpoint hear_loop (fuel : nat) (s : Peer) : Peer :=
  match fuel with
  | O => s
  | S fuel =>
      let parsed := parse_soup_packet (pe_rest s) in
      match soup_status parsed with
      | PACKET =>
          let '(go, s) := hear_packet (soup_packet parsed) s in
          if go : bool
          then hear_loop fuel (mkPeer (pe_logged s) (pe_number s) (pe_unanswered s) (pe_asked s) (drop (soup_consumed parsed) (pe_rest s)))
          else s
      | _ => s
      end
  end.
Definition hear (s : Peer) : Peer := hear_loop (length (pe_rest s)) s.

(** A packet that enters an order. *)
Definition enters (packet : list Z) : bool :=
  let parsed := parse_soup_packet packet in
  match soup_status parsed with
  | PACKET =>
      (soup_type (soup_packet parsed) =? SOUP_UNSEQUENCED_DATA) &&
      match decode_inbound_ouch (soup_payload (soup_packet parsed)) with Some (enter_order _) => true | _ => false end
  | _ => false
  end.

Definition peer_io (s : Peer) (e : io) : Peer :=
  match e with
  | opened => mkPeer false (pe_number s) 0 (pe_number s) []
  | enqueued packet => mkPeer (pe_logged s) (pe_number s) (pe_unanswered s + (if enters packet then 1 else 0)) (pe_asked s) (pe_rest s)
  | delivered bytes => hear (mkPeer (pe_logged s) (pe_number s) (pe_unanswered s) (pe_asked s) (pe_rest s ++ bytes))
  end.

Definition peer_of (trace : list io) : Peer := fold_left peer_io trace (mkPeer false 1 0 1 []).

Lemma peer_of_snoc trace e : peer_of (trace ++ [e]) = peer_io (peer_of trace) e.
Proof. unfold peer_of. by rewrite fold_left_app. Qed.

Lemma parse_consumed l : soup_status (parse_soup_packet l) = PACKET -> (0 < soup_consumed (parse_soup_packet l))%nat /\ (0 < length l)%nat.
Proof.
  unfold parse_soup_packet. destruct (Nat.ltb_spec (length l) 2); [done|]. destruct (_ =? 0); [done|]. destruct (_ <? _)%nat; [done|]. cbn [soup_consumed]. lia.
Qed.

Lemma hear_loop_fuel n m s : (length (pe_rest s) <= n)%nat -> (length (pe_rest s) <= m)%nat -> hear_loop n s = hear_loop m s.
Proof.
  assert (forall n s, (length (pe_rest s) <= n)%nat -> hear_loop (S n) s = hear_loop n s) as Hstep.
  { clear. intros n. induction n as [|n IH]; intros s Hn; cbn [hear_loop]; cbv zeta.
    - destruct (soup_status _) eqn:E; [|done|done]. apply parse_consumed in E. lia.
    - destruct (soup_status _) eqn:E; [|done|done]. destruct (hear_packet _ s) as [[] s'] eqn:Ep; [|done]. apply IH. cbn [pe_rest].
      apply parse_consumed in E as [? ?]. assert (pe_rest s' = pe_rest s) as -> by (unfold hear_packet in Ep; destruct (track _ _) as [[]|]; by simplify_eq).
      rewrite length_drop. lia. }
  assert (forall k, (length (pe_rest s) <= k)%nat -> hear_loop k s = hear s) as Hall.
  { intros k Hk. unfold hear. induction Hk as [|k Hk IH]; [done|]. rewrite <- IH. by apply Hstep. }
  intros. by rewrite !Hall.
Qed.

Lemma hear_settled s : (pe_rest s = [] \/ soup_status (parse_soup_packet (pe_rest s)) <> PACKET) -> hear s = s.
Proof. unfold hear. intros [->|Hs]; [done|]. destruct (length (pe_rest s)); [done|]. cbn [hear_loop]. cbv zeta. by destruct (soup_status _). Qed.

Lemma hear_next s s' go :
  let parsed := parse_soup_packet (pe_rest s) in
  soup_status parsed = PACKET -> hear_packet (soup_packet parsed) s = (go, s') ->
  hear s = if go then hear (mkPeer (pe_logged s') (pe_number s') (pe_unanswered s') (pe_asked s') (drop (soup_consumed parsed) (pe_rest s'))) else s'.
Proof.
  intros parsed Hs Hp. destruct (parse_consumed _ Hs) as [Hc Hl]. unfold hear at 1. destruct (length (pe_rest s)) as [|n] eqn:En; [lia|].
  cbn [hear_loop]. fold parsed. rewrite Hs, Hp. cbv zeta. destruct go; [|done]. unfold hear. apply hear_loop_fuel; [|done]. cbn [pe_rest].
  assert (pe_rest s' = pe_rest s) as -> by (unfold hear_packet in Hp; destruct (track _ _) as [[]|]; by simplify_eq). fold parsed in Hc. rewrite length_drop. lia.
Qed.

(** ** What a client may send *)

(** A login, then whole packets: heartbeats and messages that are valid for the exchange.
    [refs] are the UserRefNums of the Enters and Replaces, in order. *)
Inductive request_stream (id seq : Z) : list Z -> list Z -> Prop :=
| rs_login login :
    lr_username login = alpha 6 (username id) -> lr_requested_sequence_number login = seq -> login_request_wf login ->
    request_stream id seq [] (soup_frame SOUP_LOGIN_REQUEST (login_request_payload login))
| rs_heartbeat refs l :
    request_stream id seq refs l -> request_stream id seq refs (l ++ soup_frame SOUP_CLIENT_HEARTBEAT [])
| rs_message refs l user_ref_num target kind msg :
    request_stream id seq refs l -> message_valid user_ref_num target kind msg ->
    request_stream id seq (refs ++ match kind with KIND_CANCEL => [] | _ => [user_ref_num] end)
      (l ++ soup_frame SOUP_UNSEQUENCED_DATA (inbound_bytes msg)).

(** [n] UserRefNums from [r] on, as a [uint32_t] counts. *)
Definition refs_from (r : Z) (n : nat) : list Z := (fun i => u32 (r + Z.of_nat i)) <$> seq 0 n.

Lemma refs_from_snoc r n : refs_from r (S n) = refs_from r n ++ [u32 (r + Z.of_nat n)].
Proof. unfold refs_from. by rewrite seq_S, fmap_app. Qed.

(** ** The invariant *)

Record ring_ok (a : ActiveRing) : Prop := {
  rg_length : length (active_orders a) = Z.to_nat MAX_ACTIVE_ORDERS;
  rg_count : 0 <= active_count a <= MAX_ACTIVE_ORDERS;
  rg_refs : Forall (fun o => is_u32 (ao_user_ref_num o)) (active_orders a);
}.

Record cs_ok (c : ClientState) : Prop := {
  ck_write : buf_ok kWriteBufBytes (cs_write_buf c) /\ buf_read_off (cs_write_buf c) = 0%nat;
  ck_read : buf_ok kReadBufBytes (cs_read_buf c) /\ buf_bytes_written (cs_read_buf c) = 0%nat;
  ck_acks : 0 <= cs_acks_pending c <= PIPELINE_DEPTH;
  ck_flight : cs_orders_in_flight c = cs_acks_pending c;
  ck_down : cs_fd c = -1 -> cs_acks_pending c = 0 /\ cs_logged_in c = false;
  ck_ring : ring_ok (cs_active c);
  ck_seq : is_u64 (cs_next_sequence c);
  ck_ref : is_u32 (cs_next_user_ref_num c);
  ck_backoff : exists k, 0 <= k <= 20 /\ cs_reconnect_backoff_ms c = 50 * k;
  ck_connecting : cs_connecting c = true -> cs_logged_in c = false;
}.

(** The bytes of the connection: what came in was read as packets up to the start of
    the next one, and what goes out is a stream of requests. *)
Definition link_reads (c : ClientState) (l : Socket) (seq : Z) : Prop :=
  exists ps, ln_rcvd l = concat (frame_of <$> ps) ++ buf_view (cs_read_buf c) /\ Forall packet_fits ps /\
    Forall is_u8 (buf_view (cs_read_buf c)) /\ track_all (false, seq) ps = Some (cs_logged_in c, cs_next_sequence c).

Definition link_sends (c : ClientState) (l : Socket) (seq : Z) : Prop :=
  exists r n, request_stream (cs_client_id c) seq (refs_from r n) (ln_sent l ++ buf_pending (cs_write_buf c)) /\
    cs_next_user_ref_num c = u32 (r + Z.of_nat n).

Definition socket_ok (c : ClientState) (l : Socket) : Prop :=
  let seq := pe_asked (peer_of (ln_trace l)) in
  link_reads c l seq /\
    if cs_connecting c then seq = cs_next_sequence c /\ ln_sent l = [] /\ buf_len (cs_write_buf c) = 0%nat
    else link_sends c l seq.

(** What epoll watches for: a connecting socket to become writable, a connected one to
    become readable, and writable while bytes are waiting. *)
Definition armed_ok (c : ClientState) (l : Socket) : Prop :=
  if cs_fd c =? -1 then ln_armed l = None else
  exists i, ln_armed l = Some i /\
    if cs_connecting c then i = mkInterest false true
    else want_in i = true /\
      (buf_len (cs_write_buf c) <> 0%nat -> want_out i = true /\ (buf_bytes_written (cs_write_buf c) < buf_len (cs_write_buf c))%nat).

Record client_inv (c : ClientState) (l : Socket) : Prop := {
  co_state : cs_ok c;
  co_link : cs_fd c <> -1 -> socket_ok c l;
  co_armed : armed_ok c l;
}.

(** What the client knows of its session, read as an observer's knowledge. *)
Definition peer_state (c : ClientState) (asked : Z) : Peer :=
  mkPeer (cs_logged_in c) (cs_next_sequence c) (cs_acks_pending c) asked (buf_view (cs_read_buf c)).

(** They agree; without a connection only the number is left of it. *)
Definition peer_ok (c : ClientState) (l : Socket) : Prop :=
  let p := peer_of (ln_trace l) in
  if cs_fd c =? -1 then cs_next_sequence c = pe_number p else peer_state c (pe_asked p) = p.

Lemma peer_ok_number c l : peer_ok c l -> cs_next_sequence c = pe_number (peer_of (ln_trace l)).
Proof. unfold peer_ok. destruct (_ =? _); [done|]. by intros <-. Qed.

Lemma ring_new_ok : ring_ok ActiveRing_new.
Proof. split; [done|cbn; unfold MAX_ACTIVE_ORDERS; lia|]. apply Forall_replicate. split; [done|reflexivity]. Qed.

Lemma Buffer_new_ok N : buf_ok N (Buffer_new N).
Proof. split; cbn; [apply length_replicate|lia..]. Qed.

Lemma ClientState_new_ok id : client_inv (ClientState_new id) Socket_new.
Proof.
  split; [|done|done]. split; cbn -[Buffer_new ActiveRing_new]; try done; try (unfold PIPELINE_DEPTH; lia);
    [split; [apply Buffer_new_ok|done]..|apply ring_new_ok|by exists 0].
Qed.

(** ** Messages from the exchange *)

Lemma rememberOrder_ok user_ref_num side a : ring_ok a -> ring_ok (rememberOrder user_ref_num side a).
Proof.
  intros [Hl Hc Hr]. split; cbn [rememberOrder active_orders active_count]; [by rewrite length_insert| |].
  - destruct (Z.ltb_spec (active_count a) MAX_ACTIVE_ORDERS); lia.
  - apply Forall_insert; [done|]. apply u32_range.
Qed.

(** What a message leaves alone. *)
Definition same_io (c c' : ClientState) : Prop :=
  cs_client_id c' = cs_client_id c /\ cs_fd c' = cs_fd c /\ cs_connecting c' = cs_connecting c /\ cs_write_buf c' = cs_write_buf c /\
  cs_read_buf c' = cs_read_buf c /\ cs_next_user_ref_num c' = cs_next_user_ref_num c.

Definition session_of (c : ClientState) : bool * Z := (cs_logged_in c, cs_next_sequence c).

Lemma answer_enter_ok c : cs_ok c -> cs_ok (answer_enter c) /\ same_io c (answer_enter c) /\ session_of (answer_enter c) = session_of c.
Proof.
  intros H. unfold answer_enter. rewrite Z.gtb_ltb. destruct (Z.ltb_spec 0 (cs_acks_pending c)) as [Hlt|]; [|done].
  pose proof H as [? ? Ha Hf Hd ? ? ? ? ?]. unfold PIPELINE_DEPTH in Ha. split; [|done].
  split; cbn [cs_write_buf cs_read_buf cs_acks_pending cs_orders_in_flight cs_fd cs_logged_in cs_active cs_next_sequence cs_next_user_ref_num
    cs_reconnect_backoff_ms cs_connecting]; try done; [unfold PIPELINE_DEPTH; lia|rewrite i64_id; lia|intros ?%Hd; lia].
Qed.

Lemma count_response_ok bump c : cs_ok c -> cs_ok (count_response bump c) /\ same_io c (count_response bump c) /\ session_of (count_response bump c) = session_of c.
Proof. intros []. done. Qed.

Lemma remember_ok side user_ref_num c :
  cs_ok c -> cs_ok (remember side user_ref_num c) /\ same_io c (remember side user_ref_num c) /\ session_of (remember side user_ref_num c) = session_of c.
Proof. intros []. unfold remember. destruct (to_engine_side side); [|done]. split; [|done]. split; try done. by apply rememberOrder_ok. Qed.

Lemma same_io_trans c1 c2 c3 : same_io c1 c2 -> same_io c2 c3 -> same_io c1 c3.
Proof. unfold same_io. intuition congruence. Qed.

Lemma handleOuch_acks msg c :
  0 <= cs_acks_pending c -> cs_acks_pending (handleOuch msg c).2 =
  match msg with order_accepted _ | order_rejected _ => Z.max 0 (cs_acks_pending c - 1) | _ => cs_acks_pending c end.
Proof.
  intros H. assert (cs_acks_pending (answer_enter c) = Z.max 0 (cs_acks_pending c - 1)) as Ha.
  { unfold answer_enter. rewrite Z.gtb_ltb. destruct (Z.ltb_spec 0 (cs_acks_pending c)); cbn [cs_acks_pending]; lia. }
  assert (forall side n c, cs_acks_pending (remember side n c) = cs_acks_pending c) as Hr by (intros side n c0; unfold remember; by destruct (to_engine_side side)).
  destruct msg; cbn [handleOuch snd]; rewrite ?Hr; try done; exact Ha.
Qed.

Lemma handleOuch_ok msg c :
  cs_ok c -> let c' := (handleOuch msg c).2 in
  (handleOuch msg c).1 = match msg with OUTBOUND_NONE => false | _ => true end /\ cs_ok c' /\ same_io c c' /\ session_of c' = session_of c.
Proof.
  intros H. cbv zeta. destruct msg as [|m|m|m|m|m]; cbn [handleOuch fst snd]; (split; [done|]); [done|..].
  - destruct (answer_enter_ok c H) as (H1 & ? & E1). destruct (count_response_ok bump_ack _ H1) as (H2 & ? & E2).
    destruct (remember_ok (acc_side m) (acc_user_ref_num m) _ H2) as (? & ? & E3). split; [done|]. split; [|congruence]. eauto using same_io_trans.
  - destruct (count_response_ok bump_replaced _ H) as (H2 & ? & E2).
    destruct (remember_ok (rep_side m) (rep_user_ref_num m) _ H2) as (? & ? & E3). split; [done|]. split; [|congruence]. eauto using same_io_trans.
  - by apply count_response_ok.
  - by apply count_response_ok.
  - destruct (answer_enter_ok c H) as (H1 & ? & E1). destruct (count_response_ok bump_err _ H1) as (H2 & ? & E2).
    split; [done|]. split; [|congruence]. eauto using same_io_trans.
Qed.

(** One packet: the handler follows [track] and the observer, and gives up exactly where
    they do. *)
Lemma handleSoupPacket_ok p c asked :
  cs_ok c -> cs_fd c <> -1 -> cs_connecting c = false -> Forall is_u8 (soup_payload p) ->
  exists ok c', handleSoupPacket p c = Some (ok, c') /\ cs_ok c' /\ same_io c c' /\
    track (session_of c) p = (if ok then Some (session_of c') else None) /\
    hear_packet p (peer_state c asked) = (ok, peer_state c' asked).
Proof.
  intros H Hfd Hconn Hu. unfold hear_packet. cbn [peer_state pe_logged pe_number pe_unanswered pe_asked pe_rest].
  unfold handleSoupPacket, track, answers. cbv zeta. destruct (soup_type p =? SOUP_LOGIN_ACCEPTED) eqn:E1.
  { apply Z.eqb_eq in E1. rewrite E1. change (SOUP_LOGIN_ACCEPTED =? SOUP_SEQUENCED_DATA) with false. cbn [andb].
    destruct (decode_soup_login_accepted (soup_payload p)) as [a|] eqn:Ed; [|by eexists _, _].
    eexists _, _. split; [done|]. pose proof (decode_login_accepted_u64 _ _ Ed). pose proof H as []. split; [|done].
    split; cbn [cs_write_buf cs_read_buf cs_acks_pending cs_orders_in_flight cs_fd cs_logged_in cs_active cs_next_sequence cs_next_user_ref_num
      cs_reconnect_backoff_ms cs_connecting]; try done; [by exists 0|congruence]. }
  destruct (soup_type p =? SOUP_LOGIN_REJECTED) eqn:E2.
  { apply Z.eqb_eq in E2. rewrite E2. cbn. by eexists _, _. }
  destruct (soup_type p =? SOUP_SEQUENCED_DATA) eqn:E3.
  - set (c1 := c <| cs_next_sequence := u64 (cs_next_sequence c + 1) |>).
    cbn [session_of fst snd andb]. destruct (cs_logged_in c) eqn:El; cbn [negb]; [|exists false, c; split_and!; try done; unfold peer_state; by rewrite El].
    assert (cs_ok c1) as H1. { pose proof H as []. split; try done. apply u64_range. }
    destruct (decode_outbound_total _ Hu) as [msg ->]. destruct (handleOuch_ok msg c1 H1) as (Hok & H2 & Hio & Hs).
    pose proof (handleOuch_acks msg c1 (proj1 (ck_acks _ H1))) as Ha. change (cs_acks_pending c1) with (cs_acks_pending c) in Ha.
    assert (session_of (handleOuch msg c1).2 = (true, u64 (cs_next_sequence c + 1))) as Hses by (rewrite Hs; unfold c1, session_of; cbn [cs_logged_in cs_next_sequence]; by rewrite El).
    assert (peer_state (handleOuch msg c1).2 asked = mkPeer true (u64 (cs_next_sequence c + 1))
      match msg with order_accepted _ | order_rejected _ => Z.max 0 (cs_acks_pending c - 1) | _ => cs_acks_pending c end asked (buf_view (cs_read_buf c))) as Hps.
    { pose proof (f_equal fst Hses : cs_logged_in _ = true) as Hl. pose proof (f_equal snd Hses : cs_next_sequence _ = _) as Hn.
      destruct Hio as (_ & _ & _ & _ & Hb & _). unfold peer_state. by rewrite Hl, Hn, Ha, Hb. }
    destruct msg as [|m|m|m|m|m];
      [exists false, c1; split; [done|]; split; [done|]; split; [done|]; split; [done|]; f_equal; symmetry; exact Hps|..];
      (eexists _, _; split; [done|]; split; [exact H2|]; split; [by eapply same_io_trans; [|exact Hio]|];
       split; [cbn [negb]; f_equal; symmetry; exact Hses|]; f_equal; symmetry; exact Hps).
  - cbn [andb]. destruct (_ || _); by eexists _, _.
Qed.
