(* ===== verification/ClientHandlers.v ===== *)
(** * ClientHandlers: the client's handlers return and keep its invariant *)

From S2P Require Import Prelude Types WireCodec OuchProto OuchCorrect Validation SoupProto OuchResponder Reassembly Buffer OrderFactory.
From S2P Require Import Client ClientInvariant.

(** What is used of the kernel: a descriptor is -1 or not negative, [recv] and [send]
    move at most what they are offered. *)
Class KernelLaws (k : Kernel) : Prop := {
  k_socket_fd n : -1 <= k_socket k n;
  k_recv_le n cap bytes : k_recv k n cap = received bytes -> (length bytes <= cap)%nat /\ Forall is_u8 bytes;
  k_send_le n bytes m : k_send k n bytes = took m -> (m <= length bytes)%nat;
}.

(** A breach of the protocol in what a client received: whole packets that [track] does
    not follow, or a packet with no length. *)
Definition violates (rcvd : list Z) : Prop :=
  exists ps rest, rcvd = concat (frame_of <$> ps) ++ rest /\ Forall packet_fits ps /\
    (track_all (false, 0) ps = None \/ soup_status (parse_soup_packet rest) = MALFORMED).

Lemma track_any_seq b s s' p :
  match track (b, s) p with
  | Some (b1, _) => exists s1, track (b, s') p = Some (b1, s1)
  | None => track (b, s') p = None
  end.
Proof.
  unfold track. cbn [fst snd]. destruct (_ =? SOUP_LOGIN_ACCEPTED); [destruct (decode_soup_login_accepted _); eauto|].
  destruct (_ =? SOUP_SEQUENCED_DATA); [destruct b; [|done]; destruct (decode_outbound_ouch _) as [[]|]; eauto|].
  destruct (_ || _); eauto.
Qed.

Lemma track_all_any_seq b s s' ps : track_all (b, s) ps = None -> track_all (b, s') ps = None.
Proof.
  revert b s s'. induction ps as [|p ps IH]; intros b s s'; [done|]. cbn [track_all]. pose proof (track_any_seq b s s' p) as Ht.
  destruct (track (b, s) p) as [[b1 s1]|]; [destruct Ht as [s1' ->]; apply IH|by rewrite Ht].
Qed.

Lemma buf_pending_length N b : buf_ok N b -> length (buf_pending b) = buf_remaining_to_send b.
Proof. intros [? ? ? ?]. unfold buf_pending, buf_remaining_to_send. rewrite length_take, length_drop. lia. Qed.

Lemma buf_pending_none b : buf_remaining_to_send b = 0%nat -> buf_pending b = [].
Proof. intros E. unfold buf_pending. unfold buf_remaining_to_send in E. by rewrite E. Qed.

Lemma buf_clear_ok N b : buf_ok N b -> buf_ok N (buf_clear b).
Proof. intros [? ? ? ?]. split; cbn [buf_clear buf_data buf_len buf_read_off buf_bytes_written]; lia. Qed.

Section Handlers.
Context {F : Type} `{DoubleLaws F} (draws : Draws F) `{!WalkLaws draws} (kernel : Kernel) `{!KernelLaws kernel}.
Context (inter_arrival_ns_ : Z).
Implicit Types g : Gen F.

Lemma sys_bind {A B} (f : Kernel -> nat -> A) (k : A -> M (Gen F) B) g :
  (sys kernel f ≫= k) g = k (f kernel (g_calls g)) (mkGen (g_cs g) (g_link g) (g_factory g) (S (g_calls g))).
Proof. done. Qed.
Lemma set_cs_bind {B} f (k : unit -> M (Gen F) B) g :
  (set_cs f ≫= k) g = k tt (mkGen (f (g_cs g)) (g_link g) (g_factory g) (g_calls g)).
Proof. done. Qed.
Lemma set_link_bind {B} f (k : unit -> M (Gen F) B) g :
  (set_link f ≫= k) g = k tt (mkGen (g_cs g) (f (g_link g)) (g_factory g) (g_calls g)).
Proof. done. Qed.

(** With room for it, a packet is put in the write buffer. *)
Lemma append_write_bind {B} bytes (k : unit -> M (Gen F) B) g :
  buf_has_room kWriteBufBytes (length bytes) (cs_write_buf (g_cs g)) = true ->
  (append_write bytes ≫= k) g =
  k tt (mkGen ((g_cs g) <| cs_write_buf := (buf_append kWriteBufBytes bytes (cs_write_buf (g_cs g))).2 |>)
    (mkSocket (ln_armed (g_link g)) (ln_sent (g_link g)) (ln_rcvd (g_link g)) (ln_trace (g_link g) ++ [enqueued bytes])) (g_factory g) (g_calls g)).
Proof.
  intros Hroom. unfold append_write. rewrite bind_bind, gets_bind, bind_bind, set_cs_bind.
  assert ((buf_append kWriteBufBytes bytes (cs_write_buf (g_cs g))).1 = true) as -> by (unfold buf_append; by rewrite Hroom). done.
Qed.

Definition gen_ok g : Prop := client_inv (g_cs g) (g_link g) /\ peer_ok (g_cs g) (g_link g).

(** The factory stays one of a run. *)
Definition factory_kept g g' : Prop := factory_reachable draws (g_factory g) -> factory_reachable draws (g_factory g').

(** In the middle of a handler: connected, and maybe more to send than epoll knows of. *)
Record busy g : Prop := {
  by_state : cs_ok (g_cs g);
  by_fd : cs_fd (g_cs g) <> -1;
  by_connecting : cs_connecting (g_cs g) = false;
  by_link : socket_ok (g_cs g) (g_link g);
  by_armed : exists i, ln_armed (g_link g) = Some i /\ want_in i = true;
  by_peer : peer_ok (g_cs g) (g_link g);
}.

(** ** Giving up *)

(** The session goes on where it was; only the connection is gone. *)
Definition dropped g g' : Prop :=
  (cs_fd (g_cs g') = -1 /\ g_factory g' = g_factory g /\ (g_calls g <= g_calls g')%nat) /\
  cs_client_id (g_cs g') = cs_client_id (g_cs g) /\ ln_sent (g_link g') = ln_sent (g_link g) /\
  ln_rcvd (g_link g') = ln_rcvd (g_link g) /\ cs_read_buf (g_cs g') = cs_read_buf (g_cs g) /\
  cs_next_sequence (g_cs g') = cs_next_sequence (g_cs g) /\ cs_next_user_ref_num (g_cs g') = cs_next_user_ref_num (g_cs g).

Lemma reconnect_ok g :
  cs_ok (g_cs g) -> cs_fd (g_cs g) <> -1 -> cs_next_sequence (g_cs g) = pe_number (peer_of (ln_trace (g_link g))) ->
  exists g', reconnect kernel g = Some (tt, g') /\ gen_ok g' /\ dropped g g'.
Proof.
  intros Hc Hfd Hnum. unfold reconnect. rewrite gets_bind. rewrite (proj2 (Z.eqb_neq _ _) Hfd). unfold epollDel. rewrite set_link_bind.
  cbv zeta. unfold now_ns. rewrite sys_bind. eexists. split; [done|]. split; [|split; [split_and!; [done|done|cbn; lia]|done]]. split; [|exact Hnum].
  pose proof Hc as [? ? Ha Hf ? ? ? ? (k & Hk & Hb) ?]. split; [|done|done].
  split; cbn [g_cs cs_write_buf cs_read_buf cs_acks_pending cs_orders_in_flight cs_fd cs_logged_in cs_active cs_next_sequence
    cs_next_user_ref_num cs_reconnect_backoff_ms cs_connecting]; try done; [by rewrite Hf, Z.sub_diag|].
  unfold RECONNECT_DELAY_MS. destruct (Z.ltb_spec (cs_reconnect_backoff_ms (g_cs g)) 1000); [exists (k + 1)|by exists k].
  rewrite u32_id by ulia. lia.
Qed.

(** ** Sending *)

Lemma cs_ok_write c w : cs_ok c -> buf_ok kWriteBufBytes w -> buf_read_off w = 0%nat -> cs_ok (c <| cs_write_buf := w |>).
Proof. intros [] Hw Hr. by split. Qed.

Lemma link_ok_write c l w l' :
  socket_ok c l -> cs_connecting c = false -> ln_sent l' ++ buf_pending w = ln_sent l ++ buf_pending (cs_write_buf c) ->
  ln_rcvd l' = ln_rcvd l -> pe_asked (peer_of (ln_trace l')) = pe_asked (peer_of (ln_trace l)) -> socket_ok (c <| cs_write_buf := w |>) l'.
Proof.
  intros ((ps & Hr & Hps) & Hs) Hc Es Er Et. unfold socket_ok. rewrite Et. cbn [cs_connecting]. rewrite Hc in *. split.
  - exists ps. by rewrite Er.
  - destruct Hs as (r & n & Hs & Hn). exists r, n. cbn [cs_client_id cs_write_buf]. by rewrite Es.
Qed.

Definition send_fails (r : send_result) : Prop := r = took 0 \/ r = send_error false.

(** A handler that sends leaves the rest of the client alone; it gives up only if the
    kernel failed to send. *)
Definition kept g g' : Prop :=
  cs_client_id (g_cs g') = cs_client_id (g_cs g) /\ ln_rcvd (g_link g') = ln_rcvd (g_link g) /\
  cs_next_sequence (g_cs g') = cs_next_sequence (g_cs g) /\ cs_read_buf (g_cs g') = cs_read_buf (g_cs g) /\
  (cs_fd (g_cs g') <> -1 -> cs_fd (g_cs g') = cs_fd (g_cs g) /\ cs_logged_in (g_cs g') = cs_logged_in (g_cs g) /\
    cs_connecting (g_cs g') = cs_connecting (g_cs g)) /\
  (cs_fd (g_cs g') = -1 -> cs_fd (g_cs g) = -1 \/ exists n bytes, (g_calls g <= n < g_calls g')%nat /\ send_fails (k_send kernel n bytes)) /\
  (g_calls g <= g_calls g')%nat /\ factory_kept g g'.

Lemma kept_trans g1 g2 g3 : kept g1 g2 -> kept g2 g3 -> kept g1 g3.
Proof.
  intros (? & ? & ? & ? & K1 & D1 & C1 & F1) (? & ? & ? & ? & K2 & D2 & C2 & F2). unfold kept. split_and!; try congruence; [..|lia|unfold factory_kept in *; auto].
  - intros E. destruct (K2 E) as (Ef & El & Ec). destruct K1 as (Ef1 & El1 & Ec1); [congruence|]. split_and!; congruence.
  - intros E. destruct (D2 E) as [E'|(n & bytes & ? & ?)]; [|right; exists n, bytes; split; [lia|done]].
    destruct (D1 E') as [|(n & bytes & ? & ?)]; [by left|right; exists n, bytes; split; [lia|done]].
Qed.

Lemma kept_same g g' :
  cs_client_id (g_cs g') = cs_client_id (g_cs g) -> ln_rcvd (g_link g') = ln_rcvd (g_link g) ->
  cs_next_sequence (g_cs g') = cs_next_sequence (g_cs g) -> cs_read_buf (g_cs g') = cs_read_buf (g_cs g) ->
  cs_fd (g_cs g') = cs_fd (g_cs g) -> cs_logged_in (g_cs g') = cs_logged_in (g_cs g) -> cs_connecting (g_cs g') = cs_connecting (g_cs g) ->
  (g_calls g <= g_calls g')%nat -> factory_kept g g' -> kept g g'.
Proof. intros ? ? ? ? Ef ? ? ? ?. split_and!; try done. intros E. left. congruence. Qed.

(** Giving up on the way of sending. *)
Lemma dropped_kept g g1 :
  g_link g1 = g_link g -> g_factory g1 = g_factory g -> g_calls g1 = S (g_calls g) -> peer_ok (g_cs g) (g_link g) ->
  cs_ok (g_cs g1) -> cs_fd (g_cs g1) <> -1 /\ cs_client_id (g_cs g1) = cs_client_id (g_cs g) /\
  cs_next_sequence (g_cs g1) = cs_next_sequence (g_cs g) /\ cs_read_buf (g_cs g1) = cs_read_buf (g_cs g) ->
  (exists bytes, send_fails (k_send kernel (g_calls g) bytes)) ->
  exists g', reconnect kernel g1 = Some (tt, g') /\ gen_ok g' /\ kept g g'.
Proof.
  intros El Ef Ec Hp Hc (Hfd & Hid & Hs & Hr) [bytes Hfail].
  destruct (reconnect_ok g1 Hc Hfd) as (g' & E & Hok & ((? & Ef' & Ec') & ? & _ & ? & ? & ? & _)); [rewrite El, Hs; by apply peer_ok_number|].
  exists g'. split; [done|]. split; [done|]. unfold kept, factory_kept. rewrite Ef', Ef. split_and!; try congruence; try done; [|lia].
  intros _. right. exists (g_calls g), bytes. split; [lia|done].
Qed.

Lemma flush_loop_ok fuel g :
  busy g -> (buf_remaining_to_send (cs_write_buf (g_cs g)) <= fuel)%nat ->
  exists g', flush_loop kernel fuel g = Some (tt, g') /\ gen_ok g' /\ kept g g'.
Proof.
  revert g. induction fuel as [|fuel IH]; intros g Hb Hn; pose proof Hb as [Hc Hfd Hcon Hl (i & Hi & Hin) Hpeer];
    pose proof (ck_write _ Hc) as [Hw Hr]; pose proof Hw as [Hwd Hwl Hwr Hww]; cbn [flush_loop]; rewrite gets_bind;
    destruct (Nat.eqb_spec (buf_remaining_to_send (cs_write_buf (g_cs g))) 0) as [E|E]; try lia.
  1, 2: assert (buf_try_reset (cs_write_buf (g_cs g)) = mkBuffer (buf_data (cs_write_buf (g_cs g))) 0 0 (buf_read_off (cs_write_buf (g_cs g)))) as Ereset
      by (unfold buf_try_reset; rewrite (proj2 (Nat.eqb_eq _ _)); [done|]; unfold buf_remaining_to_send in E; lia).
  1, 2: eexists; split; [done|]; split; [|by apply kept_same; try intros ?]; (split; [|exact Hpeer]);
    split; cbn [g_cs g_link]; rewrite ?Ereset;
    [apply cs_ok_write; [done|split; cbn [buf_write_to buf_data buf_len buf_read_off buf_bytes_written]; lia|done]
    |intros _; eapply link_ok_write; [done|done|by rewrite (buf_pending_none (cs_write_buf (g_cs g))) by done|done|done]
    |unfold armed_ok; cbn [cs_fd cs_connecting cs_write_buf buf_len]; rewrite (proj2 (Z.eqb_neq _ _) Hfd), Hcon; exists i; done].
  set (b := cs_write_buf (g_cs g)) in *. rewrite sys_bind. destruct (k_send kernel (g_calls g) (buf_pending b)) as [[|m]|[|]] eqn:Es; rewrite set_cs_bind.
  - apply (dropped_kept g); [done|done|done|done|cbn [g_cs]; fold b; by apply cs_ok_write; [|split; cbn [buf_write_to buf_data buf_len buf_read_off buf_bytes_written]; lia|]|done|]. exists (buf_pending b). by left.
  - destruct (buf_write_to_ok kWriteBufBytes b (S m) Hw (k_send_le _ _ _ Es)) as [Hw' Ep]. rewrite set_link_bind. unfold now_ns. rewrite sys_bind, set_cs_bind.
    edestruct IH as (g' & Eg & Hok & Hk); [| |rewrite Eg; exists g'; split; [done|]; split; [done|]; eapply kept_trans; [|exact Hk]].
    3: { apply kept_same; try done; [cbn; lia|by intros ?]. }
    + split; cbn [g_cs g_link cs_fd cs_connecting ln_armed]; [|done|done| |by exists i|exact Hpeer].
      * pose proof (cs_ok_write _ _ Hc Hw' Hr) as []. by split.
      * eapply (link_ok_write _ _ (buf_write_to (took (S m)) b)) in Hl; [exact Hl|done| |done|done]. cbn [ln_sent]. by rewrite <- app_assoc, <- Ep.
    + cbn [g_cs cs_write_buf]. fold b. unfold buf_remaining_to_send in *. cbn [buf_write_to buf_len buf_bytes_written]. lia.
  - eexists. split; [done|]. split; [|apply kept_same; try done; [cbn; lia|by intros ?]]. split; [|exact Hpeer]. split; cbn [g_cs g_link]; [by apply cs_ok_write|intros _; by eapply link_ok_write|].
    unfold armed_ok. cbn [cs_fd cs_connecting cs_write_buf ln_armed]. rewrite (proj2 (Z.eqb_neq _ _) Hfd), Hcon, Hi. eexists. split; [done|].
    split; [done|]. intros _. split; [done|]. cbn [buf_write_to]. fold b. unfold buf_remaining_to_send in *. lia.
  - apply (dropped_kept g); [done|done|done|done|cbn [g_cs]; fold b; by apply cs_ok_write|done|]. exists (buf_pending b). by right.
Qed.

Lemma flushWrite_ok g : busy g -> exists g', flushWrite kernel g = Some (tt, g') /\ gen_ok g' /\ kept g g'.
Proof. intros Hb. unfold flushWrite. rewrite gets_bind. by apply flush_loop_ok. Qed.

Lemma gen_ok_busy g : gen_ok g -> cs_fd (g_cs g) <> -1 -> cs_connecting (g_cs g) = false -> busy g.
Proof.
  intros [[Hc Hl Ha] Hp] Hfd Hcon. split; [done..|by apply Hl| |done]. unfold armed_ok in Ha. rewrite (proj2 (Z.eqb_neq _ _) Hfd), Hcon in Ha.
  destruct Ha as (i & ? & ? & _). by exists i.
Qed.

(** Names the client's state in the goal. *)
Ltac name_client c := match goal with |- context [mkGen ?x _ _ _] => set (c := x) end.

(** Putting one whole packet at the end of the write buffer. *)
Lemma append_packet c l seq bytes c' :
  cs_ok c -> link_reads c l seq -> buf_has_room kWriteBufBytes (length bytes) (cs_write_buf c) = true ->
  c' = c <| cs_write_buf := (buf_append kWriteBufBytes bytes (cs_write_buf c)).2 |> ->
  cs_ok c' /\ link_reads c' (mkSocket (ln_armed l) (ln_sent l) (ln_rcvd l) (ln_trace l ++ [enqueued bytes])) seq /\ buf_pending (cs_write_buf c') = buf_pending (cs_write_buf c) ++ bytes.
Proof.
  intros Hc Hr Hroom ->. pose proof (ck_write _ Hc) as [Hw Hoff]. destruct (buf_append_ok kWriteBufBytes (cs_write_buf c) bytes Hw) as [Hw' Hp].
  assert ((buf_append kWriteBufBytes bytes (cs_write_buf c)).1 = true) as E by (unfold buf_append; by rewrite Hroom). rewrite E in Hp.
  split; [|by split]. apply cs_ok_write; [done|done|]. unfold buf_append. by rewrite Hroom.
Qed.

(** A packet that is no Enter changes nothing for the observer. *)
Lemma peer_queued c l w bytes :
  enters bytes = false -> peer_ok c l ->
  peer_ok (c <| cs_write_buf := w |>) (mkSocket (ln_armed l) (ln_sent l) (ln_rcvd l) (ln_trace l ++ [enqueued bytes])) /\
  pe_asked (peer_of (ln_trace l ++ [enqueued bytes])) = pe_asked (peer_of (ln_trace l)).
Proof.
  intros He Hp. assert (peer_of (ln_trace l ++ [enqueued bytes]) = peer_of (ln_trace l)) as E.
  { rewrite peer_of_snoc. cbn [peer_io]. rewrite He, Z.add_0_r. by destruct (peer_of (ln_trace l)). }
  rewrite E. split; [|done]. unfold peer_ok. cbn [ln_trace]. rewrite E. exact Hp.
Qed.

Lemma enters_frame type payload :
  Z.of_nat (length payload) + 1 <= 65535 ->
  enters (soup_frame type payload) = (type =? SOUP_UNSEQUENCED_DATA) && match decode_inbound_ouch payload with Some (enter_order _) => true | _ => false end.
Proof. intros Hl. unfold enters. rewrite <- (app_nil_r (soup_frame type payload)), parse_frame by done. done. Qed.

Lemma room_when_empty b n : buf_len b = 0%nat -> (n <= kWriteBufBytes)%nat -> buf_has_room kWriteBufBytes n b = true.
Proof. intros E Hn. unfold buf_has_room. rewrite E. by apply Nat.leb_le. Qed.

Lemma sendHeartbeat_ok g :
  gen_ok g -> cs_fd (g_cs g) <> -1 -> cs_connecting (g_cs g) = false -> buf_length (cs_write_buf (g_cs g)) = 0%nat ->
  exists g', sendHeartbeat kernel g = Some (tt, g') /\ gen_ok g' /\ kept g g'.
Proof.
  intros Hg Hfd Hcon Hlen. destruct (gen_ok_busy g Hg Hfd Hcon) as [Hc _ _ (Hr & Hs) Ha Hpeer]. rewrite Hcon in Hs.
  set (seq := pe_asked (peer_of (ln_trace (g_link g)))) in *. unfold sendHeartbeat.
  change (encode_soup_empty SOUP_CLIENT_HEARTBEAT (replicate kSoupHeaderLen 0)).2 with (soup_frame SOUP_CLIENT_HEARTBEAT []).
  assert (buf_has_room kWriteBufBytes (length (soup_frame SOUP_CLIENT_HEARTBEAT [])) (cs_write_buf (g_cs g)) = true) as Hroom.
  { apply room_when_empty; [|apply Nat.leb_le; by vm_compute]. pose proof (ck_write _ Hc) as [_ Hoff]. unfold buf_length in Hlen. lia. }
  rewrite append_write_bind by done. name_client c'.
  destruct (append_packet (g_cs g) (g_link g) seq (soup_frame SOUP_CLIENT_HEARTBEAT []) c') as (Hc' & Hr' & Hp'); [done..|].
  destruct (peer_queued (g_cs g) (g_link g) (cs_write_buf c') (soup_frame SOUP_CLIENT_HEARTBEAT [])) as [Hpeer' Hasked]; [done|done|].
  edestruct (flushWrite_ok) as (g' & E & Hok & Hk); [|rewrite E; exists g'; split; [done|]; split; [done|]; exact Hk].
  split; [done|done|done| |done|exact Hpeer']. unfold socket_ok. cbn [g_cs g_link ln_trace]. rewrite Hasked. fold seq. split; [done|]. unfold c' at 1. cbn [cs_connecting]. rewrite Hcon.
  destruct Hs as (r & n & Hs & Hn). exists r, n. cbn [ln_sent]. rewrite Hp', app_assoc. split; [by apply rs_heartbeat|done].
Qed.

(** ** Logging in *)

Lemma alpha_length n s : length (alpha n s) = n.
Proof. unfold alpha. by rewrite length_fmap, length_seq. Qed.

Lemma client_login_wf c : cs_ok c -> login_request_wf (client_login c).
Proof. intros Hc. unfold client_login, login_request_wf. cbn [lr_username lr_password lr_requested_session lr_requested_sequence_number]. rewrite !alpha_length. split_and!; try done; apply Hc. Qed.

Lemma login_packet c : cs_ok c ->
  (encode_soup_login_request (client_login c) (replicate (kSoupHeaderLen + kSoupLoginRequestLen) 0)).2 =
  soup_frame SOUP_LOGIN_REQUEST (login_request_payload (client_login c)).
Proof.
  intros Hc. pose proof (soup_login_request_frame _ (client_login_wf c Hc) (replicate (kSoupHeaderLen + kSoupLoginRequestLen) 0)) as Hf.
  cbv zeta in Hf. rewrite soup_frame_length in Hf. assert (length (login_request_payload (client_login c)) = kSoupLoginRequestLen) as El.
  { unfold login_request_payload, client_login. cbn [lr_username lr_password lr_requested_session lr_requested_sequence_number].
    rewrite !length_app, !alpha_length, numeric_chars_length. done. }
  rewrite El, length_replicate in Hf. rewrite decide_True in Hf by done. rewrite Hf. cbn [snd]. rewrite drop_ge by (by rewrite length_replicate).
  apply app_nil_r.
Qed.

Lemma handleConnect_ok g :
  gen_ok g -> cs_fd (g_cs g) <> -1 -> cs_connecting (g_cs g) = true ->
  exists g', handleConnect kernel g = Some (tt, g') /\ gen_ok g' /\ cs_read_buf (g_cs g') = cs_read_buf (g_cs g) /\ factory_kept g g'.
Proof.
  intros [[Hc Hl Ha] Hpeer] Hfd Hcon. unfold handleConnect. rewrite sys_bind. destruct (negb _).
  { destruct (reconnect_ok (mkGen (g_cs g) (g_link g) (g_factory g) (S (g_calls g))) Hc Hfd (peer_ok_number _ _ Hpeer)) as (g' & E & Hok & ((_ & Ef & _) & Hd)).
    exists g'. split; [done|]. split; [done|]. split; [apply Hd|]. unfold factory_kept. by rewrite Ef. }
  destruct (Hl Hfd) as (Hr & Hs). set (seq := pe_asked (peer_of (ln_trace (g_link g)))) in *. rewrite Hcon in Hs. destruct Hs as (Hseq & Hsent & Hlen).
  unfold armed_ok in Ha. rewrite (proj2 (Z.eqb_neq _ _) Hfd), Hcon in Ha. destruct Ha as (i & Hi & _).
  rewrite set_cs_bind. unfold epollMod. rewrite set_link_bind, gets_bind. cbn [g_cs g_link g_factory g_calls]. rewrite Hi.
  set (c1 := (g_cs g) <| cs_connecting := false |>). assert (cs_ok c1) as Hc1 by (by pose proof Hc as []).
  rewrite login_packet by done. set (bytes := soup_frame _ _).
  assert (length (login_request_payload (client_login c1)) = kSoupLoginRequestLen) as Hpl.
  { unfold login_request_payload, client_login. cbn [lr_username lr_password lr_requested_session lr_requested_sequence_number].
    by rewrite !length_app, !alpha_length, numeric_chars_length. }
  assert (buf_has_room kWriteBufBytes (length bytes) (cs_write_buf c1) = true) as Hroom.
  { apply room_when_empty; [done|]. unfold bytes. rewrite soup_frame_length, Hpl. apply Nat.leb_le. by vm_compute. }
  rewrite append_write_bind by done. cbn [g_cs g_link g_factory g_calls]. name_client c'. set (l1 := mkSocket (Some _) _ _ _).
  destruct (append_packet c1 l1 seq bytes c') as (Hc' & Hr' & Hp'); [done..|].
  assert (enters bytes = false) as He by (unfold bytes; rewrite enters_frame by (rewrite Hpl; by vm_compute); done).
  destruct (peer_queued c1 l1 (cs_write_buf c') bytes He Hpeer) as [Hpeer' Hasked].
  edestruct flushWrite_ok as (g' & E & Hok & (_ & _ & _ & Eb & _ & _ & _ & Hfk)); [|rewrite E; exists g'; split; [done|]; split; [done|]; by split]. split; [done|done|done| |by eexists|exact Hpeer'].
  unfold socket_ok. cbn [g_cs g_link ln_trace]. rewrite Hasked. change (pe_asked (peer_of (ln_trace l1))) with seq. split; [done|]. unfold c' at 1, c1 at 1. cbn [cs_connecting].
  exists (cs_next_user_ref_num (g_cs g)), 0%nat. cbn [ln_sent l1]. rewrite Hsent, Hp'. cbn [refs_from seq fmap list_fmap app].
  rewrite (buf_pending_none (cs_write_buf c1)) by (unfold buf_remaining_to_send; cbn [cs_write_buf c1]; lia). cbn [app]. split.
  - apply rs_login; [done|by rewrite Hseq|by apply client_login_wf].
  - rewrite Z.add_0_r, u32_id by apply Hc. done.
Qed.

Lemma connectClient_ok g :
  gen_ok g -> cs_fd (g_cs g) = -1 -> exists b g', connectClient kernel g = Some (b, g') /\ gen_ok g' /\ factory_kept g g'.
Proof.
  intros Hg Hfd. pose proof Hg as [[Hc Hl Ha] Hpeer]. pose proof (ck_down _ Hc Hfd) as [Hacks _]. unfold connectClient. rewrite sys_bind.
  destruct (Z.eqb_spec (k_socket kernel (g_calls g)) (-1)) as [_|Hne]; [eexists _, _; split; [done|]; by split; [|intros ?]|].
  rewrite set_cs_bind, set_link_bind, sys_bind. cbn [g_cs g_link g_factory g_calls]. name_client c1.
  assert (cs_ok c1) as Hc1.
  { pose proof Hc as [[Hw Hwo] [Hr Hro] Hap Hf _ [Hrl Hrc Hrr] ? ? ? ?].
    split; cbn [c1 cs_write_buf cs_read_buf cs_acks_pending cs_orders_in_flight cs_fd cs_logged_in cs_active cs_next_sequence
      cs_next_user_ref_num cs_reconnect_backoff_ms cs_connecting]; try done;
      first [congruence|split; [by apply buf_clear_ok|done]|by split]. }
  apply peer_ok_number in Hpeer. set (p := peer_of (ln_trace (g_link g))) in *.
  assert (peer_of (ln_trace (g_link g) ++ [opened]) = mkPeer false (pe_number p) 0 (pe_number p) []) as Ep by (by rewrite peer_of_snoc).
  destruct (k_connect kernel (S (g_calls g))).
  1, 2: eexists _, _; split; [done|]; (split; [|by intros ?]); split; cbn [g_cs g_link];
    [split; [done|intros _|];
      [unfold socket_ok; cbn [ln_trace]; rewrite Ep; cbn [pe_asked]; rewrite <- Hpeer; split; [|by split_and!]; by exists []
      |unfold armed_ok; cbn [c1 cs_fd cs_connecting]; rewrite (proj2 (Z.eqb_neq _ _) Hne); by eexists]
    |unfold peer_ok; cbn [ln_trace]; rewrite Ep; cbn [c1 cs_fd pe_asked]; rewrite (proj2 (Z.eqb_neq _ _) Hne); unfold peer_state;
     cbn [c1 cs_logged_in cs_next_sequence cs_acks_pending cs_read_buf]; by rewrite Hpeer].
  rewrite set_cs_bind. eexists _, _. split; [done|]. split; [|by intros ?]. split; cbn [g_cs g_link]; [split; [|done|done]; pose proof Hc1 as []; by split|].
  unfold peer_ok. cbn [ln_trace cs_fd]. rewrite Ep. exact Hpeer.
Qed.

(** ** The batch *)

Lemma pick_target_ok a : ring_ok a -> exists target, pick_target a = Some target /\ forall t, target = Some t -> is_u32 (tg_user_ref_num t).
Proof.
  intros [Hl _ Hr]. unfold pick_target. destruct (active_count a >? 0); [|by eexists].
  destruct (lookup_lt_is_Some_2 (active_orders a) (Z.to_nat (active_read a mod MAX_ACTIVE_ORDERS))) as [o Ho].
  { pose proof (Z.mod_pos_bound (active_read a) MAX_ACTIVE_ORDERS). unfold MAX_ACTIVE_ORDERS in *. lia. }
  rewrite Ho. eexists. split; [done|]. intros t [= <-]. rewrite Forall_lookup in Hr. by eapply Hr.
Qed.

Lemma count_message_ok kind c :
  cs_ok c -> cs_fd c <> -1 -> cs_acks_pending c < PIPELINE_DEPTH -> let c' := count_message kind c in
  cs_ok c' /\ cs_client_id c' = cs_client_id c /\ cs_fd c' = cs_fd c /\ cs_connecting c' = cs_connecting c /\
  cs_write_buf c' = cs_write_buf c /\ cs_read_buf c' = cs_read_buf c /\ session_of c' = session_of c /\
  cs_next_user_ref_num c' = match kind with KIND_CANCEL => cs_next_user_ref_num c | _ => u32 (cs_next_user_ref_num c + 1) end /\
  cs_acks_pending c' = cs_acks_pending c + match kind with KIND_ENTER | KIND_INVALID => 1 | _ => 0 end.
Proof.
  intros Hc Hfd Ha. cbv zeta. pose proof Hc as [? ? [Hap _] Hf Hd [Hrl Hrc Hrr] ? ? ? ?]. unfold PIPELINE_DEPTH in Ha.
  assert (forall c1, cs_ok c1 -> cs_ok (count_response bump_sent c1)) as Hcount by (intros c1 H1; apply (count_response_ok bump_sent c1 H1)).
  destruct kind; (split; [|split_and!; try done; cbn; rewrite ?u32_id by ulia; lia]); apply Hcount; split;
    cbn [cs_write_buf cs_read_buf cs_acks_pending cs_orders_in_flight cs_fd cs_logged_in cs_active cs_next_sequence
      cs_next_user_ref_num cs_reconnect_backoff_ms cs_connecting]; try done; try apply u32_range;
    try (rewrite u32_id by ulia; try unfold PIPELINE_DEPTH; lia); try (rewrite u32_id, i64_id by ulia; lia); unfold PIPELINE_DEPTH; lia.
Qed.

(** The observer counts an Enter where the client does. *)
Lemma peer_message c l bytes kind msg user_ref_num target c' :
  peer_ok c l -> cs_fd c <> -1 -> message_valid user_ref_num target kind msg -> bytes = soup_frame SOUP_UNSEQUENCED_DATA (inbound_bytes msg) ->
  cs_fd c' = cs_fd c -> session_of c' = session_of c -> cs_read_buf c' = cs_read_buf c ->
  cs_acks_pending c' = cs_acks_pending c + match kind with KIND_ENTER | KIND_INVALID => 1 | _ => 0 end ->
  peer_ok c' (mkSocket (ln_armed l) (ln_sent l) (ln_rcvd l) (ln_trace l ++ [enqueued bytes])) /\
  pe_asked (peer_of (ln_trace l ++ [enqueued bytes])) = pe_asked (peer_of (ln_trace l)).
Proof.
  intros Hp Hfd [Hwf Hv] -> Efd Hs Eb Ha. unfold peer_ok in *. cbn [ln_trace]. rewrite Efd, (proj2 (Z.eqb_neq _ _) Hfd) in *.
  rewrite peer_of_snoc. cbn [peer_io pe_asked]. split; [|done]. rewrite <- Hp at 2 3 4 5 6.
  rewrite enters_frame. 2: { pose proof (inbound_size_bound msg) as Hb. rewrite inbound_size in Hb by done. unfold kSoupHeaderLen in Hb. lia. }
  rewrite Z.eqb_refl, decode_inbound_bytes by done. unfold peer_state in *. cbn [pe_logged pe_number pe_unanswered pe_asked pe_rest andb].
  injection Hs as El En. rewrite El, En, Eb, Ha. f_equal. f_equal. by destruct kind, msg.
Qed.

(** Without a message from the factory the batch is undefined, which is not so in a run. *)
Lemma batch_loop_ok n packet g :
  busy g ->
  (exists g', batch_loop draws n packet g = Some (tt, g') /\ busy g' /\ kept g g') \/
  (batch_loop draws n packet g = None /\ ~ factory_reachable draws (g_factory g)).
Proof.
  assert (forall g, kept g g) as Hrefl by (intros; by apply kept_same; try intros ?).
  revert packet g. induction n as [|n IH]; intros packet g Hb; [left; by exists g|]. cbn [batch_loop]. rewrite gets_bind.
  pose proof Hb as [Hc Hfd Hcon (Hr & Hs) Ha Hpeer]. rewrite Hcon in Hs. set (seq := pe_asked (peer_of (ln_trace (g_link g)))) in *. destruct Hs as (r & k & Hs & Hk).
  destruct (Z.ltb_spec (cs_acks_pending (g_cs g)) PIPELINE_DEPTH) as [Hlt|]; cbn [negb]; [|left; by exists g].
  destruct (pick_target_ok _ (ck_ring _ Hc)) as (target & Et & Htarget). rewrite (lift_bind _ _ _ _ Et).
  destruct (build_message_ok draws (cs_next_user_ref_num (g_cs g)) target (g_factory g) (ck_ref _ Hc) Htarget) as [Htot Hsound].
  destruct (build_message draws (cs_next_user_ref_num (g_cs g)) target (g_factory g)) as [[[kind msg] f']|] eqn:Em.
  2: { right. split; [unfold mbind, M_bind, on_factory; by rewrite Em|]. intros Hf. destruct Htot as [? ?]; [by apply walk_finite|done]. }
  destruct (Hsound kind msg f' eq_refl) as [Hv _].
  assert (on_factory (build_message draws (cs_next_user_ref_num (g_cs g)) target) g = Some ((kind, msg), mkGen (g_cs g) (g_link g) f' (g_calls g))) as Ef
    by (unfold on_factory; by rewrite Em). rewrite (bind_Some _ _ _ _ _ Ef).
  pose proof (soup_unsequenced_frame msg (proj1 Hv) packet) as Hf. cbv zeta in Hf. set (bytes := soup_frame _ _) in Hf.
  assert (factory_reachable draws (g_factory g) -> factory_reachable draws f') as Hfk by (intros Hfr; eapply fr_message; [exact Hfr| | |exact Em]; [apply Hc|done]).
  assert (kept g (mkGen (g_cs g) (g_link g) f' (g_calls g))) as Hk1 by (by apply kept_same).
  assert (busy (mkGen (g_cs g) (g_link g) f' (g_calls g))) as Hb1 by (destruct Hb; by split).
  destruct (decide (length bytes <= length packet)%nat); rewrite Hf; [|left; by eexists].
  destruct (_ || _) eqn:Eroom; [left; by eexists|]. apply orb_false_iff in Eroom as [_ Eroom]. apply negb_false_iff in Eroom.
  rewrite take_app_length, append_write_bind, set_cs_bind by done. cbn [g_cs g_link g_factory g_calls].
  set (c1 := (g_cs g) <| cs_write_buf := (buf_append kWriteBufBytes bytes (cs_write_buf (g_cs g))).2 |>).
  destruct (append_packet (g_cs g) (g_link g) seq bytes c1) as (Hc1 & Hr1 & Hp1); [done..|].
  destruct (count_message_ok kind c1 Hc1 Hfd Hlt) as (Hc2 & Eid & Efd & Econ & Ew & Er & Es & En & Eacks). set (c2 := count_message kind c1) in *.
  pose proof (f_equal fst Es : cs_logged_in c2 = cs_logged_in c1) as Elog. pose proof (f_equal snd Es : cs_next_sequence c2 = cs_next_sequence c1) as Eseq.
  destruct (peer_message (g_cs g) (g_link g) bytes kind msg _ target c2 Hpeer Hfd Hv eq_refl Efd Es Er Eacks) as [Hpeer2 Hasked].
  clearbody c2. set (l2 := mkSocket _ _ _ (ln_trace (g_link g) ++ _)) in *. set (g2 := mkGen c2 l2 f' (g_calls g)).
  assert (kept g g2) as Hk2 by (apply kept_same; try done).
  destruct (IH (bytes ++ drop (length bytes) packet) g2) as [(g' & E & Hb' & Hk')|[E Hnot]].
  - split; cbn [g2 g_cs g_link]; [done|by rewrite Efd|by rewrite Econ| |done|done]. unfold socket_ok. cbn [l2 ln_trace]. rewrite Hasked. fold seq. rewrite Econ. cbn [c1 cs_connecting]. rewrite Hcon. split.
    + destruct Hr1 as (ps & ? & ? & ? & ?). exists ps. rewrite Er, Elog, Eseq. done.
    + pose proof (rs_message _ _ _ _ _ _ _ _ Hs Hv) as Hs'. fold bytes in Hs'. rewrite <- app_assoc, <- Hp1 in Hs'. unfold link_sends. rewrite Eid, Ew, En.
      destruct kind; [exists r, (S k)|exists r, k|exists r, (S k)|exists r, (S k)].
      2: { rewrite app_nil_r in Hs'. by split. }
      all: rewrite refs_from_snoc, <- Hk; (split; [exact Hs'|]); change (cs_next_user_ref_num c1) with (cs_next_user_ref_num (g_cs g)); rewrite Hk; unfold u32; rewrite Zplus_mod_idemp_l; f_equal; lia.
  - left. exists g'. split; [exact E|]. split; [done|]. by eapply kept_trans.
  - right. split; [exact E|]. intros Hfr. by apply Hnot, Hfk.
Qed.

Lemma kept_refl g : kept g g.
Proof. by apply kept_same; try intros ?. Qed.

(** Other members do not matter. *)
Lemma busy_send_time g t :
  busy g -> busy (mkGen ((g_cs g) <| cs_next_send_ns := t |>) (g_link g) (g_factory g) (S (g_calls g))).
Proof. intros [[] ? ? ? ? ?]. by split. Qed.

(** A batch built and sent. *)
Definition batch_done g (r : option (unit * Gen F)) : Prop :=
  (exists g', r = Some (tt, g') /\ gen_ok g' /\ kept g g') \/ (r = None /\ ~ factory_reachable draws (g_factory g)).

Lemma buildBatch_ok g :
  gen_ok g -> cs_fd (g_cs g) <> -1 -> cs_connecting (g_cs g) = false -> batch_done g (buildBatch draws kernel inter_arrival_ns_ g).
Proof.
  intros Hg Hfd Hcon. assert (batch_done g (Some (tt, g))) as Hsame by (left; exists g; auto using kept_refl).
  unfold buildBatch. rewrite gets_bind. destruct (cs_logged_in (g_cs g)); cbn [negb]; [|done].
  destruct (Nat.ltb_spec 0 (buf_length (cs_write_buf (g_cs g)))) as [_|Hlen]; [done|]. destruct (_ >=? _); [done|].
  pose proof (gen_ok_busy g Hg Hfd Hcon) as Hb. pose proof (by_state _ Hb) as Hc. pose proof (ck_write _ Hc) as [Hw Hoff].
  set (c0 := (g_cs g) <| cs_write_buf := buf_clear (cs_write_buf (g_cs g)) |>).
  assert (forall calls, (g_calls g <= calls)%nat -> kept g (mkGen c0 (g_link g) (g_factory g) calls)) as Hk0 by (intros calls Hcalls; by apply kept_same; try intros ?).
  assert (forall calls, busy (mkGen c0 (g_link g) (g_factory g) calls)) as Hb0.
  { intros calls. destruct Hb as [_ _ _ Hl Ha Hp]. split; cbn [g_cs g_link]; [|done|done| |done|done].
    - apply cs_ok_write; [done|by apply buf_clear_ok|done].
    - eapply link_ok_write; [done|done| |done|done]. rewrite (buf_pending_none (cs_write_buf (g_cs g))); [done|].
      unfold buf_length, buf_remaining_to_send in *. lia. }
  assert (forall n calls (k : unit -> M (Gen F) unit), (g_calls g <= calls)%nat ->
    (forall g1, busy g1 -> exists g', k tt g1 = Some (tt, g') /\ gen_ok g' /\ kept g1 g') ->
    batch_done g ((batch_loop draws n (replicate 128 0) ≫= k) (mkGen c0 (g_link g) (g_factory g) calls))) as Hloop.
  { intros n calls k Hcalls Hkont. destruct (batch_loop_ok n (replicate 128 0) _ (Hb0 calls)) as [(g1 & E1 & Hb1 & Hk1)|[E1 Hnot]].
    - rewrite (bind_Some _ _ _ _ _ E1). destruct (Hkont g1 Hb1) as (g' & E & Hok & Hk2). left. exists g'. split; [done|]. split; [done|].
      eapply kept_trans; [by apply Hk0|]. by eapply kept_trans.
    - right. split; [unfold mbind, M_bind; by rewrite E1|done]. }
  destruct (inter_arrival_ns_ >? 0).
  - unfold now_ns. rewrite bind_bind, sys_bind, ret_bind. destruct (_ <? _).
    { left. eexists. split; [done|]. split; [exact Hg|]. by apply kept_same; cbn; try lia; try intros ?. }
    rewrite set_cs_bind. cbn [g_cs g_link g_factory g_calls]. fold c0. apply Hloop; [cbn; lia|]. intros g1 Hb1.
    unfold when. rewrite bind_bind, sys_bind, set_cs_bind. cbn [g_cs g_link g_factory g_calls].
    edestruct flushWrite_ok as (g2 & E2 & Hok & Hk2); [by apply busy_send_time|]. rewrite E2. exists g2. split; [done|]. split; [done|].
    eapply kept_trans; [|exact Hk2]. by apply kept_same; cbn; try lia; try intros ?.
  - rewrite ret_bind, set_cs_bind. fold c0. apply Hloop; [done|]. intros g1 Hb1. unfold when. rewrite ret_bind. by apply flushWrite_ok.
Qed.

(** ** Receiving *)

(** What is left in the read buffer: nothing, or the start of a packet. *)
Definition waiting (l : list Z) : Prop := l = [] \/ soup_status (parse_soup_packet l) = INCOMPLETE.

(** The packet at the front of the read buffer. *)
Lemma next_packet g seq :
  let view := buf_view (cs_read_buf (g_cs g)) in let parsed := parse_soup_packet view in
  cs_ok (g_cs g) -> cs_fd (g_cs g) <> -1 -> cs_connecting (g_cs g) = false -> link_reads (g_cs g) (g_link g) seq ->
  soup_status parsed = PACKET ->
  exists ok c', handleSoupPacket (soup_packet parsed) (g_cs g) = Some (ok, c') /\ cs_ok c' /\ same_io (g_cs g) c' /\
    hear_packet (soup_packet parsed) (peer_state (g_cs g) seq) = (ok, peer_state c' seq) /\
    if ok then let c2 := c' <| cs_read_buf := buf_advance (soup_consumed parsed) (cs_read_buf c') |> in
      cs_ok c2 /\ link_reads c2 (g_link g) seq /\ (buf_length (cs_read_buf c2) < buf_length (cs_read_buf (g_cs g)))%nat
    else violates (ln_rcvd (g_link g)).
Proof.
  intros view parsed Hc Hfd Hcon (ps & Hr & Hps & Hu & Ht) Hp. fold view in Hr, Hu.
  destruct (parse_packet_inv view Hu Hp) as (Hv & Hfits & Hup & Hpos). fold parsed in Hv, Hfits, Hup, Hpos.
  destruct (handleSoupPacket_ok (soup_packet parsed) (g_cs g) seq Hc Hfd Hcon Hup) as (ok & c' & E & Hc' & Hio & Htr & Hhear).
  exists ok, c'. split; [done|]. split; [done|]. split; [done|]. split; [done|].
  assert (track_all (false, seq) (ps ++ [soup_packet parsed]) = if ok then Some (session_of c') else None) as Hall.
  { rewrite track_all_app, Ht. cbn [track_all]. change (cs_logged_in (g_cs g), cs_next_sequence (g_cs g)) with (session_of (g_cs g)). rewrite Htr. by destruct ok. }
  assert (ln_rcvd (g_link g) = concat (frame_of <$> (ps ++ [soup_packet parsed])) ++ drop (soup_consumed parsed) view) as Hr'.
  { rewrite Hr, fmap_app, concat_app, <- app_assoc. cbn [fmap list_fmap concat]. by rewrite app_nil_r, <- Hv. }
  assert (Forall packet_fits (ps ++ [soup_packet parsed])) as Hps' by (apply Forall_app; split; [done|by apply Forall_singleton]).
  destruct ok.
  - destruct Hio as (_ & _ & _ & _ & Erb & _). pose proof (ck_read _ Hc) as [Hrb Hrw].
    destruct (buf_advance_ok kReadBufBytes (cs_read_buf (g_cs g)) (soup_consumed parsed) Hrb Hrw) as (Hrb' & Hv' & Hrw').
    rewrite Erb. cbv zeta. cbn [cs_read_buf]. split; [pose proof Hc' as []; by split|]. split.
    + exists (ps ++ [soup_packet parsed]). cbn [cs_read_buf cs_logged_in cs_next_sequence]. rewrite Hv'. fold view. split; [done|]. split; [done|]. split; [by apply Forall_drop|exact Hall].
    + rewrite <- (buf_length_view kReadBufBytes), <- (buf_length_view kReadBufBytes (cs_read_buf (g_cs g))), Hv', length_drop by done. fold view.
      assert (0 < length view)%nat; [|lia]. destruct view; [|cbn; lia]. by vm_compute in Hp.
  - exists (ps ++ [soup_packet parsed]), (drop (soup_consumed parsed) view). split; [done|]. split; [done|]. left. by eapply track_all_any_seq.
Qed.

Lemma link_sends_same c c' l seq :
  cs_client_id c' = cs_client_id c -> cs_write_buf c' = cs_write_buf c -> cs_next_user_ref_num c' = cs_next_user_ref_num c ->
  link_sends c l seq -> link_sends c' l seq.
Proof. intros E1 E2 E3 (r & n & Hs & Hn). exists r, n. by rewrite E1, E2, E3. Qed.

(** The observer has heard all that was delivered, the client reads on. *)
Definition hearing g : Prop :=
  let p := peer_of (ln_trace (g_link g)) in hear (peer_state (g_cs g) (pe_asked p)) = p.

Lemma read_loop_ok fuel g :
  client_inv (g_cs g) (g_link g) -> hearing g ->
  cs_fd (g_cs g) <> -1 -> cs_connecting (g_cs g) = false -> (buf_length (cs_read_buf (g_cs g)) <= fuel)%nat ->
  exists ok g', read_loop kernel fuel g = Some (ok, g') /\ gen_ok g' /\ ln_rcvd (g_link g') = ln_rcvd (g_link g) /\
    (g_factory g' = g_factory g /\ (g_calls g <= g_calls g')%nat) /\
    if ok then cs_fd (g_cs g') <> -1 /\ cs_connecting (g_cs g') = false /\ waiting (buf_view (cs_read_buf (g_cs g')))
    else cs_fd (g_cs g') = -1 /\ violates (ln_rcvd (g_link g)).
Proof.
  revert g. induction fuel as [|fuel IH]; intros g Hg Hear Hfd Hcon Hn; pose proof Hg as [Hc Hl Ha]; pose proof (ck_read _ Hc) as [Hrb _];
    cbn [read_loop]; rewrite gets_bind; pose proof (buf_length_view kReadBufBytes _ Hrb) as Hlen;
    (assert (soup_status (parse_soup_packet (buf_view (cs_read_buf (g_cs g)))) <> PACKET \/ buf_view (cs_read_buf (g_cs g)) = [] -> peer_ok (g_cs g) (g_link g)) as Hdone
      by (intros Hnone; unfold peer_ok; rewrite (proj2 (Z.eqb_neq _ _) Hfd); cbv zeta; unfold hearing in Hear; rewrite <- Hear at 2;
          symmetry; apply hear_settled; cbn [peer_state pe_rest]; tauto));
    destruct (Nat.eqb_spec (buf_length (cs_read_buf (g_cs g))) 0) as [E0|E0]; try lia.
  1, 2: (assert (buf_view (cs_read_buf (g_cs g)) = []) as Ev by (apply length_zero_iff_nil; lia)); exists true, g; split_and!; try done; [split; [done|auto]|by left].
  destruct (Hl Hfd) as (Hr & Hs). set (p := peer_of (ln_trace (g_link g))) in *. set (seq := pe_asked p) in *. rewrite Hcon in Hs. cbv zeta. destruct (soup_status _) eqn:Est.
  - destruct (next_packet g seq Hc Hfd Hcon Hr Est) as (ok & c' & Eh & Hc' & Hio & Hhear & Hok). cbv zeta in Hok.
    pose proof (hear_next (peer_state (g_cs g) seq) (peer_state c' seq) ok Est Hhear) as Hnext. unfold hearing in Hear. fold p seq in Hear. rewrite Hear in Hnext.
    assert (on_cs (handleSoupPacket (soup_packet (parse_soup_packet (buf_view (cs_read_buf (g_cs g)))))) g = Some (ok, mkGen c' (g_link g) (g_factory g) (g_calls g))) as Eon
      by (unfold on_cs; by rewrite Eh). rewrite (bind_Some _ _ _ _ _ Eon). pose proof Hio as (Eid & Efd & Econ & Ew & Er & En). destruct ok; cbn [negb].
    + destruct Hok as (Hc2 & Hr2 & Hlt). rewrite set_cs_bind. cbn [g_cs g_link g_factory g_calls].
      edestruct IH as (ok & g' & E & Hres); [| | | | |rewrite E; exists ok, g'; split; [done|exact Hres]];
        cbn [g_cs cs_fd cs_connecting cs_read_buf]; try congruence; [| |cbn [cs_read_buf] in Hlt; lia].
      * split; cbn [g_cs g_link]; [done| |].
        -- intros _. split; [done|]. cbn [cs_connecting]. rewrite Econ, Hcon. by eapply link_sends_same; [..|exact Hs].
        -- unfold armed_ok in *. cbn [cs_fd cs_connecting cs_write_buf]. by rewrite Efd, Econ, Ew.
      * unfold hearing. cbn [g_link g_cs]. fold p seq. etransitivity; [|symmetry; exact Hnext]. f_equal. unfold peer_state.
        cbn [cs_logged_in cs_next_sequence cs_acks_pending cs_read_buf pe_logged pe_number pe_unanswered pe_asked pe_rest]. f_equal.
        rewrite Er. pose proof (ck_read _ Hc) as [Hb1 Hb2]. by destruct (buf_advance_ok kReadBufBytes (cs_read_buf (g_cs g)) (soup_consumed (parse_soup_packet (buf_view (cs_read_buf (g_cs g))))) Hb1 Hb2) as (_ & -> & _).
    + destruct (reconnect_ok (mkGen c' (g_link g) (g_factory g) (g_calls g)) Hc') as (g' & Eg & Hg' & Hd); [by cbn [g_cs]; rewrite Efd|cbn [g_cs g_link]; fold p; by rewrite Hnext|].
      rewrite (bind_Some _ _ _ _ _ Eg). exists false, g'. split; [done|]. split; [done|]. destruct Hd as ((? & ? & ?) & _ & _ & ? & _). done.
  - exists true, g. split_and!; try done; [split; [done|]; by apply Hdone; left|by right].
  - destruct (reconnect_ok g Hc Hfd) as (g' & Eg & Hg' & Hd); [by apply peer_ok_number, Hdone; left|]. rewrite (bind_Some _ _ _ _ _ Eg). exists false, g'. split; [done|]. split; [done|].
    destruct Hd as ((? & ? & ?) & _ & _ & ? & _). split; [done|]. split; [done|]. split; [done|]. destruct Hr as (ps & Hr & Hps & _). exists ps, (buf_view (cs_read_buf (g_cs g))). by split_and!; [| |right].
Qed.

(** Once the read buffer has [bytes] behind what it had. *)
Lemma link_reads_more c l seq b bytes :
  link_reads c l seq -> Forall is_u8 bytes -> buf_view b = buf_view (cs_read_buf c) ++ bytes ->
  link_reads (c <| cs_read_buf := b |>) (mkSocket (ln_armed l) (ln_sent l) (ln_rcvd l ++ bytes) (ln_trace l ++ [delivered bytes])) seq.
Proof.
  intros (ps & Hr & Hps & Hu & Ht) Hb Hv. exists ps. cbn [cs_read_buf ln_rcvd cs_logged_in cs_next_sequence]. rewrite Hv, Hr, app_assoc.
  split; [done|]. split; [done|]. split; [|done]. by apply Forall_app.
Qed.

Lemma hear_loop_asked n s : pe_asked (hear_loop n s) = pe_asked s.
Proof.
  revert s. induction n as [|n IH]; intros s; [done|]. cbn [hear_loop]. cbv zeta. destruct (soup_status _); [|done|done].
  assert (pe_asked (hear_packet (soup_packet (parse_soup_packet (pe_rest s))) s).2 = pe_asked s) as E by (unfold hear_packet; by destruct (track _ _) as [[]|]).
  destruct (hear_packet _ s) as [[] s']; [|done]. by rewrite IH.
Qed.

Lemma gen_ok_received g b bytes :
  gen_ok g -> cs_fd (g_cs g) <> -1 -> buf_ok kReadBufBytes b -> buf_bytes_written b = 0%nat -> Forall is_u8 bytes -> buf_view b = buf_view (cs_read_buf (g_cs g)) ++ bytes ->
  let c' := (g_cs g) <| cs_read_buf := b |> in
  let l' := mkSocket (ln_armed (g_link g)) (ln_sent (g_link g)) (ln_rcvd (g_link g) ++ bytes) (ln_trace (g_link g) ++ [delivered bytes]) in
  client_inv c' l' /\ forall f n, hearing (mkGen c' l' f n).
Proof.
  intros [[Hc Hl Ha] Hp] Hfd Hb Hw Hu Hv. cbv zeta. unfold peer_ok in Hp. rewrite (proj2 (Z.eqb_neq _ _) Hfd) in Hp. cbv zeta in Hp.
  set (p := peer_of (ln_trace (g_link g))) in *.
  assert (peer_of (ln_trace (g_link g) ++ [delivered bytes]) = hear (mkPeer (pe_logged p) (pe_number p) (pe_unanswered p) (pe_asked p) (pe_rest p ++ bytes))) as Ep by (by rewrite peer_of_snoc).
  assert (pe_asked (peer_of (ln_trace (g_link g) ++ [delivered bytes])) = pe_asked p) as Easked by (rewrite Ep; unfold hear; by rewrite hear_loop_asked).
  split.
  - split; [pose proof Hc as []; by split| |done]. intros _. destruct (Hl Hfd) as (Hr & Hs). unfold socket_ok. cbn [ln_trace]. rewrite Easked. split; [by apply link_reads_more|done].
  - intros f n. unfold hearing. cbn [g_link g_cs ln_trace]. rewrite Easked, Ep. f_equal. unfold peer_state at 1.
    cbn [cs_logged_in cs_next_sequence cs_acks_pending cs_read_buf]. rewrite Hv. f_equal; [by rewrite <- Hp..|f_equal; by rewrite <- Hp].
Qed.

Lemma gen_ok_compacted g b f n :
  gen_ok g -> buf_ok kReadBufBytes b -> buf_bytes_written b = 0%nat -> buf_view b = buf_view (cs_read_buf (g_cs g)) ->
  gen_ok (mkGen ((g_cs g) <| cs_read_buf := b |>) (g_link g) f n).
Proof.
  intros [[Hc Hl Ha] Hp] Hb Hw Hv. split; cbn [g_cs g_link].
  - split; [pose proof Hc as []; by split| |done]. intros Hfd. destruct (Hl Hfd) as ((ps & Hr) & Hs). split; [|done]. exists ps. cbn [cs_read_buf cs_logged_in cs_next_sequence]. by rewrite Hv.
  - unfold peer_ok, peer_state in *. cbn [cs_fd cs_logged_in cs_next_sequence cs_acks_pending cs_read_buf]. by rewrite Hv.
Qed.

(** A packet that does not fit the read buffer. *)
Definition oversized (rcvd : list Z) : Prop :=
  exists ps rest, rcvd = concat (frame_of <$> ps) ++ rest /\ Forall packet_fits ps /\ soup_status (parse_soup_packet rest) = INCOMPLETE /\
    (kReadBufBytes <= length rest)%nat.

Definition recv_ends (r : recv_result) : Prop := r = received [] \/ r = recv_error false.

(** Why a connection may end for a client that reads: the call to [recv] found it closed
    or failed, a call to [send] failed, or the exchange broke the protocol. *)
Definition recv_cap (c : ClientState) : nat := buf_remaining_capacity kReadBufBytes (buf_compact kReadBufBytes (cs_read_buf c)).

Definition io_failed g g' : Prop :=
  ((0 < recv_cap (g_cs g))%nat /\ recv_ends (k_recv kernel (g_calls g) (recv_cap (g_cs g)))) \/
  (exists n bytes, (g_calls g < n < g_calls g')%nat /\ send_fails (k_send kernel n bytes)).

Definition lost g g' : Prop :=
  io_failed g g' \/ oversized (ln_rcvd (g_link g')) \/ violates (ln_rcvd (g_link g')).

Definition settled g : Prop := cs_fd (g_cs g) <> -1 -> waiting (buf_view (cs_read_buf (g_cs g))).

(** [recv] is offered no room only if a packet fills the buffer. *)
Lemma recv_room g seq :
  cs_ok (g_cs g) -> waiting (buf_view (cs_read_buf (g_cs g))) -> link_reads (g_cs g) (g_link g) seq ->
  (0 < buf_remaining_capacity kReadBufBytes (buf_compact kReadBufBytes (cs_read_buf (g_cs g))))%nat \/ oversized (ln_rcvd (g_link g)).
Proof.
  intros Hc Hwait (ps & Hr & Hps & _). pose proof (ck_read _ Hc) as [Hrb Hrw]. set (b := cs_read_buf (g_cs g)) in *.
  destruct (buf_compact_ok kReadBufBytes b Hrb Hrw) as (_ & _ & _ & Hlt). pose proof (buf_length_view kReadBufBytes b Hrb) as Hv.
  destruct (decide (buf_length b < kReadBufBytes)%nat) as [Hs|Hs]; [left; unfold buf_remaining_capacity; specialize (Hlt Hs); lia|right].
  exists ps, (buf_view b). split; [done|]. split; [done|]. split; [|lia]. destruct Hwait as [E|?]; [|done]. rewrite E in Hv.
  assert (0 < kReadBufBytes)%nat by (apply Nat.ltb_lt; by vm_compute). cbn [length] in Hv. lia.
Qed.

Lemma handleReadable_ok g :
  gen_ok g -> settled g -> cs_fd (g_cs g) <> -1 -> cs_connecting (g_cs g) = false ->
  let r := handleReadable draws kernel inter_arrival_ns_ g in
  (exists g', r = Some (tt, g') /\ gen_ok g' /\ settled g' /\ factory_kept g g' /\ (cs_fd (g_cs g') = -1 -> lost g g')) \/
  (r = None /\ ~ factory_reachable draws (g_factory g)).
Proof.
  intros Hg Hset Hfd Hcon. cbv zeta. pose proof Hg as [[Hc Hl Ha] Hpeer]. pose proof (ck_read _ Hc) as [Hrb Hrw]. destruct (Hl Hfd) as (Hreads & _).
  pose proof (recv_room g _ Hc (Hset Hfd) Hreads) as Hroom. unfold handleReadable. rewrite gets_bind, sys_bind, set_cs_bind.
  cbn [g_cs g_link g_factory g_calls].
  assert (buf_remaining_capacity kReadBufBytes (buf_compact kReadBufBytes (cs_read_buf (g_cs g))) = recv_cap (g_cs g)) as Ecap by (unfold recv_cap; reflexivity).
  rewrite Ecap in Hroom |- *. set (b := cs_read_buf (g_cs g)) in *. set (cap := recv_cap (g_cs g)) in *.
  destruct (buf_compact_ok kReadBufBytes b Hrb Hrw) as (Hcb & Hcv & Hcw & _).
  assert (forall b', recv_ends (k_recv kernel (g_calls g) cap) -> buf_ok kReadBufBytes b' -> buf_bytes_written b' = 0%nat -> buf_view b' = buf_view b ->
    exists g', reconnect kernel (mkGen ((g_cs g) <| cs_read_buf := b' |>) (g_link g) (g_factory g) (S (g_calls g))) = Some (tt, g') /\ gen_ok g' /\ settled g' /\
      factory_kept g g' /\ (cs_fd (g_cs g') = -1 -> lost g g')) as Hends.
  { intros b' Hend Hb' Hw' Hv'. pose proof (gen_ok_compacted g b' (g_factory g) (S (g_calls g)) Hg Hb' Hw' Hv') as [[Hc' _ _] Hp'].
    edestruct (reconnect_ok (mkGen ((g_cs g) <| cs_read_buf := b' |>) (g_link g) (g_factory g) (S (g_calls g)))) as (g' & E & Hg' & Hd); [done|done|by apply peer_ok_number in Hp'|].
    destruct Hd as ((Hd & Ef & _) & _ & _ & Er & _). exists g'. split; [done|]. split; [done|]. split; [by intros ?|]. split; [unfold factory_kept; by rewrite Ef|].
    intros _. unfold lost. rewrite Er. cbn [g_link]. destruct Hroom; [left; by left|by right; left]. }
  destruct (k_recv kernel (g_calls g) cap) as [[|x bytes]|[|]] eqn:Erecv.
  - destruct (buf_read_from_ok kReadBufBytes b [] Hrb Hrw (Nat.le_0_l _)) as (Hb' & Hv' & Hw'). rewrite app_nil_r in Hv'.
    left. apply Hends; [by left|exact Hb'|exact Hw'|exact Hv'].
  - destruct (k_recv_le _ _ _ Erecv) as [Hcap Hu]. destruct (buf_read_from_ok kReadBufBytes b (x :: bytes) Hrb Hrw ltac:(by rewrite Ecap)) as (Hb' & Hv' & Hw').
    set (b' := buf_read_from kReadBufBytes (received (x :: bytes)) b) in *. rewrite set_link_bind, gets_bind. cbn [g_cs g_link g_factory g_calls cs_read_buf]. fold b b'.
    destruct (gen_ok_received g b' (x :: bytes) Hg Hfd Hb' Hw' Hu Hv') as [Hg1 Hear].
    match goal with |- context [(read_loop _ _ ≫= _) ?x] => set (g1 := x) in * end.
    destruct (read_loop_ok (buf_length b') g1 Hg1 (Hear _ _) Hfd Hcon) as (ok & g2 & E2 & Hg2 & Er2 & (Ef2 & Ec2) & Hok); [done|]. cbn [g1 g_calls] in Ec2.
    rewrite (bind_Some _ _ _ _ _ E2). destruct ok.
    + destruct Hok as (Hfd2 & Hcon2 & Hwait). destruct (buildBatch_ok g2 Hg2 Hfd2 Hcon2) as [(g3 & E3 & Hg3 & (_ & _ & _ & Eb & _ & Hdrop & Hcalls & Hfk))|[E3 Hnot]].
      * left. exists g3. split; [done|]. split; [done|]. split; [intros _; by rewrite Eb|]. split; [unfold factory_kept in *; by rewrite Ef2 in Hfk|].
        intros E. destruct (Hdrop E) as [|(n & sent & Hn & Hs)]; [done|]. left. right. exists n, sent. split; [lia|done].
      * right. by rewrite Ef2 in Hnot.
    + destruct Hok as (Hfd2 & Hv2). left. exists g2. split; [done|]. split; [done|]. split; [by intros ?|]. split; [unfold factory_kept; by rewrite Ef2|].
      intros _. unfold lost. rewrite Er2. by right; right.
  - rewrite buf_read_error. left. eexists. split; [done|]. split; [exact (gen_ok_compacted g _ _ _ Hg Hcb Hcw Hcv)|]. split; [|by split; intros ?]. intros _. cbn [g_cs cs_read_buf]. fold b. rewrite Hcv. by apply Hset.
  - rewrite buf_read_error. left. apply Hends; [by right|exact Hcb|exact Hcw|exact Hcv].
Qed.
End Handlers.
