(* ===== verification/LoadGenerator.v ===== *)
(** * LoadGenerator: the client's event loop ([src/client/src/load_generator.cpp])

    [run] drives every client from one epoll loop.  What [epoll_wait] reports is a
    parameter that knows what each socket is armed for.  However the kernel answers, the
    loop returns from every round with every client's invariant. *)

From S2P Require Import Prelude Types WireCodec OuchProto OuchCorrect Validation SoupProto OuchResponder Reassembly Buffer OrderFactory.
From S2P Require Import Client ClientInvariant ClientHandlers.

(** ** The code *)

(** [events_\[i\]]: the client in [data.ptr] and the bits that are looked at. *)
Record EpollEvent := mkEpollEvent { ev_client : nat; ev_err_hup : bool; ev_pollout : bool; ev_pollin : bool }.

Inductive epoll_result := epoll_ready (events : list EpollEvent) | epoll_interrupted | epoll_failed.

(** By call number, the sockets' interests and the timeout in milliseconds. *)
Definition EpollWait : Type := nat -> list (option Interest) -> Z -> epoll_result.

Definition UINT64_MAX : Z := 18446744073709551615.

Record Stats := mkStats {
  st_requests_sent : Z; st_responses_ack : Z; st_responses_match : Z; st_responses_err : Z; st_responses_canceled : Z;
  st_responses_replaced : Z; st_orders_in_flight : Z;
}.

Section Loop.
Context {F : Type} `{Double F} (draws : Draws F) (kernel : Kernel) (epoll_wait : EpollWait).
Context (inter_arrival_ns_ : Z).

Record LoadGenerator := mkLoadGenerator {
  clients_ : list (ClientState * Socket);
  lg_factory : OrderFactory (F:=F);
  lg_calls : nat;
}.

Definition LoadGenerator_new (num_clients : nat) : LoadGenerator :=
  mkLoadGenerator ((fun i => (ClientState_new (Z.of_nat i + 1), Socket_new)) <$> seq 0 num_clients) OrderFactory_new 0.

(** A handler called with [clients_\[i\]]. *)
Definition on_client {A} (i : nat) (m : M (Gen F) A) : M LoadGenerator A := fun lg =>
  match clients_ lg !! i with
  | None => None
  | Some (c, l) =>
      match m (mkGen c l (lg_factory lg) (lg_calls lg)) with
      | None => None
      | Some (a, g) => Some (a, mkLoadGenerator (<[i := (g_cs g, g_link g)]> (clients_ lg)) (g_factory g) (g_calls g))
      end
  end.

(** [for (auto& cs : clients_)] from client [i] on. *)
Fixpoint each_client (m : M (Gen F) unit) (n i : nat) : M LoadGenerator unit :=
  match n with O => mret tt | S n => _ ← on_client i m; each_client m n (S i) end.

Definition for_clients (m : M (Gen F) unit) : M LoadGenerator unit :=
  n ← gets (fun lg => length (clients_ lg)); each_client m n 0.

(** The deadline one client adds. *)
Definition client_deadline (c : ClientState) (min_deadline : Z) : Z :=
  if cs_fd c =? -1 then Z.min min_deadline (cs_reconnect_at_ns c) else
  if negb (cs_logged_in c) then min_deadline else
  let min_deadline := Z.min min_deadline (u64 (cs_last_sent_ns c + kSoupHeartbeatIntervalNs)) in
  if (inter_arrival_ns_ >? 0) && (cs_acks_pending c <? PIPELINE_DEPTH) && (buf_length (cs_write_buf c) =? 0)%nat
  then Z.min min_deadline (cs_next_send_ns c) else min_deadline.

Definition min_deadline (clients : list ClientState) : Z := fold_left (fun d c => client_deadline c d) clients UINT64_MAX.

Definition timeout_ms (min_deadline now : Z) : Z :=
  if min_deadline =? UINT64_MAX then -1 else
  let wait_ns := i64 (i64 min_deadline - i64 now) in
  if wait_ns <=? 0 then 0 else (wait_ns / 1000000 + 2147483648) mod 4294967296 - 2147483648.

(** One event. *)
Definition dispatch (ev : EpollEvent) : M (Gen F) unit :=
  if ev_err_hup ev then reconnect kernel else
  _ ← when (ev_pollout ev)
        (c ← gets g_cs; if cs_connecting c then handleConnect kernel else flushWrite kernel);
  fd ← gets (fun g => cs_fd (g_cs g));
  if ev_pollout ev && (fd =? -1) then mret tt else
  when (ev_pollin ev) (handleReadable draws kernel inter_arrival_ns_).

Fixpoint dispatch_all (events : list EpollEvent) : M LoadGenerator unit :=
  match events with
  | [] => mret tt
  | ev :: events => _ ← on_client (ev_client ev) (dispatch ev); dispatch_all events
  end.

(** The three passes over the clients after the events. *)
Definition reconnect_due (after : Z) : M (Gen F) unit :=
  c ← gets g_cs;
  when ((cs_fd c =? -1) && (after >=? cs_reconnect_at_ns c)) (_ ← connectClient kernel; mret tt).

Definition slot_due : M (Gen F) unit :=
  c ← gets g_cs;
  when (negb (cs_fd c =? -1) && cs_logged_in c && (cs_acks_pending c <? PIPELINE_DEPTH) && (buf_length (cs_write_buf c) =? 0)%nat)
    (buildBatch draws kernel inter_arrival_ns_).

Definition heartbeat_due (after : Z) : M (Gen F) unit :=
  c ← gets g_cs;
  when (negb (cs_fd c =? -1) && cs_logged_in c && (buf_length (cs_write_buf c) =? 0)%nat &&
        (after >=? u64 (cs_last_sent_ns c + kSoupHeartbeatIntervalNs)))
    (sendHeartbeat kernel).

Definition lg_sys {A} (f : nat -> A) : M LoadGenerator A := fun lg =>
  Some (f (lg_calls lg), mkLoadGenerator (clients_ lg) (lg_factory lg) (S (lg_calls lg))).

(** One round of the loop; [false] when [run] returns. *)
Definition run_round : M LoadGenerator bool :=
  now ← lg_sys (k_now_ns kernel);
  clients ← gets clients_;
  ready ← lg_sys (fun n => epoll_wait n ((fun x => ln_armed x.2) <$> clients) (timeout_ms (min_deadline (fst <$> clients)) now));
  match ready with
  | epoll_interrupted => mret true
  | epoll_failed => mret false
  | epoll_ready events =>
      _ ← dispatch_all events;
      after ← lg_sys (k_now_ns kernel);
      _ ← for_clients (reconnect_due after);
      _ ← when (inter_arrival_ns_ >? 0) (for_clients slot_due);
      _ ← for_clients (heartbeat_due after);
      mret true
  end.

(** The loop for as long as [running_] stays set: [rounds] times. *)
Fixpoint run_loop (rounds : nat) : M LoadGenerator unit :=
  match rounds with
  | O => mret tt
  | S rounds => go ← run_round; if go : bool then run_loop rounds else mret tt
  end.

(** [setupEpoll] is [epoll_create1], which is not modelled: it has succeeded. *)
Definition run (rounds : nat) : M LoadGenerator unit :=
  _ ← for_clients (_ ← connectClient kernel; mret tt);
  run_loop rounds.

Definition add_stats (s : Stats) (c : ClientState) : Stats :=
  mkStats (u64 (st_requests_sent s + requests_sent (cs_counts c))) (u64 (st_responses_ack s + responses_ack (cs_counts c)))
    (u64 (st_responses_match s + responses_match (cs_counts c))) (u64 (st_responses_err s + responses_err (cs_counts c)))
    (u64 (st_responses_canceled s + responses_canceled (cs_counts c))) (u64 (st_responses_replaced s + responses_replaced (cs_counts c)))
    (i64 (st_orders_in_flight s + cs_orders_in_flight c)).

Definition stats (lg : LoadGenerator) : Stats := fold_left add_stats (fst <$> clients_ lg) (mkStats 0 0 0 0 0 0 0).
End Loop.
Arguments LoadGenerator F : clear implicits.
Arguments mkLoadGenerator {F}. Arguments clients_ {F}. Arguments lg_factory {F}. Arguments lg_calls {F}.

(** ** What the loop keeps *)

(** [epoll_wait] reports each socket at most once, and only what it is armed for (and
    errors). *)
Class EpollLaws (epoll_wait : EpollWait) : Prop := {
  ew_once n armed t events : epoll_wait n armed t = epoll_ready events -> NoDup (ev_client <$> events);
  ew_armed n armed t events ev : epoll_wait n armed t = epoll_ready events -> ev ∈ events ->
    exists i, armed !! ev_client ev = Some (Some i) /\ (ev_pollout ev = true -> want_out i = true) /\ (ev_pollin ev = true -> want_in i = true);
}.

Section Keeps.
Context {F : Type} `{DoubleLaws F} (draws : Draws F) `{!WalkLaws draws} (kernel : Kernel) `{!KernelLaws kernel} (epoll_wait : EpollWait) `{!EpollLaws epoll_wait}.
Context (inter_arrival_ns_ : Z).
Implicit Types (g : Gen F) (lg : LoadGenerator F).

(** A client between two handlers. *)
Definition client_good (c : ClientState) (l : Socket) : Prop :=
  (client_inv c l /\ peer_ok c l) /\ (cs_fd c <> -1 -> waiting (buf_view (cs_read_buf c))).

Definition good g : Prop := client_good (g_cs g) (g_link g) /\ factory_reachable draws (g_factory g).

Lemma good_kept g g' : good g -> gen_ok g' -> kept draws kernel g g' -> good g'.
Proof. intros [[_ Hw] Hf] Hok (_ & _ & _ & Eb & Hfd & _ & _ & Hfk). split; [|by apply Hfk]. split; [done|]. intros E. destruct (Hfd E) as [Ef _]. rewrite Eb. apply Hw. by rewrite <- Ef. Qed.

Lemma good_dropped g g' : good g -> gen_ok g' -> dropped g g' -> good g'.
Proof. intros [_ Hf] Hok [(E & Ef & _) _]. split; [|by rewrite Ef]. split; [done|]. by intros ?. Qed.

Lemma connect_good g : good g -> cs_fd (g_cs g) = -1 -> exists g', (_ ← connectClient kernel; mret tt) g = Some (tt, g') /\ good g'.
Proof.
  intros [[Hok _] Hf] Hfd. destruct (connectClient_ok draws kernel g Hok Hfd) as (b & g' & E & Hok' & Hfk). rewrite (bind_Some _ _ _ _ _ E). exists g'. split; [done|].
  split; [|by apply Hfk]. split; [done|]. intros Hne. left. unfold connectClient in E. rewrite sys_bind in E. destruct (_ =? -1); [injection E as _ <-; done|].
  rewrite set_cs_bind, set_link_bind, sys_bind in E. destruct (k_connect _ _); [injection E as _ <-; done..|].
  injection E as _ <-. done.
Qed.

Lemma dispatch_good ev g i :
  good g -> ln_armed (g_link g) = Some i -> (ev_pollout ev = true -> want_out i = true) -> (ev_pollin ev = true -> want_in i = true) ->
  exists g', dispatch draws kernel inter_arrival_ns_ ev g = Some (tt, g') /\ good g'.
Proof.
  intros Hg Hi Hout Hin. pose proof Hg as [[Hok Hw] Hf]. pose proof Hok as [[Hc _ Ha] Hp]. unfold armed_ok in Ha.
  destruct (Z.eqb_spec (cs_fd (g_cs g)) (-1)) as [|Hfd]; [congruence|]. destruct Ha as (i' & Ei & Ha). rewrite Hi in Ei. injection Ei as <-.
  unfold dispatch. destruct (ev_err_hup ev).
  { destruct (reconnect_ok kernel g Hc Hfd (peer_ok_number _ _ Hp)) as (g' & E & Hg' & Hd). exists g'. eauto using good_dropped. }
  assert (forall g, good g -> cs_fd (g_cs g) <> -1 -> cs_connecting (g_cs g) = false ->
    exists g', handleReadable draws kernel inter_arrival_ns_ g = Some (tt, g') /\ good g') as Hread.
  { intros g1 [[Hok1 Hw1] Hf1] Hfd1 Hcon1.
    destruct (handleReadable_ok draws kernel inter_arrival_ns_ g1 Hok1 Hw1 Hfd1 Hcon1) as [(g' & E & ? & ? & Hfk & _)|[_ Hnot]]; [|done].
    exists g'. split; [done|]. split; [done|by apply Hfk]. }
  destruct (ev_pollout ev); cbn [when].
  - rewrite bind_bind, gets_bind. destruct (cs_connecting (g_cs g)) eqn:Hcon.
    + destruct (handleConnect_ok draws kernel g Hok Hfd Hcon) as (g1 & E1 & Hok1 & Eb & Hfk). rewrite (bind_Some _ _ _ _ _ E1), gets_bind.
      subst i. cbn [want_in] in Hin. destruct (ev_pollin ev); [by discriminate Hin|]. exists g1.
      split; [by destruct (_ && _)|]. split; [|by apply Hfk]. split; [done|]. intros _. rewrite Eb. by apply Hw.
    + destruct (flushWrite_ok draws kernel g (gen_ok_busy g Hok Hfd Hcon)) as (g1 & E1 & Hok1 & Hk1). rewrite (bind_Some _ _ _ _ _ E1), gets_bind.
      pose proof (good_kept _ _ Hg Hok1 Hk1) as Hg1. destruct (Z.eqb_spec (cs_fd (g_cs g1)) (-1)) as [Ed|Ed]; cbn [andb]; [by exists g1|].
      destruct (ev_pollin ev); cbn [when]; [|by exists g1]. apply Hread; [done|done|].
      destruct Hk1 as (_ & _ & _ & _ & Hk1 & _). destruct (Hk1 Ed) as (_ & _ & ->). done.
  - rewrite ret_bind, gets_bind. cbn [andb]. destruct (ev_pollin ev); cbn [when]; [|by exists g]. apply Hread; [done|done|].
    destruct (cs_connecting (g_cs g)); [|done]. subst i. by discriminate Hin.
Qed.

(** ** All clients *)

Definition lg_ok lg : Prop :=
  (forall i c l, clients_ lg !! i = Some (c, l) -> client_good c l) /\ factory_reachable draws (lg_factory lg).

(** A handler run on one client leaves the others alone. *)
Definition only (i : nat) lg lg' : Prop :=
  length (clients_ lg') = length (clients_ lg) /\ forall j, j <> i -> clients_ lg' !! j = clients_ lg !! j.

Lemma on_client_ok {A} (m : M (Gen F) A) i c l lg :
  lg_ok lg -> clients_ lg !! i = Some (c, l) ->
  (forall n, exists a g', m (mkGen c l (lg_factory lg) n) = Some (a, g') /\ good g') ->
  exists a lg', on_client i m lg = Some (a, lg') /\ lg_ok lg' /\ only i lg lg'.
Proof.
  intros [Hlg _] Ei Hm. unfold on_client. rewrite Ei. destruct (Hm (lg_calls lg)) as (a & g' & E & Hg & Hf). rewrite E.
  eexists _, _. split; [done|]. split.
  - split; [|exact Hf]. intros j c' l'. cbn [clients_]. intros [(_ & [= <- <-] & _)|(_ & Ej)]%list_lookup_insert_Some; [done|by eapply Hlg].
  - split; cbn [clients_]; [by rewrite length_insert|]. intros j Hj. by rewrite list_lookup_insert_ne.
Qed.

Lemma each_client_ok (m : M (Gen F) unit) (Q : ClientState -> Prop) n i lg :
  (forall g, good g -> Q (g_cs g) -> exists g', m g = Some (tt, g') /\ good g') ->
  lg_ok lg -> (i + n <= length (clients_ lg))%nat -> (forall j c l, (i <= j)%nat -> clients_ lg !! j = Some (c, l) -> Q c) ->
  exists lg', each_client m n i lg = Some (tt, lg') /\ lg_ok lg' /\ length (clients_ lg') = length (clients_ lg).
Proof.
  intros Hm. revert i lg. induction n as [|n IH]; intros i lg Hlg Hn HQ; [by exists lg|]. cbn [each_client].
  destruct (lookup_lt_is_Some_2 (clients_ lg) i) as [[c l] Ei]; [lia|].
  destruct (on_client_ok m i c l lg Hlg Ei) as ([] & lg1 & E1 & Hlg1 & Hlen & Hother).
  { intros k. destruct (Hm (mkGen c l (lg_factory lg) k)) as (g' & E & Hg); [split; [by apply (proj1 Hlg i)|apply Hlg]|by eapply HQ|]. by exists tt, g'. }
  rewrite (bind_Some _ _ _ _ _ E1). destruct (IH (S i) lg1) as (lg' & E & Hlg' & Hlen'); [done|lia| |].
  - intros j c' l' Hj. rewrite Hother by lia. apply HQ. lia.
  - exists lg'. split; [done|]. split; [done|]. lia.
Qed.

Lemma for_clients_ok (m : M (Gen F) unit) lg :
  (forall g, good g -> exists g', m g = Some (tt, g') /\ good g') -> lg_ok lg -> exists lg', for_clients m lg = Some (tt, lg') /\ lg_ok lg'.
Proof.
  intros Hm Hlg. unfold for_clients. rewrite gets_bind. destruct (each_client_ok m (fun _ => True) (length (clients_ lg)) 0 lg) as (lg' & E & Hlg' & _);
    [by intros g Hg _; apply Hm|done|done|done|]. by exists lg'.
Qed.

Lemma reconnect_due_ok after g : good g -> exists g', reconnect_due kernel after g = Some (tt, g') /\ good g'.
Proof.
  intros Hg. unfold reconnect_due. rewrite gets_bind. destruct (Z.eqb_spec (cs_fd (g_cs g)) (-1)) as [E|_]; cbn [andb when]; [|by exists g].
  destruct (_ >=? _); cbn [when]; [by apply connect_good|by exists g].
Qed.

Lemma logged_in_connected g : good g -> cs_logged_in (g_cs g) = true -> cs_connecting (g_cs g) = false.
Proof. intros [[[[Hc _ _] _] _] _] Hlog. pose proof (ck_connecting _ Hc) as Hcc. destruct (cs_connecting (g_cs g)); [|done]. specialize (Hcc eq_refl). congruence. Qed.

Lemma slot_due_ok g : good g -> exists g', slot_due draws kernel inter_arrival_ns_ g = Some (tt, g') /\ good g'.
Proof.
  intros Hg. unfold slot_due. rewrite gets_bind. match goal with |- context [when ?b _] => destruct b eqn:E end; cbn [when]; [|by exists g].
  rewrite !andb_true_iff, negb_true_iff, Z.eqb_neq in E. destruct E as [[[Hfd Hlog] _] _].
  destruct (buildBatch_ok draws kernel inter_arrival_ns_ g (proj1 (proj1 Hg)) Hfd (logged_in_connected g Hg Hlog)) as [(g' & E & Hok & Hk)|[_ Hnot]]; [eauto using good_kept|].
  by destruct Hnot, Hg.
Qed.

Lemma heartbeat_due_ok after g : good g -> exists g', heartbeat_due kernel after g = Some (tt, g') /\ good g'.
Proof.
  intros Hg. unfold heartbeat_due. rewrite gets_bind. match goal with |- context [when ?b _] => destruct b eqn:E end; cbn [when]; [|by exists g].
  rewrite !andb_true_iff, negb_true_iff, Z.eqb_neq, Nat.eqb_eq in E. destruct E as [[[Hfd Hlog] Hlen] _].
  destruct (sendHeartbeat_ok draws kernel g (proj1 (proj1 Hg)) Hfd (logged_in_connected g Hg Hlog) Hlen) as (g' & E & Hok & Hk). eauto using good_kept.
Qed.

(** Every event of a batch finds its client as [epoll_wait] saw it. *)
Lemma dispatch_all_ok events lg :
  lg_ok lg -> NoDup (ev_client <$> events) ->
  (forall ev, ev ∈ events -> exists i, ((fun x => ln_armed x.2) <$> clients_ lg) !! ev_client ev = Some (Some i) /\
    (ev_pollout ev = true -> want_out i = true) /\ (ev_pollin ev = true -> want_in i = true)) ->
  exists lg', dispatch_all draws kernel inter_arrival_ns_ events lg = Some (tt, lg') /\ lg_ok lg'.
Proof.
  revert lg. induction events as [|ev events IH]; intros lg Hlg Hnd Hev; [by exists lg|]. cbn [dispatch_all].
  cbn [fmap list_fmap] in Hnd. apply NoDup_cons in Hnd as [Hnot Hnd].
  destruct (Hev ev) as (i & Ei & Hout & Hin); [left|]. rewrite list_lookup_fmap in Ei. destruct (clients_ lg !! ev_client ev) as [[c l]|] eqn:Ec; [|done]. cbn in Ei.
  injection Ei as Ei. destruct (on_client_ok (dispatch draws kernel inter_arrival_ns_ ev) (ev_client ev) c l lg Hlg Ec) as ([] & lg1 & E1 & Hlg1 & Hlen & Hother).
  { intros n. destruct (dispatch_good ev (mkGen c l (lg_factory lg) n) i) as (g' & E & Hg); [split; [by apply (proj1 Hlg (ev_client ev))|apply Hlg]|done|done|done|]. by exists tt, g'. }
  rewrite (bind_Some _ _ _ _ _ E1). apply IH; [done|done|]. intros ev' Hin'. destruct (Hev ev') as (i' & Ei' & ?); [by right|]. exists i'. split; [|done].
  rewrite list_lookup_fmap in *. rewrite Hother; [done|]. intros E. apply Hnot. rewrite <- E. by apply list_elem_of_fmap_2.
Qed.

Lemma run_round_ok lg : lg_ok lg -> exists b lg', run_round draws kernel epoll_wait inter_arrival_ns_ lg = Some (b, lg') /\ lg_ok lg'.
Proof.
  intros Hlg. unfold run_round. unfold lg_sys at 1. rewrite (bind_Some _ _ _ _ _ eq_refl), gets_bind. unfold lg_sys at 1. rewrite (bind_Some _ _ _ _ _ eq_refl).
  cbn [clients_ lg_factory lg_calls]. set (lg1 := mkLoadGenerator _ _ _).
  match goal with |- context [epoll_wait ?n ?a ?t] => destruct (epoll_wait n a t) as [events| |] eqn:Ew end; [|by eexists _, _..].
  destruct (dispatch_all_ok events lg1) as (lg2 & E2 & H2); [done|by eapply ew_once|intros ev Hev; by eapply ew_armed|].
  rewrite (bind_Some _ _ _ _ _ E2). unfold lg_sys. rewrite (bind_Some _ _ _ _ _ eq_refl). set (lg3 := mkLoadGenerator (clients_ lg2) _ _).
  destruct (for_clients_ok (reconnect_due kernel (k_now_ns kernel (lg_calls lg2))) lg3) as (lg4 & E4 & H4); [intros g; apply reconnect_due_ok|done|].
  rewrite (bind_Some _ _ _ _ _ E4).
  assert (exists lg5, when (inter_arrival_ns_ >? 0) (for_clients (slot_due draws kernel inter_arrival_ns_)) lg4 = Some (tt, lg5) /\ lg_ok lg5) as (lg5 & E5 & H5).
  { destruct (inter_arrival_ns_ >? 0); cbn [when]; [|by exists lg4]. apply for_clients_ok; [intros g; apply slot_due_ok|done]. }
  rewrite (bind_Some _ _ _ _ _ E5).
  destruct (for_clients_ok (heartbeat_due kernel (k_now_ns kernel (lg_calls lg2))) lg5) as (lg6 & E6 & H6); [intros g; apply heartbeat_due_ok|done|].
  rewrite (bind_Some _ _ _ _ _ E6). by eexists _, _.
Qed.

Lemma run_loop_ok rounds lg : lg_ok lg -> exists lg', run_loop draws kernel epoll_wait inter_arrival_ns_ rounds lg = Some (tt, lg') /\ lg_ok lg'.
Proof.
  revert lg. induction rounds as [|rounds IH]; intros lg Hlg; [by exists lg|]. cbn [run_loop].
  destruct (run_round_ok lg Hlg) as (b & lg1 & E1 & H1). rewrite (bind_Some _ _ _ _ _ E1). destruct b; [by apply IH|by exists lg1].
Qed.

Lemma new_client_lookup num i c l :
  clients_ (LoadGenerator_new (F:=F) num) !! i = Some (c, l) -> c = ClientState_new (Z.of_nat i + 1) /\ l = Socket_new.
Proof.
  cbn [LoadGenerator_new clients_]. rewrite list_lookup_fmap. intros (k & Ek & E)%fmap_Some. apply lookup_seq in Ek as [-> _]. by injection E as -> ->.
Qed.

Lemma run_ok num rounds :
  exists lg, run draws kernel epoll_wait inter_arrival_ns_ rounds (LoadGenerator_new num) = Some (tt, lg) /\ lg_ok lg.
Proof.
  unfold run, for_clients. rewrite bind_bind, gets_bind.
  destruct (each_client_ok (_ ← connectClient kernel; mret tt) (fun c => cs_fd c = -1) (length (clients_ (LoadGenerator_new (F:=F) num))) 0 (LoadGenerator_new num))
    as (lg1 & E1 & H1 & _).
  - intros g. apply connect_good.
  - split; [|apply fr_new]. intros i c l [-> ->]%new_client_lookup. split; [split; [apply ClientState_new_ok|done]|]. by intros ?.
  - done.
  - intros j c l _ [-> ->]%new_client_lookup. done.
  - rewrite (bind_Some _ _ _ _ _ E1). by apply run_loop_ok.
Qed.
End Keeps.

(** ** Deadlines *)

(** The wait is bounded by every deadline below [UINT64_MAX]. *)
Lemma min_deadline_le inter clients c d :
  c ∈ clients -> client_deadline inter c UINT64_MAX <= d -> min_deadline inter clients <= d.
Proof.
  assert (forall c x y, x <= y -> client_deadline inter c x <= client_deadline inter c y) as Hmono.
  { intros x a b Hab. unfold client_deadline. destruct (cs_fd x =? -1); [lia|]. destruct (negb (cs_logged_in x)); [done|]. cbv zeta. destruct (_ && _); lia. }
  assert (forall c x, client_deadline inter c x <= x) as Hless.
  { intros x a. unfold client_deadline. destruct (cs_fd x =? -1); [lia|]. destruct (negb (cs_logged_in x)); [done|]. cbv zeta. destruct (_ && _); lia. }
  assert (forall clients x, fold_left (fun d c => client_deadline inter c d) clients x <= x) as Hfold.
  { intros cl. induction cl as [|a cl IH]; intros x; cbn [fold_left]; [done|]. etransitivity; [apply IH|apply Hless]. }
  unfold min_deadline. intros Hin Hd. assert (forall x, x <= UINT64_MAX -> fold_left (fun d c => client_deadline inter c d) clients x <= d) as Hall; [|by apply Hall].
  induction Hin as [x0 cl|x0 a cl Hx0 IH]; intros x Hx; cbn [fold_left].
  - etransitivity; [apply Hfold|]. etransitivity; [by apply Hmono|done].
  - apply IH; [done|]. specialize (Hless a x). lia.
Qed.

(** [epoll_wait] does not sleep past a deadline that is less than 24 days away. *)
Lemma timeout_bound d now :
  0 <= now < 9223372036854775808 -> 0 <= d < 9223372036854775808 -> d - now < 2147483648 * 1000000 ->
  0 <= timeout_ms d now /\ now + timeout_ms d now * 1000000 <= Z.max now d.
Proof.
  intros Hn Hd Hw. unfold timeout_ms, UINT64_MAX. rewrite (proj2 (Z.eqb_neq d _)) by lia. cbv zeta. rewrite !i64_id by (rewrite ?i64_id; lia).
  destruct (Z.leb_spec (d - now) 0); [lia|]. pose proof (Z.div_mod (d - now) 1000000). pose proof (Z.mod_pos_bound (d - now) 1000000).
  assert (0 <= (d - now) / 1000000 < 2147483648) by (split; [apply Z.div_pos; lia|apply Z.div_lt_upper_bound; lia]).
  rewrite Z.mod_small by lia. lia.
Qed.

(** ** Corners of the client *)

Section Corners.
Context {F : Type} `{DoubleLaws F} (draws : Draws F) (kernel : Kernel) `{!KernelLaws kernel}.

(** A refused [connect] is not backed off from: the next round tries again at once. *)
Lemma refused_not_backed_off (g : Gen F) :
  k_socket kernel (g_calls g) <> -1 -> k_connect kernel (S (g_calls g)) = refused ->
  exists g', connectClient kernel g = Some (false, g') /\ cs_fd (g_cs g') = -1 /\
    cs_reconnect_at_ns (g_cs g') = cs_reconnect_at_ns (g_cs g) /\ cs_reconnect_backoff_ms (g_cs g') = cs_reconnect_backoff_ms (g_cs g).
Proof.
  intros Hs Hc. unfold connectClient. rewrite sys_bind, (proj2 (Z.eqb_neq _ _) Hs), set_cs_bind, set_link_bind, sys_bind. cbn [g_calls]. rewrite Hc.
  eexists. split; [done|]. by split_and!.
Qed.

(** A socket armed for writing after EAGAIN stays armed when everything is sent. *)
Lemma flush_stays_writable fuel (g g' : Gen F) :
  flush_loop kernel fuel g = Some (tt, g') -> cs_fd (g_cs g) <> -1 -> cs_fd (g_cs g') <> -1 ->
  ln_armed (g_link g) = Some (mkInterest true true) -> ln_armed (g_link g') = Some (mkInterest true true).
Proof.
  revert g. induction fuel as [|fuel IH]; intros g E Hfd Hfd' Ha; cbn [flush_loop] in E; rewrite gets_bind in E.
  { destruct (_ =? 0)%nat; [|done]. by injection E as <-. }
  destruct (_ =? 0)%nat; [by injection E as <-|]. rewrite sys_bind, set_cs_bind in E.
  assert (forall g1 g2 : Gen F, cs_fd (g_cs g1) = cs_fd (g_cs g) -> reconnect kernel g1 = Some (tt, g2) -> cs_fd (g_cs g2) = -1) as Hrec.
  { intros g1 g2 E1 Er. unfold reconnect in Er. rewrite gets_bind, E1, (proj2 (Z.eqb_neq _ _) Hfd) in Er. unfold epollDel, now_ns in Er.
    rewrite set_link_bind, sys_bind in Er. by injection Er as <-. }
  destruct (k_send kernel _ _) as [[|m]|[|]].
  - exfalso. apply Hfd'. eapply Hrec; [|exact E]. done.
  - rewrite set_link_bind in E. unfold now_ns in E. rewrite sys_bind, set_cs_bind in E. eapply IH; [exact E|done|done|done].
  - injection E as <-. cbn [g_link ln_armed]. by rewrite Ha.
  - exfalso. apply Hfd'. eapply Hrec; [|exact E]. done.
Qed.

(** The ring of live orders keeps the orders of the previous connection: after a
    reconnect, one order and one Cancel, the next target is an old one. *)
Lemma stale_target a user_ref_num side o :
  ring_ok a -> active_orders a !! 1%nat = Some o ->
  let r := rememberOrder user_ref_num side (mkRing (active_orders a) 0 0 0) in
  pick_target (mkRing (active_orders r) (active_write r) (active_count r) 1) = Some (Some (mkTarget (ao_user_ref_num o) (ao_side o))).
Proof.
  intros _ Ho. cbv zeta. unfold pick_target. cbn [rememberOrder active_count active_orders active_read]. change (Z.to_nat (1 mod MAX_ACTIVE_ORDERS)) with 1%nat.
  change (Z.to_nat (0 mod MAX_ACTIVE_ORDERS)) with 0%nat. rewrite list_lookup_insert_ne by done. by rewrite Ho.
Qed.
End Corners.

(** ** Theorems *)

Section Claims.
Context {F : Type} `{DoubleLaws F} (draws : Draws F) `{!WalkLaws draws} (kernel : Kernel) `{!KernelLaws kernel} (epoll_wait : EpollWait) `{!EpollLaws epoll_wait}.
Context (inter_arrival_ns_ : Z).

End Claims.
