(* ===== verification/Conversation.v ===== *)
(** * Conversation: the exchange and a client of it

    The bytes the outbound thread sends, [stream_of], are a conversation [track] follows:
    a client whose kernel delivers any prefix of them never finds a breach of the
    protocol, and its sequence number is that of the session. *)

From S2P Require Import Prelude Types WireCodec OuchProto OuchCorrect Validation SoupProto OuchResponder Reassembly SessionLog.
From S2P Require Import Inbound NoteProtocol Outbound OutboundStream OutboundTheorems Server.
From S2P Require Import Buffer OrderFactory Client ClientInvariant ClientHandlers LoadGenerator.

(** ** Packets on the wire *)

Lemma frame_of_length p : length (frame_of p) = (3 + length (soup_payload p))%nat.
Proof. unfold frame_of. by rewrite soup_frame_length. Qed.

(** Packets can be read off a stream in one way only. *)
Lemma frames_prefix ps ps' rest :
  Forall packet_fits ps -> Forall packet_fits ps' -> concat (frame_of <$> ps') ++ rest = concat (frame_of <$> ps) ->
  ps' `prefix_of` ps /\ rest = concat (frame_of <$> drop (length ps') ps).
Proof.
  revert ps. induction ps' as [|p' ps' IH]; intros ps Hps Hps' E; [by split; [apply prefix_nil|]|].
  apply Forall_cons in Hps' as [Hp' Hps']. cbn [fmap list_fmap concat] in E. destruct ps as [|p ps].
  { apply (f_equal length) in E. rewrite !length_app, frame_of_length in E. cbn in E. lia. }
  apply Forall_cons in Hps as [Hp Hps]. cbn [fmap list_fmap concat] in E. rewrite <- app_assoc in E.
  assert (p' = p) as ->.
  { pose proof (f_equal parse_soup_packet E) as Eq. unfold frame_of in Eq. rewrite !parse_frame in Eq by done. destruct p, p'. cbn in Eq. congruence. }
  apply app_inv_head in E. destruct (IH ps Hps Hps' E) as [Hpre Hrest]. split; [by apply prefix_cons|done].
Qed.

(** A whole packet has a length, and is found when all of it is there. *)
Lemma frames_not_malformed ps l more :
  Forall packet_fits ps -> l ++ more = concat (frame_of <$> ps) -> soup_status (parse_soup_packet l) <> MALFORMED.
Proof.
  intros Hps E. unfold parse_soup_packet. destruct (Nat.ltb_spec (length l) 2) as [|Hl]; [done|]. destruct ps as [|p ps].
  { apply (f_equal length) in E. rewrite length_app in E. cbn in E. lia. }
  apply Forall_cons in Hps as [Hp _]. cbn [fmap list_fmap concat] in E. pose proof (frame_header (soup_type p) (soup_payload p) (concat (frame_of <$> ps)) Hp) as Hh.
  fold (frame_of p) in Hh. rewrite <- E, take_app_le in Hh by done. rewrite Hh. destruct (Z.eqb_spec (Z.of_nat (length (soup_payload p)) + 1) 0); [lia|].
  by destruct (_ <? _)%nat.
Qed.

Lemma frames_not_oversized n ps l more :
  Forall packet_fits ps -> Forall (fun p => (length (frame_of p) <= n)%nat) ps -> l ++ more = concat (frame_of <$> ps) ->
  soup_status (parse_soup_packet l) = INCOMPLETE -> (length l <= n)%nat.
Proof.
  intros Hps Hn E Hi. destruct (decide (length l <= n)%nat) as [|Hgt]; [done|exfalso]. destruct ps as [|p ps].
  { apply (f_equal length) in E. rewrite length_app in E. cbn in E. lia. }
  apply Forall_cons in Hps as [Hp _]. apply Forall_cons in Hn as [Hn _]. cbn [fmap list_fmap concat] in E.
  assert (l = frame_of p ++ drop (length (frame_of p)) l) as El.
  { rewrite <- (take_drop (length (frame_of p)) l) at 1. f_equal. rewrite <- (take_app_le l more), E by lia. by rewrite take_app_length. }
  rewrite El in Hi. unfold frame_of in Hi at 1. by rewrite parse_frame in Hi.
Qed.

(** ** The exchange's stream *)

(** The session's packets among [ps], as bytes. *)
Definition data_of (ps : list SoupPacket) : list (list Z) := frame_of <$> filter (fun p => soup_type p = SOUP_SEQUENCED_DATA) ps.

Lemma data_of_app ps ps' : data_of (ps ++ ps') = data_of ps ++ data_of ps'.
Proof. unfold data_of. by rewrite filter_app, fmap_app. Qed.

(** Packets a client takes whatever number it has reached. *)
Definition plain_packet (p : SoupPacket) : Prop :=
  p = mkSoupPacket SOUP_SERVER_HEARTBEAT [] \/ exists msg, outbound_wf msg /\ p = mkSoupPacket SOUP_SEQUENCED_DATA (outbound_bytes msg).

Definition login_packet_of (start : Z) : SoupPacket :=
  mkSoupPacket SOUP_LOGIN_ACCEPTED (login_accepted_payload (mkLoginAccepted (soup_session_id SOUP_SESSION) start)).

Lemma stream_packets start packets l :
  stream_of start packets l -> Forall data_packet packets ->
  exists ps, l = concat (frame_of <$> (login_packet_of start :: ps)) /\ Forall plain_packet ps /\ data_of ps = packets.
Proof.
  induction 1 as [|packets l _ IH|packets l packet _ IH]; intros Hd.
  - exists []. cbn [fmap list_fmap concat]. rewrite app_nil_r. done.
  - destruct (IH Hd) as (ps & -> & Hps & Hdata). exists (ps ++ [mkSoupPacket SOUP_SERVER_HEARTBEAT []]). split; [|split].
    + rewrite app_comm_cons, fmap_app, concat_app. cbn [fmap list_fmap concat]. by rewrite app_nil_r.
    + apply Forall_app. split; [done|]. apply Forall_singleton. by left.
    + rewrite data_of_app, Hdata. cbn. apply app_nil_r.
  - apply Forall_app in Hd as [Hd (msg & Hwf & ->)%Forall_singleton]. destruct (IH Hd) as (ps & -> & Hps & Hdata).
    exists (ps ++ [mkSoupPacket SOUP_SEQUENCED_DATA (outbound_bytes msg)]). split; [|split].
    + rewrite app_comm_cons, fmap_app, concat_app. cbn [fmap list_fmap concat]. by rewrite app_nil_r.
    + apply Forall_app. split; [done|]. apply Forall_singleton. right. by exists msg.
    + rewrite data_of_app, Hdata. done.
Qed.

Lemma plain_packet_size p : plain_packet p -> (length (frame_of p) <= 512)%nat.
Proof.
  rewrite frame_of_length. intros [->|(msg & Hwf & ->)]; cbn [soup_payload length]; [lia|]. pose proof (outbound_size_bound msg) as Hb.
  rewrite outbound_size in Hb by done. unfold kSoupHeaderLen in Hb. lia.
Qed.

Lemma login_packet_size start : (length (frame_of (login_packet_of start)) <= 512)%nat.
Proof. rewrite frame_of_length. cbn [soup_payload login_packet_of]. unfold login_accepted_payload. rewrite length_app, numeric_chars_length. cbn. lia. Qed.

Lemma size_fits p : (length (frame_of p) <= 512)%nat -> packet_fits p.
Proof. rewrite frame_of_length. unfold packet_fits. lia. Qed.

Lemma track_plain seq ps :
  Forall plain_packet ps -> 0 <= seq -> seq + Z.of_nat (length (data_of ps)) < 18446744073709551616 ->
  track_all (true, seq) ps = Some (true, seq + Z.of_nat (length (data_of ps))).
Proof.
  intros H. revert seq. induction H as [|p ps Hp _ IH]; intros seq H0 Hseq; [cbn; by rewrite Z.add_0_r|]. cbn [track_all].
  destruct Hp as [->|(msg & Hwf & ->)].
  - apply IH; done.
  - change (data_of (mkSoupPacket SOUP_SEQUENCED_DATA (outbound_bytes msg) :: ps)) with (frame_of (mkSoupPacket SOUP_SEQUENCED_DATA (outbound_bytes msg)) :: data_of ps) in *.
    cbn [length] in *. unfold track. cbn [soup_type soup_payload fst snd]. rewrite decode_outbound_bytes by done.
    change (SOUP_SEQUENCED_DATA =? SOUP_LOGIN_ACCEPTED) with false. rewrite Z.eqb_refl.
    destruct msg as [|m|m|m|m|m]; [done|..]; (rewrite u64_id by ulia; rewrite IH by lia; do 2 f_equal; lia).
Qed.

Lemma track_login st start : is_u64 start -> track st (login_packet_of start) = Some (true, start).
Proof.
  intros Hs. unfold track. cbn [login_packet_of soup_type soup_payload]. rewrite Z.eqb_refl.
  rewrite decode_login_accepted; [reflexivity|]. split; [by vm_compute|exact Hs].
Qed.

(** What a client makes of a prefix of the stream. *)
Lemma client_reads_prefix start packets l rcvd ps rest seq :
  stream_of start packets l -> Forall data_packet packets -> 1 <= start -> start + Z.of_nat (length packets) < 18446744073709551616 ->
  rcvd `prefix_of` l -> rcvd = concat (frame_of <$> ps) ++ rest -> Forall packet_fits ps ->
  data_of ps `prefix_of` packets /\ soup_status (parse_soup_packet rest) <> MALFORMED /\
  (soup_status (parse_soup_packet rest) = INCOMPLETE -> (length rest <= 512)%nat) /\
  track_all (false, seq) ps = Some (match ps with [] => (false, seq) | _ => (true, start + Z.of_nat (length (data_of ps))) end).
Proof.
  intros Hst Hd Hs1 Hs2 [more Hmore] Hr Hps. destruct (stream_packets _ _ _ Hst Hd) as (qs & Hl & Hqs & Hdata).
  assert (Forall (fun p => (length (frame_of p) <= 512)%nat) (login_packet_of start :: qs)) as Hsize.
  { apply Forall_cons. split; [apply login_packet_size|]. exact (Forall_impl _ _ _ Hqs plain_packet_size). }
  assert (Forall packet_fits (login_packet_of start :: qs)) as Hfits by (exact (Forall_impl _ _ _ Hsize size_fits)).
  assert (concat (frame_of <$> ps) ++ rest ++ more = concat (frame_of <$> (login_packet_of start :: qs))) as E by (rewrite app_assoc; congruence).
  destruct (frames_prefix _ _ _ Hfits Hps E) as [[qs' Hpre] Hrest]. set (tl := drop (length ps) (login_packet_of start :: qs)) in *.
  assert (Forall packet_fits tl /\ Forall (fun p => (length (frame_of p) <= 512)%nat) tl) as [Htl1 Htl2] by (split; by apply Forall_drop).
  split; [|split; [by eapply frames_not_malformed|split; [by eapply frames_not_oversized|]]].
  - destruct ps as [|p ps]; [apply prefix_nil|]. injection Hpre as <- Hpre. exists (data_of qs'). rewrite <- Hdata, Hpre, data_of_app. done.
  - destruct ps as [|p ps]; [done|]. injection Hpre as <- Hpre. cbn [track_all]. rewrite track_login by ulia.
    rewrite Hpre in Hqs, Hdata. apply Forall_app in Hqs as [Hqs _]. rewrite data_of_app in Hdata. apply (f_equal length) in Hdata. rewrite length_app in Hdata.
    rewrite track_plain by (done || lia). done.
Qed.

Lemma prefix_sound start packets l rcvd :
  stream_of start packets l -> Forall data_packet packets -> 1 <= start -> start + Z.of_nat (length packets) < 18446744073709551616 ->
  rcvd `prefix_of` l -> ~ violates rcvd /\ ~ oversized rcvd.
Proof.
  intros Hst Hd Hs1 Hs2 Hpre. split.
  - intros (ps & rest & Hr & Hps & Hv). destruct (client_reads_prefix _ _ _ _ _ _ 0 Hst Hd Hs1 Hs2 Hpre Hr Hps) as (_ & Hm & _ & Ht).
    destruct Hv as [Hv|Hv]; [by rewrite Ht in Hv|done].
  - intros (ps & rest & Hr & Hps & Hi & Hlen). destruct (client_reads_prefix _ _ _ _ _ _ 0 Hst Hd Hs1 Hs2 Hpre Hr Hps) as (_ & _ & Hn & _).
    specialize (Hn Hi). assert (512 < kReadBufBytes)%nat by (apply Nat.ltb_lt; by vm_compute). lia.
Qed.

(** ** The client's stream *)

Lemma request_frames id seq refs l :
  request_stream id seq refs l -> exists ps, l = concat (frame_of <$> ps) /\ Forall (fun p => (length (frame_of p) <= 512)%nat) ps.
Proof.
  assert (forall l ps p, l = concat (frame_of <$> ps) -> Forall (fun p => (length (frame_of p) <= 512)%nat) ps -> (length (frame_of p) <= 512)%nat ->
    exists ps', l ++ frame_of p = concat (frame_of <$> ps') /\ Forall (fun p => (length (frame_of p) <= 512)%nat) ps') as Hsnoc.
  { intros l0 ps p -> Hps Hp. exists (ps ++ [p]). rewrite fmap_app, concat_app. cbn [fmap list_fmap concat]. rewrite app_nil_r. split; [done|].
    apply Forall_app. split; [done|]. by apply Forall_singleton. }
  induction 1 as [login _ _ (Hu & Hp & Hs & _)|refs l _ (ps & Hl & Hps)|refs l user_ref_num target kind msg _ (ps & Hl & Hps) [Hwf _]].
  - destruct (Hsnoc [] [] (mkSoupPacket SOUP_LOGIN_REQUEST (login_request_payload login))) as (ps & E & Hps); [done|by apply Forall_nil_2| |by exists ps].
    rewrite frame_of_length. cbn [soup_payload]. unfold login_request_payload. rewrite !length_app, Hu, Hp, Hs, numeric_chars_length. apply Nat.leb_le. reflexivity.
  - apply (Hsnoc l ps (mkSoupPacket SOUP_CLIENT_HEARTBEAT [])); [done|done|]. rewrite frame_of_length. apply Nat.leb_le. reflexivity.
  - apply (Hsnoc l ps (mkSoupPacket SOUP_UNSEQUENCED_DATA (inbound_bytes msg))); [done|done|]. rewrite frame_of_length. cbn [soup_payload].
    rewrite <- inbound_size by done. apply inbound_size_bound.
Qed.

(** Any prefix of short packets is a stream without a packet over the exchange's limit. *)
Lemma frames_short ps l more :
  Forall (fun p => (length (frame_of p) <= 512)%nat) ps -> l ++ more = concat (frame_of <$> ps) -> short_stream l.
Proof.
  revert l. induction ps as [|p ps IH]; intros l Hps E; cbn [fmap list_fmap concat] in E; [apply app_nil in E as [-> _]; constructor|].
  apply Forall_cons in Hps as [Hp Hps]. pose proof (size_fits p Hp) as Hfit. pose proof (frame_header (soup_type p) (soup_payload p)) as Hh. fold (frame_of p) in Hh.
  assert ((2 <= length l)%nat -> too_long l = false) as Hlong.
  { intros H2. unfold too_long, packet_len. rewrite <- (take_app_le l more), E, Hh by done. rewrite frame_of_length in Hp. rewrite Z.gtb_ltb. apply Z.ltb_ge.
    change (Z.of_nat kMaxInboundSoupPacket) with 512. lia. }
  destruct (decide (l = [])) as [->|Hne]; [constructor|]. destruct (decide (length l < length (frame_of p))%nat) as [Hlt|Hge].
  - apply short_incomplete; [done| |done]. assert (l = take (length l) (frame_of p)) as ->; [|apply parse_frame_prefix; [done|exact Hlt]].
    rewrite <- (take_app_le (frame_of p) (concat (frame_of <$> ps))), <- E by lia. by rewrite take_app_length.
  - assert (l = frame_of p ++ drop (length (frame_of p)) l) as El.
    { rewrite <- (take_drop (length (frame_of p)) l) at 1. f_equal. rewrite <- (take_app_le l more), E by lia. by rewrite take_app_length. }
    assert (parse_soup_packet l = mkParseResult PACKET (mkSoupPacket (soup_type p) (soup_payload p)) (length (frame_of p))) as Ep
      by (rewrite El; unfold frame_of at 1; by rewrite parse_frame).
    apply short_packet; rewrite ?Ep; [done|apply Hlong; rewrite frame_of_length in Hge; lia|]. cbn [soup_consumed]. apply IH; [done|].
    rewrite El, <- app_assoc in E. by apply app_inv_head in E.
Qed.

(** ** Both programs *)

Section Conversation.
Context (k cap : Z) (Hk : 9 <= k) (Hcap : cap = 2 ^ k).
Context (in_rdtsc rdtsc : nat -> Z) (tcp_send : nat -> ConnId -> list Z -> nat) (tcp_sendable : nat -> ConnId -> bool).
Hypothesis tcp_send_le : forall n conn bytes, (tcp_send n conn bytes <= length bytes)%nat.
Context {F : Type} `{DoubleLaws F} (draws : Draws F) `{!WalkLaws draws} (kernel : Kernel) `{!KernelLaws kernel} (epoll_wait : EpollWait) `{!EpollLaws epoll_wait}.
Context (inter_arrival_ns_ : Z).

(** The number a connection asks from is the one the session had reached when it was opened. *)
Lemma asked_when_opened before since : opened ∉ since -> pe_asked (peer_of (before ++ opened :: since)) = pe_number (peer_of before).
Proof.
  induction since as [|e since IH] using rev_ind; intros Hno.
  - by rewrite peer_of_snoc.
  - rewrite app_comm_cons, app_assoc, peer_of_snoc. apply not_elem_of_app in Hno as [Hno He]. rewrite <- IH by done.
    destruct e; cbn [peer_io pe_asked]; [by destruct He; left|done|]. unfold hear. by rewrite hear_loop_asked.
Qed.

(** C18: The requests of the load generator reach the exchange whole, whatever the
    kernel takes of them at a time.  For every connected client of any run, what the
    kernel took on the connection, followed by what waits in the write buffer, is one
    login as the client's user that asks from the sequence number the client's session had
    reached when this connection was opened (as an observer of the bytes delivered on all
    its earlier connections counts it, from 1), and then whole packets: heartbeats, and
    messages the exchange accepts as well-formed, whose new UserRefNums count up by one
    from the first, as the next one does.  No packet is over the exchange's limit, however
    much of the stream has arrived.  (For draws whose mid price stays finite, see C20.) *)
Theorem client_requests_intact num rounds :
  exists lg, run draws kernel epoll_wait inter_arrival_ns_ rounds (LoadGenerator_new num) = Some (tt, lg) /\
    forall (i : nat) c l, clients_ lg !! i = Some (c, l) -> cs_fd c <> -1 -> cs_connecting c = false ->
      exists asked r n, request_stream (cs_client_id c) asked (refs_from r n) (ln_sent l ++ buf_pending (cs_write_buf c)) /\
        asked = pe_asked (peer_of (ln_trace l)) /\
        (forall before since, ln_trace l = before ++ opened :: since -> opened ∉ since -> asked = pe_number (peer_of before)) /\
        cs_next_user_ref_num c = u32 (r + Z.of_nat n) /\ forall arrived, arrived `prefix_of` ln_sent l -> short_stream arrived.
Proof.
  destruct (run_ok draws kernel epoll_wait inter_arrival_ns_ num rounds) as (lg & E & Hlg & _). exists lg. split; [done|]. intros i c l Ei Hfd Hcon.
  destruct (co_link _ _ (proj1 (proj1 (Hlg i c l Ei))) Hfd) as (_ & Hs). rewrite Hcon in Hs. destruct Hs as (r & n & Hs & Hn). exists (pe_asked (peer_of (ln_trace l))), r, n.
  split; [done|]. split; [done|]. split; [intros before since -> Hno; by apply asked_when_opened|]. split; [done|].
  intros arrived [more Hmore]. destruct (request_frames _ _ _ _ Hs) as (ps & Eps & Hps).
  apply (frames_short ps arrived (more ++ buf_pending (cs_write_buf c)) Hps). by rewrite app_assoc, <- Hmore.
Qed.

(** C17: The exchange and the load generator agree, however the bytes between them are cut
    and delayed.  Take a connection of any reachable state of the server and a client of
    any run of the load generator whose kernel delivered a prefix of what the server's
    TCP took for that connection: the packets the client has handled are, besides the
    login and heartbeats, exactly the session's messages from the announced number on, in
    order and each once; its sequence number is that of the next message of the session;
    what is left in its read buffer is only the start of a packet; and as long as what it
    reads comes from the server, reading never makes it leave, unless the very [recv] it
    makes reports the end of the connection or an error, or a [send] it makes meanwhile
    fails.  (For draws whose mid price stays finite, see C20.) *)
Theorem conversation_agrees band sv (i j num rounds : nat) oc lg c l :
  server_reachable cap in_rdtsc rdtsc tcp_send tcp_sendable band sv -> let s := th_out (sv_out sv) in
  outbound_connections_ s !! i = Some oc -> oc_open oc = true -> oc_client_id oc <> 0 ->
  run draws kernel epoll_wait inter_arrival_ns_ rounds (LoadGenerator_new num) = Some (tt, lg) ->
  clients_ lg !! j = Some (c, l) -> cs_fd c <> -1 ->
  ln_rcvd l `prefix_of` sent_on (oc_conn oc) (tcp_taken s) ->
  exists se start n ps, outbound_sessions_ s !! Z.to_nat (oc_client_id oc) = Some se /\
    ln_rcvd l = concat (frame_of <$> ps) ++ buf_view (cs_read_buf c) /\ waiting (buf_view (cs_read_buf c)) /\
    data_of ps = take n (drop (Z.to_nat (start - 1)) (os_history se)) /\
    (if cs_logged_in c then cs_next_sequence c = start + Z.of_nat n else ps = []) /\
    (forall f calls g', cs_connecting c = false -> handleReadable draws kernel inter_arrival_ns_ (mkGen c l f calls) = Some (tt, g') ->
       ln_rcvd (g_link g') `prefix_of` sent_on (oc_conn oc) (tcp_taken s) -> cs_fd (g_cs g') = -1 -> io_failed kernel (mkGen c l f calls) g').
Proof.
  intros Hsv s Eoc Ho Hid Erun Ec Hfd Hpre.
  destruct (connection_stream k cap Hk Hcap in_rdtsc rdtsc tcp_send tcp_sendable tcp_send_le band sv i oc Hsv Eoc Ho Hid) as (se & start & _ & Ese & _ & Hst & Hstream & Hd & Hmax).
  fold s in Ese, Hstream. set (packets := drop (Z.to_nat (start - 1)) (os_history se)) in *. set (sent := sent_on (oc_conn oc) (tcp_taken s)) in *.
  assert (Forall data_packet packets) as Hdp by (by apply Forall_drop).
  assert (start + Z.of_nat (length packets) < 18446744073709551616) as Hs2 by (unfold packets; rewrite length_drop; lia).
  assert (forall r, r `prefix_of` sent -> r `prefix_of` sent ++ queued oc se) as Hmore by (intros r Hr; by apply prefix_app_r).
  destruct (run_ok draws kernel epoll_wait inter_arrival_ns_ num rounds) as (lg' & E' & Hlg & _). rewrite Erun in E'. injection E' as <-.
  destruct (Hlg j c l Ec) as [[Hok Hpeer] Hwait]. destruct (co_link _ _ Hok Hfd) as ((ps & Hr & Hps & _ & Ht) & _). set (seq := pe_asked _) in Ht.
  destruct (client_reads_prefix start packets _ (ln_rcvd l) ps _ seq Hstream Hdp ltac:(lia) Hs2 (Hmore _ Hpre) Hr Hps) as (Hdata & _ & _ & Htrack).
  exists se, start, (length (data_of ps)), ps. split; [done|]. split; [done|]. split; [by apply Hwait|].
  split; [destruct Hdata as [tail Htail]; fold packets; by rewrite Htail, take_app_length|]. split.
  - rewrite Ht in Htrack. destruct ps as [|p ps]; injection Htrack as El Es; by rewrite El.
  - intros f calls g' Hcon Eg Hpre' Hdown.
    destruct (handleReadable_ok draws kernel inter_arrival_ns_ (mkGen c l f calls) (conj Hok Hpeer) Hwait Hfd Hcon) as [(g2 & E2 & _ & _ & _ & Hlost)|[E2 _]]; [|congruence].
    rewrite Eg in E2. injection E2 as <-. destruct (prefix_sound start packets _ (ln_rcvd (g_link g')) Hstream Hdp ltac:(lia) Hs2 (Hmore _ Hpre')) as [Hv Hover].
    by destruct (Hlost Hdown) as [?|[?|?]].
Qed.
End Conversation.

(** ** A client of the example server *)

Module Talk.
Import OrderFactory.Examples Server.Examples.

Definition ex_bytes : list Z := Eval vm_compute in sent_on (oc_conn ex_conn) (tcp_taken (th_out (sv_out ex_server))).

(** Everything works; the server's bytes come with the eleventh call. *)
Definition ex_kernel : Kernel :=
  mkKernel (fun n => 1000 + Z.of_nat n) (fun _ => 7) (fun _ => in_progress) (fun _ => 0)
    (fun n cap => if (n =? 10)%nat then received (take cap ex_bytes) else recv_error true) (fun _ bytes => took (length bytes)).

Definition ex_epoll : EpollWait := fun _ armed _ =>
  match armed with
  | Some i :: _ => epoll_ready [mkEpollEvent 0 false (want_out i) (want_in i)]
  | _ => epoll_ready []
  end.

Lemma ex_bytes_u8 : Forall is_u8 ex_bytes.
Proof. repeat (apply Forall_cons; split; [split; [discriminate|reflexivity]|]). apply Forall_nil_2. Qed.

#[export] Instance ex_kernel_laws : KernelLaws ex_kernel.
Proof.
  split; cbn [ex_kernel k_socket k_recv k_send]; [lia| |by intros n bytes m [= <-]].
  intros n cap bytes. destruct (n =? 10)%nat; [|done]. intros [= <-]. split; [rewrite length_take; lia|]. apply Forall_take, ex_bytes_u8.
Qed.

#[export] Instance ex_epoll_laws : EpollLaws ex_epoll.
Proof.
  split; unfold ex_epoll.
  - intros n armed t events. destruct armed as [|[i|] armed]; intros [= <-]; [constructor|apply NoDup_singleton|constructor].
  - intros n armed t events ev. destruct armed as [|[i|] armed]; intros [= <-]; [by intros ?%elem_of_nil| |by intros ?%elem_of_nil].
    intros ->%list_elem_of_singleton. by exists i.
Qed.

Definition ex_client_run : option (unit * LoadGenerator num) := run ex_draws ex_kernel ex_epoll 0 2 (LoadGenerator_new 1).
Definition ex_lg : LoadGenerator num := from_option snd (LoadGenerator_new 1) ex_client_run.
Definition ex_client : ClientState * Socket := default (ClientState_new 1, Socket_new) (clients_ ex_lg !! 0%nat).

Lemma ex_lg_run : run ex_draws ex_kernel ex_epoll 0 2 (LoadGenerator_new 1) = Some (tt, ex_lg).
Proof. destruct (run_ok ex_draws ex_kernel ex_epoll 0 1 2) as (lg & E & _). unfold ex_lg, ex_client_run. by rewrite E. Qed.

Lemma ex_client_at : clients_ ex_lg !! 0%nat = Some (ex_client.1, ex_client.2).
Proof.
  unfold ex_client. destruct (clients_ ex_lg !! 0%nat) as [[c l]|] eqn:E; [done|]. apply lookup_ge_None in E. exfalso. revert E. vm_compute. lia.
Qed.

(** The client is up, logged in, has read the one message, and expects the second. *)
Lemma ex_client_state :
  cs_fd ex_client.1 = 7 /\ cs_connecting ex_client.1 = false /\ cs_logged_in ex_client.1 = true /\ cs_next_sequence ex_client.1 = 2 /\
  ln_rcvd ex_client.2 = ex_bytes.
Proof. vm_compute. repeat split. Qed.

Lemma ex_client_up : cs_fd ex_client.1 <> -1.
Proof. destruct ex_client_state as [-> _]. done. Qed.

Lemma ex_sent : sent_on (oc_conn ex_conn) (tcp_taken (th_out (sv_out ex_server))) = ex_bytes.
Proof. vm_compute. reflexivity. Qed.

Lemma ex_client_prefix : ln_rcvd ex_client.2 `prefix_of` sent_on (oc_conn ex_conn) (tcp_taken (th_out (sv_out ex_server))).
Proof. rewrite ex_sent. destruct ex_client_state as (_ & _ & _ & _ & ->). done. Qed.

Lemma ex_conn_id : oc_client_id ex_conn <> 0.
Proof. rewrite ex_conn_client. lia. Qed.

Lemma conversation_agrees_witness :
  exists se start n ps, outbound_sessions_ (th_out (sv_out ex_server)) !! Z.to_nat (oc_client_id ex_conn) = Some se /\
    ln_rcvd ex_client.2 = concat (frame_of <$> ps) ++ buf_view (cs_read_buf ex_client.1) /\ waiting (buf_view (cs_read_buf ex_client.1)) /\
    data_of ps = take n (drop (Z.to_nat (start - 1)) (os_history se)) /\
    (if cs_logged_in ex_client.1 then cs_next_sequence ex_client.1 = start + Z.of_nat n else ps = []) /\
    (forall f calls g', cs_connecting ex_client.1 = false -> handleReadable ex_draws ex_kernel 0 (mkGen ex_client.1 ex_client.2 f calls) = Some (tt, g') ->
       ln_rcvd (g_link g') `prefix_of` sent_on (oc_conn ex_conn) (tcp_taken (th_out (sv_out ex_server))) -> cs_fd (g_cs g') = -1 -> io_failed ex_kernel (mkGen ex_client.1 ex_client.2 f calls) g').
Proof.
  exact (conversation_agrees 9 512 ltac:(lia) eq_refl example_clock_reads example_clock_reads ex_send ex_sendable ex_tcp_send_le ex_draws ex_kernel ex_epoll 0
    ex_band ex_server 0 0 1 2 ex_conn ex_lg ex_client.1 ex_client.2 ex_server_reach ex_conn_at ex_conn_open ex_conn_id ex_lg_run ex_client_at
    ex_client_up ex_client_prefix).
Defined.

Lemma client_requests_intact_witness :
  exists lg, run ex_draws ex_kernel ex_epoll 0 2 (LoadGenerator_new 1) = Some (tt, lg) /\
    forall (i : nat) c l, clients_ lg !! i = Some (c, l) -> cs_fd c <> -1 -> cs_connecting c = false ->
      exists asked r n, request_stream (cs_client_id c) asked (refs_from r n) (ln_sent l ++ buf_pending (cs_write_buf c)) /\
        asked = pe_asked (peer_of (ln_trace l)) /\
        (forall before since, ln_trace l = before ++ opened :: since -> opened ∉ since -> asked = pe_number (peer_of before)) /\
        cs_next_user_ref_num c = u32 (r + Z.of_nat n) /\ forall arrived, arrived `prefix_of` ln_sent l -> short_stream arrived.
Proof. exact (client_requests_intact ex_draws ex_kernel ex_epoll 0 1 2). Defined.

Lemma run_same (a b : LoadGenerator num) : Some (tt, a) = Some (tt, b) -> a = b.
Proof. congruence. Qed.


Lemma ex_client_pipeline : cs_acks_pending ex_client.1 = 32.
Proof. by vm_compute. Qed.
End Talk.
