(* ===== verification/Network.v ===== *)
(** * Network: packet headers and the packet factory
    ([src/infra/network_proto.hpp], [src/infra/packet_factory.hpp])

    Reading back the Ethernet, IPv4, TCP and UDP headers of a packet, and building one.
    The templates over the transport and the payload are type classes.  The writers of
    the headers are DPDK's: parameters, of which the layouts the headers' documentation
    gives are assumed.  A span of the packet that does not lie in it is a fault. *)

From S2P Require Import Prelude WireCodec ItchProto OuchProto OuchCorrect SoupProto.

(** ** Headers *)

Record EthernetHeader := mkEthernet { dst_mac : list Z; src_mac : list Z; ether_type : Z }.
Definition EthernetHeader_new : EthernetHeader := mkEthernet (replicate 6 0) (replicate 6 0) 0.
Definition kEthernetHeaderLen : nat := 14.

(** [reader(array)]: unchanged when the bytes are missing. *)
Definition read_array (n : nat) (value : list Z) (r : WireReader) : list Z * WireReader :=
  match reader_claim n r with
  | (None, r') => (value, r')
  | (Some src, r') => (take n (drop src (r_in r')), r')
  end.

Definition deserialize_ethernet (bytes : list Z) : EthernetHeader :=
  let header := EthernetHeader_new in
  if (length bytes <? kEthernetHeaderLen)%nat then header else
  let reader := reader_init bytes in
  let '(dst, reader) := read_array 6 (dst_mac header) reader in
  let '(src, reader) := read_array 6 (src_mac header) reader in
  let '(type, reader) := read_int 2 false (ether_type header) reader in
  mkEthernet dst src type.

Record IPv4Header := mkIPv4 { version_ihl : Z; ttl : Z; protocol : Z; total_length : Z; src_ip : Z; dst_ip : Z }.
Definition IPv4Header_new : IPv4Header := mkIPv4 0 0 0 0 0 0.
Definition kIPv4HeaderLen : nat := 20.

Definition deserialize_ipv4 (bytes : list Z) : IPv4Header :=
  let header := IPv4Header_new in
  if (length bytes <? kIPv4HeaderLen)%nat then header else
  let reader := reader_init bytes in
  let '(version_ihl, reader) := read_int 1 false (version_ihl header) reader in
  let '(_, reader) := reader_take 1 reader in
  let '(total_length, reader) := read_int 2 false (total_length header) reader in
  let '(_, reader) := reader_take 4 reader in
  let '(ttl, reader) := read_int 1 false (ttl header) reader in
  let '(protocol, reader) := read_int 1 false (protocol header) reader in
  let '(_, reader) := reader_take 2 reader in
  let '(src_ip, reader) := read_int 4 false (src_ip header) reader in
  let '(dst_ip, reader) := read_int 4 false (dst_ip header) reader in
  mkIPv4 version_ihl ttl protocol total_length src_ip dst_ip.

Record TCPHeader := mkTCP { tcp_src_port : Z; tcp_dst_port : Z; tcp_seq : Z; tcp_ack : Z; tcp_flags : Z; tcp_window : Z }.
Definition TCPHeader_new : TCPHeader := mkTCP 0 0 0 0 0 65535.
Definition kTcpWireHeaderLen : nat := 20.

Definition deserialize_tcp (bytes : list Z) : TCPHeader :=
  let header := TCPHeader_new in
  if (length bytes <? kTcpWireHeaderLen)%nat then header else
  let reader := reader_init bytes in
  let '(src_port, reader) := read_int 2 false (tcp_src_port header) reader in
  let '(dst_port, reader) := read_int 2 false (tcp_dst_port header) reader in
  let '(seq, reader) := read_int 4 false (tcp_seq header) reader in
  let '(ack, reader) := read_int 4 false (tcp_ack header) reader in
  let '(_, reader) := reader_take 1 reader in
  let '(flags, reader) := read_int 1 false (tcp_flags header) reader in
  let '(window, reader) := read_int 2 false (tcp_window header) reader in
  mkTCP src_port dst_port seq ack flags window.

Record UDPHeader := mkUDP { udp_src_port : Z; udp_dst_port : Z }.
Definition UDPHeader_new : UDPHeader := mkUDP 0 0.
Definition kUdpWireHeaderLen : nat := 8.

Definition deserialize_udp (bytes : list Z) : UDPHeader :=
  let header := UDPHeader_new in
  if (length bytes <? kUdpWireHeaderLen)%nat then header else
  let reader := reader_init bytes in
  let '(src_port, reader) := read_int 2 false (udp_src_port header) reader in
  let '(dst_port, reader) := read_int 2 false (udp_dst_port header) reader in
  mkUDP src_port dst_port.

(** ** DPDK *)

Definition RTE_ETHER_TYPE_IPV4 : Z := 0x0800.
Definition IPPROTO_TCP : Z := 6.
Definition IPPROTO_UDP : Z := 17.

(** A packet is the bytes in it.  A header is named by its offset. *)
Record Dpdk := mkDpdk {
  pool_get : bool;                                          (** whether the pool has a packet *)
  pkt_append : list Z -> nat -> option (list Z);            (** the new space, unless there is no room *)
  build_ethernet_header : list Z -> list Z -> list Z -> Z -> list Z;
  build_ipv4_header : list Z -> Z -> Z -> Z -> list Z;
  build_tcp_header : list Z -> TCPHeader -> list Z;
  build_udp_header : list Z -> UDPHeader -> list Z;
  finalize_ipv4_header : list Z -> nat -> list Z;
  finalize_tcp_header : list Z -> nat -> nat -> list Z;
  finalize_udp_header : list Z -> nat -> nat -> list Z;
}.

(** The wire layouts: what each call leaves in the packet. *)
Class DpdkLaws (d : Dpdk) : Prop := {
  append_space p n space : pkt_append d p n = Some space -> length space = n;
  ethernet_layout p dst src type : build_ethernet_header d p dst src type = p ++ dst ++ src ++ store 2 type;
  ipv4_layout p src dst proto : exists tos rest ttl check, length rest = 6%nat /\ length check = 2%nat /\
    build_ipv4_header d p src dst proto = p ++ [0x45; tos] ++ rest ++ [ttl; proto] ++ check ++ store 4 src ++ store 4 dst;
  tcp_layout p h : exists off rest, length rest = 4%nat /\
    build_tcp_header d p h = p ++ store 2 (tcp_src_port h) ++ store 2 (tcp_dst_port h) ++ store 4 (tcp_seq h) ++ store 4 (tcp_ack h) ++
      [off; tcp_flags h] ++ store 2 (tcp_window h) ++ rest;
  udp_layout p h : exists rest, length rest = 4%nat /\ build_udp_header d p h = p ++ store 2 (udp_src_port h) ++ store 2 (udp_dst_port h) ++ rest;
  ipv4_finalized p ip : exists check, length check = 2%nat /\
    finalize_ipv4_header d p ip = memcpy (ip + 10) check (memcpy (ip + 2) (store 2 (Z.of_nat (length p - ip))) p);
  tcp_finalized p ip tcp : exists check, length check = 2%nat /\ finalize_tcp_header d p ip tcp = memcpy (tcp + 16) check p;
  udp_finalized p ip udp : exists rest, length rest = 4%nat /\ finalize_udp_header d p ip udp = memcpy (udp + 4) rest p;
}.

(** ** The packet factory *)

Record PacketEndpoint := mkEndpoint { ep_mac : list Z; ep_ip : Z }.
Definition PacketEndpoint_new : PacketEndpoint := mkEndpoint (replicate 6 0) 0.

(** What the templates ask of a transport type ([if constexpr] over it). *)
Class Transport (T : Type) := {
  next_proto : Z;
  transport_hdr_len : nat;
  transport_new : T;
  deserialize_transport : list Z -> T;
  append_transport : Dpdk -> list Z -> T -> list Z;
  finalize_transport : Dpdk -> list Z -> nat -> nat -> list Z;
}.
#[export] Instance TCP_transport : Transport TCPHeader := {
  next_proto := IPPROTO_TCP; transport_hdr_len := 20; transport_new := TCPHeader_new; deserialize_transport := deserialize_tcp;
  append_transport := build_tcp_header; finalize_transport := finalize_tcp_header;
}.
#[export] Instance UDP_transport : Transport UDPHeader := {
  next_proto := IPPROTO_UDP; transport_hdr_len := 8; transport_new := UDPHeader_new; deserialize_transport := deserialize_udp;
  append_transport := build_udp_header; finalize_transport := finalize_udp_header;
}.

(** An undecoded payload. *)
Record RawPayload := mkRaw { raw_bytes : list Z }.

(** What they ask of a payload type: its size, writing it into a span of that size, and
    reading it. *)
Class Payload (P : Type) := {
  payload_new : P;
  payload_size : P -> nat;
  payload_write : P -> list Z -> bool * list Z;
  payload_read : list Z -> option P;
}.
#[export] Instance Raw_payload : Payload RawPayload := {
  payload_new := mkRaw [];
  payload_size p := length (raw_bytes p);
  payload_write p out := (true, memcpy 0 (raw_bytes p) out);
  payload_read bytes := Some (mkRaw bytes);
}.
#[export] Instance OuchInbound_payload : Payload OuchInboundFrame := {
  payload_new := INBOUND_NONE;
  payload_size := inbound_encoded_size;
  payload_write p out := let '(n, out) := encode_inbound_ouch p out in ((n =? inbound_encoded_size p)%nat, out);
  payload_read := decode_inbound_ouch;
}.
#[export] Instance OuchOutbound_payload : Payload OuchOutboundFrame := {
  payload_new := OUTBOUND_NONE;
  payload_size := outbound_encoded_size;
  payload_write p out := let '(n, out) := encode_outbound_ouch p out in ((n =? outbound_encoded_size p)%nat, out);
  payload_read := decode_outbound_ouch;
}.
#[export] Instance Itch_payload : Payload ITCH := {
  payload_new := ITCH_NONE;
  payload_size := itch_encoded_size;
  payload_write p out := let '(n, out) := encode_itch p out in ((n =? itch_encoded_size p)%nat, out);
  payload_read bytes := Some (decode_itch bytes);
}.

(** [ValidPacketCombo] *)
Class ValidPacketCombo (T P : Type) : Prop := valid_combo : True.
#[export] Instance tcp_inbound : ValidPacketCombo TCPHeader OuchInboundFrame := I.
#[export] Instance tcp_outbound : ValidPacketCombo TCPHeader OuchOutboundFrame := I.
#[export] Instance tcp_raw : ValidPacketCombo TCPHeader RawPayload := I.
#[export] Instance udp_itch : ValidPacketCombo UDPHeader ITCH := I.

Section Factory.
Context {T P : Type} `{Transport T, Payload P, !ValidPacketCombo T P}.

(** The length goes to [append] as a [uint16_t]; writing past the space is a fault. *)
Definition append_payload (d : Dpdk) (pkt : list Z) (payload : P) : option (bool * list Z) :=
  let len := payload_size payload in
  if (len =? 0)%nat then Some (true, pkt) else
  match pkt_append d pkt (Z.to_nat (u16 (Z.of_nat len))) with
  | None => Some (false, pkt)
  | Some space =>
      if (length space <? len)%nat then None else
      let '(ok, out) := payload_write payload space in Some (ok, pkt ++ out)
  end.

(** [Some None] is the packet without a buffer. *)
Definition build_packet (d : Dpdk) (src dst : PacketEndpoint) (transport : T) (payload : P) : option (option (list Z)) :=
  if negb (pool_get d) then Some None else
  let pkt := build_ethernet_header d [] (ep_mac dst) (ep_mac src) RTE_ETHER_TYPE_IPV4 in
  let ip_hdr := length pkt in
  let pkt := build_ipv4_header d pkt (ep_ip src) (ep_ip dst) (next_proto (T:=T)) in
  let transport_hdr := length pkt in
  let pkt := append_transport d pkt transport in
  match append_payload d pkt payload with
  | None => None
  | Some (false, _) => Some None
  | Some (true, pkt) => Some (Some (finalize_transport (T:=T) d (finalize_ipv4_header d pkt ip_hdr) ip_hdr transport_hdr))
  end.

Record DeserializedPacket := mkDeserialized { dp_src : PacketEndpoint; dp_dst : PacketEndpoint; dp_transport : T; dp_payload : P }.
Definition DeserializedPacket_new : DeserializedPacket := mkDeserialized PacketEndpoint_new PacketEndpoint_new transport_new payload_new.

(** The span [{base + offset, n}]. *)
Definition packet_span (packet : list Z) (offset n : nat) : option (list Z) :=
  if (offset + n <=? length packet)%nat then Some (take n (drop offset packet)) else None.

Definition deserialize_packet (packet : list Z) : option DeserializedPacket :=
  let result := DeserializedPacket_new in
  if (length packet <? kEthernetHeaderLen)%nat then Some result else
  eth_span ← packet_span packet 0 kEthernetHeaderLen;
  let eth := deserialize_ethernet eth_span in
  if negb (ether_type eth =? RTE_ETHER_TYPE_IPV4) then Some result else
  if (length packet <? kEthernetHeaderLen + kIPv4HeaderLen)%nat then Some result else
  ip_span ← packet_span packet kEthernetHeaderLen kIPv4HeaderLen;
  let ip := deserialize_ipv4 ip_span in
  if negb (Z.land (version_ihl ip) 0x0F =? 5) then Some result else
  if negb (protocol ip =? next_proto (T:=T)) then Some result else
  let header_len := (kEthernetHeaderLen + kIPv4HeaderLen + transport_hdr_len (T:=T))%nat in
  let ip_end := (kEthernetHeaderLen + Z.to_nat (total_length ip))%nat in
  if (ip_end <? header_len)%nat || (length packet <? ip_end)%nat then Some result else
  transport_span ← packet_span packet (kEthernetHeaderLen + kIPv4HeaderLen) (transport_hdr_len (T:=T));
  payload_span ← packet_span packet header_len (ip_end - header_len);
  payload ← payload_read payload_span;
  Some (mkDeserialized (mkEndpoint (src_mac eth) (src_ip ip)) (mkEndpoint (dst_mac eth) (dst_ip ip))
    (deserialize_transport transport_span) payload).
End Factory.
Arguments DeserializedPacket T P : clear implicits.
Arguments mkDeserialized {T P}.

(** ** What the theorems need of a transport and a payload *)

(** The values that fit the wire. *)
Class WellFormed (A : Type) := well_formed : A -> Prop.
#[export] Instance tcp_wf : WellFormed TCPHeader := fun h =>
  is_u16 (tcp_src_port h) /\ is_u16 (tcp_dst_port h) /\ is_u32 (tcp_seq h) /\ is_u32 (tcp_ack h) /\ is_u8 (tcp_flags h) /\ is_u16 (tcp_window h).
#[export] Instance udp_wf : WellFormed UDPHeader := fun h => is_u16 (udp_src_port h) /\ is_u16 (udp_dst_port h).
#[export] Instance raw_wf : WellFormed RawPayload := fun _ => True.
#[export] Instance ouch_inbound_wf : WellFormed OuchInboundFrame := fun p => p = INBOUND_NONE \/ inbound_wf p.
#[export] Instance ouch_outbound_wf : WellFormed OuchOutboundFrame := fun p => p = OUTBOUND_NONE \/ outbound_wf p.
#[export] Instance itch_payload_wf : WellFormed ITCH := fun p => p = ITCH_NONE \/ itch_wf p.

Class TransportLaws (T : Type) `{Transport T, WellFormed T} : Prop := {
  transport_short : (transport_hdr_len (T:=T) <= 20)%nat;
  (** A header written and finalised reads back, wherever it is. *)
  transport_written d p h : DpdkLaws d -> well_formed h -> exists hdr, append_transport d p h = p ++ hdr /\ length hdr = transport_hdr_len (T:=T) /\
    forall pre rest ip, exists hdr', finalize_transport (T:=T) d (pre ++ hdr ++ rest) ip (length pre) = pre ++ hdr' ++ rest /\
      length hdr' = transport_hdr_len (T:=T) /\ deserialize_transport hdr' = h;
}.

Class PayloadLaws (P : Type) `{Payload P, WellFormed P} : Prop := {
  payload_none p : well_formed p -> payload_size p = 0%nat -> payload_read [] = Some p;
  payload_written p space : well_formed p -> (0 < payload_size p)%nat -> length space = payload_size p ->
    exists bytes, payload_write p space = (true, bytes) /\ length bytes = payload_size p /\ payload_read bytes = Some p;
  payload_read_total bytes : Forall is_u8 bytes -> is_Some (payload_read (P:=P) bytes);
}.

Lemma reader_init_at bytes : reader_init bytes = reader_at [] bytes.
Proof. done. Qed.

Lemma take_ok n bs pre post : length bs = n -> reader_take n (reader_at pre (bs ++ post)) = (bs, reader_at (pre ++ bs) post).
Proof. intros <-. apply reader_take_ok. Qed.

Lemma read_array_ok n v bs pre post : length bs = n -> read_array n v (reader_at pre (bs ++ post)) = (bs, reader_at (pre ++ bs) post).
Proof. intros <-. unfold read_array. rewrite reader_claim_ok. cbn [r_in reader_at]. by rewrite take_drop_at. Qed.

Lemma memcpy_middle pre old new rest : length old = length new -> memcpy (length pre) new (pre ++ old ++ rest) = pre ++ new ++ rest.
Proof. intros Hl. rewrite memcpy_app by (rewrite length_app; lia). by rewrite <- Hl, drop_app_length, <- app_assoc. Qed.

Lemma tcp_reads h off rest :
  tcp_wf h -> length rest = 4%nat ->
  deserialize_tcp (store 2 (tcp_src_port h) ++ store 2 (tcp_dst_port h) ++ store 4 (tcp_seq h) ++ store 4 (tcp_ack h) ++ [off; tcp_flags h] ++
    store 2 (tcp_window h) ++ rest) = h.
Proof.
  intros (H1 & H2 & H3 & H4 & H5 & H6) Hr. unfold deserialize_tcp. rewrite !length_app, !store_length, Hr. cbn [length Nat.add Nat.ltb Nat.leb kTcpWireHeaderLen].
  rewrite reader_init_at, read_int_ok by (cbn; ulia). rewrite read_int_ok by (cbn; ulia). rewrite read_int_ok by (cbn; ulia). rewrite read_int_ok by (cbn; ulia).
  change ([off; tcp_flags h] ++ store 2 (tcp_window h) ++ rest) with ([off] ++ tcp_flags h :: store 2 (tcp_window h) ++ rest).
  rewrite take_ok by done. rewrite read_byte_ok, read_int_ok by (cbn; ulia). by destruct h.
Qed.

Lemma udp_reads h rest : udp_wf h -> length rest = 4%nat -> deserialize_udp (store 2 (udp_src_port h) ++ store 2 (udp_dst_port h) ++ rest) = h.
Proof.
  intros (H1 & H2) Hr. unfold deserialize_udp. rewrite !length_app, !store_length, Hr. cbn [length Nat.add Nat.ltb Nat.leb kUdpWireHeaderLen].
  rewrite reader_init_at, read_int_ok by (cbn; ulia). rewrite read_int_ok by (cbn; ulia). by destruct h.
Qed.

#[export] Instance TCP_laws : TransportLaws TCPHeader.
Proof.
  split; [done|]. intros d p h Hd Hwf. destruct (tcp_layout p h) as (off & rest & Hr & E).
  set (front := store 2 (tcp_src_port h) ++ store 2 (tcp_dst_port h) ++ store 4 (tcp_seq h) ++ store 4 (tcp_ack h) ++ [off; tcp_flags h] ++ store 2 (tcp_window h)).
  assert (length front = 16%nat) as Hf by (unfold front; rewrite !length_app, !store_length; done).
  destruct rest as [|c0 [|c1 urp]]; [done..|]. cbn in Hr.
  exists (front ++ [c0; c1] ++ urp). split; [etransitivity; [exact E|]; unfold front; by rewrite <- !app_assoc|].
  split; [rewrite !length_app, Hf; cbn; lia|]. intros pre rest ip. destruct (tcp_finalized (pre ++ (front ++ [c0; c1] ++ urp) ++ rest) ip (length pre)) as (check & Hc & Ef).
  exists (front ++ check ++ urp). split; [|split; [rewrite !length_app, Hf, Hc; cbn; lia|]].
  - etransitivity; [exact Ef|]. replace (length pre + 16)%nat with (length (pre ++ front)) by (rewrite length_app; lia).
    replace (pre ++ (front ++ [c0; c1] ++ urp) ++ rest) with ((pre ++ front) ++ [c0; c1] ++ (urp ++ rest)) by (by rewrite <- !app_assoc).
    rewrite memcpy_middle by done. by rewrite <- !app_assoc.
  - pose proof (tcp_reads h off (check ++ urp) Hwf ltac:(rewrite length_app; lia)) as Hread. etransitivity; [|exact Hread]. unfold front. by rewrite <- !app_assoc.
Qed.

#[export] Instance UDP_laws : TransportLaws UDPHeader.
Proof.
  split; [cbn; lia|]. intros d p h Hd Hwf. destruct (udp_layout p h) as (rest & Hr & E).
  set (front := store 2 (udp_src_port h) ++ store 2 (udp_dst_port h)). assert (length front = 4%nat) as Hf by (unfold front; rewrite !length_app, !store_length; done).
  exists (front ++ rest). split; [etransitivity; [exact E|]; unfold front; by rewrite <- !app_assoc|]. split; [rewrite !length_app, Hf; cbn; lia|].
  intros pre tail ip. destruct (udp_finalized (pre ++ (front ++ rest) ++ tail) ip (length pre)) as (new & Hn & Ef).
  exists (front ++ new). split; [|split; [rewrite !length_app, Hf, Hn; done|]].
  - etransitivity; [exact Ef|]. replace (length pre + 4)%nat with (length (pre ++ front)) by (rewrite length_app; lia).
    replace (pre ++ (front ++ rest) ++ tail) with ((pre ++ front) ++ rest ++ tail) by (by rewrite <- !app_assoc). rewrite memcpy_middle by lia. by rewrite <- !app_assoc.
  - pose proof (udp_reads h new Hwf Hn) as Hread. etransitivity; [|exact Hread]. unfold front. by rewrite <- !app_assoc.
Qed.

#[export] Instance Raw_laws : PayloadLaws RawPayload.
Proof.
  split.
  - intros [bytes] _ Hl. cbn in *. by rewrite (nil_length_inv bytes Hl).
  - intros [bytes] space _ _ Hl. cbn in *. exists bytes. split; [|done]. f_equal. pose proof (memcpy_middle [] space bytes []) as Hm. cbn in Hm.
    rewrite !app_nil_r in Hm. by apply Hm.
  - intros bytes _. by eexists.
Qed.

(** An encoder that fills a span of exactly the message's size. *)
Lemma encoder_fills {P} (encode : P -> list Z -> nat * list Z) (p : P) bytes space :
  (length bytes <= length space -> encode p space = (length bytes, bytes ++ drop (length bytes) space))%nat -> length space = length bytes ->
  (let '(n, out) := encode p space in ((n =? length bytes)%nat, out)) = (true, bytes).
Proof. intros E Hl. rewrite E by lia. by rewrite Nat.eqb_refl, drop_ge, app_nil_r by lia. Qed.

#[export] Instance OuchInbound_laws : PayloadLaws OuchInboundFrame.
Proof.
  split.
  - intros p [->|Hwf] Hs; [done|]. pose proof (inbound_size_pos p Hwf). cbn [payload_size OuchInbound_payload] in Hs. lia.
  - intros p space [->|Hwf] Hs Hl; [cbn in Hs; lia|]. cbn [payload_size payload_write payload_read OuchInbound_payload] in *. rewrite inbound_size in * by done.
    exists (inbound_bytes p). split; [by apply encoder_fills; [apply inbound_encode_ok|]|]. split; [done|]. by apply decode_inbound_bytes.
  - intros bytes Hu. destruct (decode_inbound_shape bytes Hu) as (msg & E & _). by exists msg.
Qed.

#[export] Instance OuchOutbound_laws : PayloadLaws OuchOutboundFrame.
Proof.
  split.
  - intros p [->|Hwf] Hs; [done|]. pose proof (outbound_size_pos p Hwf). cbn [payload_size OuchOutbound_payload] in Hs. lia.
  - intros p space [->|Hwf] Hs Hl; [cbn in Hs; lia|]. cbn [payload_size payload_write payload_read OuchOutbound_payload] in *. rewrite outbound_size in * by done.
    exists (outbound_bytes p). split; [by apply encoder_fills; [apply outbound_encode_ok|]|]. split; [done|]. by apply decode_outbound_bytes.
  - apply decode_outbound_total.
Qed.

#[export] Instance Itch_laws : PayloadLaws ITCH.
Proof.
  split.
  - intros p [->|Hwf] Hs; [done|]. destruct (itch_bytes_head p Hwf) as [bs Hbs]. pose proof (itch_encoded_size_bytes p Hwf) as E.
    rewrite Hbs in E. cbn [payload_size Itch_payload length] in *. lia.
  - intros p space [->|Hwf] Hs Hl; [cbn in Hs; lia|]. cbn [payload_size payload_write payload_read Itch_payload] in *.
    rewrite (itch_encoded_size_bytes p Hwf) in *. exists (itch_bytes p). split; [by apply encoder_fills; [apply visit_encoding|]|]. split; [done|].
    by rewrite decode_itch_bytes.
  - intros bytes _. by eexists.
Qed.

(** What the 16-bit lengths can carry: the IPv4 packet, its headers included. *)
Definition fits_ipv4 {T P} `{Transport T, Payload P} (p : P) : Prop :=
  Z.of_nat (kIPv4HeaderLen + transport_hdr_len (T:=T) + payload_size p) <= 65535.

(** Every OUCH and ITCH message fits; only a raw span can be too long. *)
Lemma messages_fit :
  (forall p : OuchInboundFrame, fits_ipv4 (T:=TCPHeader) p) /\ (forall p : OuchOutboundFrame, fits_ipv4 (T:=TCPHeader) p) /\
  (forall p : ITCH, fits_ipv4 (T:=UDPHeader) p).
Proof.
  unfold fits_ipv4. cbn [payload_size OuchInbound_payload OuchOutbound_payload Itch_payload]. split; [|split]; intros p.
  - pose proof (inbound_size_bound p) as Hb. unfold kSoupHeaderLen in Hb. cbn. lia.
  - pose proof (outbound_size_bound p) as Hb. unfold kSoupHeaderLen in Hb. cbn. lia.
  - assert (itch_encoded_size p <= 200)%nat by (destruct p; apply Nat.leb_le; reflexivity). cbn -[itch_encoded_size]. lia.
Qed.

(** ** Theorems *)

Definition endpoint_wf (e : PacketEndpoint) : Prop := length (ep_mac e) = 6%nat /\ is_u32 (ep_ip e).

Lemma ethernet_reads dst src type :
  length dst = 6%nat -> length src = 6%nat -> is_u16 type -> deserialize_ethernet (dst ++ src ++ store 2 type) = mkEthernet dst src type.
Proof.
  intros Hd Hs Ht. unfold deserialize_ethernet. rewrite !length_app, store_length, Hd, Hs. cbn [Nat.add Nat.ltb Nat.leb kEthernetHeaderLen].
  rewrite reader_init_at, read_array_ok, read_array_ok by done. rewrite <- (app_nil_r (store 2 type)), read_int_ok by (cbn; ulia). done.
Qed.

Lemma ipv4_reads tos len id ttl proto check src dst :
  is_u16 len -> length id = 4%nat -> length check = 2%nat -> is_u32 src -> is_u32 dst ->
  deserialize_ipv4 ([0x45; tos] ++ store 2 len ++ id ++ [ttl; proto] ++ check ++ store 4 src ++ store 4 dst) = mkIPv4 0x45 ttl proto len src dst.
Proof.
  intros Hl Hi Hc Hs Hd. unfold deserialize_ipv4. rewrite !length_app, !store_length, Hi, Hc. cbn [length Nat.add Nat.ltb Nat.leb kIPv4HeaderLen].
  change ([0x45; tos] ++ ?l) with (0x45 :: [tos] ++ l). rewrite reader_init_at, read_byte_ok, take_ok by done.
  rewrite read_int_ok by (cbn; ulia). rewrite take_ok by done. change ([ttl; proto] ++ ?l) with (ttl :: proto :: l). rewrite !read_byte_ok, take_ok by done.
  rewrite read_int_ok by (cbn; ulia). rewrite <- (app_nil_r (store 4 dst)), read_int_ok by (cbn; ulia). done.
Qed.

Lemma span_at packet pre mid post : packet = pre ++ mid ++ post -> packet_span packet (length pre) (length mid) = Some mid.
Proof.
  intros ->. unfold packet_span. rewrite !length_app. rewrite (proj2 (Nat.leb_le _ _)) by lia. by rewrite drop_app_length, take_app_length.
Qed.

Section Theorems.
Context {T P : Type} `{TransportLaws T, PayloadLaws P, !ValidPacketCombo T P}.

Lemma span_total packet offset n : (offset + n <= length packet)%nat -> packet_span packet offset n = Some (take n (drop offset packet)).
Proof. intros Hl. unfold packet_span. by rewrite (proj2 (Nat.leb_le _ _)). Qed.

(** The parser takes any frame off the wire: whatever its bytes and however
    short, every span it forms lies inside the packet and it returns a result. *)
Theorem deserialize_never_overruns packet : Forall is_u8 packet -> is_Some (deserialize_packet (T:=T) (P:=P) packet).
Proof.
  intros Hu. unfold deserialize_packet. cbv zeta. destruct (Nat.ltb_spec (length packet) kEthernetHeaderLen) as [|Hl1]; [by eexists|].
  rewrite (span_total packet 0 kEthernetHeaderLen) by lia. cbn [mbind option_bind]. destruct (negb _); [by eexists|].
  destruct (Nat.ltb_spec (length packet) (kEthernetHeaderLen + kIPv4HeaderLen)) as [|Hl2]; [by eexists|]. rewrite (span_total packet kEthernetHeaderLen kIPv4HeaderLen) by lia. cbn [mbind option_bind].
  set (ip := deserialize_ipv4 _). destruct (negb _); [by eexists|]. destruct (negb _); [by eexists|].
  destruct (Nat.ltb_spec (kEthernetHeaderLen + Z.to_nat (total_length ip)) (kEthernetHeaderLen + kIPv4HeaderLen + transport_hdr_len (T:=T))) as [|Hl3]; cbn [orb]; [by eexists|].
  destruct (Nat.ltb_spec (length packet) (kEthernetHeaderLen + Z.to_nat (total_length ip))) as [|Hl4]; [by eexists|].
  rewrite (span_total packet (kEthernetHeaderLen + kIPv4HeaderLen)) by lia. cbn [mbind option_bind]. rewrite span_total by lia. cbn [mbind option_bind].
  destruct (payload_read_total (P:=P) (take (kEthernetHeaderLen + Z.to_nat (total_length ip) - (kEthernetHeaderLen + kIPv4HeaderLen + transport_hdr_len (T:=T)))
    (drop (kEthernetHeaderLen + kIPv4HeaderLen + transport_hdr_len (T:=T)) packet))) as [payload ->]; [by apply Forall_take, Forall_drop|by eexists].
Qed.

(** The bytes of a finished packet. *)
Definition frame_bytes (src dst : PacketEndpoint) (tos : Z) (id : list Z) (ttl : Z) (check hdr payload : list Z) : list Z :=
  (ep_mac dst ++ ep_mac src ++ store 2 RTE_ETHER_TYPE_IPV4) ++
  ([0x45; tos] ++ store 2 (Z.of_nat (kIPv4HeaderLen + length hdr + length payload)) ++ id ++ [ttl; next_proto (T:=T)] ++ check ++ store 4 (ep_ip src) ++ store 4 (ep_ip dst)) ++
  hdr ++ payload.

Lemma deserialize_frame src dst tos id ttl check hdr payload p padding :
  endpoint_wf src -> endpoint_wf dst -> length id = 4%nat -> length check = 2%nat -> length hdr = transport_hdr_len (T:=T) ->
  is_u16 (Z.of_nat (kIPv4HeaderLen + length hdr + length payload)) -> payload_read payload = Some p ->
  deserialize_packet (frame_bytes src dst tos id ttl check hdr payload ++ padding) = Some (mkDeserialized src dst (deserialize_transport hdr) p).
Proof.
  intros [Hs1 Hs2] [Hd1 Hd2] Hid Hck Hhdr Hlen Hp. unfold frame_bytes. set (eth := ep_mac dst ++ _). set (ip := [0x45; tos] ++ _).
  assert (length eth = 14%nat) as He by (unfold eth; rewrite !length_app, store_length; lia).
  assert (length ip = 20%nat) as Hi by (unfold ip; rewrite !length_app, !store_length, Hid, Hck; done).
  set (packet := (eth ++ ip ++ hdr ++ payload) ++ padding). assert (length packet = (34 + length hdr + length payload + length padding)%nat) as Hl
    by (unfold packet; rewrite !length_app; lia).
  assert (packet_span packet 0 kEthernetHeaderLen = Some eth) as E1
    by (rewrite <- (span_at packet [] eth (ip ++ hdr ++ payload ++ padding)), He by (unfold packet; by rewrite <- !app_assoc); done).
  assert (packet_span packet kEthernetHeaderLen kIPv4HeaderLen = Some ip) as E2
    by (rewrite <- (span_at packet eth ip (hdr ++ payload ++ padding)), He, Hi by (unfold packet; by rewrite <- !app_assoc); done).
  assert (packet_span packet (kEthernetHeaderLen + kIPv4HeaderLen) (transport_hdr_len (T:=T)) = Some hdr) as E3
    by (rewrite <- (span_at packet (eth ++ ip) hdr (payload ++ padding)), length_app, He, Hi, Hhdr by (unfold packet; by rewrite <- !app_assoc); done).
  assert (packet_span packet (kEthernetHeaderLen + kIPv4HeaderLen + transport_hdr_len (T:=T)) (length payload) = Some payload) as E4
    by (rewrite <- (span_at packet (eth ++ ip ++ hdr) payload padding), !length_app, He, Hi, Hhdr, Nat.add_assoc by (unfold packet; by rewrite <- !app_assoc); done).
  assert (deserialize_ethernet eth = mkEthernet (ep_mac dst) (ep_mac src) RTE_ETHER_TYPE_IPV4) as Eeth by (apply ethernet_reads; (done || by vm_compute)).
  assert (deserialize_ipv4 ip = mkIPv4 0x45 ttl (next_proto (T:=T)) (Z.of_nat (kIPv4HeaderLen + length hdr + length payload)) (ep_ip src) (ep_ip dst)) as Eip
    by (by apply ipv4_reads).
  unfold deserialize_packet. cbv zeta. rewrite E1. cbn [mbind option_bind]. rewrite Eeth. cbn [ether_type src_mac dst_mac].
  rewrite Z.eqb_refl. cbn [negb]. rewrite (proj2 (Nat.ltb_ge _ _)) by (unfold kEthernetHeaderLen; lia).
  rewrite (proj2 (Nat.ltb_ge _ _)) by (unfold kEthernetHeaderLen, kIPv4HeaderLen; lia). rewrite E2. cbn [mbind option_bind]. rewrite Eip. cbn [version_ihl protocol total_length src_ip dst_ip]. change (Z.land 69 15 =? 5) with true. rewrite Z.eqb_refl. cbn [negb].
  rewrite Nat2Z.id. unfold kEthernetHeaderLen, kIPv4HeaderLen in *. rewrite !(proj2 (Nat.ltb_ge _ _)) by lia. cbn [orb]. rewrite E3. cbn [mbind option_bind].
  replace (14 + (20 + length hdr + length payload) - (14 + 20 + transport_hdr_len (T:=T)))%nat with (length payload) by lia. rewrite E4. cbn [mbind option_bind].
  rewrite Hp. cbn [mbind option_bind]. by destruct src, dst.
Qed.

(** Appending a payload whose length the cast to [uint16_t] keeps: the space may be
    missing, but nothing is written past it. *)
Lemma append_payload_ok d pkt p :
  DpdkLaws d -> well_formed p -> Z.of_nat (payload_size p) <= 65535 ->
  (append_payload d pkt p = Some (false, pkt) /\ pkt_append d pkt (payload_size p) = None) \/
  exists bytes, append_payload d pkt p = Some (true, pkt ++ bytes) /\ length bytes = payload_size p /\ payload_read bytes = Some p.
Proof.
  intros Hd Hwf Hfit. unfold append_payload. destruct (Nat.eqb_spec (payload_size p) 0) as [Hz|Hnz].
  { right. exists []. rewrite app_nil_r. split; [done|]. split; [done|]. by apply payload_none. }
  rewrite u16_id, Nat2Z.id by ulia. destruct (pkt_append d pkt (payload_size p)) as [space|] eqn:E; [right|by left].
  apply append_space in E. rewrite (proj2 (Nat.ltb_ge _ _)) by lia. destruct (payload_written p space Hwf ltac:(lia) E) as (bytes & -> & Hl & Hr).
  by exists bytes.
Qed.

(** A longer one: the cast cuts the length that is asked for, not the bytes that are
    then written. *)
Lemma append_payload_overruns d pkt p :
  DpdkLaws d -> 65535 < Z.of_nat (payload_size p) ->
  append_payload d pkt p =
  match pkt_append d pkt (Z.to_nat (u16 (Z.of_nat (payload_size p)))) with None => Some (false, pkt) | Some _ => None end.
Proof.
  intros Hd Hl. unfold append_payload. rewrite (proj2 (Nat.eqb_neq _ _)) by lia.
  destruct (pkt_append d pkt _) as [space|] eqn:E; [|done]. apply append_space in E.
  pose proof (Z.mod_pos_bound (Z.of_nat (payload_size p)) 65536). by rewrite (proj2 (Nat.ltb_lt _ _)) by (rewrite E; unfold u16; ulia).
Qed.

Lemma memcpy_at n pre old new rest : n = length pre -> length old = length new -> memcpy n new (pre ++ old ++ rest) = pre ++ new ++ rest.
Proof. intros ->. apply memcpy_middle. Qed.

(** Finalising the IPv4 header puts the length in it. *)
Lemma finalize_frame d (eth : list Z) tos (len id : list Z) ttl proto (check : list Z) src dst tail :
  DpdkLaws d -> length eth = 14%nat -> length len = 2%nat -> length id = 4%nat -> length check = 2%nat ->
  exists check', length check' = 2%nat /\
    finalize_ipv4_header d (eth ++ ([0x45; tos] ++ len ++ id ++ [ttl; proto] ++ check ++ store 4 src ++ store 4 dst) ++ tail) 14 =
    eth ++ ([0x45; tos] ++ store 2 (Z.of_nat (20 + length tail)) ++ id ++ [ttl; proto] ++ check' ++ store 4 src ++ store 4 dst) ++ tail.
Proof.
  intros Hd He Hl Hi Hc. match goal with |- context [finalize_ipv4_header d ?p 14] => set (pkt := p) end.
  destruct (ipv4_finalized pkt 14) as (check' & Hc' & E). exists check'. split; [done|]. rewrite E.
  assert (length pkt - 14 = 20 + length tail)%nat as -> by (unfold pkt; rewrite !length_app, !store_length; cbn [length]; lia).
  set (total := store 2 (Z.of_nat (20 + length tail))). assert (length total = 2%nat) as Ht by apply store_length.
  replace pkt with ((eth ++ [0x45; tos]) ++ len ++ (id ++ [ttl; proto] ++ check ++ store 4 src ++ store 4 dst ++ tail)) by (unfold pkt; by rewrite <- !app_assoc).
  rewrite memcpy_at by (rewrite ?length_app; cbn [length]; lia).
  replace ((eth ++ [0x45; tos]) ++ total ++ id ++ [ttl; proto] ++ check ++ store 4 src ++ store 4 dst ++ tail)
    with ((eth ++ [0x45; tos] ++ total ++ id ++ [ttl; proto]) ++ check ++ (store 4 src ++ store 4 dst ++ tail)) by (by rewrite <- !app_assoc).
  rewrite memcpy_at by (rewrite ?length_app; cbn [length]; lia). by rewrite <- !app_assoc.
Qed.

(** The round trip, for a payload the IPv4 length can carry. *)
Lemma packet_survives d src dst (t : T) (p : P) :
  DpdkLaws d -> endpoint_wf src -> endpoint_wf dst -> well_formed t -> well_formed p -> fits_ipv4 (T:=T) p ->
  (build_packet d src dst t p = Some None /\
    (pool_get d = false \/ exists headers, length headers = (34 + transport_hdr_len (T:=T))%nat /\ pkt_append d headers (payload_size p) = None)) \/
  exists packet, build_packet d src dst t p = Some (Some packet) /\
    forall padding, deserialize_packet (packet ++ padding) = Some (mkDeserialized src dst t p).
Proof.
  intros Hd Hsrc Hdst Ht Hp Hfit. unfold fits_ipv4, kIPv4HeaderLen in Hfit. unfold build_packet. destruct (pool_get d); cbn [negb]; [|left; split; [done|by left]]. cbv zeta. rewrite ethernet_layout. cbn [app].
  set (eth := ep_mac dst ++ ep_mac src ++ store 2 RTE_ETHER_TYPE_IPV4). assert (length eth = 14%nat) as He
    by (unfold eth; rewrite !length_app, store_length; destruct Hsrc, Hdst; lia).
  destruct (ipv4_layout eth (ep_ip src) (ep_ip dst) (next_proto (T:=T))) as (tos & lenid & ttl & check & Hli & Hck & ->).
  assert (exists len id, lenid = len ++ id /\ length len = 2%nat /\ length id = 4%nat) as (len & id & -> & Hlen & Hid).
  { exists (take 2 lenid), (drop 2 lenid). rewrite take_drop, length_take, length_drop. split; [done|]. lia. }
  set (ip := [0x45; tos] ++ _). assert (length ip = 20%nat) as Hip by (unfold ip; rewrite !length_app, !store_length; cbn [length]; lia).
  destruct (transport_written d (eth ++ ip) t Hd Ht) as (hdr & -> & Hhdr & Hfin). rewrite length_app, He, Hip.
  destruct (append_payload_ok d ((eth ++ ip) ++ hdr) p Hd Hp ltac:(lia)) as [[-> Hfull]|(bytes & -> & Hb & Hread)]; [left; split; [done|]; right; eexists; split; [|exact Hfull]; rewrite !length_app; lia|right]. eexists. split; [done|]. intros padding.
  destruct (finalize_frame d eth tos len id ttl (next_proto (T:=T)) check (ep_ip src) (ep_ip dst) (hdr ++ bytes)) as (check' & Hck' & Ef); [done..|].
  replace (((eth ++ ip) ++ hdr) ++ bytes) with (eth ++ ([0x45; tos] ++ len ++ id ++ [ttl; next_proto (T:=T)] ++ check ++ store 4 (ep_ip src) ++ store 4 (ep_ip dst)) ++ hdr ++ bytes)
    by (unfold ip; by rewrite <- !app_assoc).
  rewrite Ef. set (ip' := [0x45; tos] ++ store 2 _ ++ _). assert (length ip' = 20%nat) as Hip' by (unfold ip'; rewrite !length_app, !store_length; cbn [length]; lia).
  destruct (Hfin (eth ++ ip') bytes 14%nat) as (hdr' & Efin & Hhdr' & Hdes). rewrite length_app, He, Hip' in Efin.
  replace (eth ++ ip' ++ hdr ++ bytes) with ((eth ++ ip') ++ hdr ++ bytes) by (by rewrite <- !app_assoc). cbn [Nat.add] in Efin |- *. rewrite Efin.
  pose proof (deserialize_frame src dst tos id ttl check' hdr' bytes p padding Hsrc Hdst Hid Hck' Hhdr') as Hde. rewrite Hdes in Hde.
  unfold frame_bytes in Hde. fold eth in Hde. unfold ip'. rewrite length_app, Hhdr, <- Hhdr', Nat.add_assoc. unfold kIPv4HeaderLen in Hde. rewrite <- Hde.
  - by rewrite <- !app_assoc.
  - rewrite Hhdr', Hb. ulia.
  - done.
Qed.

End Theorems.

(** ** An example *)

Module Wire.
(** A pool of packets of 1500 bytes, with checksums of zero. *)
Definition ex_dpdk : Dpdk := mkDpdk true
  (fun p n => if (length p + n <=? 1500)%nat then Some (replicate n 0) else None)
  (fun p dst src type => p ++ dst ++ src ++ store 2 type)
  (fun p src dst proto => p ++ [0x45; 0] ++ replicate 6 0 ++ [64; proto] ++ [0; 0] ++ store 4 src ++ store 4 dst)
  (fun p h => p ++ store 2 (tcp_src_port h) ++ store 2 (tcp_dst_port h) ++ store 4 (tcp_seq h) ++ store 4 (tcp_ack h) ++ [0x50; tcp_flags h] ++
     store 2 (tcp_window h) ++ [0; 0; 0; 0])
  (fun p h => p ++ store 2 (udp_src_port h) ++ store 2 (udp_dst_port h) ++ [0; 0; 0; 0])
  (fun p ip => memcpy (ip + 10) [0; 0] (memcpy (ip + 2) (store 2 (Z.of_nat (length p - ip))) p))
  (fun p _ tcp => memcpy (tcp + 16) [0; 0] p) (fun p _ udp => memcpy (udp + 4) [0; 0; 0; 0] p).

#[export] Instance ex_dpdk_laws : DpdkLaws ex_dpdk.
Proof.
  split; cbn -[store replicate memcpy]; try done.
  - intros p n space. destruct (_ <=? _)%nat; [|done]. intros [= <-]. apply length_replicate.
  - intros p src dst proto. by exists 0, (replicate 6 0), 64, [0; 0].
  - intros p h. by exists 0x50, [0; 0; 0; 0].
  - intros p h. by exists [0; 0; 0; 0].
  - intros p ip. by exists [0; 0].
  - intros p ip tcp. by exists [0; 0].
  - intros p ip udp. by exists [0; 0; 0; 0].
Qed.

Definition ex_src : PacketEndpoint := mkEndpoint [2; 0; 0; 0; 0; 1] 0x0A4D0002.
Definition ex_dst : PacketEndpoint := mkEndpoint [2; 0; 0; 0; 0; 2] 0x0A4D0003.
Definition ex_tcp : TCPHeader := mkTCP 4000 50000 1 2 0x18 65535.

(** The packet is built: the pool has room. *)
Lemma ex_packet_built : build_packet ex_dpdk ex_src ex_dst ex_tcp (cancel_order cancel_example) <> Some None.
Proof. by vm_compute. Qed.

(** A pool whose packets always have the space asked for, and a raw span longer than
    any 16-bit length. *)
Definition roomy_dpdk : Dpdk := mkDpdk true (fun _ n => Some (replicate n 0))
  (build_ethernet_header ex_dpdk) (build_ipv4_header ex_dpdk) (build_tcp_header ex_dpdk) (build_udp_header ex_dpdk)
  (finalize_ipv4_header ex_dpdk) (finalize_tcp_header ex_dpdk) (finalize_udp_header ex_dpdk).

Lemma roomy_dpdk_laws : DpdkLaws roomy_dpdk.
Proof.
  pose proof ex_dpdk_laws as [_ Heth Hip Htcp Hudp Hfip Hftcp Hfudp].
  split; [|exact Heth|exact Hip|exact Htcp|exact Hudp|exact Hfip|exact Hftcp|exact Hfudp].
  intros p n space. cbn. intros [= <-]. apply length_replicate.
Qed.

Definition long_span : RawPayload := mkRaw (replicate (Z.to_nat 65540) 7).


Lemma deserialize_never_overruns_witness : is_Some (deserialize_packet (T:=UDPHeader) (P:=ITCH) [1; 2; 3]).
Proof.
  apply (deserialize_never_overruns (T:=UDPHeader) (P:=ITCH)). repeat (apply Forall_cons; split; [split; [discriminate|reflexivity]|]). apply Forall_nil_2.
Defined.
End Wire.
