(* ===== verification/Latency.v ===== *)
(** * Latency: the statistics of the server's replies
    ([LatencyHandler] of [src/exchange/server/include/latency.hpp])

    One sample per answered request, into one HDR histogram per stage.  The histograms
    are a library's: a parameter, with the one function that records a value. *)

From S2P Require Import Prelude Clock Outbound.

Definition LATENCY_SAMPLE_DROP : Z := 5.
Definition kMaxTrackableNs : Z := 1000000000.

Inductive Stage := kEndToEnd | kRxBurst | kInboundThread | kInboundRing | kEngine | kOutboundRing | kOutboundThread | kTxBurst.

Section Handler.
Context {Hist : Type} (hdr_record_value : Hist -> Z -> Hist) (clock_ : TscClock).

(** [histograms_] by stage. *)
Record LatencyHandler := mkHandler { histograms_ : Stage -> Hist; seen_ : Z; recorded_ : Z }.

(** [to] and [from] are 64-bit counters. *)
Definition stage_ns (from to : Z) : Z :=
  let ns := if to >? from then i64 (ticks_to_ns clock_ (u64 (to - from))) else 0 in
  if ns <? kMaxTrackableNs then ns else kMaxTrackableNs.

Definition stage_eqb (a b : Stage) : bool :=
  match a, b with
  | kEndToEnd, kEndToEnd | kRxBurst, kRxBurst | kInboundThread, kInboundThread | kInboundRing, kInboundRing | kEngine, kEngine
  | kOutboundRing, kOutboundRing | kOutboundThread, kOutboundThread | kTxBurst, kTxBurst => true
  | _, _ => false
  end.

Definition record_ (stage : Stage) (from to : Z) (h : LatencyHandler) : LatencyHandler :=
  mkHandler (fun s => if stage_eqb s stage then hdr_record_value (histograms_ h stage) (stage_ns from to) else histograms_ h s) (seen_ h) (recorded_ h).

(** With [DIAGNOSTICS], as configured. *)
Definition record_sample (s : LatencySample) (h : LatencyHandler) : LatencyHandler :=
  let seen := u64 (seen_ h + 1) in
  let h := mkHandler (histograms_ h) seen (recorded_ h) in
  if seen <=? LATENCY_SAMPLE_DROP then h else
  let h := mkHandler (histograms_ h) (seen_ h) (u64 (recorded_ h + 1)) in
  let p := ls_pending s in
  let h := record_ kEndToEnd (pl_t0 p) (ls_t7 s) h in
  let h := record_ kRxBurst (pl_t0 p) (pl_t1 p) h in
  let h := record_ kInboundThread (pl_t1 p) (pl_t2 p) h in
  let h := record_ kInboundRing (pl_t2 p) (pl_t3 p) h in
  let h := record_ kEngine (pl_t3 p) (pl_t4 p) h in
  let h := record_ kOutboundRing (pl_t4 p) (pl_t5 p) h in
  let h := record_ kOutboundThread (pl_t5 p) (ls_t6 s) h in
  record_ kTxBurst (ls_t6 s) (ls_t7 s) h.

Definition LatencyHandler_new (h0 : Hist) : LatencyHandler := mkHandler (fun _ => h0) 0 0.

(** ** What the histograms hold *)

(** The two counters a stage is measured between. *)
Definition stage_span (stage : Stage) (s : LatencySample) : Z * Z :=
  let p := ls_pending s in
  match stage with
  | kEndToEnd => (pl_t0 p, ls_t7 s)
  | kRxBurst => (pl_t0 p, pl_t1 p)
  | kInboundThread => (pl_t1 p, pl_t2 p)
  | kInboundRing => (pl_t2 p, pl_t3 p)
  | kEngine => (pl_t3 p, pl_t4 p)
  | kOutboundRing => (pl_t4 p, pl_t5 p)
  | kOutboundThread => (pl_t5 p, ls_t6 s)
  | kTxBurst => (ls_t6 s, ls_t7 s)
  end.

Definition stage_value (stage : Stage) (s : LatencySample) : Z := stage_ns (stage_span stage s).1 (stage_span stage s).2.

(** Recording a list of samples, as the outbound thread does. *)
Definition record_samples (samples : list LatencySample) (h : LatencyHandler) : LatencyHandler :=
  fold_left (fun h s => record_sample s h) samples h.

Lemma stage_ns_range from to : ticks_to_ns clock_ (u64 (to - from)) < 9223372036854775808 -> 0 <= stage_ns from to <= kMaxTrackableNs.
Proof.
  intros Hlt. unfold stage_ns, kMaxTrackableNs. pose proof (u64_range (Z.shiftr (u64 (to - from) * ns_per_tick_q32_ clock_) 32)) as Hr. fold (ticks_to_ns clock_ (u64 (to - from))) in Hr.
  set (t := ticks_to_ns _ _) in *. assert (i64 t = t) as E by (apply i64_id; ulia).
  destruct (to >? from); [rewrite E|]; (destruct (_ <? _) eqn:El; [apply Z.ltb_lt in El|]; ulia).
Qed.

Lemma record_sample_recorded s h stage :
  LATENCY_SAMPLE_DROP < seen_ h + 1 < 18446744073709551616 -> 0 <= recorded_ h -> recorded_ h + 1 < 18446744073709551616 ->
  seen_ (record_sample s h) = seen_ h + 1 /\ recorded_ (record_sample s h) = recorded_ h + 1 /\
  histograms_ (record_sample s h) stage = hdr_record_value (histograms_ h stage) (stage_value stage s).
Proof.
  intros Hs Hr0 Hr. unfold LATENCY_SAMPLE_DROP in Hs. unfold record_sample. rewrite (u64_id (seen_ h + 1)) by ulia. cbv zeta. unfold LATENCY_SAMPLE_DROP.
  rewrite (proj2 (Z.leb_gt _ _)) by lia. cbn [record_ seen_ recorded_ histograms_]. rewrite u64_id by ulia. split; [done|]. split; [done|]. by destruct stage.
Qed.

Lemma record_sample_dropped s h : 0 <= seen_ h < LATENCY_SAMPLE_DROP -> record_sample s h = mkHandler (histograms_ h) (seen_ h + 1) (recorded_ h).
Proof.
  intros Hs. unfold LATENCY_SAMPLE_DROP in Hs. unfold record_sample. rewrite u64_id by ulia. cbv zeta. unfold LATENCY_SAMPLE_DROP.
  by rewrite (proj2 (Z.leb_le _ _)) by lia.
Qed.

(** Past the warm-up every sample is recorded. *)
Lemma record_samples_all samples h stage :
  LATENCY_SAMPLE_DROP <= seen_ h -> 0 <= recorded_ h <= seen_ h -> seen_ h + Z.of_nat (length samples) < 18446744073709551616 ->
  let h' := record_samples samples h in
  seen_ h' = seen_ h + Z.of_nat (length samples) /\ recorded_ h' = recorded_ h + Z.of_nat (length samples) /\
  histograms_ h' stage = fold_left hdr_record_value (stage_value stage <$> samples) (histograms_ h stage).
Proof.
  revert h. induction samples as [|s samples IH]; intros h Hs Hr Hmax; [cbn; split_and!; (done || lia)|]. cbn [length] in Hmax. cbv zeta in *.
  destruct (record_sample_recorded s h stage) as (E1 & E2 & E3); [lia..|].
  unfold record_samples. cbn [fold_left]. fold (record_samples samples (record_sample s h)).
  destruct (IH (record_sample s h)) as (F1 & F2 & F3); [lia..|]. rewrite F1, F2, F3, E1, E2, E3. cbn [length fmap list_fmap fold_left]. split_and!; (done || lia).
Qed.

(** The warm-up. *)
Lemma record_samples_warm samples h :
  0 <= seen_ h -> seen_ h + Z.of_nat (length samples) <= LATENCY_SAMPLE_DROP ->
  record_samples samples h = mkHandler (histograms_ h) (seen_ h + Z.of_nat (length samples)) (recorded_ h).
Proof.
  revert h. induction samples as [|s samples IH]; intros h H0 Hs; [cbn; rewrite Z.add_0_r; by destruct h|]. cbn [length] in Hs.
  unfold record_samples. cbn [fold_left]. fold (record_samples samples (record_sample s h)).
  rewrite record_sample_dropped by (unfold LATENCY_SAMPLE_DROP in *; lia). rewrite IH by (cbn [seen_]; lia). cbn [seen_ histograms_ recorded_ length]. f_equal. lia.
Qed.

(** C40: the latency report covers the whole run: of any samples handed to the handler,
    the first five are warm-up and every later one is recorded, once and in order, in the
    histogram of each stage with its own two counters; the counts are exact, and no value
    leaves the range the histograms track, however the counters of the cores disagree,
    as long as the difference in nanoseconds fits a signed 64-bit integer. *)
Theorem latency_covers_run h0 samples stage :
  Z.of_nat (length samples) < 18446744073709551616 ->
  let h := record_samples samples (LatencyHandler_new h0) in
  let kept := drop (Z.to_nat LATENCY_SAMPLE_DROP) samples in
  seen_ h = Z.of_nat (length samples) /\ recorded_ h = Z.of_nat (length kept) /\
  histograms_ h stage = fold_left hdr_record_value (stage_value stage <$> kept) h0 /\
  forall s, s ∈ samples -> ticks_to_ns clock_ (u64 ((stage_span stage s).2 - (stage_span stage s).1)) < 9223372036854775808 ->
    0 <= stage_value stage s <= kMaxTrackableNs.
Proof.
  intros Hmax. cbv zeta. change (Z.to_nat LATENCY_SAMPLE_DROP) with 5%nat. set (kept := drop 5 samples). set (first := take 5 samples).
  assert (first ++ kept = samples) as Hsplit by apply take_drop. assert (length first <= 5)%nat as Hf by (unfold first; rewrite length_take; lia).
  assert (record_samples first (LatencyHandler_new h0) = mkHandler (fun _ => h0) (Z.of_nat (length first)) 0) as Ewarm
    by (apply record_samples_warm; cbn [LatencyHandler_new seen_]; unfold LATENCY_SAMPLE_DROP; lia).
  assert (record_samples samples (LatencyHandler_new h0) = record_samples kept (mkHandler (fun _ => h0) (Z.of_nat (length first)) 0)) as E
    by (rewrite <- Ewarm, <- Hsplit at 1; unfold record_samples; by rewrite fold_left_app).
  assert (length samples = length first + length kept)%nat as Hlen by (by rewrite <- Hsplit, length_app).
  rewrite E. assert (forall A B C D : Prop, D -> A /\ B /\ C -> A /\ B /\ C /\ D) as Hconj by tauto.
  apply Hconj; [intros s _ Hs; by apply stage_ns_range|]. destruct (decide (kept = [])) as [Ek|Hne].
  - rewrite Ek in *. cbn in Hlen |- *. split_and!; (done || lia).
  - assert (length first = 5%nat) as H5. { unfold first, kept in *. rewrite length_take. destruct (decide (5 <= length samples)%nat); [lia|]. by rewrite drop_ge in Hne by lia. }
    destruct (record_samples_all kept (mkHandler (fun _ => h0) (Z.of_nat (length first)) 0) stage) as (F1 & F2 & F3);
      cbn [seen_ recorded_]; unfold LATENCY_SAMPLE_DROP; [lia..|]. rewrite F1, F2, F3. cbn [seen_ recorded_ histograms_]. split_and!; (done || lia).
Qed.
End Handler.

(** Histograms that keep every value. *)
Module Samples.
Definition ex_record (h : list Z) (v : Z) : list Z := h ++ [v].
Definition ex_clock : TscClock := mkClock 0 0 4294967296.
Definition ex_sample (n : Z) : LatencySample := mkSample (mkPending n (n + 1) (n + 3) (n + 6) (n + 10) (n + 15)) (n + 21) (n + 28).
Definition ex_samples : list LatencySample := ex_sample <$> [100; 200; 300; 400; 500; 600; 700].

Lemma latency_covers_run_witness :
  let h := record_samples ex_record ex_clock ex_samples (LatencyHandler_new []) in
  seen_ h = 7 /\ recorded_ h = 2 /\ histograms_ h kEndToEnd = [28; 28].
Proof.
  destruct (latency_covers_run ex_record ex_clock [] ex_samples kEndToEnd) as (H1 & H2 & H3 & _); [by vm_compute|].
  cbv zeta. rewrite H1, H2, H3. by vm_compute.
Defined.
End Samples.
